(** * moonlight-web-stream: video decode pipeline

    A shallow embedding of the client-side stream code (web/stream/...):
    the positional byte buffer, the ISO-BMFF box writers of the media-source
    fallback, the Annex-B to AVCC/HVCC stream translators, the media-source
    emitter, the hardware decoder pipe and the pipeline builder, together
    with the properties stated about them.

    Conventions.
    - A [Uint8Array] is a [list Z] of byte values; positions, lengths and
      indices are [nat].  A store of a JS number into a typed array wraps
      it (modulo 256, 2^16 or 2^32) and is written out where it happens.
    - A call that may raise returns a [result]: [Ok v] or [Throw msg].
    - JS numbers that may be fractional (timestamps, durations, the frame
      rate) live in a [JsNumber] structure with two instances: exact
      rationals, and IEEE binary64 ([PrimFloat]), the JS representation. *)

From Stdlib Require Import String Ascii ZArith QArith Qround Floats DecimalString.
From Stdlib Require Import List Sorted Lia Bool Arith.
Import ListNotations.

Close Scope Q_scope.
Close Scope float_scope.
Close Scope string_scope.
Open Scope nat_scope.
Open Scope list_scope.

Set Implicit Arguments.

(** ** Results of calls that may throw *)

Inductive result (A : Type) : Type :=
| Ok (a : A)
| Throw (msg : string).

Arguments Ok {A} a.
Arguments Throw {A} msg.

Definition bind {A B : Type} (r : result A) (k : A -> result B) : result B :=
  match r with
  | Ok a => k a
  | Throw m => Throw m
  end.

Notation "x <- r ;; k" := (bind r (fun x => k))
  (at level 61, r at next level, right associativity).
Notation "' p <- r ;; k" := (bind r (fun x => let p := x in k))
  (at level 61, p pattern, r at next level, right associativity).

Definition isOk {A : Type} (r : result A) : bool :=
  match r with Ok _ => true | Throw _ => false end.

(** ** Typed arrays *)

Definition bytes := list Z.

(** [new Uint8Array(n)]: zero filled. *)
Definition zeros (n : nat) : bytes := repeat 0%Z n.

(** [a.slice(b, e)] with [b <= e]; the end is clamped to the length. *)
Definition slice (a : bytes) (b e : nat) : bytes := firstn (e - b) (skipn b a).

(** The bytes of [dst] with [src] stored at [off]; used where the range was
    checked to fit ([TypedArray.set], [DataView.setUintN]). *)
Definition splice (dst : bytes) (off : nat) (src : bytes) : bytes :=
  firstn off dst ++ src ++ skipn (off + length src) dst.

(** [dst.set(src, off)]: a RangeError when [src] does not fit. *)
Definition set_at (dst : bytes) (off : nat) (src : bytes) : result bytes :=
  if length dst <? off + length src then Throw "RangeError: offset is out of bounds"%string
  else Ok (splice dst off src).

(** Byte images of unsigned integers; the value is wrapped first, as
    [DataView.setUint16] and [setUint32] do (ToUint16, ToUint32). *)
Definition u16be (x : Z) : bytes :=
  let v := (x mod 65536)%Z in [(v / 256)%Z; (v mod 256)%Z].

Definition u32be (x : Z) : bytes :=
  let v := (x mod 4294967296)%Z in
  [(v / 16777216)%Z; ((v / 65536) mod 256)%Z; ((v / 256) mod 256)%Z; (v mod 256)%Z].

Definition u16bytes (littleEndian : bool) (x : Z) : bytes :=
  if littleEndian then rev (u16be x) else u16be x.

Definition u32bytes (littleEndian : bool) (x : Z) : bytes :=
  if littleEndian then rev (u32be x) else u32be x.

(** Reading back a big-endian field. *)
Definition readU32be (a : bytes) (off : nat) : Z :=
  (nth off a 0 * 16777216 + nth (off + 1) a 0 * 65536
   + nth (off + 2) a 0 * 256 + nth (off + 3) a 0)%Z.

(** Truncation toward zero, the first step of ToUint32 on a fraction. *)
Definition Qtrunc (q : Q) : Z :=
  if Qle_bool 0 q then Qfloor q else Qceiling q.

(** The text of a box type or brand: one byte per character (the callers
    pass ASCII literals only, for which UTF-8 is the identity). *)
Definition utf8 (s : string) : bytes :=
  map (fun c => Z.of_nat (nat_of_ascii c)) (list_ascii_of_string s).

(** ** buffer.ts: ByteBuffer *)

Module ByteBuffer.

Record t : Type := mk {
  position : nat;
  limit : nat;
  littleEndian : bool;
  buffer : bytes
}.

(** [new ByteBuffer(length, littleEndian)] *)
Definition create (length : nat) (le : bool) : t :=
  mk 0 length le (zeros length).

(** [new ByteBuffer(array, littleEndian)] *)
Definition wrap (value : bytes) (le : bool) : t :=
  mk 0 (length value) le value.

Definition with_position (b : t) (p : nat) : t :=
  mk p (limit b) (littleEndian b) (buffer b).

Definition with_limit (b : t) (l : nat) : t :=
  mk (position b) l (littleEndian b) (buffer b).

Definition with_buffer (b : t) (a : bytes) : t :=
  mk (position b) (limit b) (littleEndian b) a.

Definition bytesUsed (amount : nat) (reading : bool) (b : t) : result t :=
  let b' := with_position b (position b + amount) in
  if reading && (limit b' <? position b') then Throw "failed to read over the limit"%string
  else Ok b'.

(** Returns the buffer after the bookkeeping and the byte offset of the
    [DataView] that the caller writes through. *)
Definition useDataView (len : nat) (reading : bool) (index : option nat) (b : t)
  : result (t * nat) :=
  let pos := match index with Some i => i | None => position b end in
  let maxPosition := pos + len in
  if length (buffer b) <? maxPosition then Throw "failed to write over the capacity"%string
  else
    let b1 := if limit b <? maxPosition then with_limit b maxPosition else b in
    b2 <- match index with
          | None => bytesUsed len reading b1
          | Some _ => Ok b1
          end ;;
    Ok (b2, pos).

(** A store through the view at byte offset [off]. *)
Definition store (b : t) (off : nat) (src : bytes) : t :=
  with_buffer b (splice (buffer b) off src).

Definition putU8Array (data : bytes) (index : option nat) (b : t) : result t :=
  (* [if (index)]: an index of 0 is falsy and leaves [this.position] *)
  let pos := match index with Some (S i) => S i | _ => position b end in
  let maxPosition := pos + length data in
  if length (buffer b) <? maxPosition then Throw "failed to write over the capacity"%string
  else
    let b1 := if limit b <? maxPosition then with_limit b maxPosition else b in
    let b2 := store b1 pos data in
    match index with
    | None => bytesUsed (length data) false b2
    | Some _ => Ok b2
    end.

Definition putU16Array (data : list Z) (index : option nat) (b : t) : result t :=
  let pos := match index with Some i => i | None => position b end in
  let maxPosition := pos + length data * 2 in
  if length (buffer b) <? maxPosition then Throw "failed to write over the capacity"%string
  else
    let b1 := store b pos (flat_map (u16bytes (littleEndian b)) data) in
    let b2 := if limit b1 <? maxPosition then with_limit b1 maxPosition else b1 in
    match index with
    | None => bytesUsed (length data * 2) false b2
    | Some _ => Ok b2
    end.

Definition putU32Array (data : list Z) (index : option nat) (b : t) : result t :=
  let pos := match index with Some i => i | None => position b end in
  let maxPosition := pos + length data * 4 in
  if length (buffer b) <? maxPosition then Throw "failed to write over the capacity"%string
  else
    let b1 := store b pos (flat_map (u32bytes (littleEndian b)) data) in
    let b2 := if limit b1 <? maxPosition then with_limit b1 maxPosition else b1 in
    match index with
    | None => bytesUsed (length data * 4) false b2
    | Some _ => Ok b2
    end.

Definition putU8 (data : Z) (index : option nat) (b : t) : result t :=
  '(b1, off) <- useDataView 1 false index b ;;
  Ok (store b1 off [(data mod 256)%Z]).

Definition putU16 (data : Z) (index : option nat) (b : t) : result t :=
  '(b1, off) <- useDataView 2 false index b ;;
  Ok (store b1 off (u16bytes (littleEndian b1) data)).

(** [setInt16] stores the two's complement image: the same bytes as
    [setUint16] of the wrapped value. *)
Definition putI16 (data : Z) (index : option nat) (b : t) : result t :=
  '(b1, off) <- useDataView 2 false index b ;;
  Ok (store b1 off (u16bytes (littleEndian b1) data)).

Definition putU32 (data : Z) (index : option nat) (b : t) : result t :=
  '(b1, off) <- useDataView 4 false index b ;;
  Ok (store b1 off (u32bytes (littleEndian b1) data)).

(** [view.setInt32(0, data)]: no endianness argument, so big-endian. *)
Definition putI32 (data : Z) (index : option nat) (b : t) : result t :=
  '(b1, off) <- useDataView 4 false index b ;;
  Ok (store b1 off (u32be data)).

(** [data] is a JS number, possibly fractional:
    [hi = Math.floor(data / 0x100000000)], [lo = data >>> 0]. *)
Definition putU64 (data : Q) (index : option nat) (b : t) : result t :=
  let hi := Qfloor (data / 4294967296)%Q in
  let lo := ((Qtrunc data) mod 4294967296)%Z in
  '(b1, off) <- useDataView 8 false index b ;;
  let b2 :=
    if littleEndian b1
    then store (store b1 off (u32bytes true lo)) (off + 4) (u32bytes true hi)
    else store (store b1 off (u32bytes false hi)) (off + 4) (u32bytes false lo) in
  bytesUsed 8 false b2.

(** [encodeInto] writes what fits into [buffer.subarray(position)]; the
    call throws after advancing when the text was cut. *)
Definition putUtf8Raw (text : string) (b : t) : result t :=
  let src := utf8 text in
  let avail := length (buffer b) - position b in
  let written := firstn avail src in
  let b1 := store b (position b) written in
  b2 <- bytesUsed (length written) false b1 ;;
  if length written =? length src then Ok b2 else Throw "failed to put utf8 text"%string.

(** [getUint8] on the whole array buffer raises a RangeError past its end. *)
Definition getU8 (b : t) : result (Z * t) :=
  match nth_error (buffer b) (position b) with
  | None => Throw "RangeError: offset is outside the bounds of the DataView"%string
  | Some byte =>
      b' <- bytesUsed 1 true b ;;
      Ok (byte, b')
  end.

Definition reset (b : t) : t := mk 0 0 (littleEndian b) (buffer b).

Definition flip (b : t) : t := mk 0 (position b) (littleEndian b) (buffer b).

Definition getPosition (b : t) : nat := position b.

Definition getRemainingBuffer (b : t) : bytes :=
  slice (buffer b) (position b) (limit b).

(** [putBool] and [putI8]: [setInt8] stores the two's complement image,
    the same byte as [setUint8] of the wrapped value. *)
Definition putBool (data : bool) (b : t) : result t :=
  putU8 (if data then 1 else 0) None b.

Definition putI8 (data : Z) (index : option nat) (b : t) : result t :=
  '(b1, off) <- useDataView 1 false index b ;;
  Ok (store b1 off [(data mod 256)%Z]).

(** [get(buffer, offset, length)]: [subarray] clamps its range to the
    array, [set] raises a RangeError when the source does not fit; the
    destination array is returned with the bytes copied. *)
Definition get (dst : bytes) (offset len : nat) (b : t) : result (bytes * t) :=
  dst' <- set_at dst offset (slice (buffer b) (position b) (position b + len)) ;;
  b' <- bytesUsed len true b ;;
  Ok (dst', b').

(** [getUint16(position)] and [getUint32(position)] are called without
    the endianness argument: they read big-endian whatever the buffer's
    flag is. *)
Definition getU16 (b : t) : result (Z * t) :=
  if length (buffer b) <? position b + 2
  then Throw "RangeError: offset is outside the bounds of the DataView"%string
  else
    let v := (nth (position b) (buffer b) 0 * 256
              + nth (position b + 1) (buffer b) 0)%Z in
    b' <- bytesUsed 2 true b ;;
    Ok (v, b').

Definition getU32 (b : t) : result (Z * t) :=
  if length (buffer b) <? position b + 4
  then Throw "RangeError: offset is outside the bounds of the DataView"%string
  else
    let v := readU32be (buffer b) (position b) in
    b' <- bytesUsed 4 true b ;;
    Ok (v, b').

Definition getBool (b : t) : result (bool * t) :=
  '(v, b') <- getU8 b ;;
  Ok (negb (v =? 0)%Z, b').

Definition isLittleEndian (b : t) : bool := littleEndian b.

End ByteBuffer.

(** [h264NalType] of annex_b_translator.ts, shared with the box writers. *)
Definition h264NalType (header : Z) : Z := Z.land header 31.

(** ** Template literals

    [`${n}`] for an integer [n]: its decimal digits, behind a minus sign
    when it is negative. *)

Definition numberToString (n : Z) : string := NilZero.string_of_int (Z.to_int n).

(** ** media_source_decoder.ts: ISO-BMFF box writers

    Every writer receives the same [ByteBuffer] object and mutates it; the
    buffer is threaded by a state-and-exception monad.  A closure that
    assigns a captured variable returns the assigned value instead. *)

Module Mp4.

Definition W (A : Type) : Type := ByteBuffer.t -> result (A * ByteBuffer.t).

Definition ret {A : Type} (a : A) : W A := fun b => Ok (a, b).

Definition seq {A B : Type} (c : W A) (k : A -> W B) : W B :=
  fun b => match c b with
           | Ok (a, b') => k a b'
           | Throw m => Throw m
           end.

Definition throw {A : Type} (msg : string) : W A := fun _ => Throw msg.

(** A [ByteBuffer] method call on the shared buffer. *)
Definition call (f : ByteBuffer.t -> result ByteBuffer.t) : W unit :=
  fun b => match f b with
           | Ok b' => Ok (tt, b')
           | Throw m => Throw m
           end.

Definition getPosition : W nat := fun b => Ok (ByteBuffer.getPosition b, b).

Declare Scope writer_scope.
Delimit Scope writer_scope with W.
Notation "x <~ c ;; k" := (seq c (fun x => k))
  (at level 61, c at next level, right associativity) : writer_scope.
Notation "c ;;; k" := (seq c (fun _ => k))
  (at level 61, right associativity) : writer_scope.
Local Open Scope writer_scope.
Local Open Scope Z_scope.

Definition putU8 (v : Z) : W unit := call (ByteBuffer.putU8 v None).
Definition putU16 (v : Z) : W unit := call (ByteBuffer.putU16 v None).
Definition putI16 (v : Z) : W unit := call (ByteBuffer.putI16 v None).
Definition putU32 (v : Z) : W unit := call (ByteBuffer.putU32 v None).
Definition putI32 (v : Z) : W unit := call (ByteBuffer.putI32 v None).
Definition putU64 (v : Q) : W unit := call (ByteBuffer.putU64 v None).
Definition putU8Array (a : bytes) : W unit := call (ByteBuffer.putU8Array a None).
Definition putU16Array (a : list Z) : W unit := call (ByteBuffer.putU16Array a None).
Definition putU32Array (a : list Z) : W unit := call (ByteBuffer.putU32Array a None).
Definition putUtf8Raw (s : string) : W unit := call (ByteBuffer.putUtf8Raw s).

(** [for (const e of entries) body(e)] *)
Fixpoint forEach {A : Type} (entries : list A) (body : A -> W unit) : W unit :=
  match entries with
  | [] => ret tt
  | e :: rest => body e ;;; forEach rest body
  end.

Definition putBox {A : Type} (type : string) (write : W A) : W A :=
  payloadLenPosition <~ getPosition ;;
  putU32 0 ;;;
  if negb (String.length type =? 4)%nat then throw "invalid box type length!"
  else
    putUtf8Raw type ;;;
    a <~ write ;;
    endPosition <~ getPosition ;;
    call (ByteBuffer.putU32 (Z.of_nat endPosition - Z.of_nat payloadLenPosition)
                            (Some payloadLenPosition)) ;;;
    ret a.

Definition putFullBox {A : Type} (type : string) (version flags : Z) (write : W A) : W A :=
  if (version <? 0) || (255 <? version) then throw "FullBox version must be 0-255"
  else if (flags <? 0) || (16777215 <? flags) then throw "FullBox flags must be 0-0xFFFFFF"
  else
    putBox type
      (putU8 version ;;;
       putU8 (Z.land (Z.shiftr flags 16) 255) ;;;
       putU8 (Z.land (Z.shiftr flags 8) 255) ;;;
       putU8 (Z.land flags 255) ;;;
       write).

Definition putMoovBox {A : Type} (writeBoxes : W A) : W A := putBox "moov" writeBoxes.
Definition putTrakBox {A : Type} (writeBoxes : W A) : W A := putBox "trak" writeBoxes.
Definition putMdiaBox {A : Type} (writeBoxes : W A) : W A := putBox "mdia" writeBoxes.
Definition putMinfBox {A : Type} (writeBoxes : W A) : W A := putBox "minf" writeBoxes.
Definition putDinfBox {A : Type} (writeBoxes : W A) : W A := putBox "dinf" writeBoxes.
Definition putStblBox {A : Type} (writeBoxes : W A) : W A := putBox "stbl" writeBoxes.
Definition putMvexBox {A : Type} (writeBoxes : W A) : W A := putBox "mvex" writeBoxes.
Definition putTrafBox {A : Type} (writeBoxes : W A) : W A := putBox "traf" writeBoxes.
Definition putMoofBox {A : Type} (writeBoxes : W A) : W A := putBox "moof" writeBoxes.

Definition putTkhdBox (version flags creation_time modification_time track_ID
    reserved1 duration : Z) (reserved2 : list Z)
    (layer alternate_group volume reserved3 : Z) (matrix : list Z)
    (width height : Z) : W unit :=
  putFullBox "tkhd" version flags
    ((if version =? 1 then
        putU64 (inject_Z creation_time) ;;;
        putU64 (inject_Z modification_time) ;;;
        putU32 track_ID ;;;
        putU32 reserved1 ;;;
        putU64 (inject_Z duration)
      else
        putU32 creation_time ;;;
        putU32 modification_time ;;;
        putU32 track_ID ;;;
        putU32 reserved1 ;;;
        putU32 duration) ;;;
     if negb (length reserved2 =? 2)%nat then throw "invalid reserved2 length"
     else
       putU32Array reserved2 ;;;
       putU16 layer ;;;
       putU16 alternate_group ;;;
       putU16 volume ;;;
       putU16 reserved3 ;;;
       if negb (length matrix =? 9)%nat then throw "invalid matrix length"
       else
         putU32Array matrix ;;;
         putU32 (Z.shiftl width 16) ;;;
         putU32 (Z.shiftl height 16)).

(** [/^[a-z]{3}$/.test(language)] *)
Definition isLanguage (language : string) : bool :=
  (String.length language =? 3)%nat
  && forallb (fun c => let n := nat_of_ascii c in (97 <=? n)%nat && (n <=? 122)%nat)
       (list_ascii_of_string language).

Definition charCodeAt (s : string) (i : nat) : Z :=
  match String.get i s with
  | Some c => Z.of_nat (nat_of_ascii c)
  | None => 0
  end.

Definition putMdhdBox (version creation_time modification_time timescale duration : Z)
    (pad : bool) (language : string) (pre_defined : Z) : W unit :=
  putFullBox "mdhd" version 0
    ((if version =? 1 then
        putU64 (inject_Z creation_time) ;;;
        putU64 (inject_Z modification_time) ;;;
        putU32 timescale ;;;
        putU64 (inject_Z duration)
      else
        putU32 creation_time ;;;
        putU32 modification_time ;;;
        putU32 timescale ;;;
        putU32 duration) ;;;
     if negb (isLanguage language)
     then throw "invalid language (must be 3 lowercase ISO-639 letters)"
     else
       let languageBits :=
         Z.lor (Z.lor (Z.lor (Z.shiftl (if pad then 1 else 0) 15)
                             (Z.shiftl (charCodeAt language 0 - 96) 10))
                      (Z.shiftl (charCodeAt language 1 - 96) 5))
               (charCodeAt language 2 - 96) in
       putU16 languageBits ;;;
       putU16 pre_defined).

Definition putHdlrBox (handler_type : string) (reserved : list Z) (name : string) : W unit :=
  putFullBox "hdlr" 0 0
    (putU32 0 ;;;
     if negb (String.length handler_type =? 4)%nat then throw "invalid handler_type length"
     else
       putUtf8Raw handler_type ;;;
       if negb (length reserved =? 3)%nat then throw "invalid reserved length"
       else
         putU32Array reserved ;;;
         putUtf8Raw name ;;;
         putU8 0).

Definition putVmhdBox (graphicsmode : Z) (opcolor : list Z) : W unit :=
  putFullBox "vmhd" 0 1
    (putU16 graphicsmode ;;;
     if negb (length opcolor =? 3)%nat then throw "invalid opcolor length"
     else putU16Array opcolor).

Definition putDrefBox {A : Type} (entry_count : Z) (writeBoxes : W A) : W A :=
  putFullBox "dref" 0 0 (putU32 entry_count ;;; writeBoxes).

Definition putUrlBox : W unit := putFullBox "url " 0 1 (ret tt).

Definition putStsdBox {A : Type} (entry_count : Z) (writeBoxes : W A) : W A :=
  putFullBox "stsd" 0 0 (putU32 entry_count ;;; writeBoxes).

Definition putAvc1Box {A : Type} (reserved : list Z)
    (data_reference_index pre_defined reserved2 : Z) (pre_defined2 : list Z)
    (width height horizresolution vertresolution reserved3 frame_count : Z)
    (compressorname : list Z) (depth pre_defined3 : Z) (writeBoxes : W A) : W A :=
  putBox "avc1"
    (if negb (length reserved =? 6)%nat then throw "invalid reserved length"
     else
       putU8Array (map (fun v => v mod 256) reserved) ;;;
       putU16 data_reference_index ;;;
       putU16 pre_defined ;;;
       putU16 reserved2 ;;;
       if negb (length pre_defined2 =? 3)%nat then throw "invalid pre_defined2 length"
       else
         putU32Array pre_defined2 ;;;
         putU16 width ;;;
         putU16 height ;;;
         putU32 horizresolution ;;;
         putU32 vertresolution ;;;
         putU32 reserved3 ;;;
         putU16 frame_count ;;;
         if negb (length compressorname =? 32)%nat then throw "invalid compressorname length"
         else
           putU8Array (map (fun v => v mod 256) compressorname) ;;;
           putU16 depth ;;;
           putI16 pre_defined3 ;;;
           writeBoxes).

Definition putAvcCBox (avcC : bytes) : W unit := putBox "avcC" (putU8Array avcC).

Record SttsEntry : Type := { sample_count : Z; sample_delta : Z }.

Definition putSttsBox (entries : list SttsEntry) : W unit :=
  putFullBox "stts" 0 0
    (putU32 (Z.of_nat (length entries)) ;;;
     forEach entries (fun e => putU32 (sample_count e) ;;; putU32 (sample_delta e))).

Record StscEntry : Type := {
  first_chunk : Z;
  samples_per_chunk : Z;
  sample_description_index : Z
}.

Definition putStscBox (entries : list StscEntry) : W unit :=
  putFullBox "stsc" 0 0
    (putU32 (Z.of_nat (length entries)) ;;;
     forEach entries (fun e =>
       putU32 (first_chunk e) ;;;
       putU32 (samples_per_chunk e) ;;;
       putU32 (sample_description_index e))).

Definition putStszBox (sample_size sample_count : Z) : W unit :=
  putFullBox "stsz" 0 0 (putU32 sample_size ;;; putU32 sample_count).

Definition putStco (chunk_offsets : list Z) : W unit :=
  putFullBox "stco" 0 0
    (putU32 (Z.of_nat (length chunk_offsets)) ;;;
     forEach chunk_offsets (fun offset => putU32 offset)).

Definition putMvhdBox (version creation_time modification_time timescale duration
    rate volume reserved1 : Z) (reserved2 matrix pre_defined : list Z)
    (next_track_ID : Z) : W unit :=
  putFullBox "mvhd" version 0
    ((if version =? 0 then
        putU32 creation_time ;;;
        putU32 modification_time ;;;
        putU32 timescale ;;;
        putU32 duration
      else if version =? 1 then
        putU64 (inject_Z creation_time) ;;;
        putU64 (inject_Z modification_time) ;;;
        putU32 timescale ;;;
        putU64 (inject_Z duration)
      else throw ("invalid mvhd version " ++ numberToString version)%string) ;;;
     putI32 rate ;;;
     putI16 volume ;;;
     putI16 reserved1 ;;;
     if negb (length reserved2 =? 2)%nat then throw "invalid reserved2 length"
     else
       putU32Array reserved2 ;;;
       if negb (length matrix =? 9)%nat then throw "invalid matrix length"
       else
         putU32Array matrix ;;;
         if negb (length pre_defined =? 6)%nat then throw "invalid pre_defined length"
         else
           putU32Array pre_defined ;;;
           putU32 next_track_ID).

Definition putTrexBox (track_ID default_sample_description_index
    default_sample_duration default_sample_size default_sample_flags : Z) : W unit :=
  putFullBox "trex" 0 0
    (putU32 track_ID ;;;
     putU32 default_sample_description_index ;;;
     putU32 default_sample_duration ;;;
     putU32 default_sample_size ;;;
     putU32 default_sample_flags).

Definition putFTypeBox (major_brand : string) (minor_version : Z)
    (compatible_brands : list string) : W unit :=
  putBox "ftyp"
    (putUtf8Raw major_brand ;;;
     putU32 minor_version ;;;
     forEach compatible_brands (fun brand =>
       if negb (String.length brand =? 4)%nat then throw "invalid brand length!"
       else putUtf8Raw brand)).

Definition putMfhdBox (sequenceNumber : Z) : W unit :=
  putFullBox "mfhd" 0 0 (putU32 sequenceNumber).

Definition putTfhdBox (trackId : Z) : W unit :=
  putFullBox "tfhd" 0 131072 (putU32 trackId).

Definition putTfdtBox (version : Z) (baseDecodeTime : Q) : W unit :=
  putFullBox "tfdt" version 0
    (if version =? 1 then putU64 baseDecodeTime
     else if version =? 0 then putU32 (Qtrunc baseDecodeTime)
     else throw ("invalid version for tfdt " ++ numberToString version)%string).

(** Returns [info.dataOffsetPosition]. *)
Definition putTrunBox (frameDuration : Q) (frameSize : nat)
    (isKeyframe isFirstSample : bool) : W nat :=
  let trunFlags :=
    Z.lor (Z.lor (Z.lor 1 256) 512) (if isFirstSample then 4 else 1024) in
  let sampleFlags := if isKeyframe then 33554432 else 16842752 in
  putFullBox "trun" 0 trunFlags
    (putU32 1 ;;;
     dataOffsetPosition <~ getPosition ;;
     putI32 0 ;;;
     (if isFirstSample then putU32 sampleFlags else ret tt) ;;;
     putU32 (Qtrunc frameDuration) ;;;
     putU32 (Z.of_nat frameSize) ;;;
     (if negb isFirstSample then putU32 sampleFlags else ret tt) ;;;
     ret dataOffsetPosition).

Definition putMdatBox (frame : bytes) : W unit := putBox "mdat" (putU8Array frame).

Definition MATRIX : list Z := [65536; 0; 0; 0; 65536; 0; 0; 0; 1073741824].

Definition putVideoInitSegment (timescale trackId width height : Z) (avcC : bytes)
  : W unit :=
  putFTypeBox "isom" 512 ["isom"%string; "iso6"%string; "avc1"%string; "mp41"%string] ;;;
  putMoovBox
    (putMvhdBox 0 0 0 timescale 0 65536 256 0 [0; 0] MATRIX [0; 0; 0; 0; 0; 0]
       (trackId + 1) ;;;
     putTrakBox
       (putTkhdBox 0 3 0 0 trackId 0 0 [0; 0] 0 0 0 0 MATRIX width height ;;;
        putMdiaBox
          (putMdhdBox 0 0 0 timescale 0 false "und" 0 ;;;
           putHdlrBox "vide" [0; 0; 0] "VideoHandler" ;;;
           putMinfBox
             (putVmhdBox 0 [0; 0; 0] ;;;
              putDinfBox (putDrefBox 1 putUrlBox) ;;;
              putStblBox
                (putStsdBox 1
                   (putAvc1Box [0; 0; 0; 0; 0; 0] 1 0 0 [0; 0; 0] width height
                      4718592 4718592 0 1 (repeat 0 32) 24 (-1)
                      (putAvcCBox avcC)) ;;;
                 putSttsBox [] ;;;
                 putStscBox [] ;;;
                 putStszBox 0 0 ;;;
                 putStco [])))) ;;;
     putMvexBox (putTrexBox trackId 1 0 0 0)).

(** [frame[4]] is [undefined] on a short frame, and [undefined & 0x1f] is 0. *)
Definition putVideoFrameSegment (trackId sequenceNumber : Z)
    (baseDecodeTime frameDuration : Q) (isKeyframe : bool) (frame : bytes) : W unit :=
  if isKeyframe && negb (h264NalType (nth 4 frame 0) =? 5)
  then throw "tried to submit non idr as a keyframe"
  else
    moofPosition <~ getPosition ;;
    dataOffsetPosition <~
      putMoofBox
        (putMfhdBox sequenceNumber ;;;
         putTrafBox
           (putTfhdBox trackId ;;;
            putTfdtBox 1 baseDecodeTime ;;;
            putTrunBox frameDuration (length frame) isKeyframe (sequenceNumber =? 1))) ;;
    dataStart <~ getPosition ;;
    call (ByteBuffer.putI32 (Z.of_nat dataStart - Z.of_nat moofPosition + 8)
                            (Some dataOffsetPosition)) ;;;
    putMdatBox frame.

End Mp4.

(** ** util.ts: numToHex *)

Definition hexDigit (d : Z) : ascii :=
  match d with
  | 0%Z => "0" | 1%Z => "1" | 2%Z => "2" | 3%Z => "3"
  | 4%Z => "4" | 5%Z => "5" | 6%Z => "6" | 7%Z => "7"
  | 8%Z => "8" | 9%Z => "9" | 10%Z => "a" | 11%Z => "b"
  | 12%Z => "c" | 13%Z => "d" | 14%Z => "e" | _ => "f"
  end%char.

Fixpoint toHexDigits (fuel : nat) (n : Z) (acc : string) : string :=
  match fuel with
  | O => acc
  | S fuel' =>
      let acc' := String (hexDigit (n mod 16)) acc in
      if (n / 16 =? 0)%Z then acc' else toHexDigits fuel' (n / 16)%Z acc'
  end.

(** [n.toString(16)] for an integer: lower-case digits, no leading zero
    (a number below 2^k has at most k digits), behind a minus sign when
    the number is negative. *)
Definition toString16 (n : Z) : string :=
  if (n <? 0)%Z
  then String "-" (toHexDigits (S (Z.to_nat (Z.log2 (- n)))) (- n) EmptyString)
  else toHexDigits (S (Z.to_nat (Z.log2 n))) n EmptyString.

Definition numToHex (n : Z) : string :=
  let hex := toString16 n in
  if String.length hex =? 1 then String "0" hex else hex.

(** ** annex_b_translator.ts *)

Module Translator.

Inductive UnitType : Type := key | delta.

Definition isKey (t : UnitType) : bool :=
  match t with key => true | delta => false end.

(** [VideoDecodeUnit]; [num] is the type of JS numbers. *)
Record VideoDecodeUnit (num : Type) : Type := {
  type : UnitType;
  data : bytes;
  timestampMicroseconds : num;
  durationMicroseconds : num
}.

(** [VideoDecoderConfig]: the fields the translators touch. *)
Record VideoDecoderConfig : Type := {
  codec : string;
  description : option bytes
}.

Definition START_CODE_SHORT : bytes := [0; 0; 1]%Z.
Definition START_CODE_LONG : bytes := [0; 0; 0; 1]%Z.

(** [buffer[position + i]] is [undefined] past the end, which differs from
    every byte of [check]. *)
Fixpoint startsWith (buffer : bytes) (position : nat) (check : bytes) : bool :=
  match check with
  | [] => true
  | c :: rest =>
      match nth_error buffer position with
      | Some b => if (b =? c)%Z then startsWith buffer (S position) rest else false
      | None => false
      end
  end.

(** The fields of [CodecStreamTranslator] and, in [codecState], those of
    the subclass. *)
Record State (S : Type) : Type := {
  decoderConfig : option VideoDecoderConfig;
  currentFrame : bytes;
  codecState : S
}.

Definition with_config {S : Type} (st : State S) (c : option VideoDecoderConfig) : State S :=
  {| decoderConfig := c; currentFrame := currentFrame st; codecState := codecState st |}.

Definition with_frame {S : Type} (st : State S) (f : bytes) : State S :=
  {| decoderConfig := decoderConfig st; currentFrame := f; codecState := codecState st |}.

Definition with_codec {S : Type} (st : State S) (s : S) : State S :=
  {| decoderConfig := decoderConfig st; currentFrame := currentFrame st; codecState := s |}.

(** The abstract methods of [CodecStreamTranslator]. *)
Class Codec (S : Type) : Type := {
  initial : S;
  startProcessChunk : UnitType -> State S -> bool;
  onChunkUnit : bytes -> State S -> result (bool * State S);
  endChunk : State S -> result (bool * State S)
}.

(** [new XStreamVideoTranslator()] *)
Definition create {S : Type} `{Codec S} : State S :=
  {| decoderConfig := Some {| codec := "undefined"; description := None |};
     currentFrame := zeros 1000;
     codecState := initial |}.

Definition setBaseConfig {S : Type} (decoderConfig : VideoDecoderConfig) (st : State S)
  : State S :=
  with_config st (Some decoderConfig).

Definition checkFrameBufferSize {S : Type} (currentSize requiredExtra : nat) (st : State S)
  : State S :=
  if length (currentFrame st) <? currentSize + requiredExtra then
    let newFrame := zeros ((currentSize + requiredExtra) * 2) in
    with_frame st (splice newFrame 0 (currentFrame st))
  else st.

(** The local variables of [submitDecodeUnit] together with [this]. *)
Record Scan (S : Type) : Type := {
  unitBegin : nat;
  currentPosition : nat;
  currentFrameSize : nat;
  self : State S
}.

(** What [submitDecodeUnit] returns when [error] is false. *)
Record Output : Type := {
  configure : option VideoDecoderConfig;
  chunk : option bytes
}.

Section Submit.

Context {S : Type} `{Codec S}.

Definition handleStartCode (data : bytes) (sc : Scan S) : result (Scan S) :=
  let sl := slice data (unitBegin sc) (currentPosition sc) in
  '(include, st) <- onChunkUnit sl (self sc) ;;
  if include : bool then
    let st1 := checkFrameBufferSize (currentFrameSize sc) (length sl + 4) st in
    sizeBuffer <- ByteBuffer.putU32 (Z.of_nat (length sl)) None (ByteBuffer.create 4 false) ;;
    let sizeBytes := ByteBuffer.getRemainingBuffer (ByteBuffer.flip sizeBuffer) in
    frame1 <- set_at (currentFrame st1) (currentFrameSize sc) sizeBytes ;;
    frame2 <- set_at frame1 (currentFrameSize sc + 4) sl ;;
    Ok {| unitBegin := unitBegin sc;
          currentPosition := currentPosition sc;
          currentFrameSize := currentFrameSize sc + (length sl + 4);
          self := with_frame st1 frame2 |}
  else
    Ok {| unitBegin := unitBegin sc;
          currentPosition := currentPosition sc;
          currentFrameSize := currentFrameSize sc;
          self := st |}.

Definition advance (sc : Scan S) (n : nat) (newUnit : bool) : Scan S :=
  {| unitBegin := if newUnit then currentPosition sc + n else unitBegin sc;
     currentPosition := currentPosition sc + n;
     currentFrameSize := currentFrameSize sc;
     self := self sc |}.

(** [while (currentPosition < data.length)]: every round advances the
    position, so [length data] rounds of [fuel] are enough. *)
Fixpoint scanLoop (fuel : nat) (data : bytes) (sc : Scan S) : result (Scan S) :=
  if currentPosition sc <? length data then
    match fuel with
    | O => Throw "scanLoop: out of fuel"
    | Datatypes.S fuel' =>
        let startCodeLength :=
          if startsWith data (currentPosition sc) START_CODE_LONG
          then Some (length START_CODE_LONG)
          else if startsWith data (currentPosition sc) START_CODE_SHORT
          then Some (length START_CODE_SHORT)
          else None in
        match startCodeLength with
        | Some n =>
            sc1 <- (if negb (currentPosition sc =? 0) then handleStartCode data sc
                    else Ok sc) ;;
            scanLoop fuel' data (advance sc1 n true)
        | None => scanLoop fuel' data (advance sc 1 false)
        end
    end
  else Ok sc.

(** [None] is the [{ error: true }] result. *)
Definition submitDecodeUnit {num : Type} (unit : VideoDecodeUnit num) (st : State S)
  : result (option Output * State S) :=
  match decoderConfig st with
  | None => Ok (None, st)
  | Some _ =>
      if negb (startProcessChunk (type unit) st)
      then Ok (Some {| configure := None; chunk := None |}, st)
      else
        let data := data unit in
        sc <- scanLoop (length data) data
                {| unitBegin := 0; currentPosition := 0; currentFrameSize := 0; self := st |} ;;
        sc <- handleStartCode data sc ;;
        '(reconfigure, st') <- endChunk (self sc) ;;
        let chunk := slice (currentFrame st') 0 (currentFrameSize sc) in
        Ok (Some {| configure := if reconfigure : bool then decoderConfig st' else None;
                    chunk := Some chunk |}, st')
  end.

End Submit.

(** *** H.264 *)

Record H264Sps : Type := {
  profileIdc : Z;
  constraintFlags : Z;
  levelIdc : Z;
  avc1 : string
}.

Definition h264ParseSps (sps : ByteBuffer.t) : result H264Sps :=
  '(nalHeader, sps) <- ByteBuffer.getU8 sps ;;
  let nalType := Z.land nalHeader 31 in
  if negb (nalType =? 7)%Z then Throw "Buffer does not start with an SPS NAL unit"
  else
    '(profileIdc, sps) <- ByteBuffer.getU8 sps ;;
    '(constraintFlags, sps) <- ByteBuffer.getU8 sps ;;
    '(levelIdc, sps) <- ByteBuffer.getU8 sps ;;
    let profileHex := numToHex profileIdc in
    let constraintHex := numToHex constraintFlags in
    let levelHex := numToHex levelIdc in
    Ok {| profileIdc := profileIdc;
          constraintFlags := constraintFlags;
          levelIdc := levelIdc;
          avc1 := ("avc1." ++ profileHex ++ constraintHex ++ levelHex)%string |}.

(** [data[i++] = v] on a [Uint8Array]: a cursor over the array; a store
    past the end is ignored.  [v] is a byte value. *)
Definition poke (v : Z) (c : bytes * nat) : bytes * nat :=
  let '(data, i) := c in
  ((if i <? length data then splice data i [v] else data), Datatypes.S i).

(** [data.set(src, i); i += src.length] *)
Definition pokeAll (src : bytes) (c : bytes * nat) : result (bytes * nat) :=
  let '(data, i) := c in
  data' <- set_at data i src ;;
  Ok (data', i + length src).

(** [sps[k]] is [undefined] on a short array and is then stored as 0;
    [len >> 8] is wrapped to a byte by the store. *)
Definition h264MakeAvcC (sps pps : bytes) : result bytes :=
  let size := 7 + 2 + length sps + 1 + 2 + length pps in
  let c := (zeros size, 0) in
  let c := poke 1 c in
  let c := poke (nth 1 sps 0%Z) c in
  let c := poke (nth 2 sps 0%Z) c in
  let c := poke (nth 3 sps 0%Z) c in
  let c := poke 255 c in
  let c := poke 225 c in
  let c := poke (Z.shiftr (Z.of_nat (length sps)) 8 mod 256) c in
  let c := poke (Z.land (Z.of_nat (length sps)) 255) c in
  c <- pokeAll sps c ;;
  let c := poke 1 c in
  let c := poke (Z.shiftr (Z.of_nat (length pps)) 8 mod 256) c in
  let c := poke (Z.land (Z.of_nat (length pps)) 255) c in
  c <- pokeAll pps c ;;
  Ok (fst c).

Record H264 : Type := {
  h264_hasDescription : bool;
  h264_pps : option bytes;
  h264_sps : option bytes
}.

Definition h264_onChunkUnit (sl : bytes) (st : State H264) : result (bool * State H264) :=
  let nalType := h264NalType (nth 0 sl 0%Z) in
  let s := codecState st in
  if (nalType =? 7)%Z then
    let st1 := with_codec st {| h264_hasDescription := h264_hasDescription s;
                                h264_pps := h264_pps s;
                                h264_sps := Some sl |} in
    sps <- h264ParseSps (ByteBuffer.wrap sl false) ;;
    let st2 :=
      match decoderConfig st1 with
      | Some c => with_config st1 (Some {| codec := avc1 sps; description := description c |})
      | None => st1
      end in
    Ok (false, st2)
  else if (nalType =? 8)%Z then
    Ok (false, with_codec st {| h264_hasDescription := h264_hasDescription s;
                                h264_pps := Some sl;
                                h264_sps := h264_sps s |})
  else Ok (true, st).

Definition h264_endChunk (st : State H264) : result (bool * State H264) :=
  match decoderConfig st with
  | None => Throw "UNREACHABLE"
  | Some c =>
      let s := codecState st in
      match h264_pps s, h264_sps s with
      | Some pps, Some sps =>
          description <- h264MakeAvcC sps pps ;;
          Ok (true,
              {| decoderConfig := Some {| codec := codec c; description := Some description |};
                 currentFrame := currentFrame st;
                 codecState := {| h264_hasDescription := true;
                                  h264_pps := None;
                                  h264_sps := None |} |})
      | _, _ => Ok (false, st)
      end
  end.

#[export] Instance H264StreamVideoTranslator : Codec H264 := {
  initial := {| h264_hasDescription := false; h264_pps := None; h264_sps := None |};
  startProcessChunk := fun t st => isKey t || h264_hasDescription (codecState st);
  onChunkUnit := h264_onChunkUnit;
  endChunk := h264_endChunk
}.

(** *** H.265 *)

Definition h265NalType (header : Z) : Z := Z.land (Z.shiftr header 1) 63.

Definition h265MakeHvcC (vps sps pps : bytes) : result bytes :=
  let size := 23 + 3 * 3 + (2 + length vps) + (2 + length sps) + (2 + length pps) in
  let c := (zeros size, 0) in
  let c := poke 1 c in
  let c := poke (Z.land (Z.shiftr (nth 1 sps 0%Z) 1) 63) c in
  let c := poke 0 (poke 0 (poke 0 (poke 0 c))) in
  let c := poke 0 (poke 0 (poke 0 (poke 0 (poke 0 (poke 0 c))))) in
  let c := poke (nth 12 sps 0%Z) c in
  let c := poke 0 (poke 240 c) in
  let c := poke 252 c in
  let c := poke 253 c in
  let c := poke 248 c in
  let c := poke 248 c in
  let c := poke 0 (poke 0 c) in
  let c := poke 15 c in
  let c := poke 3 c in
  let c := poke 1 (poke 0 (poke 32 c)) in
  let c := poke (Z.shiftr (Z.of_nat (length vps)) 8 mod 256) c in
  let c := poke (Z.land (Z.of_nat (length vps)) 255) c in
  c <- pokeAll vps c ;;
  let c := poke 1 (poke 0 (poke 33 c)) in
  let c := poke (Z.shiftr (Z.of_nat (length sps)) 8 mod 256) c in
  let c := poke (Z.land (Z.of_nat (length sps)) 255) c in
  c <- pokeAll sps c ;;
  let c := poke 1 (poke 0 (poke 34 c)) in
  let c := poke (Z.shiftr (Z.of_nat (length pps)) 8 mod 256) c in
  let c := poke (Z.land (Z.of_nat (length pps)) 255) c in
  c <- pokeAll pps c ;;
  Ok (fst c).

Record H265 : Type := {
  h265_hasDescription : bool;
  h265_vps : option bytes;
  h265_sps : option bytes;
  h265_pps : option bytes
}.

Definition h265_onChunkUnit (sl : bytes) (st : State H265) : result (bool * State H265) :=
  let nalType := h265NalType (nth 0 sl 0%Z) in
  let s := codecState st in
  if (nalType =? 32)%Z then
    Ok (false, with_codec st {| h265_hasDescription := h265_hasDescription s;
                                h265_vps := Some sl;
                                h265_sps := h265_sps s;
                                h265_pps := h265_pps s |})
  else if (nalType =? 33)%Z then
    Ok (false, with_codec st {| h265_hasDescription := h265_hasDescription s;
                                h265_vps := h265_vps s;
                                h265_sps := Some sl;
                                h265_pps := h265_pps s |})
  else if (nalType =? 34)%Z then
    Ok (false, with_codec st {| h265_hasDescription := h265_hasDescription s;
                                h265_vps := h265_vps s;
                                h265_sps := h265_sps s;
                                h265_pps := Some sl |})
  else Ok (true, st).

Definition h265_endChunk (st : State H265) : result (bool * State H265) :=
  match decoderConfig st with
  | None => Throw "UNREACHABLE"
  | Some c =>
      let s := codecState st in
      match h265_vps s, h265_sps s, h265_pps s with
      | Some vps, Some sps, Some pps =>
          description <- h265MakeHvcC vps sps pps ;;
          Ok (true,
              {| decoderConfig := Some {| codec := codec c; description := Some description |};
                 currentFrame := currentFrame st;
                 codecState := {| h265_hasDescription := true;
                                  h265_vps := None;
                                  h265_sps := None;
                                  h265_pps := None |} |})
      | _, _, _ => Ok (false, st)
      end
  end.

#[export] Instance H265StreamVideoTranslator : Codec H265 := {
  initial := {| h265_hasDescription := false; h265_vps := None;
                h265_sps := None; h265_pps := None |};
  startProcessChunk := fun t st => isKey t || h265_hasDescription (codecState st);
  onChunkUnit := h265_onChunkUnit;
  endChunk := h265_endChunk
}.

End Translator.

(** ** JS numbers

    The arithmetic the pipes do on timestamps, durations and the frame
    rate.  [toQ] is the exact value of a finite number (0 for NaN and the
    infinities, which is also what ToUint32 makes of them). *)

Class JsNumber (num : Type) : Type := {
  ofZ : Z -> num;
  add : num -> num -> num;
  sub : num -> num -> num;
  mul : num -> num -> num;
  div : num -> num -> num;
  leb : num -> num -> bool;
  ltb : num -> num -> bool;
  toQ : num -> Q
}.

(** Exact rationals: JS arithmetic without rounding (and without the
    infinities: a division by zero is 0 here, so the divisor must not be). *)
#[export] Instance QNumber : JsNumber Q := {
  ofZ := inject_Z;
  add := Qplus;
  sub := Qminus;
  mul := Qmult;
  div := Qdiv;
  leb := Qle_bool;
  ltb := fun x y => negb (Qle_bool y x);
  toQ := fun q => q
}.

Definition float_ofZ (z : Z) : float :=
  if (z <? 0)%Z then PrimFloat.opp (PrimFloat.of_uint63 (Uint63.of_Z (- z)))
  else PrimFloat.of_uint63 (Uint63.of_Z z).

Definition float_toQ (f : float) : Q :=
  match Prim2SF f with
  | S754_finite s m e =>
      let v := if (0 <=? e)%Z then inject_Z (Zpos m * 2 ^ e)
               else Qmake (Zpos m) (2 ^ Z.to_pos (- e)) in
      if s then Qopp v else v
  | _ => 0%Q
  end.

(** IEEE binary64, the representation of a JS number ([ofZ] is exact below
    2^53 in magnitude). *)
#[export] Instance FloatNumber : JsNumber float := {
  ofZ := float_ofZ;
  add := PrimFloat.add;
  sub := PrimFloat.sub;
  mul := PrimFloat.mul;
  div := PrimFloat.div;
  leb := PrimFloat.leb;
  ltb := PrimFloat.ltb;
  toQ := float_toQ
}.





(** ** media_source_decoder.ts: MediaSourceDecoder *)

Module MediaSourceDecoder.

Import Translator.

(** The platform [SourceBuffer]: [appendBuffer] queues the segment and
    raises the [updating] flag until the [updateend] event. *)
Record SourceBuffer : Type := {
  mime : string;
  updating : bool;
  appended : list bytes
}.

Definition appendBuffer (unit : bytes) (sb : SourceBuffer) : SourceBuffer :=
  {| mime := mime sb; updating := true; appended := appended sb ++ [unit] |}.

Section WithNumber.

Context {num : Type} `{JsNumber num}.

Record t : Type := {
  errored : bool;
  translator : State H264;
  videoSize : option (Z * Z);
  sequenceNumber : Z;
  sourceBuffer : option SourceBuffer;
  expectedDurationMicroseconds : num;
  buffers : list bytes;
  needIdr : bool;
  droppedFrames : Z;
  timestampMicrosecondsShift : num;
  lastTimestampMicroseconds : num
}.

(** [new MediaSourceDecoder(base)] *)
Definition create : t := {|
  errored := false;
  translator := Translator.create;
  videoSize := None;
  sequenceNumber := -1;
  sourceBuffer := None;
  expectedDurationMicroseconds := ofZ 0;
  buffers := [];
  needIdr := true;
  droppedFrames := 0;
  timestampMicrosecondsShift := ofZ 0;
  lastTimestampMicroseconds := ofZ 0
|}.

(** The synchronous part of [setup(setup)]. *)
Definition setup (width height : Z) (fps : num) (st : t) : t := {|
  errored := errored st;
  translator := translator st;
  videoSize := Some (width, height);
  sequenceNumber := sequenceNumber st;
  sourceBuffer := sourceBuffer st;
  expectedDurationMicroseconds := div (ofZ 1000000) fps;
  buffers := buffers st;
  needIdr := needIdr st;
  droppedFrames := droppedFrames st;
  timestampMicrosecondsShift := timestampMicrosecondsShift st;
  lastTimestampMicroseconds := lastTimestampMicroseconds st
|}.

Definition with_errored (st : t) : t := {|
  errored := true;
  translator := translator st;
  videoSize := videoSize st;
  sequenceNumber := sequenceNumber st;
  sourceBuffer := sourceBuffer st;
  expectedDurationMicroseconds := expectedDurationMicroseconds st;
  buffers := buffers st;
  needIdr := needIdr st;
  droppedFrames := droppedFrames st;
  timestampMicrosecondsShift := timestampMicrosecondsShift st;
  lastTimestampMicroseconds := lastTimestampMicroseconds st
|}.

Definition with_translator (st : t) (tr : State H264) : t := {|
  errored := errored st;
  translator := tr;
  videoSize := videoSize st;
  sequenceNumber := sequenceNumber st;
  sourceBuffer := sourceBuffer st;
  expectedDurationMicroseconds := expectedDurationMicroseconds st;
  buffers := buffers st;
  needIdr := needIdr st;
  droppedFrames := droppedFrames st;
  timestampMicrosecondsShift := timestampMicrosecondsShift st;
  lastTimestampMicroseconds := lastTimestampMicroseconds st
|}.

Definition with_last (st : t) (ts : num) : t := {|
  errored := errored st;
  translator := translator st;
  videoSize := videoSize st;
  sequenceNumber := sequenceNumber st;
  sourceBuffer := sourceBuffer st;
  expectedDurationMicroseconds := expectedDurationMicroseconds st;
  buffers := buffers st;
  needIdr := needIdr st;
  droppedFrames := droppedFrames st;
  timestampMicrosecondsShift := timestampMicrosecondsShift st;
  lastTimestampMicroseconds := ts
|}.

Definition with_sourceBuffer (st : t) (sb : option SourceBuffer) (queue : list bytes) : t := {|
  errored := errored st;
  translator := translator st;
  videoSize := videoSize st;
  sequenceNumber := sequenceNumber st;
  sourceBuffer := sb;
  expectedDurationMicroseconds := expectedDurationMicroseconds st;
  buffers := queue;
  needIdr := needIdr st;
  droppedFrames := droppedFrames st;
  timestampMicrosecondsShift := timestampMicrosecondsShift st;
  lastTimestampMicroseconds := lastTimestampMicroseconds st
|}.

(** The old source buffer is removed from the media source first. *)
Definition createNewSourceBuffer (codec : string) (st : t) : t :=
  with_sourceBuffer st
    (Some {| mime := ("video/mp4; codecs=" ++ codec)%string;
             updating := false; appended := [] |})
    (buffers st).

(** The [while (true)] loop: every round takes the head of the queue. *)
Fixpoint appendLoop (queue : list bytes) (sb : SourceBuffer) : list bytes * SourceBuffer :=
  if updating sb then (queue, sb)
  else match queue with
       | [] => (queue, sb)
       | unit :: rest => appendLoop rest (appendBuffer unit sb)
       end.

Definition tryAppendDecodeUnit (st : t) : t :=
  if errored st then st
  else match sourceBuffer st with
       | None => st
       | Some sb =>
           let '(queue, sb') := appendLoop (buffers st) sb in
           with_sourceBuffer st (Some sb') queue
       end.

(** The [updateend] event of the source buffer. *)
Definition onUpdateEnd (st : t) : t :=
  tryAppendDecodeUnit
    (with_sourceBuffer st
       (match sourceBuffer st with
        | Some sb => Some {| mime := mime sb; updating := false; appended := appended sb |}
        | None => None
        end)
       (buffers st)).

(** [new ByteBuffer(capacity, false)], the writer, [flip()] and
    [getRemainingBuffer()]. *)
Definition writeSegment (capacity : nat) (writer : Mp4.W unit) : result bytes :=
  '(_, b) <- writer (ByteBuffer.create capacity false) ;;
  Ok (ByteBuffer.getRemainingBuffer (ByteBuffer.flip b)).

Definition submitDecodeUnit (unit : VideoDecodeUnit num) (st : t) : result t :=
  if errored st then Ok st
  else
    '(value, tr) <- Translator.submitDecodeUnit unit (translator st) ;;
    let st := with_translator st tr in
    match value with
    | None => Ok (with_errored st)
    | Some value =>
        match chunk value with
        | None => Ok st
        | Some chunk =>
            let timestampMicroseconds :=
              sub (timestampMicroseconds unit) (timestampMicrosecondsShift st) in
            let timestampMicroseconds :=
              if leb timestampMicroseconds (lastTimestampMicroseconds st)
              then add (lastTimestampMicroseconds st) (expectedDurationMicroseconds st)
              else timestampMicroseconds in
            let durationMicroseconds :=
              sub timestampMicroseconds (lastTimestampMicroseconds st) in
            let st := with_last st timestampMicroseconds in
            match configure value with
            | Some configure =>
                match description configure with
                | None => Ok (with_errored st)
                | Some description =>
                    let st := createNewSourceBuffer (codec configure) st in
                    match videoSize st with
                    | None => Ok (with_errored st)
                    | Some (width, height) =>
                        initSegment <- writeSegment 2000
                          (Mp4.putVideoInitSegment 1000000 1 width height description) ;;
                        idrSegment <- writeSegment (400 + length (data unit))
                          (Mp4.putVideoFrameSegment 1 1 0%Q
                             (toQ durationMicroseconds) true chunk) ;;
                        Ok (tryAppendDecodeUnit {|
                          errored := errored st;
                          translator := translator st;
                          videoSize := videoSize st;
                          sequenceNumber := 1;
                          sourceBuffer := sourceBuffer st;
                          expectedDurationMicroseconds := expectedDurationMicroseconds st;
                          buffers := buffers st ++ [initSegment; idrSegment];
                          needIdr := false;
                          droppedFrames := 0;
                          timestampMicrosecondsShift := Translator.timestampMicroseconds unit;
                          lastTimestampMicroseconds := ofZ 0
                        |})
                    end
                end
            | None =>
                if needIdr st then
                  Ok {| errored := errored st;
                        translator := translator st;
                        videoSize := videoSize st;
                        sequenceNumber := sequenceNumber st;
                        sourceBuffer := sourceBuffer st;
                        expectedDurationMicroseconds := expectedDurationMicroseconds st;
                        buffers := buffers st;
                        needIdr := needIdr st;
                        droppedFrames := droppedFrames st + 1;
                        timestampMicrosecondsShift := timestampMicrosecondsShift st;
                        lastTimestampMicroseconds := lastTimestampMicroseconds st |}
                else
                  let sequenceNumber := (sequenceNumber st + 1)%Z in
                  segment <- writeSegment (400 + length (data unit))
                    (Mp4.putVideoFrameSegment 1 sequenceNumber (toQ timestampMicroseconds)
                       (toQ durationMicroseconds) false chunk) ;;
                  Ok (tryAppendDecodeUnit {|
                    errored := errored st;
                    translator := translator st;
                    videoSize := videoSize st;
                    sequenceNumber := sequenceNumber;
                    sourceBuffer := sourceBuffer st;
                    expectedDurationMicroseconds := expectedDurationMicroseconds st;
                    buffers := buffers st ++ [segment];
                    needIdr := needIdr st;
                    droppedFrames := droppedFrames st;
                    timestampMicrosecondsShift := timestampMicrosecondsShift st;
                    lastTimestampMicroseconds := lastTimestampMicroseconds st
                  |})
            end
        end
    end.

(** [base] is what the base pipe's [pollRequestIdr] answers, if it has one. *)
Definition pollRequestIdr (base : option bool) (st : t) : bool * t :=
  let own := (60 <? droppedFrames st)%Z in
  let st' := if own then {|
      errored := errored st;
      translator := translator st;
      videoSize := videoSize st;
      sequenceNumber := sequenceNumber st;
      sourceBuffer := sourceBuffer st;
      expectedDurationMicroseconds := expectedDurationMicroseconds st;
      buffers := buffers st;
      needIdr := needIdr st;
      droppedFrames := 0;
      timestampMicrosecondsShift := timestampMicrosecondsShift st;
      lastTimestampMicroseconds := lastTimestampMicroseconds st |} else st in
  (match base with Some true => true | _ => own end, st').

End WithNumber.

Arguments t num : clear implicits.

End MediaSourceDecoder.

(** ** video_decoder_pipe.ts: VideoDecoderPipe *)

Module VideoDecoderPipe.

Import Translator.

(** [this.translator]: one of the two translators, or null. *)
Inductive AnyTranslator : Type :=
| OfH264 (tr : State H264)
| OfH265 (tr : State H265).

Section WithNumber.

Context {num : Type} `{JsNumber num}.

(** The platform [VideoDecoder] is observed through the calls made on it. *)
Inductive DecoderCall : Type :=
| CallReset
| CallConfigure (config : VideoDecoderConfig)
| CallDecode (type : UnitType) (data : bytes) (timestamp duration : num).

(** [config] holds the contents of the object [this.config] refers to.
    The translator keeps a reference of its own, [decoderConfig], which
    [setBaseConfig(this.config)] makes a reference to that same object:
    [translatorSharesConfig] says whether it is one, and whatever the
    translator then writes into its configuration is written into
    [config] too. *)
Record t : Type := {
  fps : num;
  errored : bool;
  config : option VideoDecoderConfig;
  translator : option AnyTranslator;
  translatorSharesConfig : bool;
  decoder : list DecoderCall;
  decoderSetupFinished : bool;
  requestedIdr : bool;
  needsKeyFrame : bool;
  bufferedUnits : list (VideoDecodeUnit num)
}.

Definition with_decoder (st : t) (calls : list DecoderCall) : t := {|
  fps := fps st; errored := errored st; config := config st;
  translator := translator st; translatorSharesConfig := translatorSharesConfig st;
  decoder := decoder st ++ calls;
  decoderSetupFinished := decoderSetupFinished st; requestedIdr := requestedIdr st;
  needsKeyFrame := needsKeyFrame st; bufferedUnits := bufferedUnits st |}.

Definition with_errored (st : t) : t := {|
  fps := fps st; errored := true; config := config st;
  translator := translator st; translatorSharesConfig := translatorSharesConfig st;
  decoder := decoder st;
  decoderSetupFinished := decoderSetupFinished st; requestedIdr := requestedIdr st;
  needsKeyFrame := needsKeyFrame st; bufferedUnits := bufferedUnits st |}.

Definition with_translator (st : t) (tr : option AnyTranslator) : t := {|
  fps := fps st; errored := errored st; config := config st;
  translator := tr; translatorSharesConfig := translatorSharesConfig st;
  decoder := decoder st;
  decoderSetupFinished := decoderSetupFinished st; requestedIdr := requestedIdr st;
  needsKeyFrame := needsKeyFrame st; bufferedUnits := bufferedUnits st |}.

Definition with_requestedIdr (st : t) (v : bool) : t := {|
  fps := fps st; errored := errored st; config := config st;
  translator := translator st; translatorSharesConfig := translatorSharesConfig st;
  decoder := decoder st;
  decoderSetupFinished := decoderSetupFinished st; requestedIdr := v;
  needsKeyFrame := needsKeyFrame st; bufferedUnits := bufferedUnits st |}.

Definition with_needsKeyFrame (st : t) (v : bool) : t := {|
  fps := fps st; errored := errored st; config := config st;
  translator := translator st; translatorSharesConfig := translatorSharesConfig st;
  decoder := decoder st;
  decoderSetupFinished := decoderSetupFinished st; requestedIdr := requestedIdr st;
  needsKeyFrame := v; bufferedUnits := bufferedUnits st |}.

Definition with_bufferedUnits (st : t) (l : list (VideoDecodeUnit num)) : t := {|
  fps := fps st; errored := errored st; config := config st;
  translator := translator st; translatorSharesConfig := translatorSharesConfig st;
  decoder := decoder st;
  decoderSetupFinished := decoderSetupFinished st; requestedIdr := requestedIdr st;
  needsKeyFrame := needsKeyFrame st; bufferedUnits := l |}.

Definition translatorConfig (tr : AnyTranslator) : option VideoDecoderConfig :=
  match tr with
  | OfH264 s => decoderConfig s
  | OfH265 s => decoderConfig s
  end.

(** The translator after a call: the codec string and the description it
    has written into its configuration are in [this.config] as well when
    the two are one object. *)
Definition with_translated (st : t) (tr : AnyTranslator) : t := {|
  fps := fps st; errored := errored st;
  config := if translatorSharesConfig st then translatorConfig tr else config st;
  translator := Some tr; translatorSharesConfig := translatorSharesConfig st;
  decoder := decoder st;
  decoderSetupFinished := decoderSetupFinished st; requestedIdr := requestedIdr st;
  needsKeyFrame := needsKeyFrame st; bufferedUnits := bufferedUnits st |}.

(** [this.translator.setBaseConfig(this.config)]: from now on the
    translator refers to the object of [this.config]. *)
Definition with_baseConfig (st : t) (c : VideoDecoderConfig) (tr : AnyTranslator) : t := {|
  fps := fps st; errored := errored st; config := config st;
  translator := Some (match tr with
                      | OfH264 s => OfH264 (setBaseConfig c s)
                      | OfH265 s => OfH265 (setBaseConfig c s)
                      end);
  translatorSharesConfig := true;
  decoder := decoder st;
  decoderSetupFinished := decoderSetupFinished st; requestedIdr := requestedIdr st;
  needsKeyFrame := needsKeyFrame st; bufferedUnits := bufferedUnits st |}.

Definition translate (unit : VideoDecodeUnit num) (tr : AnyTranslator)
  : result (option Output * AnyTranslator) :=
  match tr with
  | OfH264 s => '(v, s') <- Translator.submitDecodeUnit unit s ;; Ok (v, OfH264 s')
  | OfH265 s => '(v, s') <- Translator.submitDecodeUnit unit s ;; Ok (v, OfH265 s')
  end.

(** [submitDecodeUnit] from [if (this.translator)] on. *)
Definition decodeUnit (unit : VideoDecodeUnit num) (st : t) : result t :=
  match translator st with
  | Some tr =>
      '(value, tr') <- translate unit tr ;;
      let st := with_translated st tr' in
      match value with
      | None => Ok (with_errored st)
      | Some value =>
          match chunk value with
          | None => Ok st
          | Some chunk =>
              let st :=
                match configure value with
                | Some configure =>
                    with_requestedIdr (with_decoder st [CallReset; CallConfigure configure]) false
                | None => st
                end in
              Ok (with_decoder st
                    [CallDecode (type unit) chunk (timestampMicroseconds unit)
                            (durationMicroseconds unit)])
          end
      end
  | None =>
      if negb (isKey (type unit)) && needsKeyFrame st then Ok st
      else
        let st := with_requestedIdr (with_needsKeyFrame st false) false in
        Ok (with_decoder st
              [CallDecode (type unit) (data unit) (timestampMicroseconds unit)
                      (durationMicroseconds unit)])
  end.

(** The recursive call on a buffered unit: the queue was emptied and the
    setup is finished, so only the [errored] test precedes [decodeUnit]. *)
Fixpoint drain (units : list (VideoDecodeUnit num)) (st : t) : result t :=
  match units with
  | [] => Ok st
  | bufferedUnit :: rest =>
      st' <- (if errored st then Ok st else decodeUnit bufferedUnit st) ;;
      drain rest st'
  end.

Definition submitDecodeUnit (unit : VideoDecodeUnit num) (st : t) : result t :=
  if errored st then Ok st
  else if negb (decoderSetupFinished st)
  then Ok (with_bufferedUnits st (bufferedUnits st ++ [unit]))
  else
    st1 <- drain (bufferedUnits st) (with_bufferedUnits st []) ;;
    decodeUnit unit st1.

Definition reset (st : t) : t :=
  match translator st with
  | None =>
      let st := with_needsKeyFrame (with_decoder st [CallReset]) true in
      match config st with
      | Some c => with_decoder st [CallConfigure c]
      | None => st
      end
  | Some tr =>
      match config st with
      | Some c => with_baseConfig st c tr
      | None => st
      end
  end.

(** [decodeQueueSize] is what the platform decoder reports at the call;
    [base] is the answer of the base pipe's [pollRequestIdr], if any. *)
Definition pollRequestIdr (decodeQueueSize : Z) (base : option bool) (st : t) : bool * t :=
  let estimatedQueueDelayMs := div (mul (ofZ decodeQueueSize) (ofZ 1000)) (fps st) in
  let own := ltb (ofZ 200) estimatedQueueDelayMs && (2 <? decodeQueueSize)%Z
             && negb (requestedIdr st) in
  let st := if own then reset st else st in
  let requestIdr := match base with Some true => true | _ => own end in
  (requestIdr, if requestIdr then with_requestedIdr st true else st).

End WithNumber.

Arguments t num : clear implicits.
Arguments DecoderCall num : clear implicits.

End VideoDecoderPipe.

(** ** video/pipeline.ts: the pipeline builder *)

Module Pipeline.

(** The classes that occur as renderers, and their base class. *)
Inductive Class : Type :=
| VideoElementRenderer
| MainCanvasRenderer
| OffscreenCanvasRenderer
| BaseCanvasVideoRenderer.

Inductive PipeStatic : Type :=
| VideoMediaStreamTrackProcessorPipe
| CanvasFrameDrawPipe
| WorkerVideoTrackSendPipe
| WorkerVideoMediaStreamProcessorCanvasPipe
| WorkerVideoMediaStreamProcessorPipe
| WorkerVideoFrameReceivePipe
| DepacketizeVideoPipe
| WorkerVideoDataSendPipe
| WorkerDataToVideoTrackPipe
| WorkerVideoTrackReceivePipe
| VideoDecoderPipe
| VideoMediaStreamTrackGeneratorPipe
| WorkerDataToCanvasRenderOpenH264Pipe
| OpenH264DecoderPipe
| Yuv420ToRgbaFramePipe
| CanvasRgbaFrameDrawPipe.

Inductive Kind : Type := videotrack | data.

Definition Kind_eqb (a b : Kind) : bool :=
  match a, b with
  | videotrack, videotrack | data, data => true
  | _, _ => false
  end.

Record Pipeline : Type := {
  input : Kind;
  pipes : list PipeStatic;
  renderer : Class
}.

Definition PIPELINES : list Pipeline := [
  {| input := videotrack; pipes := []; renderer := VideoElementRenderer |};
  {| input := videotrack;
     pipes := [VideoMediaStreamTrackProcessorPipe; CanvasFrameDrawPipe];
     renderer := MainCanvasRenderer |};
  {| input := videotrack;
     pipes := [WorkerVideoTrackSendPipe; WorkerVideoMediaStreamProcessorCanvasPipe];
     renderer := OffscreenCanvasRenderer |};
  {| input := videotrack;
     pipes := [WorkerVideoTrackSendPipe; WorkerVideoMediaStreamProcessorPipe;
               WorkerVideoFrameReceivePipe];
     renderer := MainCanvasRenderer |};
  {| input := data;
     pipes := [DepacketizeVideoPipe; WorkerVideoDataSendPipe; WorkerDataToVideoTrackPipe;
               WorkerVideoTrackReceivePipe];
     renderer := VideoElementRenderer |};
  {| input := data;
     pipes := [DepacketizeVideoPipe; VideoDecoderPipe; VideoMediaStreamTrackGeneratorPipe];
     renderer := VideoElementRenderer |};
  {| input := data;
     pipes := [DepacketizeVideoPipe; VideoDecoderPipe; CanvasFrameDrawPipe];
     renderer := MainCanvasRenderer |};
  {| input := data;
     pipes := [DepacketizeVideoPipe; WorkerVideoDataSendPipe;
               WorkerDataToCanvasRenderOpenH264Pipe];
     renderer := OffscreenCanvasRenderer |};
  {| input := data;
     pipes := [DepacketizeVideoPipe; OpenH264DecoderPipe; Yuv420ToRgbaFramePipe;
               CanvasRgbaFrameDrawPipe];
     renderer := MainCanvasRenderer |}
].

(** *** The [instanceof] operator on class objects

    A class declaration creates two objects: the constructor function and
    its [prototype].  [class C extends P] links the constructor of [C] to
    the constructor of [P] and the prototype of [C] to the prototype of
    [P]; a class without [extends] has a constructor below
    [Function.prototype] and a prototype below [Object.prototype]. *)

Inductive JsObject : Type :=
| Constructor (c : Class)
| Prototype (c : Class)
| FunctionPrototype
| ObjectPrototype.

Definition Class_eqb (a b : Class) : bool :=
  match a, b with
  | VideoElementRenderer, VideoElementRenderer
  | MainCanvasRenderer, MainCanvasRenderer
  | OffscreenCanvasRenderer, OffscreenCanvasRenderer
  | BaseCanvasVideoRenderer, BaseCanvasVideoRenderer => true
  | _, _ => false
  end.

Definition JsObject_eqb (a b : JsObject) : bool :=
  match a, b with
  | Constructor x, Constructor y => Class_eqb x y
  | Prototype x, Prototype y => Class_eqb x y
  | FunctionPrototype, FunctionPrototype => true
  | ObjectPrototype, ObjectPrototype => true
  | _, _ => false
  end.

Section Build.

(** The [extends] clause of each class.  [OffscreenCanvasRenderer extends
    BaseCanvasVideoRenderer] is in offscreen_canvas.ts; the other class
    declarations (canvas.ts, video_element.ts) are not part of the sources
    at hand, so the relation is a parameter. *)
Variable extends : Class -> option Class.

Definition getPrototypeOf (o : JsObject) : option JsObject :=
  match o with
  | Constructor c =>
      Some (match extends c with Some p => Constructor p | None => FunctionPrototype end)
  | Prototype c =>
      Some (match extends c with Some p => Prototype p | None => ObjectPrototype end)
  | FunctionPrototype => Some ObjectPrototype
  | ObjectPrototype => None
  end.

(** [OrdinaryHasInstance]: walk the prototype chain of the value looking
    for [target.prototype]; [depth] bounds the length of the chain. *)
Fixpoint inPrototypeChain (depth : nat) (o : JsObject) (proto : JsObject) : bool :=
  match depth with
  | O => false
  | S depth' =>
      match getPrototypeOf o with
      | None => false
      | Some parent =>
          if JsObject_eqb parent proto then true
          else inPrototypeChain depth' parent proto
      end
  end.

Variable depth : nat.

Definition instanceof (value : JsObject) (target : Class) : bool :=
  inPrototypeChain depth value (Prototype target).

(** [pipeline.renderer] is the class object itself. *)
Definition FORCE_CANVAS_PIPELINES : list Pipeline :=
  filter (fun pipeline => instanceof (Constructor (renderer pipeline)) BaseCanvasVideoRenderer)
         PIPELINES.

(** The codec masks of video.ts and the generic [buildPipeline] and
    [gatherPipeInfo] of pipeline/index.ts are not part of the sources at
    hand; the builder is parametric in them. *)
Variable VideoCodecSupport : Type.
Variable andVideoCodecs : VideoCodecSupport -> VideoCodecSupport -> VideoCodecSupport.
Variable hasAnyCodec : VideoCodecSupport -> bool.
Variable forceH264 : VideoCodecSupport -> VideoCodecSupport.

Record PipeInfo : Type := {
  environmentSupported : bool;
  supportedVideoCodecs : option VideoCodecSupport
}.

Variable pipesInfo : PipeStatic -> option PipeInfo.
Variable rendererInfo : Class -> option PipeInfo.
Variable VideoRenderer : Type.
Variable buildPipeline : Class -> list PipeStatic -> option VideoRenderer.
Variable newVideoElementRenderer : VideoRenderer.

Record VideoPipelineOptions : Type := {
  supportedVideoCodecsOption : VideoCodecSupport;
  canvasRenderer : bool;
  forceVideoElementRenderer : bool;
  canvasVsync : bool
}.

Inductive PipelineResult : Type :=
| Built (videoRenderer : VideoRenderer) (supportedCodecs : VideoCodecSupport)
| BuildError.

(** The inner [for (const pipe of pipeline.pipes)]; [None] is
    [continue pipelineLoop]. *)
Fixpoint checkPipes (l : list PipeStatic) (supportedCodecs : VideoCodecSupport)
  : option VideoCodecSupport :=
  match l with
  | [] => Some supportedCodecs
  | pipe :: rest =>
      match pipesInfo pipe with
      | None => None
      | Some pipeInfo =>
          if negb (environmentSupported pipeInfo) then None
          else checkPipes rest
                 (match supportedVideoCodecs pipeInfo with
                  | Some c => andVideoCodecs supportedCodecs c
                  | None => supportedCodecs
                  end)
      end
  end.

Definition tryPipeline (settings : VideoPipelineOptions) (pipeline : Pipeline)
  : option PipelineResult :=
  match checkPipes (pipes pipeline) (supportedVideoCodecsOption settings) with
  | None => None
  | Some supportedCodecs =>
      match rendererInfo (renderer pipeline) with
      | None => None
      | Some info =>
          if negb (environmentSupported info) then None
          else
            let supportedCodecs :=
              match supportedVideoCodecs info with
              | Some c => andVideoCodecs supportedCodecs c
              | None => supportedCodecs
              end in
            if negb (hasAnyCodec supportedCodecs) then None
            else match buildPipeline (renderer pipeline) (pipes pipeline) with
                 | None => None
                 | Some videoRenderer => Some (Built videoRenderer supportedCodecs)
                 end
      end
  end.

Fixpoint pipelineLoop (type : Kind) (settings : VideoPipelineOptions)
    (pipelines : list Pipeline) : PipelineResult :=
  match pipelines with
  | [] => BuildError
  | pipeline :: rest =>
      if negb (Kind_eqb (input pipeline) type) then pipelineLoop type settings rest
      else match tryPipeline settings pipeline with
           | Some r => r
           | None => pipelineLoop type settings rest
           end
  end.

(** The list the builder iterates when no element renderer is forced. *)
Definition candidates (settings : VideoPipelineOptions) : list Pipeline :=
  if canvasRenderer settings then FORCE_CANVAS_PIPELINES else PIPELINES.

Definition buildVideoPipeline (type : Kind) (settings : VideoPipelineOptions)
  : PipelineResult :=
  if forceVideoElementRenderer settings then
    if negb (Kind_eqb type videotrack) then BuildError
    else
      Built newVideoElementRenderer
        (if negb (hasAnyCodec (supportedVideoCodecsOption settings))
         then forceH264 (supportedVideoCodecsOption settings)
         else supportedVideoCodecsOption settings)
  else pipelineLoop type settings (candidates settings).

End Build.

(** The table the forced canvas option is meant to select: the chains
    whose renderer is one of the two canvas renderers. *)
Definition isCanvasRenderer (c : Class) : bool :=
  match c with
  | MainCanvasRenderer | OffscreenCanvasRenderer => true
  | _ => false
  end.

Definition canvasPipelines : list Pipeline :=
  filter (fun pipeline => isCanvasRenderer (renderer pipeline)) PIPELINES.

End Pipeline.

(** ** Layouts used in the statements *)

(** The eight bytes [putU64] stores. *)
Definition u64bytes (littleEndian : bool) (data : Q) : bytes :=
  let hi := Qfloor (data / 4294967296)%Q in
  let lo := Qtrunc data in
  if littleEndian then rev (u32be lo) ++ rev (u32be hi) else u32be hi ++ u32be lo.

(** The state of a big-endian buffer that was written sequentially:
    [w] is what was written so far, followed by [k] untouched zero bytes. *)
Definition Rep (b : ByteBuffer.t) (w : bytes) (k : nat) : Prop :=
  ByteBuffer.buffer b = w ++ zeros k
  /\ ByteBuffer.position b = length w
  /\ ByteBuffer.littleEndian b = false.

(** [emits c p a ws]: started at position [p] with room for [ws], the
    writer [c] returns [a] and leaves exactly the bytes [ws] behind. *)
Definition emits {A : Type} (c : Mp4.W A) (p : nat) (a : A) (ws : bytes) : Prop :=
  forall b w k,
    Rep b w k -> length w = p -> length ws <= k ->
    exists b', c b = Ok (a, b') /\ Rep b' (w ++ ws) (k - length ws).

(** An ISO-BMFF box: a 32-bit big-endian size that counts the whole box,
    the four-character type, the fields of the box and its child boxes. *)
#[local] Unset Elimination Schemes.
Inductive Box : Type :=
| box (type : string) (fields : bytes) (children : list Box).
#[local] Set Elimination Schemes.

Fixpoint encode (b : Box) : bytes :=
  match b with
  | box type fields children =>
      let rest := utf8 type ++ fields ++ flat_map encode children in
      u32be (Z.of_nat (4 + length rest)) ++ rest
  end.

(** A FullBox starts its fields with [version(u8) | flags(u24)]. *)
Definition fullBox (type : string) (version flags : Z) (fields : bytes)
    (children : list Box) : Box :=
  box type
    ([(version mod 256)%Z; (Z.land (Z.shiftr flags 16) 255 mod 256)%Z;
      (Z.land (Z.shiftr flags 8) 255 mod 256)%Z; (Z.land flags 255 mod 256)%Z] ++ fields)
    children.

Definition encodeAll (l : list Box) : bytes := flat_map encode l.

(** What [putU64] leaves in a fresh buffer: the value and the 8 bytes the
    second advance of the position skips. *)
Definition u64field (q : Q) : bytes := u64bytes false q ++ zeros 8.

(** The boxes of a frame segment.  [dataOffset] is the [trun] field that
    is patched once the [moof] box is complete. *)
Definition trunBox (dataOffset : Z) (frameDuration : Q) (frameSize : nat)
    (isKeyframe isFirstSample : bool) : Box :=
  let sampleFlags := (if isKeyframe then 33554432 else 16842752)%Z in
  fullBox "trun" 0 (if isFirstSample then 773 else 1793)
    (u32be 1 ++ u32be dataOffset
     ++ (if isFirstSample then u32be sampleFlags else [])
     ++ u32be (Qtrunc frameDuration)
     ++ u32be (Z.of_nat frameSize)
     ++ (if isFirstSample then [] else u32be sampleFlags))
    [].

Definition moofBox (dataOffset trackId sequenceNumber : Z)
    (baseDecodeTime frameDuration : Q) (isKeyframe : bool) (frameSize : nat) : Box :=
  box "moof" []
    [fullBox "mfhd" 0 0 (u32be sequenceNumber) [];
     box "traf" []
       [fullBox "tfhd" 0 131072 (u32be trackId) [];
        fullBox "tfdt" 1 0 (u64field baseDecodeTime) [];
        trunBox dataOffset frameDuration frameSize isKeyframe (sequenceNumber =? 1)%Z]].

Definition frameSegmentBoxes (trackId sequenceNumber : Z)
    (baseDecodeTime frameDuration : Q) (isKeyframe : bool) (frame : bytes) : list Box :=
  [moofBox 116 trackId sequenceNumber baseDecodeTime frameDuration isKeyframe (length frame);
   box "mdat" frame []].

(** The boxes of the init segment. *)
Definition initSegmentBoxes (timescale trackId width height : Z) (avcC : bytes)
  : list Box :=
  [box "ftyp"
     (utf8 "isom" ++ u32be 512 ++ utf8 "isom" ++ utf8 "iso6" ++ utf8 "avc1" ++ utf8 "mp41")
     [];
   box "moov" []
     [fullBox "mvhd" 0 0
        (u32be 0 ++ u32be 0 ++ u32be timescale ++ u32be 0
         ++ u32be 65536 ++ u16be 256 ++ u16be 0
         ++ flat_map u32be [0; 0]%Z
         ++ flat_map u32be Mp4.MATRIX
         ++ flat_map u32be [0; 0; 0; 0; 0; 0]%Z
         ++ u32be (trackId + 1))
        [];
      box "trak" []
        [fullBox "tkhd" 0 3
           (u32be 0 ++ u32be 0 ++ u32be trackId ++ u32be 0 ++ u32be 0
            ++ flat_map u32be [0; 0]%Z
            ++ u16be 0 ++ u16be 0 ++ u16be 0 ++ u16be 0
            ++ flat_map u32be Mp4.MATRIX
            ++ u32be (Z.shiftl width 16) ++ u32be (Z.shiftl height 16))
           [];
         box "mdia" []
           [fullBox "mdhd" 0 0
              (u32be 0 ++ u32be 0 ++ u32be timescale ++ u32be 0
               ++ u16be 21956 ++ u16be 0)
              [];
            fullBox "hdlr" 0 0
              (u32be 0 ++ utf8 "vide" ++ flat_map u32be [0; 0; 0]%Z
               ++ utf8 "VideoHandler" ++ [0%Z])
              [];
            box "minf" []
              [fullBox "vmhd" 0 1 (u16be 0 ++ flat_map u16be [0; 0; 0]%Z) [];
               box "dinf" [] [fullBox "dref" 0 0 (u32be 1) [fullBox "url " 0 1 [] []]];
               box "stbl" []
                 [fullBox "stsd" 0 0 (u32be 1)
                    [box "avc1"
                       (zeros 6 ++ u16be 1 ++ u16be 0 ++ u16be 0
                        ++ flat_map u32be [0; 0; 0]%Z
                        ++ u16be width ++ u16be height
                        ++ u32be 4718592 ++ u32be 4718592 ++ u32be 0
                        ++ u16be 1 ++ zeros 32 ++ u16be 24 ++ u16be (-1))
                       [box "avcC" avcC []]];
                  fullBox "stts" 0 0 (u32be 0) [];
                  fullBox "stsc" 0 0 (u32be 0) [];
                  fullBox "stsz" 0 0 (u32be 0 ++ u32be 0) [];
                  fullBox "stco" 0 0 (u32be 0) []]]]];
      box "mvex" []
        [fullBox "trex" 0 0
           (u32be trackId ++ u32be 1 ++ u32be 0 ++ u32be 0 ++ u32be 0)
           []]]].

(** The AVCC record as the layout gives it:
    [01 | sps[1] | sps[2] | sps[3] | FF | E1 | u16be(spsLen) | sps | 01 |
    u16be(ppsLen) | pps]. *)
Definition avccRecord (sps pps : bytes) : bytes :=
  [1; nth 1 sps 0; nth 2 sps 0; nth 3 sps 0; 255; 225]%Z
  ++ u16be (Z.of_nat (length sps)) ++ sps
  ++ [1%Z] ++ u16be (Z.of_nat (length pps)) ++ pps.

(** A byte as two lower-case hexadecimal digits. *)
Definition hex2 (b : Z) : string :=
  String (hexDigit (b / 16)) (String (hexDigit (b mod 16)) EmptyString).

(** A NAL unit as an Annex-B stream delimits it: not empty, no start
    code inside, and no zero byte at the end (which a following start code
    would take for its own first byte). *)
Definition isNal (nal : bytes) : bool :=
  negb (length nal =? 0)
  && negb (last nal 0 =? 0)%Z
  && forallb (fun i => negb (Translator.startsWith nal i Translator.START_CODE_SHORT))
       (seq 0 (length nal)).

Definition isStartCode (sc : bytes) : Prop :=
  sc = Translator.START_CODE_SHORT \/ sc = Translator.START_CODE_LONG.

(** The codec tag the translator derives from an SPS. *)
Definition spsCodecTag (sps : bytes) : string :=
  ("avc1." ++ numToHex (nth 1 sps 0%Z) ++ numToHex (nth 2 sps 0%Z)
   ++ numToHex (nth 3 sps 0%Z))%string.

(** An Annex-B byte stream: every NAL unit behind its start code. *)
Definition annexB (units : list (bytes * bytes)) : bytes :=
  flat_map (fun u => fst u ++ snd u) units.

(** The length-prefixed form: every NAL unit behind its length on 32
    bits, big-endian. *)
Definition lengthPrefixed (nals : list bytes) : bytes :=
  flat_map (fun nal => u32be (Z.of_nat (length nal)) ++ nal) nals.

(** Units that are delimited as Annex B wants and whose NAL units all
    satisfy [keep]. *)
Definition wellDelimited (keep : bytes -> bool) (units : list (bytes * bytes)) : Prop :=
  Forall (fun u => isStartCode (fst u) /\ isNal (snd u) = true /\ keep (snd u) = true) units.

(** The NAL units the translators pass on: everything but parameter sets. *)
Definition h264IsPayload (nal : bytes) : bool :=
  let t := h264NalType (nth 0 nal 0%Z) in negb (t =? 7)%Z && negb (t =? 8)%Z.

Definition h265IsPayload (nal : bytes) : bool :=
  let t := Translator.h265NalType (nth 0 nal 0%Z) in
  negb (t =? 32)%Z && negb (t =? 33)%Z && negb (t =? 34)%Z.

(** What the media-source emitter has pushed for the current source
    buffer, in order: the segments appended already and those queued. *)
Definition emitted {num : Type} `{JsNumber num} (st : MediaSourceDecoder.t num)
  : list bytes :=
  match MediaSourceDecoder.sourceBuffer st with
  | Some sb => MediaSourceDecoder.appended sb
  | None => []
  end ++ MediaSourceDecoder.buffers st.

(** The monotonic repair of a shifted timestamp. *)
Definition repaired {num : Type} `{JsNumber num} (last expected timestamp : num) : num :=
  if leb timestamp last then add last expected else timestamp.

(** The fields of a frame segment as they are read back from its bytes:
    the [mfhd] sequence number at offset 20 and the [tfdt] base decode
    time, 64 bits, at offset 60. *)
Definition segmentSequenceNumber (segment : bytes) : Z := readU32be segment 20.

Definition segmentBaseDecodeTime (segment : bytes) : Z :=
  (readU32be segment 60 * 4294967296 + readU32be segment 64)%Z.

(** Submitting units one after the other. *)
Fixpoint submitAll {num : Type} `{JsNumber num}
    (units : list (Translator.VideoDecodeUnit num)) (st : MediaSourceDecoder.t num)
  : result (MediaSourceDecoder.t num) :=
  match units with
  | [] => Ok st
  | unit :: rest =>
      st' <- MediaSourceDecoder.submitDecodeUnit unit st ;;
      submitAll rest st'
  end.

(** ** Notions used for the byte buffer *)

(** The state the sequential writers keep: the position is within the
    limit and the limit within the capacity. *)
Definition wellFormed (b : ByteBuffer.t) : Prop :=
  ByteBuffer.position b <= ByteBuffer.limit b
  /\ ByteBuffer.limit b <= length (ByteBuffer.buffer b).

(** A byte array holds byte values. *)
Definition isBytes (a : bytes) : Prop := Forall (fun x => (0 <= x < 256)%Z) a.

(** The value of a 16-bit and of a 32-bit word with its bytes reversed. *)
Definition swap16 (x : Z) : Z := ((x mod 256) * 256 + x / 256)%Z.

Definition swap32 (x : Z) : Z :=
  ((x mod 256) * 16777216 + ((x / 256) mod 256) * 65536
   + ((x / 65536) mod 256) * 256 + x / 16777216)%Z.

(** What a positional or sequential write of [w] bytes does: within the
    capacity the image is stored, the position moves for a sequential
    write only, and the limit follows the end of the write; beyond the
    capacity the write throws. *)
Definition stores (b : ByteBuffer.t) (index : option nat) (w : nat) (image : bytes)
    (r : result ByteBuffer.t) : Prop :=
  let pos := match index with Some i => i | None => ByteBuffer.position b end in
  if pos + w <=? length (ByteBuffer.buffer b) then
    exists b',
      r = Ok b'
      /\ ByteBuffer.buffer b' = splice (ByteBuffer.buffer b) pos image
      /\ ByteBuffer.position b'
         = match index with
           | Some _ => ByteBuffer.position b
           | None => ByteBuffer.position b + w
           end
      /\ ByteBuffer.limit b' = Nat.max (ByteBuffer.limit b) (pos + w)
      /\ ByteBuffer.littleEndian b' = ByteBuffer.littleEndian b
  else r = Throw "failed to write over the capacity"%string.

(** The sequential writes of the buffer (the calls without an index),
    and the bytes each one stores. *)
Inductive Write : Type :=
| WriteU8 (data : Z)
| WriteI8 (data : Z)
| WriteBool (data : bool)
| WriteU16 (data : Z)
| WriteI16 (data : Z)
| WriteU32 (data : Z)
| WriteI32 (data : Z)
| WriteU8Array (data : bytes)
| WriteU16Array (data : list Z)
| WriteU32Array (data : list Z).

Definition runWrite (w : Write) (b : ByteBuffer.t) : result ByteBuffer.t :=
  match w with
  | WriteU8 data => ByteBuffer.putU8 data None b
  | WriteI8 data => ByteBuffer.putI8 data None b
  | WriteBool data => ByteBuffer.putBool data b
  | WriteU16 data => ByteBuffer.putU16 data None b
  | WriteI16 data => ByteBuffer.putI16 data None b
  | WriteU32 data => ByteBuffer.putU32 data None b
  | WriteI32 data => ByteBuffer.putI32 data None b
  | WriteU8Array data => ByteBuffer.putU8Array data None b
  | WriteU16Array data => ByteBuffer.putU16Array data None b
  | WriteU32Array data => ByteBuffer.putU32Array data None b
  end.

Fixpoint runWrites (ws : list Write) (b : ByteBuffer.t) : result ByteBuffer.t :=
  match ws with
  | [] => Ok b
  | w :: rest => b1 <- runWrite w b ;; runWrites rest b1
  end.

Definition image (littleEndian : bool) (w : Write) : bytes :=
  match w with
  | WriteU8 data | WriteI8 data => [(data mod 256)%Z]
  | WriteBool data => [if data then 1%Z else 0%Z]
  | WriteU16 data | WriteI16 data => u16bytes littleEndian data
  | WriteU32 data => u32bytes littleEndian data
  | WriteI32 data => u32be data
  | WriteU8Array data => data
  | WriteU16Array data => flat_map (u16bytes littleEndian) data
  | WriteU32Array data => flat_map (u32bytes littleEndian) data
  end.

(** Text whose UTF-8 encoding is one byte for each character. *)
Definition isAscii (text : string) : Prop :=
  Forall (fun c => nat_of_ascii c < 128) (list_ascii_of_string text).

(** Reading a hexadecimal numeral (lower-case digits). *)
Definition hexDigitValue (c : ascii) : Z :=
  match c with
  | "0" => 0 | "1" => 1 | "2" => 2 | "3" => 3 | "4" => 4 | "5" => 5 | "6" => 6
  | "7" => 7 | "8" => 8 | "9" => 9 | "a" => 10 | "b" => 11 | "c" => 12
  | "d" => 13 | "e" => 14 | "f" => 15 | _ => 0
  end%char%Z.

Fixpoint hexValue (s : string) : Z :=
  match s with
  | EmptyString => 0
  | String c rest =>
      (hexDigitValue c * 16 ^ Z.of_nat (String.length rest) + hexValue rest)%Z
  end.

(** The HVCC record as the layout gives it: the 23 bytes of the fixed
    header, then one array for each of VPS, SPS and PPS:
    [type | 00 01 | u16be(len) | nal]. *)
Definition hvccRecord (vps sps pps : bytes) : bytes :=
  [1; Z.land (Z.shiftr (nth 1 sps 0) 1) 63; 0; 0; 0; 0; 0; 0; 0; 0; 0; 0;
   nth 12 sps 0; 240; 0; 252; 253; 248; 248; 0; 0; 15; 3]%Z
  ++ [32; 0; 1]%Z ++ u16be (Z.of_nat (length vps)) ++ vps
  ++ [33; 0; 1]%Z ++ u16be (Z.of_nat (length sps)) ++ sps
  ++ [34; 0; 1]%Z ++ u16be (Z.of_nat (length pps)) ++ pps.

(** A decode unit with an integral timestamp and no duration. *)
Definition exampleUnit {num : Type} `{JsNumber num} (ty : Translator.UnitType)
    (data : bytes) (timestamp : Z) : Translator.VideoDecodeUnit num :=
  {| Translator.type := ty; Translator.data := data;
     Translator.timestampMicroseconds := ofZ timestamp;
     Translator.durationMicroseconds := ofZ 0 |}.

(** The timestamps a run of units is given by the monotonic repair, in
    the arithmetic of the emitter: each one is repaired against the
    repaired one before it. *)
Fixpoint repairedTimes {num : Type} `{JsNumber num} (last expected shift : num)
    (timestamps : list num) : list num :=
  match timestamps with
  | [] => []
  | timestamp :: rest =>
      let t := repaired last expected (sub timestamp shift) in
      t :: repairedTimes t expected shift rest
  end.

(** A unit made of at most 284 NAL units, none of them a parameter set,
    each behind a start code. *)
Definition isPayloadUnit {num : Type} (unit : Translator.VideoDecodeUnit num) : Prop :=
  exists nals,
    nals <> [] /\ wellDelimited h264IsPayload nals /\ length nals <= 284
    /\ Translator.data unit = annexB nals.

(** Submitting units one after the other to the hardware decoder pipe,
    and the [decode] call that hands a unit to the decoder as it is. *)
Fixpoint pipeSubmitAll {num : Type} `{JsNumber num}
    (units : list (Translator.VideoDecodeUnit num)) (st : VideoDecoderPipe.t num)
  : result (VideoDecoderPipe.t num) :=
  match units with
  | [] => Ok st
  | unit :: rest =>
      st' <- VideoDecoderPipe.submitDecodeUnit unit st ;;
      pipeSubmitAll rest st'
  end.

Definition decodeCall {num : Type} `{JsNumber num} (unit : Translator.VideoDecodeUnit num)
  : VideoDecoderPipe.DecoderCall num :=
  VideoDecoderPipe.CallDecode (Translator.type unit) (Translator.data unit)
    (Translator.timestampMicroseconds unit) (Translator.durationMicroseconds unit).

(** The same pipe in binary64, and the pipe as [setup] leaves it at 60
    frames per second when only the out-of-band configuration is
    supported: the H.264 translator is attached, shares the configuration
    object, and the decoder has not been configured yet. *)
Definition examplePipe64 : VideoDecoderPipe.t float :=
  let c := {| Translator.codec := "avc3.42E01E"; Translator.description := None |} in
  {| VideoDecoderPipe.fps := ofZ 60;
     VideoDecoderPipe.errored := false;
     VideoDecoderPipe.config := Some c;
     VideoDecoderPipe.translator := None;
     VideoDecoderPipe.translatorSharesConfig := false;
     VideoDecoderPipe.decoder :=
       [VideoDecoderPipe.CallReset; VideoDecoderPipe.CallConfigure c];
     VideoDecoderPipe.decoderSetupFinished := true;
     VideoDecoderPipe.requestedIdr := false;
     VideoDecoderPipe.needsKeyFrame := true;
     VideoDecoderPipe.bufferedUnits := [] |}.

Definition exampleTranslatorPipe64 : VideoDecoderPipe.t float :=
  let c := {| Translator.codec := "avc1.42E01E"; Translator.description := None |} in
  {| VideoDecoderPipe.fps := ofZ 60;
     VideoDecoderPipe.errored := false;
     VideoDecoderPipe.config := Some c;
     VideoDecoderPipe.translator :=
       Some (VideoDecoderPipe.OfH264
              (Translator.setBaseConfig c
                 (@Translator.create _ Translator.H264StreamVideoTranslator)));
     VideoDecoderPipe.translatorSharesConfig := true;
     VideoDecoderPipe.decoder := [];
     VideoDecoderPipe.decoderSetupFinished := true;
     VideoDecoderPipe.requestedIdr := false;
     VideoDecoderPipe.needsKeyFrame := true;
     VideoDecoderPipe.bufferedUnits := [] |}.

(** The units the key-frame gate of the pipe lets through: while a key
    frame is needed, none before the first key unit and every one from it
    on; all of them otherwise. *)
Fixpoint fromFirstKey {num : Type} (units : list (Translator.VideoDecodeUnit num))
  : list (Translator.VideoDecodeUnit num) :=
  match units with
  | [] => []
  | unit :: rest =>
      if Translator.isKey (Translator.type unit) then unit :: rest else fromFirstKey rest
  end.

Definition throughGate {num : Type} (needsKeyFrame : bool)
    (units : list (Translator.VideoDecodeUnit num)) : list (Translator.VideoDecodeUnit num) :=
  if needsKeyFrame then fromFirstKey units else units.

Definition noKeyUnit {num : Type} (units : list (Translator.VideoDecodeUnit num)) : bool :=
  forallb (fun unit => negb (Translator.isKey (Translator.type unit))) units.

(** A pipe as [setup] leaves it when the in-band configuration is
    supported (no translator) at 60 frames per second. *)
Definition examplePipe : VideoDecoderPipe.t Q :=
  let c := {| Translator.codec := "avc3.42E01E"; Translator.description := None |} in
  {| VideoDecoderPipe.fps := 60%Q;
     VideoDecoderPipe.errored := false;
     VideoDecoderPipe.config := Some c;
     VideoDecoderPipe.translator := None;
     VideoDecoderPipe.translatorSharesConfig := false;
     VideoDecoderPipe.decoder :=
       [VideoDecoderPipe.CallReset; VideoDecoderPipe.CallConfigure c];
     VideoDecoderPipe.decoderSetupFinished := true;
     VideoDecoderPipe.requestedIdr := false;
     VideoDecoderPipe.needsKeyFrame := true;
     VideoDecoderPipe.bufferedUnits := [] |}.

(** An environment for running the builder: both canvas renderers extend
    the base class, every pipe and renderer is supported and puts no
    restriction on the codecs, and a built pipeline is described by its
    renderer class and its pipes.  The codec support is one flag. *)
Definition exampleExtends (c : Pipeline.Class) : option Pipeline.Class :=
  match c with
  | Pipeline.MainCanvasRenderer | Pipeline.OffscreenCanvasRenderer =>
      Some Pipeline.BaseCanvasVideoRenderer
  | _ => None
  end.

Definition exampleSupported : Pipeline.PipeInfo bool :=
  {| Pipeline.environmentSupported := true; Pipeline.supportedVideoCodecs := None |}.

Definition exampleBuild (type : Pipeline.Kind) (settings : Pipeline.VideoPipelineOptions bool)
  : Pipeline.PipelineResult bool (Pipeline.Class * list Pipeline.PipeStatic) :=
  Pipeline.buildVideoPipeline exampleExtends 8 andb (fun c => c) (fun _ => true)
    (fun _ => Some exampleSupported) (fun _ => Some exampleSupported)
    (fun renderer pipes => Some (renderer, pipes))
    (Pipeline.VideoElementRenderer, []) type settings.

Definition exampleSettings (codecs canvas forceElement : bool)
  : Pipeline.VideoPipelineOptions bool :=
  {| Pipeline.supportedVideoCodecsOption := codecs; Pipeline.canvasRenderer := canvas;
     Pipeline.forceVideoElementRenderer := forceElement; Pipeline.canvasVsync := false |}.

(** * Properties *)

Unset Implicit Arguments.

Arguments u32be : simpl never.
Arguments u16be : simpl never.
Arguments u64bytes : simpl never.
Arguments splice : simpl never.
Arguments zeros : simpl never.
Arguments utf8 : simpl never.
Arguments Qfloor : simpl never.
Arguments Qceiling : simpl never.
Arguments Qtrunc : simpl never.

(** ** Lists and byte images *)

Lemma splice_length (dst : bytes) (off : nat) (src : bytes) :
  off + length src <= length dst -> length (splice dst off src) = length dst.
Proof.
  intros Hfit. unfold splice.
  rewrite !length_app, length_firstn, length_skipn. lia.
Qed.

Lemma splice_app (w src rest : bytes) :
  splice (w ++ rest) (length w) src = w ++ src ++ skipn (length src) rest.
Proof.
  unfold splice.
  rewrite firstn_app, firstn_all, Nat.sub_diag, firstn_O, app_nil_r.
  rewrite skipn_app, skipn_all2 by lia.
  replace (length w + length src - length w) with (length src) by lia.
  reflexivity.
Qed.

Lemma splice_nil (dst : bytes) (off : nat) : splice dst off [] = dst.
Proof.
  unfold splice. simpl. rewrite Nat.add_0_r. apply firstn_skipn.
Qed.

Lemma splice_adjacent (dst : bytes) (off : nat) (a b : bytes) :
  off + length a + length b <= length dst ->
  splice (splice dst off a) (off + length a) b = splice dst off (a ++ b).
Proof.
  intros Hfit.
  assert (Hoff : length (firstn off dst) = off) by (rewrite length_firstn; lia).
  remember (firstn off dst) as p eqn:Ep.
  remember (skipn off dst) as r eqn:Er.
  assert (Hdst : dst = p ++ r) by (subst; symmetry; apply firstn_skipn).
  rewrite Hdst, <- Hoff.
  rewrite splice_app.
  replace (length p + length a) with (length (p ++ a)) by apply length_app.
  rewrite (app_assoc p a), splice_app, splice_app.
  rewrite <- !app_assoc, skipn_skipn, length_app.
  now rewrite (Nat.add_comm (length b)).
Qed.

Lemma skipn_zeros (n k : nat) : skipn n (zeros k) = zeros (k - n).
Proof.
  unfold zeros. revert k. induction n as [|n IH]; intros [|k]; simpl; auto.
Qed.

Lemma zeros_app (n k : nat) : zeros n ++ zeros k = zeros (n + k).
Proof. unfold zeros. now rewrite repeat_app. Qed.

Lemma length_zeros (n : nat) : length (zeros n) = n.
Proof. apply repeat_length. Qed.

Lemma length_u32be (x : Z) : length (u32be x) = 4.
Proof. reflexivity. Qed.

Lemma length_u16be (x : Z) : length (u16be x) = 2.
Proof. reflexivity. Qed.

Lemma length_u64bytes (le : bool) (q : Q) : length (u64bytes le q) = 8.
Proof. destruct le; reflexivity. Qed.

Lemma u32be_mod (x : Z) : u32be (x mod 4294967296) = u32be x.
Proof. unfold u32be. now rewrite Z.mod_mod by lia. Qed.

(** Reading a big-endian field back gives the value that was stored. *)
Lemma readU32be_u32be (w rest : bytes) (x : Z) :
  (0 <= x < 4294967296)%Z ->
  readU32be (w ++ u32be x ++ rest) (length w) = x.
Proof.
  intros Hx. unfold readU32be.
  rewrite <- (Nat.add_0_r (length w)) at 1.
  rewrite !app_nth2_plus.
  unfold u32be. rewrite Z.mod_small by lia. simpl.
  pose proof (Z.div_mod x 16777216 ltac:(lia)) as H1.
  pose proof (Z.mod_pos_bound x 16777216 ltac:(lia)) as B1.
  assert (E2 : (x / 65536 = (x / 16777216) * 256 + (x / 65536) mod 256)%Z).
  { replace 16777216%Z with (65536 * 256)%Z by reflexivity.
    rewrite <- Z.div_div by lia.
    pose proof (Z.div_mod (x / 65536) 256 ltac:(lia)). lia. }
  assert (E3 : (x / 256 = (x / 65536) * 256 + (x / 256) mod 256)%Z).
  { replace 65536%Z with (256 * 256)%Z by reflexivity.
    rewrite <- Z.div_div by lia.
    pose proof (Z.div_mod (x / 256) 256 ltac:(lia)). lia. }
  pose proof (Z.div_mod x 256 ltac:(lia)) as H4.
  lia.
Qed.

(** ** ByteBuffer *)

Import ByteBuffer.

Lemma putU64_result (data : Q) (index : option nat) (b : ByteBuffer.t) :
  let pos := match index with Some i => i | None => position b end in
  pos + 8 <= length (buffer b) ->
  exists b',
    putU64 data index b = Ok b'
    /\ position b' = position b + (match index with Some _ => 8 | None => 16 end)
    /\ buffer b' = splice (buffer b) pos (u64bytes (littleEndian b) data)
    /\ littleEndian b' = littleEndian b.
Proof.
  intros pos Hfit. unfold putU64, useDataView. fold pos.
  destruct (Nat.ltb_spec (length (buffer b)) (pos + 8)) as [Hlt|_]; [lia|].
  set (b1 := if limit b <? pos + 8 then with_limit b (pos + 8) else b).
  assert (Hb1 : buffer b1 = buffer b /\ position b1 = position b
                /\ littleEndian b1 = littleEndian b).
  { unfold b1. destruct (limit b <? pos + 8); auto. }
  destruct Hb1 as (Hbuf & Hpos & Hle).
  assert (Himg : forall c : ByteBuffer.t,
    buffer c = buffer b -> littleEndian c = littleEndian b ->
    buffer (if littleEndian c
            then store (store c pos (u32bytes true (Qtrunc data mod 4294967296)))
                       (pos + 4) (u32bytes true (Qfloor (data / 4294967296)%Q))
            else store (store c pos (u32bytes false (Qfloor (data / 4294967296)%Q)))
                       (pos + 4) (u32bytes false (Qtrunc data mod 4294967296)))
    = splice (buffer b) pos (u64bytes (littleEndian b) data)).
  { intros c Hc Hl. rewrite Hl. unfold u64bytes.
    destruct (littleEndian b); unfold store, with_buffer; cbn [buffer];
      rewrite Hc; unfold u32bytes; rewrite u32be_mod.
    - change (pos + 4) with (pos + length (rev (u32be (Qtrunc data)))).
      apply splice_adjacent. rewrite !length_rev, !length_u32be. lia.
    - change (pos + 4) with (pos + length (u32be (Qfloor (data / 4294967296)%Q))).
      apply splice_adjacent. rewrite !length_u32be. lia. }
  destruct index as [i|]; simpl bind.
  - eexists. split; [reflexivity|]. simpl position.
    repeat split.
    + destruct (littleEndian b1); simpl; lia.
    + apply Himg; assumption.
    + destruct (littleEndian b1) eqn:E; simpl; congruence.
  - unfold bytesUsed at 1. simpl andb. cbv iota. simpl bind.
    eexists. split; [reflexivity|]. simpl position.
    repeat split.
    + destruct (littleEndian _); simpl; lia.
    + simpl buffer. apply (Himg (with_position b1 (position b1 + 8))); simpl; assumption.
    + simpl. destruct (littleEndian b1) eqn:E; simpl; congruence.
Qed.

Lemma useDataView_write (len : nat) (index : option nat) (b : ByteBuffer.t) :
  let pos := match index with Some i => i | None => position b end in
  pos + len <= length (buffer b) ->
  exists b1,
    useDataView len false index b = Ok (b1, pos)
    /\ buffer b1 = buffer b
    /\ position b1 = position b + (match index with Some _ => 0 | None => len end)
    /\ littleEndian b1 = littleEndian b.
Proof.
  intros pos Hfit. unfold useDataView. fold pos.
  destruct (Nat.ltb_spec (length (buffer b)) (pos + len)) as [Hlt|_]; [lia|].
  destruct index as [i|]; simpl bind.
  - eexists. split; [reflexivity|].
    destruct (limit b <? pos + len); simpl; auto.
  - unfold bytesUsed. simpl andb. cbv iota. simpl bind.
    eexists. split; [reflexivity|].
    destruct (limit b <? pos + len); simpl; auto.
Qed.

Lemma useDataView_overflow (len : nat) (reading : bool) (index : option nat)
    (b : ByteBuffer.t) :
  length (buffer b) < (match index with Some i => i | None => position b end) + len ->
  useDataView len reading index b = Throw "failed to write over the capacity".
Proof.
  intros Hlt. unfold useDataView.
  destruct (Nat.ltb_spec (length (buffer b))
              ((match index with Some i => i | None => position b end) + len));
    [reflexivity | lia].
Qed.

(** ** Sequential writers *)

Lemma Rep_append (b : ByteBuffer.t) (w ws : bytes) (k n : nat) :
  buffer b = w ++ zeros k -> length ws <= k ->
  position b = length w + n -> littleEndian b = false -> n = length ws ->
  Rep (store b (length w) ws) (w ++ ws) (k - length ws).
Proof.
  intros Hbuf Hroom Hpos Hle ->. unfold Rep, store, with_buffer. cbn.
  rewrite Hbuf, splice_app, skipn_zeros, length_app, <- app_assoc. auto.
Qed.

Lemma emits_ret {A : Type} (a : A) (p : nat) : emits (Mp4.ret a) p a [].
Proof.
  intros b w k HR _ _. exists b. split; [reflexivity|].
  now rewrite app_nil_r, Nat.sub_0_r.
Qed.

Lemma emits_getPosition (p : nat) : emits Mp4.getPosition p p [].
Proof.
  intros b w k HR Hp _. exists b. split.
  - unfold Mp4.getPosition, getPosition. destruct HR as (_ & -> & _). now rewrite Hp.
  - now rewrite app_nil_r, Nat.sub_0_r.
Qed.

Lemma emits_seq {A B : Type} (c : Mp4.W A) (f : A -> Mp4.W B) (p : nat)
    (a : A) (r : B) (ws1 ws2 : bytes) :
  emits c p a ws1 ->
  emits (f a) (p + length ws1) r ws2 ->
  emits (Mp4.seq c f) p r (ws1 ++ ws2).
Proof.
  intros H1 H2 b w k HR Hp Hroom. rewrite length_app in Hroom.
  destruct (H1 b w k HR Hp ltac:(lia)) as (b1 & E1 & HR1).
  destruct (H2 b1 (w ++ ws1) (k - length ws1) HR1) as (b2 & E2 & HR2).
  - rewrite length_app. lia.
  - lia.
  - exists b2. split.
    + unfold Mp4.seq. now rewrite E1.
    + rewrite length_app, app_assoc.
      now replace (k - (length ws1 + length ws2)) with (k - length ws1 - length ws2) by lia.
Qed.

Lemma emits_view (len : nat) (img : ByteBuffer.t -> bytes)
    (f : ByteBuffer.t -> result ByteBuffer.t) (ws : bytes) (p : nat) :
  length ws = len ->
  (forall b, f b = ('(b1, off) <- useDataView len false None b ;; Ok (store b1 off (img b1)))) ->
  (forall b, littleEndian b = false -> img b = ws) ->
  emits (Mp4.call f) p tt ws.
Proof.
  intros Hlen Hf Himg b w k (Hbuf & Hpos & Hle) Hp Hroom.
  destruct (useDataView_write len None b) as (b1 & E & Hb1 & Hp1 & Hl1).
  { cbn. rewrite Hbuf, length_app, length_zeros. lia. }
  cbn in E. eexists. split.
  - unfold Mp4.call. rewrite Hf, E. cbn. reflexivity.
  - rewrite Himg by congruence. rewrite Hpos.
    apply Rep_append with (n := len); try congruence; lia.
Qed.

Lemma emits_putU8 (v : Z) (p : nat) : emits (Mp4.putU8 v) p tt [(v mod 256)%Z].
Proof. now apply emits_view with (len := 1) (img := fun _ => [(v mod 256)%Z]). Qed.

Lemma emits_putU16 (v : Z) (p : nat) : emits (Mp4.putU16 v) p tt (u16be v).
Proof.
  apply emits_view with (len := 2) (img := fun b => u16bytes (littleEndian b) v); auto.
  intros b ->. reflexivity.
Qed.

Lemma emits_putI16 (v : Z) (p : nat) : emits (Mp4.putI16 v) p tt (u16be v).
Proof.
  apply emits_view with (len := 2) (img := fun b => u16bytes (littleEndian b) v); auto.
  intros b ->. reflexivity.
Qed.

Lemma emits_putU32 (v : Z) (p : nat) : emits (Mp4.putU32 v) p tt (u32be v).
Proof.
  apply emits_view with (len := 4) (img := fun b => u32bytes (littleEndian b) v); auto.
  intros b ->. reflexivity.
Qed.

Lemma emits_putI32 (v : Z) (p : nat) : emits (Mp4.putI32 v) p tt (u32be v).
Proof. now apply emits_view with (len := 4) (img := fun _ => u32be v). Qed.

(** The position moves by 16 for the 8 bytes stored: the writer leaves 8
    untouched bytes behind the value. *)
Lemma emits_putU64 (q : Q) (p : nat) :
  emits (Mp4.putU64 q) p tt (u64bytes false q ++ zeros 8).
Proof.
  intros b w k (Hbuf & Hpos & Hle) Hp Hroom.
  rewrite length_app, length_u64bytes, length_zeros in Hroom.
  destruct (putU64_result q None b) as (b' & E & Hp' & Hb' & Hl').
  { cbn. rewrite Hbuf, length_app, length_zeros. lia. }
  exists b'. split.
  - unfold Mp4.putU64, Mp4.call. now rewrite E.
  - unfold Rep. rewrite Hb', Hp', Hl', Hle, Hpos, Hbuf, splice_app.
    rewrite length_u64bytes, skipn_zeros, !length_app, length_u64bytes, length_zeros.
    repeat split; try lia.
    rewrite <- !app_assoc. do 2 f_equal.
    rewrite zeros_app. f_equal. lia.
Qed.

Lemma emits_putU8Array (a : bytes) (p : nat) : emits (Mp4.putU8Array a) p tt a.
Proof.
  intros b w k (Hbuf & Hpos & Hle) Hp Hroom.
  unfold Mp4.putU8Array, Mp4.call, putU8Array.
  destruct (Nat.ltb_spec (length (buffer b)) (position b + length a)) as [Hlt|_].
  { rewrite Hbuf, length_app, length_zeros in Hlt. lia. }
  unfold bytesUsed. cbn [andb]. eexists. split; [reflexivity|].
  destruct (limit b <? position b + length a);
    unfold Rep, store, with_buffer, with_position, with_limit;
    cbn [buffer position littleEndian limit];
    rewrite Hbuf, Hpos, splice_app, skipn_zeros, length_app, <- app_assoc; auto.
Qed.

Lemma length_flat_map_const (width : nat) (img : Z -> bytes) (a : list Z) :
  (forall v, length (img v) = width) ->
  length (flat_map img a) = length a * width.
Proof.
  intros Hw. induction a as [|x a IH]; simpl; [reflexivity|].
  rewrite length_app, Hw, IH. lia.
Qed.

Lemma emits_putU16Array (a : list Z) (p : nat) :
  emits (Mp4.putU16Array a) p tt (flat_map u16be a).
Proof.
  intros b w k (Hbuf & Hpos & Hle) Hp Hroom.
  pose proof (length_flat_map_const 2 u16be a length_u16be) as Hlen.
  rewrite Hlen in Hroom.
  unfold Mp4.putU16Array, Mp4.call, putU16Array.
  destruct (Nat.ltb_spec (length (buffer b)) (position b + length a * 2)) as [Hlt|_].
  { rewrite Hbuf, length_app, length_zeros in Hlt. lia. }
  unfold bytesUsed. cbn [andb]. eexists. split; [reflexivity|].
  rewrite Hle. unfold u16bytes.
  change (fun x => u16be x) with u16be.
  set (b1 := store b (position b) (flat_map u16be a)).
  assert (Hb : buffer (if limit b1 <? position b + length a * 2
                       then with_limit b1 (position b + length a * 2) else b1)
               = (w ++ flat_map u16be a) ++ zeros (k - length a * 2)).
  { destruct (limit b1 <? _); unfold b1, store, with_buffer; cbn;
      now rewrite Hbuf, Hpos, splice_app, skipn_zeros, Hlen, <- app_assoc. }
  unfold Rep, with_position. cbn [buffer position littleEndian].
  rewrite Hb, Hlen, length_app, Hlen.
  repeat split.
  - destruct (limit b1 <? _); cbn; lia.
  - destruct (limit b1 <? _); cbn; auto.
Qed.

Lemma emits_putU32Array (a : list Z) (p : nat) :
  emits (Mp4.putU32Array a) p tt (flat_map u32be a).
Proof.
  intros b w k (Hbuf & Hpos & Hle) Hp Hroom.
  pose proof (length_flat_map_const 4 u32be a length_u32be) as Hlen.
  rewrite Hlen in Hroom.
  unfold Mp4.putU32Array, Mp4.call, putU32Array.
  destruct (Nat.ltb_spec (length (buffer b)) (position b + length a * 4)) as [Hlt|_].
  { rewrite Hbuf, length_app, length_zeros in Hlt. lia. }
  unfold bytesUsed. cbn [andb]. eexists. split; [reflexivity|].
  rewrite Hle. unfold u32bytes.
  change (fun x => u32be x) with u32be.
  set (b1 := store b (position b) (flat_map u32be a)).
  assert (Hb : buffer (if limit b1 <? position b + length a * 4
                       then with_limit b1 (position b + length a * 4) else b1)
               = (w ++ flat_map u32be a) ++ zeros (k - length a * 4)).
  { destruct (limit b1 <? _); unfold b1, store, with_buffer; cbn;
      now rewrite Hbuf, Hpos, splice_app, skipn_zeros, Hlen, <- app_assoc. }
  unfold Rep, with_position. cbn [buffer position littleEndian].
  rewrite Hb, Hlen, length_app, Hlen.
  repeat split.
  - destruct (limit b1 <? _); cbn; lia.
  - destruct (limit b1 <? _); cbn; auto.
Qed.

Lemma length_utf8 (s : string) : length (utf8 s) = String.length s.
Proof.
  unfold utf8. rewrite length_map.
  induction s as [|c s IH]; simpl; congruence.
Qed.

Lemma emits_putUtf8Raw (s : string) (p : nat) : emits (Mp4.putUtf8Raw s) p tt (utf8 s).
Proof.
  intros b w k (Hbuf & Hpos & Hle) Hp Hroom.
  unfold Mp4.putUtf8Raw, Mp4.call, putUtf8Raw.
  assert (Hav : firstn (length (buffer b) - position b) (utf8 s) = utf8 s).
  { apply firstn_all2. rewrite Hbuf, length_app, length_zeros. lia. }
  rewrite Hav. unfold bytesUsed. cbn [andb bind]. rewrite Nat.eqb_refl.
  eexists. split; [reflexivity|].
  unfold Rep, store, with_buffer, with_position. cbn.
  rewrite Hbuf, Hpos, splice_app, skipn_zeros, length_app, <- app_assoc. auto.
Qed.

Lemma emits_call_at (f : ByteBuffer.t -> result ByteBuffer.t) (w1 old new w2 : bytes) :
  length old = length new ->
  (forall b k, Rep b (w1 ++ old ++ w2) k ->
     exists b', f b = Ok b' /\ buffer b' = splice (buffer b) (length w1) new
                /\ position b' = position b /\ littleEndian b' = littleEndian b) ->
  forall b k, Rep b (w1 ++ old ++ w2) k ->
    exists b', Mp4.call f b = Ok (tt, b') /\ Rep b' (w1 ++ new ++ w2) k.
Proof.
  intros Hlen Hf b k HR.
  destruct (Hf b k HR) as (b' & E & Hb & Hp & Hl).
  destruct HR as (Hbuf & Hpos & Hle).
  exists b'. split; [unfold Mp4.call; now rewrite E|].
  unfold Rep. rewrite Hb, Hp, Hl, Hbuf, Hpos, Hle.
  rewrite <- !app_assoc, splice_app, !length_app, <- Hlen.
  repeat split; auto.
  rewrite skipn_app, skipn_all, Nat.sub_diag. cbn [app skipn].
  reflexivity.
Qed.

(** A positional 32-bit store over four bytes written earlier. *)
Lemma patch_u32 (f : Z -> option nat -> ByteBuffer.t -> result ByteBuffer.t)
    (v : Z) (w1 old w2 : bytes) :
  (forall b, f v (Some (length w1)) b =
     ('(b1, off) <- useDataView 4 false (Some (length w1)) b ;; Ok (store b1 off (u32be v)))
     \/ f v (Some (length w1)) b =
     ('(b1, off) <- useDataView 4 false (Some (length w1)) b ;;
      Ok (store b1 off (u32bytes (littleEndian b1) v)))) ->
  length old = 4 ->
  forall b k, Rep b (w1 ++ old ++ w2) k ->
    exists b', Mp4.call (f v (Some (length w1))) b = Ok (tt, b')
               /\ Rep b' (w1 ++ u32be v ++ w2) k.
Proof.
  intros Hf Hold. apply emits_call_at; [now rewrite length_u32be|].
  intros b k (Hbuf & Hpos & Hle).
  destruct (useDataView_write 4 (Some (length w1)) b) as (b1 & E & Hb1 & Hp1 & Hl1).
  { cbn. rewrite Hbuf, !length_app. lia. }
  cbn in E. exists (store b1 (length w1) (u32be v)). split.
  - destruct (Hf b) as [-> | ->]; rewrite E; cbn; [reflexivity|].
    now rewrite Hl1, Hle.
  - unfold store, with_buffer; cbn. rewrite Hb1, Hp1, Hl1. repeat split; lia.
Qed.

Lemma emits_throw_free {A : Type} (c1 c2 : Mp4.W A) (p : nat) (a : A) (ws : bytes) :
  (forall b, c1 b = c2 b) -> emits c2 p a ws -> emits c1 p a ws.
Proof.
  intros Heq H b w k HR Hp Hroom.
  destruct (H b w k HR Hp Hroom) as (b' & E & HR').
  exists b'. now rewrite Heq.
Qed.

(** The box a [putBox] call leaves behind: the size field counts the
    header and everything the body wrote. *)
Lemma emits_putBox {A : Type} (type : string) (write : Mp4.W A) (p : nat)
    (a : A) (ws : bytes) :
  String.length type = 4 ->
  emits write (p + 8) a ws ->
  emits (Mp4.putBox type write) p a
        (u32be (Z.of_nat (8 + length ws)) ++ utf8 type ++ ws).
Proof.
  intros Hty Hw b w k HR Hp Hroom.
  rewrite !length_app, length_u32be, length_utf8, Hty in Hroom.
  unfold Mp4.putBox, Mp4.seq at 1, Mp4.getPosition at 1.
  destruct (emits_putU32 0 p b w k HR Hp ltac:(rewrite length_u32be; lia)) as (b1 & E1 & HR1).
  unfold Mp4.seq at 1. rewrite E1, Hty. cbn [Nat.eqb negb].
  destruct (emits_putUtf8Raw type (p + 4) b1 _ _ HR1) as (b2 & E2 & HR2).
  { rewrite length_app, length_u32be. lia. }
  { rewrite length_utf8, length_u32be. lia. }
  unfold Mp4.seq at 1. rewrite E2.
  destruct (Hw b2 _ _ HR2) as (b3 & E3 & HR3).
  { rewrite !length_app, length_u32be, length_utf8. lia. }
  { rewrite length_u32be, length_utf8. lia. }
  unfold Mp4.seq at 1. rewrite E3.
  unfold Mp4.seq at 1, Mp4.getPosition at 1.
  assert (Hend : getPosition b3 = length w + 8 + length ws).
  { unfold getPosition. destruct HR3 as (_ & -> & _).
    rewrite !length_app, length_u32be, length_utf8. lia. }
  assert (Hstart : getPosition b = length w)
    by (unfold getPosition; now destruct HR as (_ & -> & _)).
  rewrite Hend, Hstart.
  rewrite <- !app_assoc in HR3.
  destruct (patch_u32 putU32
              (Z.of_nat (length w + 8 + length ws) - Z.of_nat (length w))
              w (u32be 0) (utf8 type ++ ws)) with (b := b3)
              (k := k - length (u32be 0) - length (utf8 type) - length ws)
    as (b4 & E4 & HR4).
  - intros c. right. reflexivity.
  - apply length_u32be.
  - exact HR3.
  - unfold Mp4.seq at 1. rewrite E4. unfold Mp4.ret.
    exists b4. split; [reflexivity|].
    replace (Z.of_nat (length w + 8 + length ws) - Z.of_nat (length w))%Z
      with (Z.of_nat (8 + length ws)) in HR4 by lia.
    rewrite !length_app, length_u32be, length_utf8, Hty.
    rewrite length_u32be, length_utf8, Hty in HR4.
    now replace (k - (4 + (4 + length ws))) with (k - 4 - 4 - length ws) by lia.
Qed.

Lemma emits_putFullBox {A : Type} (type : string) (version flags : Z)
    (write : Mp4.W A) (p : nat) (a : A) (ws : bytes) :
  String.length type = 4 ->
  (0 <= version <= 255)%Z -> (0 <= flags <= 16777215)%Z ->
  emits write (p + 12) a ws ->
  emits (Mp4.putFullBox type version flags write) p a
        (u32be (Z.of_nat (12 + length ws)) ++ utf8 type
         ++ [(version mod 256)%Z; (Z.land (Z.shiftr flags 16) 255 mod 256)%Z;
             (Z.land (Z.shiftr flags 8) 255 mod 256)%Z; (Z.land flags 255 mod 256)%Z]
         ++ ws).
Proof.
  intros Hty Hv Hf Hw. unfold Mp4.putFullBox.
  destruct (Z.ltb_spec version 0) as [?|_]; [lia|].
  destruct (Z.ltb_spec 255 version) as [?|_]; [lia|].
  destruct (Z.ltb_spec flags 0) as [?|_]; [lia|].
  destruct (Z.ltb_spec 16777215 flags) as [?|_]; [lia|].
  cbn [orb].
  set (hdr := [(version mod 256)%Z; (Z.land (Z.shiftr flags 16) 255 mod 256)%Z;
               (Z.land (Z.shiftr flags 8) 255 mod 256)%Z; (Z.land flags 255 mod 256)%Z]).
  replace (12 + length ws) with (8 + length (hdr ++ ws))
    by (rewrite length_app; cbn; lia).
  apply emits_putBox; [assumption|].
  change (hdr ++ ws) with ([(version mod 256)%Z]
    ++ [(Z.land (Z.shiftr flags 16) 255 mod 256)%Z]
    ++ [(Z.land (Z.shiftr flags 8) 255 mod 256)%Z]
    ++ [(Z.land flags 255 mod 256)%Z] ++ ws).
  eapply emits_seq; [apply emits_putU8|].
  eapply emits_seq; [apply emits_putU8|].
  eapply emits_seq; [apply emits_putU8|].
  eapply emits_seq; [apply emits_putU8|].
  cbn [length]. now replace (p + 8 + 1 + 1 + 1 + 1) with (p + 12) by lia.
Qed.

(** ** Box writers against the box layout *)

Lemma encode_box (type : string) (fields : bytes) (children : list Box) :
  encode (box type fields children)
  = u32be (Z.of_nat (4 + length (utf8 type ++ fields ++ encodeAll children)))
    ++ utf8 type ++ fields ++ encodeAll children.
Proof. reflexivity. Qed.

Lemma encodeAll_nil : encodeAll [] = [].
Proof. reflexivity. Qed.

Lemma encodeAll_cons (b : Box) (l : list Box) : encodeAll (b :: l) = encode b ++ encodeAll l.
Proof. reflexivity. Qed.

(** Every box starts with the number of bytes it occupies. *)
Lemma encode_size_field (b : Box) :
  firstn 4 (encode b) = u32be (Z.of_nat (length (encode b))).
Proof.
  destruct b as [type fields children]. rewrite encode_box.
  set (rest := utf8 type ++ fields ++ encodeAll children).
  rewrite length_app, length_u32be.
  change 4 with (length (u32be (Z.of_nat (4 + length rest)))) at 1.
  now rewrite firstn_app, firstn_all, Nat.sub_diag, firstn_O, app_nil_r.
Qed.

Lemma emits_eq {A : Type} (c : Mp4.W A) (p : nat) (a : A) (ws ws' : bytes) :
  ws = ws' -> emits c p a ws -> emits c p a ws'.
Proof. now intros ->. Qed.

Lemma emits_box {A : Type} (type : string) (write : Mp4.W A) (p : nat) (a : A)
    (fields : bytes) (children : list Box) :
  String.length type = 4 ->
  emits write (p + 8) a (fields ++ encodeAll children) ->
  emits (Mp4.putBox type write) p a (encode (box type fields children)).
Proof.
  intros Hty Hw. rewrite encode_box.
  rewrite length_app, length_utf8, Hty.
  replace (4 + (4 + length (fields ++ encodeAll children)))
    with (8 + length (fields ++ encodeAll children)) by lia.
  now apply emits_putBox.
Qed.

Lemma emits_fullBox {A : Type} (type : string) (version flags : Z)
    (write : Mp4.W A) (p : nat) (a : A) (fields : bytes) (children : list Box) :
  String.length type = 4 ->
  (0 <= version <= 255)%Z -> (0 <= flags <= 16777215)%Z ->
  emits write (p + 12) a (fields ++ encodeAll children) ->
  emits (Mp4.putFullBox type version flags write) p a
        (encode (fullBox type version flags fields children)).
Proof.
  intros Hty Hv Hf Hw. unfold fullBox. rewrite encode_box.
  rewrite <- !app_assoc.
  rewrite length_app, length_utf8, Hty.
  cbn [length app].
  replace (4 + (4 + S (S (S (S (length (fields ++ encodeAll children)))))))
    with (12 + length (fields ++ encodeAll children)) by lia.
  now apply emits_putFullBox.
Qed.

Lemma emits_putU64_field (q : Q) (p : nat) : emits (Mp4.putU64 q) p tt (u64field q).
Proof. apply emits_putU64. Qed.

Lemma emits_seq_nil {A B : Type} (c : Mp4.W A) (f : A -> Mp4.W B) (p : nat)
    (a : A) (r : B) (ws : bytes) :
  emits c p a [] -> emits (f a) p r ws -> emits (Mp4.seq c f) p r ws.
Proof.
  intros H1 H2. change ws with ([] ++ ws).
  eapply emits_seq; [exact H1|]. cbn [length]. now rewrite Nat.add_0_r.
Qed.

Lemma emits_seq_last {A B : Type} (c : Mp4.W A) (f : A -> Mp4.W B) (p : nat)
    (a : A) (r : B) (ws : bytes) :
  emits c p a ws -> emits (f a) (p + length ws) r [] -> emits (Mp4.seq c f) p r ws.
Proof.
  intros H1 H2. rewrite <- (app_nil_r ws). eapply emits_seq; eassumption.
Qed.

Lemma emits_val {A : Type} (c : Mp4.W A) (p : nat) (a a' : A) (ws : bytes) :
  a = a' -> emits c p a ws -> emits c p a' ws.
Proof. now intros ->. Qed.

Ltac emits_prim :=
  first [ apply emits_ret | apply emits_putU8 | apply emits_putU16 | apply emits_putI16
        | apply emits_putU32 | apply emits_putI32 | apply emits_putU64_field
        | apply emits_putU8Array | apply emits_putU16Array | apply emits_putU32Array
        | apply emits_putUtf8Raw ].

Ltac emits_run :=
  repeat first
    [ emits_prim
    | eapply emits_seq; [emits_prim|]
    | eapply emits_seq_nil; [first [apply emits_getPosition | apply emits_ret]|]
    | eapply emits_seq_last; [emits_prim|] ].

Ltac emits_fields :=
  rewrite ?encodeAll_nil, ?app_nil_r, <- ?app_assoc; emits_run.

Ltac emits_leaf :=
  first [ apply emits_fullBox; [reflexivity | lia | lia | emits_fields]
        | apply emits_box; [reflexivity | emits_fields] ].

Lemma emits_putMfhdBox (sequenceNumber : Z) (p : nat) :
  emits (Mp4.putMfhdBox sequenceNumber) p tt
        (encode (fullBox "mfhd" 0 0 (u32be sequenceNumber) [])).
Proof. unfold Mp4.putMfhdBox. emits_leaf. Qed.

Lemma emits_putTfhdBox (trackId : Z) (p : nat) :
  emits (Mp4.putTfhdBox trackId) p tt
        (encode (fullBox "tfhd" 0 131072 (u32be trackId) [])).
Proof. unfold Mp4.putTfhdBox. emits_leaf. Qed.

(** The version-1 [tfdt] box: 8 bytes of header, 4 of version and flags,
    8 of decode time and the 8 bytes [putU64] skips. *)
Lemma emits_putTfdtBox (baseDecodeTime : Q) (p : nat) :
  emits (Mp4.putTfdtBox 1 baseDecodeTime) p tt
        (encode (fullBox "tfdt" 1 0 (u64field baseDecodeTime) [])).
Proof. unfold Mp4.putTfdtBox. cbn [Z.eqb Pos.eqb]. emits_leaf. Qed.

Lemma emits_putTrunBox (frameDuration : Q) (frameSize : nat)
    (isKeyframe isFirstSample : bool) (p : nat) :
  emits (Mp4.putTrunBox frameDuration frameSize isKeyframe isFirstSample) p (p + 16)
        (encode (trunBox 0 frameDuration frameSize isKeyframe isFirstSample)).
Proof.
  apply (emits_val _ _ (p + 12 + length (u32be 1))); [rewrite length_u32be; lia|].
  unfold Mp4.putTrunBox, trunBox.
  destruct isFirstSample; cbn [negb Z.lor Pos.lor];
    (apply emits_fullBox; [reflexivity | lia | lia |]); emits_fields.
Qed.

Lemma length_u64field (q : Q) : length (u64field q) = 16.
Proof. unfold u64field. now rewrite length_app, length_u64bytes, length_zeros. Qed.

Lemma length_cons_bytes (x : Z) (l : bytes) : length (x :: l) = S (length l).
Proof. reflexivity. Qed.

Lemma length_nil_bytes : length (@nil Z) = 0.
Proof. reflexivity. Qed.

Create Rewrite HintDb len.
#[local] Hint Rewrite encode_box encodeAll_cons encodeAll_nil length_app length_u32be
  length_u16be length_utf8 length_zeros length_u64field length_u64bytes
  length_cons_bytes length_nil_bytes : len.

Ltac lens := unfold fullBox; autorewrite with len; cbn [String.length].

Ltac emits_children :=
  cbn [app]; rewrite ?encodeAll_cons, ?encodeAll_nil, ?app_nil_r, <- ?app_assoc.

Lemma emits_moof (trackId sequenceNumber : Z) (baseDecodeTime frameDuration : Q)
    (isKeyframe : bool) (frameSize : nat) (p : nat) :
  emits
    (Mp4.putMoofBox
       (Mp4.seq (Mp4.putMfhdBox sequenceNumber) (fun _ =>
        Mp4.putTrafBox
          (Mp4.seq (Mp4.putTfhdBox trackId) (fun _ =>
           Mp4.seq (Mp4.putTfdtBox 1 baseDecodeTime) (fun _ =>
           Mp4.putTrunBox frameDuration frameSize isKeyframe
                          (sequenceNumber =? 1)%Z))))))
    p (p + 92)
    (encode (moofBox 0 trackId sequenceNumber baseDecodeTime frameDuration
               isKeyframe frameSize)).
Proof.
  unfold moofBox, Mp4.putMoofBox, Mp4.putTrafBox.
  apply emits_box; [reflexivity|]. emits_children.
  eapply emits_seq; [apply emits_putMfhdBox|].
  apply emits_box; [reflexivity|]. emits_children.
  eapply emits_seq; [apply emits_putTfhdBox|].
  eapply emits_seq; [apply emits_putTfdtBox|].
  eapply emits_val; [|apply emits_putTrunBox].
  lens. lia.
Qed.

(** The [moof] box around its [data_offset] field, 92 bytes in. *)
Lemma encode_moof_split (trackId sequenceNumber : Z)
    (baseDecodeTime frameDuration : Q) (isKeyframe : bool) (frameSize : nat) :
  exists pre post,
    length pre = 92
    /\ (forall d, length (pre ++ u32be d ++ post) = 108)
    /\ forall d',
      encode (moofBox d' trackId sequenceNumber baseDecodeTime frameDuration
                isKeyframe frameSize)
      = pre ++ u32be d' ++ post.
Proof.
  set (first := (sequenceNumber =? 1)%Z).
  exists (u32be 108 ++ utf8 "moof"
          ++ encode (fullBox "mfhd" 0 0 (u32be sequenceNumber) [])
          ++ u32be 84 ++ utf8 "traf"
          ++ encode (fullBox "tfhd" 0 131072 (u32be trackId) [])
          ++ encode (fullBox "tfdt" 1 0 (u64field baseDecodeTime) [])
          ++ u32be 32 ++ utf8 "trun"
          ++ [0; Z.land (Z.shiftr (if first then 773 else 1793) 16) 255 mod 256;
              Z.land (Z.shiftr (if first then 773 else 1793) 8) 255 mod 256;
              Z.land (if first then 773 else 1793) 255 mod 256]%Z
          ++ u32be 1).
  exists ((if first then u32be (if isKeyframe then 33554432 else 16842752) else [])
          ++ u32be (Qtrunc frameDuration)
          ++ u32be (Z.of_nat frameSize)
          ++ (if first then [] else u32be (if isKeyframe then 33554432 else 16842752))).
  split; [|split].
  - lens. reflexivity.
  - intros d. lens. destruct first; lens; reflexivity.
  - intros d'. unfold moofBox, trunBox. fold first.
    lens. destruct first; lens; cbn [Nat.add Z.of_nat Pos.of_succ_nat Pos.succ];
      rewrite <- ?app_assoc; reflexivity.
Qed.

Lemma emits_putMdatBox (frame : bytes) (p : nat) :
  emits (Mp4.putMdatBox frame) p tt (encode (box "mdat" frame [])).
Proof. unfold Mp4.putMdatBox. apply emits_box; [reflexivity | emits_fields]. Qed.

(** The frame segment is the [moof] box, with its [data_offset] patched
    to the first byte of the frame, followed by the [mdat] box. *)
Lemma emits_putVideoFrameSegment (trackId sequenceNumber : Z)
    (baseDecodeTime frameDuration : Q) (isKeyframe : bool) (frame : bytes) (p : nat) :
  isKeyframe && negb (h264NalType (nth 4 frame 0%Z) =? 5)%Z = false ->
  emits (Mp4.putVideoFrameSegment trackId sequenceNumber baseDecodeTime frameDuration
           isKeyframe frame)
        p tt
        (encodeAll (frameSegmentBoxes trackId sequenceNumber baseDecodeTime
                      frameDuration isKeyframe frame)).
Proof.
  intros Hidr b w k HR Hp Hroom.
  unfold Mp4.putVideoFrameSegment. rewrite Hidr.
  unfold frameSegmentBoxes in *. rewrite encodeAll_cons, encodeAll_cons, encodeAll_nil,
    app_nil_r in *.
  destruct (encode_moof_split trackId sequenceNumber baseDecodeTime frameDuration
              isKeyframe (length frame)) as (pre & post & Hpre & Hlen & Hsplit).
  rewrite length_app, Hsplit, Hlen in Hroom.
  unfold Mp4.seq at 1, Mp4.getPosition at 1.
  destruct (emits_moof trackId sequenceNumber baseDecodeTime frameDuration isKeyframe
              (length frame) p b w k HR Hp) as (b1 & E1 & HR1).
  { rewrite Hsplit, Hlen. lia. }
  assert (Hstart : getPosition b = p)
    by (unfold getPosition; destruct HR as (_ & -> & _); exact Hp).
  rewrite Hstart. unfold Mp4.seq at 1. rewrite E1.
  unfold Mp4.seq at 1, Mp4.getPosition at 1.
  rewrite Hsplit in HR1. rewrite Hlen in HR1.
  assert (Hend : getPosition b1 = p + 108).
  { unfold getPosition. destruct HR1 as (_ & -> & _). rewrite length_app, Hlen. lia. }
  rewrite Hend.
  replace (Z.of_nat (p + 108) - Z.of_nat p + 8)%Z with 116%Z by lia.
  rewrite app_assoc in HR1.
  replace (p + 92) with (length (w ++ pre)) by (rewrite length_app; lia).
  destruct (patch_u32 (fun v i => putI32 v i) 116 (w ++ pre) (u32be 0) post)
    with (b := b1) (k := k - 108) as (b2 & E2 & HR2).
  - intros c. left. reflexivity.
  - apply length_u32be.
  - exact HR1.
  - unfold Mp4.seq at 1. rewrite E2.
    rewrite <- app_assoc, <- (Hsplit 116%Z) in HR2.
    destruct (emits_putMdatBox frame (p + 108) b2 _ _ HR2) as (b3 & E3 & HR3).
    + rewrite length_app, (Hsplit 116%Z), Hlen. lia.
    + revert Hroom. lens. lia.
    + exists b3. split; [exact E3|].
      rewrite <- app_assoc in HR3.
      assert (Hl : length (encode (moofBox 116 trackId sequenceNumber baseDecodeTime
                                     frameDuration isKeyframe (length frame))
                           ++ encode (box "mdat" frame []))
                   = 108 + length (encode (box "mdat" frame [])))
        by (now rewrite length_app, (Hsplit 116%Z), Hlen).
      rewrite Hl.
      now replace (k - (108 + length (encode (box "mdat" frame []))))
        with (k - 108 - length (encode (box "mdat" frame []))) by lia.
Qed.

Lemma length_frameSegment (trackId sequenceNumber : Z)
    (baseDecodeTime frameDuration : Q) (isKeyframe : bool) (frame : bytes) :
  length (encodeAll (frameSegmentBoxes trackId sequenceNumber baseDecodeTime
                       frameDuration isKeyframe frame))
  = 116 + length frame.
Proof.
  unfold frameSegmentBoxes. rewrite encodeAll_cons, encodeAll_cons, encodeAll_nil, app_nil_r.
  destruct (encode_moof_split trackId sequenceNumber baseDecodeTime frameDuration
              isKeyframe (length frame)) as (pre & post & Hpre & Hlen & Hsplit).
  rewrite length_app, (Hsplit 116%Z), Hlen. lens. lia.
Qed.

(** [writeSegment] on a writer with a known layout. *)
Lemma writeSegment_emits (capacity : nat) (writer : Mp4.W unit) (ws : bytes) :
  emits writer 0 tt ws -> length ws <= capacity ->
  MediaSourceDecoder.writeSegment capacity writer = Ok ws.
Proof.
  intros Hw Hroom. unfold MediaSourceDecoder.writeSegment.
  destruct (Hw (create capacity false) [] capacity) as (b' & E & Hbuf & Hpos & Hle);
    [repeat split | reflexivity | assumption |].
  rewrite E. cbn [bind]. f_equal.
  unfold getRemainingBuffer, flip, slice. cbn [position limit buffer].
  rewrite Hpos, Hbuf. cbn [app skipn].
  now rewrite Nat.sub_0_r, firstn_app, firstn_all, Nat.sub_diag, firstn_O, app_nil_r.
Qed.

Lemma seq_assoc {A B C : Type} (c : Mp4.W A) (f : A -> Mp4.W B) (g : B -> Mp4.W C)
    (b : ByteBuffer.t) :
  Mp4.seq (Mp4.seq c f) g b = Mp4.seq c (fun x => Mp4.seq (f x) g) b.
Proof.
  unfold Mp4.seq. destruct (c b) as [[a b']|m]; reflexivity.
Qed.

Lemma emits_seq_assoc {A B C : Type} (c : Mp4.W A) (f : A -> Mp4.W B)
    (g : B -> Mp4.W C) (p : nat) (r : C) (ws : bytes) :
  emits (Mp4.seq c (fun x => Mp4.seq (f x) g)) p r ws ->
  emits (Mp4.seq (Mp4.seq c f) g) p r ws.
Proof.
  apply emits_throw_free. intro b. apply seq_assoc.
Qed.

Ltac emits_tree :=
  lazymatch goal with
  | |- emits (Mp4.seq (Mp4.seq _ _) _) _ _ _ =>
      apply emits_seq_assoc; cbv beta; emits_tree
  | |- emits (Mp4.seq Mp4.getPosition _) _ _ _ =>
      eapply emits_seq_nil; [apply emits_getPosition|]; emits_tree
  | |- emits (Mp4.seq (Mp4.ret _) _) _ _ _ =>
      eapply emits_seq_nil; [apply emits_ret|]; emits_tree
  | |- emits (Mp4.seq _ _) _ _ (_ ++ _) =>
      eapply emits_seq; [emits_tree | emits_tree]
  | |- emits (Mp4.seq _ _) _ _ _ =>
      eapply emits_seq_last; [emits_tree | emits_tree]
  | |- emits (Mp4.putBox _ _) _ _ _ =>
      apply emits_box; [reflexivity | emits_children; emits_tree]
  | |- emits (Mp4.putFullBox _ _ _ _) _ _ _ =>
      apply emits_fullBox; [reflexivity | lia | lia | emits_children; emits_tree]
  | |- _ => emits_prim
  end.

Lemma emits_putVideoInitSegment (timescale trackId width height : Z) (avcC : bytes)
    (p : nat) :
  emits (Mp4.putVideoInitSegment timescale trackId width height avcC) p tt
        (encodeAll (initSegmentBoxes timescale trackId width height avcC)).
Proof.
  unfold Mp4.putVideoInitSegment, initSegmentBoxes.
  unfold Mp4.putFTypeBox, Mp4.putMoovBox, Mp4.putMvhdBox, Mp4.putTrakBox,
    Mp4.putTkhdBox, Mp4.putMdiaBox, Mp4.putMdhdBox, Mp4.putHdlrBox, Mp4.putMinfBox,
    Mp4.putVmhdBox, Mp4.putDinfBox, Mp4.putDrefBox, Mp4.putUrlBox, Mp4.putStblBox,
    Mp4.putStsdBox, Mp4.putAvc1Box, Mp4.putAvcCBox, Mp4.putSttsBox, Mp4.putStscBox,
    Mp4.putStszBox, Mp4.putStco, Mp4.putMvexBox, Mp4.putTrexBox.
  change (Mp4.isLanguage "und") with true.
  cbn [Mp4.forEach String.length length Nat.eqb negb Z.eqb Pos.eqb Z.of_nat repeat
       Mp4.MATRIX].
  emits_children.
  emits_tree.
Qed.

Lemma length_initSegment (timescale trackId width height : Z) (avcC : bytes) :
  length (encodeAll (initSegmentBoxes timescale trackId width height avcC))
  = 623 + length avcC.
Proof.
  unfold initSegmentBoxes. lens.
  rewrite !(length_flat_map_const 4 u32be), !(length_flat_map_const 2 u16be)
    by reflexivity.
  cbn [length Mp4.MATRIX]. lia.
Qed.

(** C6. Every box the fragmented-MP4 emitter writes starts with a
    big-endian 32-bit field equal to the number of bytes the box occupies
    in the output, header included: [putBox] stores the distance the
    position moved, whatever the body did, so the 8 bytes that [putU64]
    skips behind a version-1 [tfdt] time are counted (its field is 28);
    the frame segment and the init segment are, byte for byte, the
    encodings of their box trees, in which every size field is the total
    length of its box. *)
Theorem box_length_field :
  (forall b : Box, firstn 4 (encode b) = u32be (Z.of_nat (length (encode b))))
  /\ (forall (A : Type) (type : string) (write : Mp4.W A) (p : nat) (a : A) (ws : bytes),
        String.length type = 4 ->
        emits write (p + 8) a ws ->
        emits (Mp4.putBox type write) p a
              (u32be (Z.of_nat (8 + length ws)) ++ utf8 type ++ ws))
  /\ (forall (baseDecodeTime : Q) (p : nat),
        emits (Mp4.putTfdtBox 1 baseDecodeTime) p tt
              (u32be 28 ++ utf8 "tfdt" ++ [1; 0; 0; 0]%Z
               ++ u64bytes false baseDecodeTime ++ zeros 8))
  /\ (forall (capacity : nat) (trackId sequenceNumber : Z)
             (baseDecodeTime frameDuration : Q) (isKeyframe : bool) (frame : bytes),
        isKeyframe && negb (h264NalType (nth 4 frame 0%Z) =? 5)%Z = false ->
        116 + length frame <= capacity ->
        MediaSourceDecoder.writeSegment capacity
          (Mp4.putVideoFrameSegment trackId sequenceNumber baseDecodeTime
             frameDuration isKeyframe frame)
        = Ok (encodeAll (frameSegmentBoxes trackId sequenceNumber baseDecodeTime
                           frameDuration isKeyframe frame)))
  /\ (forall (capacity : nat) (timescale trackId width height : Z) (avcC : bytes),
        623 + length avcC <= capacity ->
        MediaSourceDecoder.writeSegment capacity
          (Mp4.putVideoInitSegment timescale trackId width height avcC)
        = Ok (encodeAll (initSegmentBoxes timescale trackId width height avcC))).
Proof.
  split; [exact encode_size_field|].
  split; [intros; now apply emits_putBox|].
  split.
  { intros t p.
    apply (emits_eq _ _ _ (encode (fullBox "tfdt" 1 0 (u64field t) [])));
      [|apply emits_putTfdtBox].
    lens. unfold u64field. cbn [Nat.add Z.of_nat Pos.of_succ_nat Pos.succ app].
    now rewrite <- ?app_assoc, app_nil_r. }
  split.
  - intros capacity trackId sequenceNumber baseDecodeTime frameDuration isKeyframe
      frame Hidr Hroom.
    apply writeSegment_emits.
    + now apply emits_putVideoFrameSegment.
    + now rewrite length_frameSegment.
  - intros capacity timescale trackId width height avcC Hroom.
    apply writeSegment_emits.
    + apply emits_putVideoInitSegment.
    + now rewrite length_initSegment.
Qed.

Lemma box_length_field_witness :
  true && negb (h264NalType (nth 4 [0; 0; 0; 1; 101]%Z 0%Z) =? 5)%Z = false
  /\ 116 + length [0; 0; 0; 1; 101]%Z <= 405
  /\ MediaSourceDecoder.writeSegment 405
       (Mp4.putVideoFrameSegment 1 1 0%Q (50000 # 3)%Q true [0; 0; 0; 1; 101]%Z)
     = Ok (encodeAll (frameSegmentBoxes 1 1 0%Q (50000 # 3)%Q true [0; 0; 0; 1; 101]%Z)).
Proof.
  split; [reflexivity|]. split; [simpl; lia|].
  apply (proj1 (proj2 (proj2 (proj2 box_length_field)))); [reflexivity | simpl; lia].
Defined.

(** C10. A successful [putU64] without an index stores 8 bytes at the
    position and moves the position by 16: once in [useDataView] and once
    more by the trailing [bytesUsed(8)]; the 8 bytes in between are not
    written, so in a fresh buffer the next write comes after 8 zero bytes.
    With an index the store is positional and the position still moves by
    8. *)
Theorem putU64_advances_twice (data : Q) (b : ByteBuffer.t) :
  position b + 8 <= length (buffer b) ->
  (exists b',
     putU64 data None b = Ok b'
     /\ position b' = position b + 16
     /\ buffer b' = splice (buffer b) (position b) (u64bytes (littleEndian b) data)
     /\ length (u64bytes (littleEndian b) data) = 8)
  /\ (forall i, i + 8 <= length (buffer b) ->
      exists b',
        putU64 data (Some i) b = Ok b'
        /\ position b' = position b + 8
        /\ buffer b' = splice (buffer b) i (u64bytes (littleEndian b) data))
  /\ (forall (v : Z) (n : nat), 20 <= n ->
      exists b1 b2,
        putU64 data None (create n false) = Ok b1
        /\ putU32 v None b1 = Ok b2
        /\ position b2 = 20
        /\ buffer b2 = u64bytes false data ++ zeros 8 ++ u32be v ++ zeros (n - 20)).
Proof.
  intros Hfit. split; [|split].
  - destruct (putU64_result data None b Hfit) as (b' & E & Hp & Hb & _).
    exists b'. repeat split; auto. apply length_u64bytes.
  - intros i Hi.
    destruct (putU64_result data (Some i) b Hi) as (b' & E & Hp & Hb & _).
    exists b'. auto.
  - intros v n Hn.
    destruct (emits_putU64 data 0 (create n false) [] n) as (b1 & E1 & HR1);
      [repeat split | reflexivity | rewrite length_app, length_u64bytes, length_zeros; lia |].
    destruct (emits_putU32 v 16 b1 _ _ HR1) as (b2 & E2 & HR2).
    { cbn [app]. rewrite length_app, length_u64bytes, length_zeros. reflexivity. }
    { rewrite length_app, length_u64bytes, length_zeros, length_u32be. lia. }
    unfold Mp4.putU64, Mp4.call in E1. unfold Mp4.putU32, Mp4.call in E2.
    destruct (putU64 data None (create n false)) as [c1|] eqn:F1; [|discriminate].
    destruct (putU32 v None b1) as [c2|] eqn:F2; [|discriminate].
    injection E1 as ->. injection E2 as ->.
    exists b1, b2. repeat split; auto.
    + destruct HR2 as (_ & -> & _).
      now rewrite !length_app, length_u64bytes, length_zeros, length_u32be.
    + destruct HR2 as (-> & _). cbn [app].
      rewrite !length_app, length_u64bytes, length_zeros, length_u32be.
      rewrite <- !app_assoc. do 3 f_equal. f_equal. lia.
Qed.

Lemma putU64_advances_twice_witness :
  position (create 32 false) + 8 <= length (buffer (create 32 false))
  /\ exists b',
       putU64 (inject_Z 5) None (create 32 false) = Ok b'
       /\ position b' = 16
       /\ buffer b' = [0; 0; 0; 0; 0; 0; 0; 5]%Z ++ zeros 24.
Proof.
  assert (H : position (create 32 false) + 8 <= length (buffer (create 32 false)))
    by (vm_compute; lia).
  split; [exact H|].
  destruct (proj1 (putU64_advances_twice (inject_Z 5) (create 32 false) H))
    as (b' & E & Hp & Hb & _).
  exists b'. split; [exact E|]. split; [exact Hp|].
  rewrite Hb. reflexivity.
Defined.

(** ** The translators: configuration records *)

Import Translator.

Lemma poke_zeros (v : Z) (w : bytes) (k : nat) :
  poke v (w ++ zeros (S k), length w) = ((w ++ [v]) ++ zeros k, length (w ++ [v])).
Proof.
  unfold poke.
  destruct (Nat.ltb_spec (length w) (length (w ++ zeros (S k)))) as [_|Hge].
  - rewrite splice_app, <- app_assoc, length_app. cbn [length skipn].
    f_equal. lia.
  - rewrite length_app, length_zeros in Hge. lia.
Qed.

Lemma pokeAll_zeros (src w : bytes) (k : nat) :
  pokeAll src (w ++ zeros (length src + k), length w)
  = Ok ((w ++ src) ++ zeros k, length (w ++ src)).
Proof.
  unfold pokeAll, set_at.
  destruct (Nat.ltb_spec (length (w ++ zeros (length src + k))) (length w + length src))
    as [Hlt|_].
  - rewrite length_app, length_zeros in Hlt. lia.
  - rewrite splice_app, skipn_zeros, <- app_assoc, length_app.
    replace (length src + k - length src) with k by lia.
    reflexivity.
Qed.

Lemma shiftr8_byte (n : Z) :
  (0 <= n)%Z -> [(Z.shiftr n 8 mod 256)%Z; Z.land n 255] = u16be n.
Proof.
  intros Hn. unfold u16be.
  change 255%Z with (Z.ones 8). rewrite Z.land_ones, Z.shiftr_div_pow2 by lia.
  change (2 ^ 8)%Z with 256%Z.
  pose proof (Z.div_mod n 65536 ltac:(lia)) as Hdm.
  pose proof (Z.mod_pos_bound n 65536 ltac:(lia)) as Hb.
  set (q := (n / 65536)%Z) in *. set (r := (n mod 65536)%Z) in *.
  assert (Hdiv : (n / 256 = q * 256 + r / 256)%Z).
  { rewrite Hdm. replace (65536 * q)%Z with (q * 256 * 256)%Z by lia.
    now rewrite Z.div_add_l by lia. }
  assert (Hmod : (n mod 256 = r mod 256)%Z).
  { rewrite Hdm at 1. replace (65536 * q)%Z with (q * 256 * 256)%Z by lia.
    now rewrite Z.add_comm, Z.mod_add by lia. }
  rewrite Hdiv, Hmod.
  rewrite Z.add_comm, Z.mod_add by lia.
  rewrite Z.mod_small; [reflexivity|].
  split; [apply Z.div_pos; lia|].
  apply Z.div_lt_upper_bound; lia.
Qed.

(** The record [h264MakeAvcC] returns: the layout and one more byte. *)
Lemma h264MakeAvcC_result (sps pps : bytes) :
  h264MakeAvcC sps pps = Ok (avccRecord sps pps ++ [0%Z]).
Proof.
  unfold h264MakeAvcC.
  replace (7 + 2 + length sps + 1 + 2 + length pps)
    with (S (S (S (S (S (S (S (S (length sps + S (S (S (length pps + 1))))))))))))
    by lia.
  change (zeros ?n, 0) with ([] ++ zeros n, length (@nil Z)).
  rewrite !poke_zeros, pokeAll_zeros. cbn [bind].
  rewrite !poke_zeros, pokeAll_zeros. cbn [bind fst].
  unfold avccRecord.
  rewrite <- (shiftr8_byte (Z.of_nat (length sps))), <- (shiftr8_byte (Z.of_nat (length pps)))
    by lia.
  cbn [app]. rewrite <- !app_assoc. reflexivity.
Qed.

(** C3. For every SPS [S] and PPS [P] the record begins with the bytes
    [01, S[1], S[2], S[3], FF, E1, u16be(|S|), S, 01, u16be(|P|), P] of the
    layout, but it is not exactly that sequence: the array is allocated
    with a header of 7 bytes where 6 are written, so one zero byte
    follows [P]. *)
Theorem h264MakeAvcC_trailing_byte (sps pps : bytes) :
  h264MakeAvcC sps pps = Ok (avccRecord sps pps ++ [0%Z])
  /\ h264MakeAvcC sps pps <> Ok (avccRecord sps pps)
  /\ h264MakeAvcC [103; 66; 224; 30; 141]%Z [104; 206; 60; 128]%Z
     = Ok [1; 66; 224; 30; 255; 225; 0; 5; 103; 66; 224; 30; 141;
           1; 0; 4; 104; 206; 60; 128; 0]%Z.
Proof.
  split; [apply h264MakeAvcC_result|]. split.
  - rewrite h264MakeAvcC_result. intros H. injection H as H.
    apply (f_equal (@length Z)) in H. rewrite length_app in H. cbn [length] in H. lia.
  - reflexivity.
Qed.

(** ** The codec tag of an SPS *)

Lemma numToHex_byte_nat (n : nat) :
  n < 256 -> numToHex (Z.of_nat n) = hex2 (Z.of_nat n).
Proof.
  intros Hn.
  assert (Hall : forallb (fun k => String.eqb (numToHex (Z.of_nat k)) (hex2 (Z.of_nat k)))
                         (seq 0 256) = true) by (vm_compute; reflexivity).
  rewrite forallb_forall in Hall.
  apply String.eqb_eq, Hall, in_seq. lia.
Qed.

Lemma numToHex_byte (b : Z) : (0 <= b < 256)%Z -> numToHex b = hex2 b.
Proof.
  intros Hb. rewrite <- (Z2Nat.id b) by lia. apply numToHex_byte_nat. lia.
Qed.

Lemma h264ParseSps_avc1 (header profileIdc constraintFlags levelIdc : Z) (rest : bytes) :
  h264NalType header = 7%Z ->
  exists sps,
    h264ParseSps (ByteBuffer.wrap (header :: profileIdc :: constraintFlags :: levelIdc :: rest)
                                  false)
    = Ok sps
    /\ avc1 sps = ("avc1." ++ numToHex profileIdc ++ numToHex constraintFlags
                   ++ numToHex levelIdc)%string.
Proof.
  intros Hty. unfold h264NalType in Hty.
  unfold h264ParseSps, getU8, wrap, bytesUsed. cbn [position buffer limit nth_error bind
    with_position andb Nat.add length Nat.ltb Nat.leb].
  rewrite Hty. cbn [Z.eqb Pos.eqb negb nth_error bind position buffer limit with_position
    andb Nat.add Nat.ltb Nat.leb length].
  eexists. split; reflexivity.
Qed.

(** C9. An SPS NAL that carries [profile_idc], [constraint_flags] and
    [level_idc] behind its header byte sets [config.codec] to "avc1."
    followed by the three bytes, each as exactly two lower-case
    hexadecimal digits; 0x64, 0x00, 0x32 give "avc1.640032". *)
Theorem sps_sets_codec_tag (header profileIdc constraintFlags levelIdc : Z)
    (rest : bytes) (st : State H264) (config : VideoDecoderConfig) :
  h264NalType header = 7%Z ->
  (0 <= profileIdc < 256)%Z ->
  (0 <= constraintFlags < 256)%Z ->
  (0 <= levelIdc < 256)%Z ->
  decoderConfig st = Some config ->
  (exists st',
     onChunkUnit (header :: profileIdc :: constraintFlags :: levelIdc :: rest) st
     = Ok (false, st')
     /\ decoderConfig st'
        = Some {| codec := ("avc1." ++ hex2 profileIdc ++ hex2 constraintFlags
                            ++ hex2 levelIdc)%string;
                  description := description config |})
  /\ ("avc1." ++ hex2 100 ++ hex2 0 ++ hex2 50)%string = "avc1.640032"%string.
Proof.
  intros Hty Hp Hc Hl Hcfg. split; [|reflexivity].
  destruct (h264ParseSps_avc1 header profileIdc constraintFlags levelIdc rest Hty)
    as (sps & Esps & Havc).
  cbn [onChunkUnit H264StreamVideoTranslator]. unfold h264_onChunkUnit.
  cbn [nth]. rewrite Hty. cbn [Z.eqb Pos.eqb].
  rewrite Esps. cbn [bind decoderConfig with_codec]. rewrite Hcfg.
  eexists. split; [reflexivity|].
  cbn [decoderConfig with_config]. rewrite Havc.
  now rewrite !numToHex_byte by assumption.
Qed.

Lemma sps_sets_codec_tag_witness :
  h264NalType 103 = 7%Z
  /\ exists st',
       onChunkUnit [103; 100; 0; 50; 172]%Z (@Translator.create H264 _) = Ok (false, st')
       /\ decoderConfig st' = Some {| codec := "avc1.640032"; description := None |}.
Proof.
  split; [reflexivity|].
  destruct (proj1 (sps_sets_codec_tag 103 100 0 50 [172%Z] (@Translator.create H264 _)
                     {| codec := "undefined"; description := None |}
                     eq_refl ltac:(lia) ltac:(lia) ltac:(lia) eq_refl))
    as (st' & E & Hc).
  exists st'. split; [exact E | exact Hc].
Defined.

(** ** Annex-B scanning *)

Lemma startsWith_skipn (buffer : bytes) (position : nat) (check : bytes) :
  startsWith buffer position check = startsWith (skipn position buffer) 0 check.
Proof.
  revert buffer position.
  induction check as [|c check IH]; intros buffer position; [reflexivity|].
  cbn [startsWith].
  replace (nth_error (skipn position buffer) 0) with (nth_error buffer position)
    by (rewrite nth_error_skipn; f_equal; lia).
  destruct (nth_error buffer position); [|reflexivity].
  destruct (z =? c)%Z; [|reflexivity].
  rewrite (IH buffer (S position)), (IH (skipn position buffer) 1), skipn_skipn.
  reflexivity.
Qed.

Lemma startsWith_out_of_range (buffer : bytes) (position : nat) (c : Z) (check : bytes) :
  length buffer <= position -> startsWith buffer position (c :: check) = false.
Proof.
  intros Hle. cbn [startsWith].
  now rewrite (proj2 (nth_error_None buffer position) Hle).
Qed.

Lemma isNal_spec (nal : bytes) :
  isNal nal = true ->
  nal <> [] /\ last nal 0%Z <> 0%Z
  /\ forall i, startsWith nal i START_CODE_SHORT = false.
Proof.
  unfold isNal. rewrite !andb_true_iff, !negb_true_iff, forallb_forall.
  intros [[Hlen Hlast] Hall]. repeat split.
  - intros ->. discriminate.
  - now apply Z.eqb_neq.
  - intros i. destruct (Nat.lt_ge_cases i (length nal)) as [Hlt|Hge].
    + apply negb_true_iff, Hall, in_seq. lia.
    + now apply startsWith_out_of_range.
Qed.

Lemma last_skipn (l : bytes) (j : nat) (d : Z) :
  j < length l -> last (skipn j l) d = last l d.
Proof.
  revert j. induction l as [|x l IH]; intros j Hj; [cbn in Hj; lia|].
  destruct j as [|j]; [reflexivity|].
  cbn [skipn]. cbn [length] in Hj. rewrite IH by lia.
  destruct l; [cbn in Hj; lia | reflexivity].
Qed.

Ltac split_eqb :=
  repeat match goal with
         | |- context [(?x =? ?y)%Z] => destruct (Z.eqb_spec x y); subst
         | H : context [(?x =? ?y)%Z] |- _ => destruct (Z.eqb_spec x y); subst
         end.

(** Inside a NAL unit that is followed by a start code or by the end of
    the data, no position starts a start code. *)
Lemma no_start_code_inside (pre nal post : bytes) (j : nat) :
  isNal nal = true ->
  j < length nal ->
  (post = [] \/ exists rest, post = 0%Z :: rest) ->
  startsWith (pre ++ nal ++ post) (length pre + j) START_CODE_LONG = false
  /\ startsWith (pre ++ nal ++ post) (length pre + j) START_CODE_SHORT = false.
Proof.
  intros Hnal Hj Hpost.
  destruct (isNal_spec nal Hnal) as (_ & Hlast & Hin).
  rewrite !(startsWith_skipn (pre ++ nal ++ post)).
  rewrite skipn_app, skipn_all2, app_nil_l by lia.
  replace (length pre + j - length pre) with j by lia.
  rewrite skipn_app. replace (j - length nal) with 0 by lia. cbn [skipn].
  pose proof (Hin j) as H0. pose proof (Hin (S j)) as H1.
  rewrite startsWith_skipn in H0, H1. rewrite <- (skipn_skipn 1 j) in H1.
  rewrite <- (last_skipn nal j 0%Z Hj) in Hlast.
  assert (Hne : skipn j nal <> []).
  { intros E. apply (f_equal (@length Z)) in E. rewrite length_skipn in E. cbn in E. lia. }
  destruct (skipn j nal) as [|a [|b [|c [|d t]]]]; [congruence| | | |];
    unfold START_CODE_LONG, START_CODE_SHORT in *;
    cbn [last skipn app] in *;
    destruct Hpost as [-> | (rest & ->)];
    cbn [startsWith nth_error app] in *;
    try (destruct rest as [|r1 [|r2 rest]]; cbn [startsWith nth_error skipn] in *);
    split_eqb; try congruence; auto;
    try (destruct rest as [|r3 rest]; cbn [startsWith nth_error skipn] in *;
         split_eqb; try congruence; auto).
Qed.

Lemma start_code_found (pre sc rest : bytes) :
  isStartCode sc ->
  (if startsWith (pre ++ sc ++ rest) (length pre) START_CODE_LONG
   then Some (length START_CODE_LONG)
   else if startsWith (pre ++ sc ++ rest) (length pre) START_CODE_SHORT
        then Some (length START_CODE_SHORT)
        else None)
  = Some (length sc).
Proof.
  intros Hsc. rewrite !(startsWith_skipn (pre ++ sc ++ rest)).
  rewrite skipn_app, skipn_all, Nat.sub_diag. cbn [app skipn].
  destruct Hsc as [-> | ->]; reflexivity.
Qed.

Lemma slice_middle (pre mid post : bytes) :
  slice (pre ++ mid ++ post) (length pre) (length pre + length mid) = mid.
Proof.
  unfold slice. rewrite skipn_app, skipn_all, Nat.sub_diag. cbn [app skipn].
  replace (length pre + length mid - length pre) with (length mid) by lia.
  now rewrite firstn_app, firstn_all, Nat.sub_diag, firstn_O, app_nil_r.
Qed.

Section Scanning.

Context {T : Type} {C : Codec T}.

Lemma scanLoop_end (fuel : nat) (data : bytes) (sc : Scan T) :
  length data <= currentPosition sc -> scanLoop fuel data sc = Ok sc.
Proof.
  intros Hle. destruct fuel; cbn [scanLoop];
    destruct (Nat.ltb_spec (currentPosition sc) (length data)); auto; lia.
Qed.

(** Over the bytes of a NAL unit the loop only moves the position. *)
Lemma scanLoop_skip_nal (pre nal post : bytes) (ub cfs : nat) (st : State T) (fuel : nat) :
  isNal nal = true ->
  (post = [] \/ exists rest, post = 0%Z :: rest) ->
  forall m j,
    j + m = length nal ->
    scanLoop (m + fuel) (pre ++ nal ++ post)
      {| unitBegin := ub; currentPosition := length pre + j;
         currentFrameSize := cfs; self := st |}
    = scanLoop fuel (pre ++ nal ++ post)
        {| unitBegin := ub; currentPosition := length pre + length nal;
           currentFrameSize := cfs; self := st |}.
Proof.
  intros Hnal Hpost. induction m as [|m IH]; intros j Hj.
  - cbn [Nat.add]. do 3 f_equal. lia.
  - destruct (no_start_code_inside pre nal post j Hnal ltac:(lia) Hpost) as [HL HS].
    cbn [Nat.add scanLoop currentPosition].
    destruct (Nat.ltb_spec (length pre + j) (length (pre ++ nal ++ post))) as [_|Hge].
    2:{ rewrite !length_app in Hge. lia. }
    rewrite HL, HS. unfold advance. cbn [currentPosition unitBegin currentFrameSize self].
    replace (length pre + j + 1) with (length pre + S j) by lia.
    apply IH. lia.
Qed.

(** At a start code the loop hands the bytes since the last one to
    [handleStartCode], except at offset 0, and moves behind the code. *)
Lemma scanLoop_start_code (pre sc rest : bytes) (ub cfs : nat) (st : State T)
    (fuel : nat) :
  isStartCode sc ->
  scanLoop (S fuel) (pre ++ sc ++ rest)
    {| unitBegin := ub; currentPosition := length pre;
       currentFrameSize := cfs; self := st |}
  = (sc1 <- (if negb (length pre =? 0)
             then handleStartCode (pre ++ sc ++ rest)
                    {| unitBegin := ub; currentPosition := length pre;
                       currentFrameSize := cfs; self := st |}
             else Ok {| unitBegin := ub; currentPosition := length pre;
                        currentFrameSize := cfs; self := st |}) ;;
     scanLoop fuel (pre ++ sc ++ rest) (advance sc1 (length sc) true)).
Proof.
  intros Hsc. cbn [scanLoop currentPosition].
  destruct (Nat.ltb_spec (length pre) (length (pre ++ sc ++ rest))) as [_|Hge].
  2:{ rewrite !length_app in Hge. destruct Hsc as [-> | ->]; cbn in Hge; lia. }
  now rewrite (start_code_found pre sc rest Hsc).
Qed.

Lemma scanLoop_skip_whole (pre nal post : bytes) (ub cfs : nat) (st : State T)
    (fuel : nat) :
  isNal nal = true ->
  (post = [] \/ exists rest, post = 0%Z :: rest) ->
  scanLoop (length nal + fuel) (pre ++ nal ++ post)
    {| unitBegin := ub; currentPosition := length pre;
       currentFrameSize := cfs; self := st |}
  = scanLoop fuel (pre ++ nal ++ post)
      {| unitBegin := ub; currentPosition := length pre + length nal;
         currentFrameSize := cfs; self := st |}.
Proof.
  intros Hnal Hpost.
  rewrite <- (scanLoop_skip_nal pre nal post ub cfs st fuel Hnal Hpost (length nal) 0 eq_refl).
  now rewrite Nat.add_0_r.
Qed.

End Scanning.

Lemma sizeBuffer_bytes (x : Z) :
  exists b,
    ByteBuffer.putU32 x None (ByteBuffer.create 4 false) = Ok b
    /\ getRemainingBuffer (flip b) = u32be x.
Proof.
  destruct (emits_putU32 x 0 (ByteBuffer.create 4 false) [] 4) as (b & E & Hbuf & Hpos & _);
    [repeat split | reflexivity | rewrite length_u32be; lia |].
  unfold Mp4.putU32, Mp4.call in E.
  destruct (ByteBuffer.putU32 x None (ByteBuffer.create 4 false)) as [c|] eqn:F; [|discriminate].
  injection E as ->. exists b. split; [reflexivity|].
  unfold getRemainingBuffer, flip, slice. cbn [position limit buffer].
  rewrite Hpos, Hbuf. cbn [app length skipn Nat.sub]. rewrite length_u32be.
  cbn [Nat.sub]. change 4 with (length (u32be x)) at 1.
  now rewrite firstn_app, firstn_all, Nat.sub_diag, firstn_O, app_nil_r.
Qed.

Lemma checkFrameBufferSize_fits {T : Type} (cfs extra : nat) (st : State T) :
  cfs <= length (currentFrame st) ->
  let st1 := checkFrameBufferSize cfs extra st in
  cfs + extra <= length (currentFrame st1)
  /\ firstn cfs (currentFrame st1) = firstn cfs (currentFrame st)
  /\ decoderConfig st1 = decoderConfig st
  /\ codecState st1 = codecState st.
Proof.
  intros Hcfs. unfold checkFrameBufferSize.
  destruct (Nat.ltb_spec (length (currentFrame st)) (cfs + extra)) as [Hlt|Hge].
  - cbn [currentFrame with_frame decoderConfig codecState].
    assert (Hsp : splice (zeros ((cfs + extra) * 2)) 0 (currentFrame st)
                  = currentFrame st
                    ++ zeros ((cfs + extra) * 2 - length (currentFrame st))).
    { unfold splice. cbn [firstn app Nat.add]. now rewrite skipn_zeros. }
    rewrite Hsp. repeat split.
    + rewrite length_app, length_zeros. lia.
    + rewrite firstn_app. replace (cfs - length (currentFrame st)) with 0 by lia.
      cbn [firstn]. now rewrite app_nil_r.
  - cbn zeta. repeat split; auto.
Qed.

(** Appending a NAL unit to the output: its length on 32 bits, then its
    bytes, behind what the frame buffer holds already. *)
Lemma handleStartCode_include {T : Type} {C : Codec T} (data : bytes) (sc : Scan T)
    (st' : State T) :
  onChunkUnit (slice data (unitBegin sc) (currentPosition sc)) (self sc) = Ok (true, st') ->
  currentFrameSize sc <= length (currentFrame st') ->
  let sl := slice data (unitBegin sc) (currentPosition sc) in
  exists frame,
    handleStartCode data sc
    = Ok {| unitBegin := unitBegin sc; currentPosition := currentPosition sc;
            currentFrameSize := currentFrameSize sc + (length sl + 4);
            self := {| decoderConfig := decoderConfig st'; currentFrame := frame;
                       codecState := codecState st' |} |}
    /\ firstn (currentFrameSize sc + (length sl + 4)) frame
       = firstn (currentFrameSize sc) (currentFrame st')
         ++ u32be (Z.of_nat (length sl)) ++ sl
    /\ currentFrameSize sc + (length sl + 4) <= length frame.
Proof.
  intros Hon Hcfs sl. unfold handleStartCode. fold sl. fold sl in Hon.
  rewrite Hon. cbn [bind].
  destruct (checkFrameBufferSize_fits (currentFrameSize sc) (length sl + 4) st' Hcfs)
    as (Hfit & Hkeep & Hcfg & Hcs).
  set (st1 := checkFrameBufferSize (currentFrameSize sc) (length sl + 4) st') in *.
  destruct (sizeBuffer_bytes (Z.of_nat (length sl))) as (b & Eb & Hb).
  rewrite Eb. cbn [bind]. rewrite Hb.
  set (cfs := currentFrameSize sc) in *.
  unfold set_at. rewrite length_u32be.
  destruct (Nat.ltb_spec (length (currentFrame st1)) (cfs + 4)) as [?|_]; [lia|].
  cbn [bind].
  assert (Hl1 : length (splice (currentFrame st1) cfs (u32be (Z.of_nat (length sl))))
                = length (currentFrame st1))
    by (apply splice_length; rewrite length_u32be; lia).
  rewrite Hl1.
  destruct (Nat.ltb_spec (length (currentFrame st1)) (cfs + 4 + length sl)) as [?|_]; [lia|].
  cbn [bind]. eexists. split; [|split].
  - unfold with_frame. rewrite Hcfg, Hcs. reflexivity.
  - change (cfs + 4) with (cfs + length (u32be (Z.of_nat (length sl)))).
    rewrite splice_adjacent by (rewrite length_u32be; lia).
    unfold splice. rewrite <- Hkeep.
    assert (Hlen : length (firstn cfs (currentFrame st1)
                           ++ u32be (Z.of_nat (length sl)) ++ sl)
                   = cfs + (length sl + 4)).
    { rewrite !length_app, length_firstn, length_u32be. lia. }
    rewrite app_assoc, <- app_assoc, (app_assoc (firstn cfs _)).
    rewrite <- Hlen at 1.
    now rewrite firstn_app, firstn_all, Nat.sub_diag, firstn_O, app_nil_r.
  - rewrite splice_length; rewrite ?Hl1; rewrite ?length_u32be; lia.
Qed.

Lemma handleStartCode_skip {T : Type} {C : Codec T} (data : bytes) (sc : Scan T)
    (st' : State T) :
  onChunkUnit (slice data (unitBegin sc) (currentPosition sc)) (self sc) = Ok (false, st') ->
  handleStartCode data sc
  = Ok {| unitBegin := unitBegin sc; currentPosition := currentPosition sc;
          currentFrameSize := currentFrameSize sc; self := st' |}.
Proof.
  intros Hon. unfold handleStartCode. now rewrite Hon.
Qed.

(** ** The H.264 translator on SPS, PPS, IDR *)

Lemma h264_onChunkUnit_sps (sps : bytes) (st : State H264) (config : VideoDecoderConfig) :
  h264NalType (nth 0 sps 0%Z) = 7%Z ->
  4 <= length sps ->
  decoderConfig st = Some config ->
  onChunkUnit sps st
  = Ok (false,
        {| decoderConfig := Some {| codec := spsCodecTag sps;
                                    description := description config |};
           currentFrame := currentFrame st;
           codecState := {| h264_hasDescription := h264_hasDescription (codecState st);
                            h264_pps := h264_pps (codecState st);
                            h264_sps := Some sps |} |}).
Proof.
  intros Hty Hlen Hcfg.
  destruct sps as [|h [|p [|c [|l rest]]]]; try (cbn in Hlen; lia).
  cbn [nth] in Hty.
  destruct (h264ParseSps_avc1 h p c l rest Hty) as (parsed & Eparse & Havc).
  cbn [onChunkUnit H264StreamVideoTranslator]. unfold h264_onChunkUnit.
  cbn [nth]. rewrite Hty. cbn [Z.eqb Pos.eqb].
  rewrite Eparse. cbn [bind decoderConfig with_codec]. rewrite Hcfg.
  unfold with_config. cbn [decoderConfig currentFrame codecState].
  now rewrite Havc.
Qed.

Lemma h264_onChunkUnit_pps (pps : bytes) (st : State H264) :
  h264NalType (nth 0 pps 0%Z) = 8%Z ->
  onChunkUnit pps st
  = Ok (false,
        {| decoderConfig := decoderConfig st;
           currentFrame := currentFrame st;
           codecState := {| h264_hasDescription := h264_hasDescription (codecState st);
                            h264_pps := Some pps;
                            h264_sps := h264_sps (codecState st) |} |}).
Proof.
  intros Hty. cbn [onChunkUnit H264StreamVideoTranslator]. unfold h264_onChunkUnit.
  now rewrite Hty.
Qed.

Lemma h264_onChunkUnit_other (sl : bytes) (st : State H264) :
  h264NalType (nth 0 sl 0%Z) <> 7%Z ->
  h264NalType (nth 0 sl 0%Z) <> 8%Z ->
  onChunkUnit sl st = Ok (true, st).
Proof.
  intros H7 H8. cbn [onChunkUnit H264StreamVideoTranslator]. unfold h264_onChunkUnit.
  destruct (Z.eqb_spec (h264NalType (nth 0 sl 0%Z)) 7); [contradiction|].
  destruct (Z.eqb_spec (h264NalType (nth 0 sl 0%Z)) 8); [contradiction|].
  reflexivity.
Qed.

Lemma isStartCode_length (sc : bytes) : isStartCode sc -> 3 <= length sc <= 4.
Proof. intros [-> | ->]; cbn; lia. Qed.

Lemma isStartCode_zero (sc rest : bytes) :
  isStartCode sc -> exists rest', sc ++ rest = 0%Z :: rest'.
Proof. intros [-> | ->]; eexists; reflexivity. Qed.

(** The translation of a key unit made of an SPS, a PPS and an IDR. *)
Lemma h264_key_unit (num : Type) (sps pps idr sc1 sc2 sc3 : bytes)
    (timestamp duration : num) (st : State H264) (config : VideoDecoderConfig) :
  isStartCode sc1 -> isStartCode sc2 -> isStartCode sc3 ->
  isNal sps = true -> isNal pps = true -> isNal idr = true ->
  h264NalType (nth 0 sps 0%Z) = 7%Z -> 4 <= length sps ->
  h264NalType (nth 0 pps 0%Z) = 8%Z ->
  h264NalType (nth 0 idr 0%Z) = 5%Z ->
  decoderConfig st = Some config ->
  exists description st',
    h264MakeAvcC sps pps = Ok description
    /\ submitDecodeUnit
         {| type := key; data := sc1 ++ sps ++ sc2 ++ pps ++ sc3 ++ idr;
            timestampMicroseconds := timestamp; durationMicroseconds := duration |} st
       = Ok (Some {| configure := Some {| codec := spsCodecTag sps;
                                          description := Some description |};
                     chunk := Some (u32be (Z.of_nat (length idr)) ++ idr) |},
             st')
    /\ h264_hasDescription (codecState st') = true
    /\ h264_sps (codecState st') = None
    /\ h264_pps (codecState st') = None
    /\ decoderConfig st'
       = Some {| codec := spsCodecTag sps; description := Some description |}.
Proof.
  intros Hsc1 Hsc2 Hsc3 Hsps Hpps Hidr Ht7 Hlen Ht8 Ht5 Hcfg.
  pose proof (isStartCode_length sc1 Hsc1) as L1.
  pose proof (isStartCode_length sc2 Hsc2) as L2.
  pose proof (isStartCode_length sc3 Hsc3) as L3.
  (* the whole data, bracketed around each part *)
  assert (D1 : sc1 ++ sps ++ sc2 ++ pps ++ sc3 ++ idr
               = (sc1 ++ sps) ++ sc2 ++ (pps ++ sc3 ++ idr))
    by now rewrite <- !app_assoc.
  assert (D2 : (sc1 ++ sps) ++ sc2 ++ pps ++ sc3 ++ idr
               = ((sc1 ++ sps) ++ sc2) ++ pps ++ (sc3 ++ idr))
    by now rewrite <- !app_assoc.
  assert (D3 : ((sc1 ++ sps) ++ sc2) ++ pps ++ sc3 ++ idr
               = (((sc1 ++ sps) ++ sc2) ++ pps) ++ sc3 ++ idr)
    by now rewrite <- !app_assoc.
  assert (D4 : (((sc1 ++ sps) ++ sc2) ++ pps) ++ sc3 ++ idr
               = ((((sc1 ++ sps) ++ sc2) ++ pps) ++ sc3) ++ idr ++ [])
    by now rewrite app_nil_r, <- !app_assoc.
  destruct (isStartCode_zero sc2 (pps ++ sc3 ++ idr) Hsc2) as (r2 & Hr2).
  destruct (isStartCode_zero sc3 idr Hsc3) as (r3 & Hr3).
  (* the states after the SPS and after the PPS *)
  pose (st1 := {| decoderConfig := Some {| codec := spsCodecTag sps;
                                           description := description config |};
                  currentFrame := currentFrame st;
                  codecState := {| h264_hasDescription := h264_hasDescription (codecState st);
                                   h264_pps := h264_pps (codecState st);
                                   h264_sps := Some sps |} |}).
  pose (st2 := {| decoderConfig := decoderConfig st1;
                  currentFrame := currentFrame st1;
                  codecState := {| h264_hasDescription := h264_hasDescription (codecState st1);
                                   h264_pps := Some pps;
                                   h264_sps := h264_sps (codecState st1) |} |}).
  pose (pre := (((sc1 ++ sps) ++ sc2) ++ pps) ++ sc3).
  assert (Hon : onChunkUnit (slice (pre ++ idr ++ []) (length pre)
                               (length pre + length idr)) st2 = Ok (true, st2)).
  { rewrite slice_middle.
    apply h264_onChunkUnit_other; rewrite Ht5; discriminate. }
  destruct (handleStartCode_include (pre ++ idr ++ [])
              {| unitBegin := length pre; currentPosition := length pre + length idr;
                 currentFrameSize := 0; self := st2 |} st2 Hon ltac:(cbn; lia))
    as (frame & Eh & Hframe & Hfit).
  cbn [unitBegin currentPosition currentFrameSize self] in Eh, Hframe, Hfit.
  rewrite slice_middle in Eh, Hframe, Hfit.
  exists (avccRecord sps pps ++ [0%Z]). eexists.
  split; [apply h264MakeAvcC_result|].
  unfold submitDecodeUnit. rewrite Hcfg.
  cbn [type data startProcessChunk H264StreamVideoTranslator isKey orb negb].
  replace (length (sc1 ++ sps ++ sc2 ++ pps ++ sc3 ++ idr))
    with (S (length sps + S (length pps + S (length idr
            + (length sc1 + length sc2 + length sc3 - 3)))))
    by (rewrite !length_app; lia).
  (* the start code at offset 0 *)
  pose proof (scanLoop_start_code (C := H264StreamVideoTranslator)
                [] sc1 (sps ++ sc2 ++ pps ++ sc3 ++ idr) 0 0 st) as E0.
  cbn [app length Nat.eqb negb bind] in E0. rewrite E0 by assumption. clear E0.
  unfold advance at 1. cbn [unitBegin currentPosition currentFrameSize self Nat.add].
  (* the SPS *)
  rewrite (scanLoop_skip_whole sc1 sps (sc2 ++ pps ++ sc3 ++ idr) (length sc1) 0 st _ Hsps
             ltac:(right; eauto)).
  rewrite D1.
  replace (length sc1 + length sps) with (length (sc1 ++ sps)) by apply length_app.
  rewrite scanLoop_start_code by assumption.
  assert (Hne1 : (length (sc1 ++ sps) =? 0) = false)
    by (apply Nat.eqb_neq; rewrite length_app; lia).
  rewrite Hne1. cbn [negb].
  rewrite (handleStartCode_skip ((sc1 ++ sps) ++ sc2 ++ (pps ++ sc3 ++ idr))
             {| unitBegin := length sc1; currentPosition := length (sc1 ++ sps);
                currentFrameSize := 0; self := st |} st1
             ltac:(cbn [unitBegin currentPosition self];
                   rewrite <- D1, length_app, slice_middle;
                   exact (h264_onChunkUnit_sps sps st config Ht7 Hlen Hcfg))).
  cbn [bind]. unfold advance at 1.
  cbn [unitBegin currentPosition currentFrameSize self].
  (* the PPS *)
  rewrite D2.
  replace (length (sc1 ++ sps) + length sc2) with (length ((sc1 ++ sps) ++ sc2))
    by (rewrite (length_app (sc1 ++ sps)); lia).
  rewrite (scanLoop_skip_whole ((sc1 ++ sps) ++ sc2) pps (sc3 ++ idr) _ 0 st1 _ Hpps
             ltac:(right; eauto)).
  rewrite D3.
  replace (length ((sc1 ++ sps) ++ sc2) + length pps)
    with (length (((sc1 ++ sps) ++ sc2) ++ pps)) by apply length_app.
  rewrite scanLoop_start_code by assumption.
  assert (Hne2 : (length (((sc1 ++ sps) ++ sc2) ++ pps) =? 0) = false)
    by (apply Nat.eqb_neq; rewrite !length_app; lia).
  rewrite Hne2. cbn [negb].
  rewrite (handleStartCode_skip ((((sc1 ++ sps) ++ sc2) ++ pps) ++ sc3 ++ idr)
             {| unitBegin := length ((sc1 ++ sps) ++ sc2);
                currentPosition := length (((sc1 ++ sps) ++ sc2) ++ pps);
                currentFrameSize := 0; self := st1 |} st2
             ltac:(cbn [unitBegin currentPosition self];
                   rewrite <- D3, (length_app ((sc1 ++ sps) ++ sc2) pps), slice_middle;
                   exact (h264_onChunkUnit_pps pps st1 Ht8))).
  cbn [bind]. unfold advance at 1.
  cbn [unitBegin currentPosition currentFrameSize self].
  (* the IDR *)
  rewrite D4. fold pre.
  replace (length (((sc1 ++ sps) ++ sc2) ++ pps) + length sc3) with (length pre)
    by (unfold pre; rewrite (length_app _ sc3); lia).
  rewrite (scanLoop_skip_whole pre idr [] _ 0 st2 _ Hidr ltac:(left; reflexivity)).
  rewrite scanLoop_end
    by (cbn [currentPosition]; rewrite !length_app; cbn [length]; lia).
  cbn [bind]. rewrite Eh. cbn [bind self].
  cbn [endChunk H264StreamVideoTranslator]. unfold h264_endChunk.
  cbn [decoderConfig codecState h264_pps h264_sps st2 st1].
  rewrite h264MakeAvcC_result. cbn [bind currentFrame currentFrameSize codec].
  unfold slice. cbn [skipn Nat.sub Nat.add].
  rewrite Nat.sub_0_r. cbn [Nat.add] in Hframe. rewrite Hframe. cbn [firstn app].
  split; [reflexivity|].
  cbn [codecState h264_hasDescription h264_sps h264_pps decoderConfig]. repeat split.
Qed.

(** C1. A key unit made of an SPS [sps], a PPS [pps] and an IDR [idr],
    each behind a 3- or 4-byte start code in any mixture, is translated
    into the chunk [uint32-BE(|idr|) ++ idr] (nothing is emitted for the
    start code at offset 0), with a configuration whose description is
    the record [h264MakeAvcC] builds from [sps] and [pps]: the bytes
    [01 sps[1] sps[2] sps[3] FF E1 u16be(|sps|) sps 01 u16be(|pps|) pps]
    and the one byte the buffer has left over; [hasDescription] is set
    and no parameter set stays pending. *)
Theorem annexb_sps_pps_idr (num : Type) (sps pps idr sc1 sc2 sc3 : bytes)
    (timestamp duration : num) (st : State H264) (config : VideoDecoderConfig) :
  isStartCode sc1 -> isStartCode sc2 -> isStartCode sc3 ->
  isNal sps = true -> isNal pps = true -> isNal idr = true ->
  h264NalType (nth 0 sps 0%Z) = 7%Z -> 4 <= length sps ->
  h264NalType (nth 0 pps 0%Z) = 8%Z ->
  h264NalType (nth 0 idr 0%Z) = 5%Z ->
  decoderConfig st = Some config ->
  exists st',
    h264MakeAvcC sps pps = Ok (avccRecord sps pps ++ [0%Z])
    /\ submitDecodeUnit
         {| type := key; data := sc1 ++ sps ++ sc2 ++ pps ++ sc3 ++ idr;
            timestampMicroseconds := timestamp; durationMicroseconds := duration |} st
       = Ok (Some {| configure :=
                       Some {| codec := spsCodecTag sps;
                               description := Some (avccRecord sps pps ++ [0%Z]) |};
                     chunk := Some (u32be (Z.of_nat (length idr)) ++ idr) |},
             st')
    /\ h264_hasDescription (codecState st') = true
    /\ h264_sps (codecState st') = None
    /\ h264_pps (codecState st') = None.
Proof.
  intros Hsc1 Hsc2 Hsc3 Hsps Hpps Hidr Ht7 Hlen Ht8 Ht5 Hcfg.
  destruct (h264_key_unit num sps pps idr sc1 sc2 sc3 timestamp duration st config
              Hsc1 Hsc2 Hsc3 Hsps Hpps Hidr Ht7 Hlen Ht8 Ht5 Hcfg)
    as (description & st' & Hd & E & Hh & Hs & Hp & _).
  rewrite h264MakeAvcC_result in Hd. injection Hd as <-.
  exists st'. split; [apply h264MakeAvcC_result|]. auto.
Qed.

Lemma annexb_sps_pps_idr_witness :
  isStartCode [0; 0; 0; 1]%Z /\ isStartCode [0; 0; 1]%Z
  /\ isNal [103; 66; 224; 30; 141]%Z = true
  /\ isNal [104; 206; 60; 128]%Z = true
  /\ isNal [101; 136; 132]%Z = true
  /\ exists st',
       submitDecodeUnit
         {| type := key;
            data := [0; 0; 0; 1; 103; 66; 224; 30; 141; 0; 0; 1; 104; 206; 60; 128;
                     0; 0; 0; 1; 101; 136; 132]%Z;
            timestampMicroseconds := 0%Z; durationMicroseconds := 0%Z |}
         (@Translator.create H264 _)
       = Ok (Some {| configure :=
                       Some {| codec := "avc1.42e01e";
                               description :=
                                 Some [1; 66; 224; 30; 255; 225; 0; 5; 103; 66; 224; 30; 141;
                                       1; 0; 4; 104; 206; 60; 128; 0]%Z |};
                     chunk := Some [0; 0; 0; 3; 101; 136; 132]%Z |}, st')
       /\ h264_hasDescription (codecState st') = true.
Proof.
  split; [right; reflexivity|]. split; [left; reflexivity|].
  split; [reflexivity|]. split; [reflexivity|]. split; [reflexivity|].
  destruct (annexb_sps_pps_idr Z
              [103; 66; 224; 30; 141]%Z [104; 206; 60; 128]%Z [101; 136; 132]%Z
              [0; 0; 0; 1]%Z [0; 0; 1]%Z [0; 0; 0; 1]%Z 0%Z 0%Z
              (@Translator.create H264 _) {| codec := "undefined"; description := None |}
              (or_intror eq_refl) (or_introl eq_refl) (or_intror eq_refl)
              eq_refl eq_refl eq_refl eq_refl ltac:(cbn; lia) eq_refl eq_refl eq_refl)
    as (st' & _ & Hs & Hh & _).
  exists st'. split; [|exact Hh].
  cbn [app] in Hs. exact Hs.
Defined.

(** ** Units without parameter sets *)

Lemma annexB_cons (sc nal : bytes) (rest : list (bytes * bytes)) :
  annexB ((sc, nal) :: rest) = sc ++ nal ++ annexB rest.
Proof. unfold annexB. cbn [flat_map fst snd]. now rewrite <- app_assoc. Qed.

Lemma annexB_starts_with_zero (keep : bytes -> bool) (units : list (bytes * bytes)) :
  wellDelimited keep units ->
  annexB units = [] \/ exists rest, annexB units = 0%Z :: rest.
Proof.
  intros Hw. destruct units as [|[sc nal] rest]; [now left|right].
  inversion Hw as [|u l (Hsc & _) _]; subst. cbn [fst] in Hsc.
  rewrite annexB_cons. apply isStartCode_zero, Hsc.
Qed.

Lemma lengthPrefixed_cons (nal : bytes) (l : list bytes) :
  lengthPrefixed (nal :: l) = u32be (Z.of_nat (length nal)) ++ nal ++ lengthPrefixed l.
Proof. unfold lengthPrefixed. cbn [flat_map]. now rewrite <- app_assoc. Qed.

Lemma length_lengthPrefixed_cons (nal : bytes) (l : list bytes) :
  length (lengthPrefixed (nal :: l)) = length nal + 4 + length (lengthPrefixed l).
Proof. rewrite lengthPrefixed_cons, !length_app, length_u32be. lia. Qed.

Section PassThrough.

Context {T : Type} {C : Codec T}.

Variable keep : bytes -> bool.

Hypothesis keep_included :
  forall (nal : bytes) (st : State T), keep nal = true -> onChunkUnit nal st = Ok (true, st).

(** From the end of one NAL unit to the end of the data: every unit is
    appended to the frame buffer, the last one by the call after the loop. *)
Lemma scan_units (rest : list (bytes * bytes)) :
  wellDelimited keep rest ->
  forall (pre nal : bytes) (cfs fuel : nat) (st : State T),
    isNal nal = true -> keep nal = true ->
    cfs <= length (currentFrame st) ->
    length (annexB rest) <= fuel ->
    exists ub frame,
      (sc <- scanLoop fuel (pre ++ nal ++ annexB rest)
               {| unitBegin := length pre; currentPosition := length pre + length nal;
                  currentFrameSize := cfs; self := st |} ;;
       handleStartCode (pre ++ nal ++ annexB rest) sc)
      = Ok {| unitBegin := ub;
              currentPosition := length (pre ++ nal ++ annexB rest);
              currentFrameSize := cfs + length (lengthPrefixed (nal :: map snd rest));
              self := with_frame st frame |}
      /\ firstn (cfs + length (lengthPrefixed (nal :: map snd rest))) frame
         = firstn cfs (currentFrame st) ++ lengthPrefixed (nal :: map snd rest).
Proof.
  intros Hw. induction Hw as [|[sc n] rest (Hsc & Hn & Hk) Hrest IH];
    intros pre nal cfs fuel st Hnal Hkeep Hcfs Hfuel.
  - change (annexB []) with (@nil Z). cbn [map].
    rewrite scanLoop_end by (cbn [currentPosition]; rewrite !length_app; cbn; lia).
    cbn [bind].
    destruct (handleStartCode_include (pre ++ nal ++ [])
                {| unitBegin := length pre; currentPosition := length pre + length nal;
                   currentFrameSize := cfs; self := st |} st) as (frame & E & Hf & _).
    { cbn [unitBegin currentPosition self]. rewrite slice_middle. now apply keep_included. }
    { exact Hcfs. }
    cbn [unitBegin currentPosition currentFrameSize self] in E, Hf.
    rewrite slice_middle in E, Hf.
    exists (length pre), frame.
    rewrite length_lengthPrefixed_cons, lengthPrefixed_cons.
    change (lengthPrefixed []) with (@nil Z). cbn [length].
    rewrite Nat.add_0_r. split.
    + rewrite E. unfold with_frame. do 2 f_equal. rewrite !length_app. cbn [length]. lia.
    + rewrite app_nil_r. exact Hf.
  - rewrite annexB_cons in *. cbn [map snd].
    pose proof (isStartCode_length sc Hsc) as Lsc.
    destruct (isNal_spec nal Hnal) as (Hne & _).
    assert (Hnal_len : 0 < length nal) by (destruct nal; [congruence | cbn; lia]).
    rewrite !length_app in Hfuel.
    destruct fuel as [|fuel]; [lia|].
    replace (pre ++ nal ++ sc ++ n ++ annexB rest)
      with ((pre ++ nal) ++ sc ++ (n ++ annexB rest)) by now rewrite <- !app_assoc.
    replace (length pre + length nal) with (length (pre ++ nal)) by apply length_app.
    rewrite scanLoop_start_code by assumption.
    assert (Hnz : (length (pre ++ nal) =? 0) = false)
      by (apply Nat.eqb_neq; rewrite length_app; lia).
    rewrite Hnz. cbn [negb].
    destruct (handleStartCode_include ((pre ++ nal) ++ sc ++ (n ++ annexB rest))
                {| unitBegin := length pre; currentPosition := length (pre ++ nal);
                   currentFrameSize := cfs; self := st |} st) as (frame1 & E1 & Hf1 & Hfit1).
    { cbn [unitBegin currentPosition self].
      rewrite <- app_assoc, length_app, slice_middle. now apply keep_included. }
    { exact Hcfs. }
    cbn [unitBegin currentPosition currentFrameSize self] in E1, Hf1, Hfit1.
    rewrite <- (app_assoc pre nal), length_app, slice_middle in E1, Hf1, Hfit1.
    rewrite <- (app_assoc pre nal), length_app, E1.
    cbn [bind]. unfold advance. cbn [unitBegin currentPosition currentFrameSize self].
    replace (pre ++ nal ++ sc ++ n ++ annexB rest)
      with (((pre ++ nal) ++ sc) ++ n ++ annexB rest) by now rewrite <- !app_assoc.
    replace (length pre + length nal + length sc) with (length ((pre ++ nal) ++ sc))
      by (rewrite !length_app; lia).
    replace fuel with (length n + (fuel - length n)) by lia.
    rewrite scanLoop_skip_whole
      by (try assumption; eapply annexB_starts_with_zero; eassumption).
    fold (with_frame st frame1).
    destruct (IH ((pre ++ nal) ++ sc) n (cfs + (length nal + 4)) (fuel - length n)
                (with_frame st frame1) Hn Hk Hfit1 ltac:(lia)) as (ub & frame & E & Hf).
    exists ub, frame.
    rewrite (length_lengthPrefixed_cons nal), (lengthPrefixed_cons nal).
    replace (cfs + (length nal + 4 + length (lengthPrefixed (n :: map snd rest))))
      with (cfs + (length nal + 4) + length (lengthPrefixed (n :: map snd rest))) by lia.
    split.
    + rewrite E. reflexivity.
    + rewrite Hf. cbn [with_frame currentFrame]. rewrite Hf1.
      now rewrite <- !app_assoc.
Qed.

(** A unit whose NAL units are all passed on: the chunk is the
    length-prefixed form of the unit, left in the frame buffer for
    [endChunk]. *)
Lemma submit_payload_units {num : Type} (ty : UnitType) (units : list (bytes * bytes))
    (timestamp duration : num) (st : State T) (config : VideoDecoderConfig) :
  units <> [] ->
  wellDelimited keep units ->
  decoderConfig st = Some config ->
  startProcessChunk ty st = true ->
  exists frame,
    submitDecodeUnit
      {| type := ty; data := annexB units;
         timestampMicroseconds := timestamp; durationMicroseconds := duration |} st
    = ('(reconfigure, st') <- endChunk (with_frame st frame) ;;
       Ok (Some {| configure := if reconfigure : bool then decoderConfig st' else None;
                   chunk := Some (slice (currentFrame st') 0
                                    (length (lengthPrefixed (map snd units)))) |},
           st'))
    /\ firstn (length (lengthPrefixed (map snd units))) frame
       = lengthPrefixed (map snd units).
Proof.
  intros Hne Hw Hcfg Hstart.
  destruct units as [|[sc0 nal0] rest]; [congruence|].
  inversion Hw as [|u l (Hsc & Hnal & Hk) Hrest]; subst. cbn [fst snd] in *.
  pose proof (isStartCode_length sc0 Hsc) as Lsc.
  unfold submitDecodeUnit. rewrite Hcfg. cbn [type data]. rewrite Hstart. cbn [negb].
  rewrite annexB_cons.
  replace (length (sc0 ++ nal0 ++ annexB rest))
    with (S (length nal0 + (length (annexB rest) + (length sc0 - 1))))
    by (rewrite !length_app; lia).
  pose proof (scanLoop_start_code (C := C) [] sc0 (nal0 ++ annexB rest) 0 0 st) as E0.
  cbn [app length Nat.eqb negb bind] in E0. rewrite E0 by assumption. clear E0.
  unfold advance at 1. cbn [unitBegin currentPosition currentFrameSize self Nat.add].
  rewrite scanLoop_skip_whole
    by (try assumption; eapply annexB_starts_with_zero; eassumption).
  destruct (scan_units rest Hrest sc0 nal0 0 (length (annexB rest) + (length sc0 - 1)) st
              Hnal Hk ltac:(lia) ltac:(lia)) as (ub & frame & E & Hf).
  exists frame. cbn [map snd]. cbn [Nat.add firstn app] in Hf, E. split; [|exact Hf].
  destruct (scanLoop _ _ _) as [sc'|m]; [|discriminate].
  cbn [bind] in E |- *. rewrite E. cbn [bind self currentFrameSize]. reflexivity.
Qed.

End PassThrough.

Lemma bind_Ok {A B : Type} (r : result A) (f : A -> result B) (b : B) :
  bind r f = Ok b -> exists a, r = Ok a /\ f a = Ok b.
Proof. destruct r as [a|m]; [eauto | discriminate]. Qed.

Section Invariant.

Context {T : Type} {C : Codec T}.

Variable Inv : State T -> Prop.

Hypothesis Inv_frame : forall st frame, Inv st -> Inv (with_frame st frame).

Hypothesis Inv_onChunkUnit :
  forall sl st include st', Inv st -> onChunkUnit sl st = Ok (include, st') -> Inv st'.



End Invariant.


(** ** The parameter-set latch *)


Lemma h264_endChunk_result (st st' : State H264) (reconfigure : bool) :
  endChunk st = Ok (reconfigure, st') ->
  currentFrame st' = currentFrame st
  /\ (if reconfigure
      then h264_hasDescription (codecState st') = true
           /\ h264_sps (codecState st') = None /\ h264_pps (codecState st') = None
      else st' = st).
Proof.
  cbn [endChunk H264StreamVideoTranslator]. unfold h264_endChunk.
  destruct (decoderConfig st); [|discriminate].
  destruct (h264_pps (codecState st)); [destruct (h264_sps (codecState st))|].
  - intros E. apply bind_Ok in E. destruct E as (d & _ & E).
    injection E as <- <-. cbn. auto.
  - intros E. injection E as <- <-. auto.
  - intros E. injection E as <- <-. auto.
Qed.

Lemma h264_total_endChunk (st : State H264) (config : VideoDecoderConfig) :
  decoderConfig st = Some config -> exists r st', endChunk st = Ok (r, st').
Proof.
  intros Hcfg. cbn [endChunk H264StreamVideoTranslator]. unfold h264_endChunk.
  rewrite Hcfg.
  destruct (h264_pps (codecState st)); [destruct (h264_sps (codecState st))|]; eauto.
  rewrite h264MakeAvcC_result. cbn [bind]. eauto.
Qed.

Lemma h264_keep_included (nal : bytes) (st : State H264) :
  h264IsPayload nal = true -> onChunkUnit nal st = Ok (true, st).
Proof.
  unfold h264IsPayload. rewrite andb_true_iff, !negb_true_iff.
  intros [H7 H8]. apply h264_onChunkUnit_other; now apply Z.eqb_neq.
Qed.






Lemma h265_keep_included (nal : bytes) (st : State H265) :
  h265IsPayload nal = true -> onChunkUnit nal st = Ok (true, st).
Proof.
  unfold h265IsPayload. rewrite !andb_true_iff, !negb_true_iff.
  intros [[H32 H33] H34].
  cbn [onChunkUnit H265StreamVideoTranslator]. unfold h265_onChunkUnit.
  now rewrite H32, H33, H34.
Qed.




(** ** The media-source emitter *)

Section Emitter.

Import MediaSourceDecoder.

Context {num : Type} {N : JsNumber num}.

Lemma appendLoop_emitted (queue : list bytes) (sb : SourceBuffer) :
  appended (snd (appendLoop queue sb)) ++ fst (appendLoop queue sb)
  = appended sb ++ queue.
Proof.
  revert sb. induction queue as [|unit rest IH]; intros sb; cbn [appendLoop].
  - destruct (updating sb); reflexivity.
  - destruct (updating sb); [reflexivity|].
    rewrite IH. cbn [appendBuffer appended]. now rewrite <- app_assoc.
Qed.

(** Appending to the source buffer moves segments, it does not change
    what was emitted; the other fields stay. *)
Lemma tryAppendDecodeUnit_emitted (st : MediaSourceDecoder.t num) :
  sourceBuffer st <> None ->
  let st' := tryAppendDecodeUnit st in
  emitted st' = emitted st
  /\ sourceBuffer st' <> None
  /\ errored st' = errored st
  /\ translator st' = translator st
  /\ videoSize st' = videoSize st
  /\ sequenceNumber st' = sequenceNumber st
  /\ expectedDurationMicroseconds st' = expectedDurationMicroseconds st
  /\ needIdr st' = needIdr st
  /\ timestampMicrosecondsShift st' = timestampMicrosecondsShift st
  /\ lastTimestampMicroseconds st' = lastTimestampMicroseconds st.
Proof.
  intros Hsb. unfold tryAppendDecodeUnit.
  destruct (errored st) eqn:He; [cbn zeta; repeat split; auto|].
  destruct (sourceBuffer st) as [sb|] eqn:Es; [|congruence].
  pose proof (appendLoop_emitted (buffers st) sb) as Hl.
  destruct (appendLoop (buffers st) sb) as [queue sb'] eqn:El. cbn [fst snd] in Hl.
  cbn zeta. unfold emitted, with_sourceBuffer.
  cbn [sourceBuffer buffers errored translator videoSize sequenceNumber
       expectedDurationMicroseconds needIdr timestampMicrosecondsShift
       lastTimestampMicroseconds].
  rewrite Es. repeat split; auto. discriminate.
Qed.

End Emitter.

Lemma writeSegment_frame (capacity : nat) (trackId sequenceNumber : Z)
    (baseDecodeTime frameDuration : Q) (isKeyframe : bool) (frame : bytes) :
  isKeyframe && negb (h264NalType (nth 4 frame 0%Z) =? 5)%Z = false ->
  116 + length frame <= capacity ->
  MediaSourceDecoder.writeSegment capacity
    (Mp4.putVideoFrameSegment trackId sequenceNumber baseDecodeTime frameDuration
       isKeyframe frame)
  = Ok (encodeAll (frameSegmentBoxes trackId sequenceNumber baseDecodeTime frameDuration
                     isKeyframe frame)).
Proof.
  intros Hidr Hroom. apply writeSegment_emits.
  - now apply emits_putVideoFrameSegment.
  - now rewrite length_frameSegment.
Qed.

Lemma writeSegment_init (capacity : nat) (timescale trackId width height : Z)
    (avcC : bytes) :
  623 + length avcC <= capacity ->
  MediaSourceDecoder.writeSegment capacity
    (Mp4.putVideoInitSegment timescale trackId width height avcC)
  = Ok (encodeAll (initSegmentBoxes timescale trackId width height avcC)).
Proof.
  intros Hroom. apply writeSegment_emits.
  - apply emits_putVideoInitSegment.
  - now rewrite length_initSegment.
Qed.

Section EmitterSteps.

Import MediaSourceDecoder.

Context {num : Type} {N : JsNumber num}.

(** A unit that the translator passes on without a configuration, on an
    emitter that has its IDR: one frame segment, with the next sequence
    number and the repaired timestamp. *)
Lemma submit_delta_step (unit : VideoDecodeUnit num) (st : MediaSourceDecoder.t num)
    (payload : bytes) (tr' : State H264) :
  errored st = false ->
  Translator.submitDecodeUnit unit (translator st)
  = Ok (Some {| configure := None; chunk := Some payload |}, tr') ->
  needIdr st = false ->
  sourceBuffer st <> None ->
  116 + length payload <= 400 + length (data unit) ->
  let timestamp :=
    repaired (lastTimestampMicroseconds st) (expectedDurationMicroseconds st)
             (sub (timestampMicroseconds unit) (timestampMicrosecondsShift st)) in
  exists st',
    submitDecodeUnit unit st = Ok st'
    /\ emitted st'
       = emitted st
         ++ [encodeAll (frameSegmentBoxes 1 (sequenceNumber st + 1) (toQ timestamp)
                          (toQ (sub timestamp (lastTimestampMicroseconds st)))
                          false payload)]
    /\ errored st' = false
    /\ translator st' = tr'
    /\ videoSize st' = videoSize st
    /\ sequenceNumber st' = (sequenceNumber st + 1)%Z
    /\ expectedDurationMicroseconds st' = expectedDurationMicroseconds st
    /\ needIdr st' = false
    /\ timestampMicrosecondsShift st' = timestampMicrosecondsShift st
    /\ lastTimestampMicroseconds st' = timestamp
    /\ sourceBuffer st' <> None.
Proof.
  intros He Etr Hidr Hsb Hroom timestamp.
  unfold submitDecodeUnit. rewrite He, Etr.
  cbn [bind chunk configure with_translator with_last needIdr errored translator
       videoSize sequenceNumber sourceBuffer expectedDurationMicroseconds buffers
       droppedFrames timestampMicrosecondsShift lastTimestampMicroseconds].
  rewrite Hidr. fold (repaired (lastTimestampMicroseconds st)
                        (expectedDurationMicroseconds st)
                        (sub (timestampMicroseconds unit) (timestampMicrosecondsShift st))).
  fold timestamp.
  rewrite writeSegment_frame by (auto; reflexivity). cbn [bind].
  match goal with |- exists st', Ok (tryAppendDecodeUnit ?s) = _ /\ _ =>
    destruct (tryAppendDecodeUnit_emitted s Hsb)
      as (Hem & Hsb' & He' & Ht' & Hv' & Hs' & Hx' & Hn' & Hsh' & Hl');
    exists (tryAppendDecodeUnit s)
  end.
  cbn zeta in *.
  split; [reflexivity|]. rewrite Hem, He', Ht', Hv', Hs', Hx', Hn', Hsh', Hl'.
  cbn [errored translator videoSize sequenceNumber expectedDurationMicroseconds needIdr
       timestampMicrosecondsShift lastTimestampMicroseconds].
  repeat split; auto.
  unfold emitted. cbn [sourceBuffer buffers]. now rewrite app_assoc.
Qed.

(** A unit that comes back from the translator with a configuration: a
    new source buffer, the init segment and the IDR segment with sequence
    number 1 and decode time 0; the unit's timestamp becomes the zero of
    the timebase. *)
Lemma submit_key_step (unit : VideoDecodeUnit num) (st : MediaSourceDecoder.t num)
    (config : VideoDecoderConfig) (description payload : bytes) (tr' : State H264)
    (width height : Z) :
  errored st = false ->
  Translator.submitDecodeUnit unit (translator st)
  = Ok (Some {| configure := Some config; chunk := Some payload |}, tr') ->
  Translator.description config = Some description ->
  videoSize st = Some (width, height) ->
  623 + length description <= 2000 ->
  h264NalType (nth 4 payload 0%Z) = 5%Z ->
  116 + length payload <= 400 + length (data unit) ->
  let timestamp :=
    repaired (lastTimestampMicroseconds st) (expectedDurationMicroseconds st)
             (sub (timestampMicroseconds unit) (timestampMicrosecondsShift st)) in
  exists st',
    submitDecodeUnit unit st = Ok st'
    /\ emitted st'
       = buffers st
         ++ [encodeAll (initSegmentBoxes 1000000 1 width height description);
             encodeAll (frameSegmentBoxes 1 1 0%Q
                          (toQ (sub timestamp (lastTimestampMicroseconds st)))
                          true payload)]
    /\ errored st' = false
    /\ translator st' = tr'
    /\ videoSize st' = videoSize st
    /\ sequenceNumber st' = 1%Z
    /\ expectedDurationMicroseconds st' = expectedDurationMicroseconds st
    /\ needIdr st' = false
    /\ timestampMicrosecondsShift st' = timestampMicroseconds unit
    /\ lastTimestampMicroseconds st' = ofZ 0
    /\ sourceBuffer st' <> None.
Proof.
  intros He Etr Hd Hv Hdroom Hidr Hroom timestamp.
  unfold submitDecodeUnit. rewrite He, Etr.
  cbn [bind chunk configure with_translator with_last createNewSourceBuffer
       with_sourceBuffer needIdr errored translator
       videoSize sequenceNumber sourceBuffer expectedDurationMicroseconds buffers
       droppedFrames timestampMicrosecondsShift lastTimestampMicroseconds].
  rewrite Hd, Hv.
  fold (repaired (lastTimestampMicroseconds st) (expectedDurationMicroseconds st)
          (sub (timestampMicroseconds unit) (timestampMicrosecondsShift st))).
  fold timestamp.
  rewrite writeSegment_init by assumption. cbn [bind].
  rewrite writeSegment_frame by (auto; cbn [andb]; now rewrite Hidr). cbn [bind].
  match goal with |- exists st', Ok (tryAppendDecodeUnit ?s) = _ /\ _ =>
    destruct (tryAppendDecodeUnit_emitted s ltac:(discriminate))
      as (Hem & Hsb' & He' & Ht' & Hv' & Hs' & Hx' & Hn' & Hsh' & Hl');
    exists (tryAppendDecodeUnit s)
  end.
  cbn zeta in *.
  split; [reflexivity|]. rewrite Hem, He', Ht', Hv', Hs', Hx', Hn', Hsh', Hl'.
  cbn [errored translator videoSize sequenceNumber expectedDurationMicroseconds needIdr
       timestampMicrosecondsShift lastTimestampMicroseconds].
  repeat split; auto.
Qed.

End EmitterSteps.

(** ** The fields of a frame segment *)

(** A unit without parameter sets on a translator that has its
    description and no pending parameter set: the length-prefixed NAL
    units, without a configuration, and only the frame buffer changes. *)
Lemma h264_delta_chunk {num : Type} (ty : UnitType) (units : list (bytes * bytes))
    (timestamp duration : num) (st : State H264) (config : VideoDecoderConfig) :
  units <> [] ->
  wellDelimited h264IsPayload units ->
  decoderConfig st = Some config ->
  h264_hasDescription (codecState st) = true ->
  h264_pps (codecState st) = None ->
  exists frame,
    Translator.submitDecodeUnit
      {| type := ty; data := annexB units;
         timestampMicroseconds := timestamp; durationMicroseconds := duration |} st
    = Ok (Some {| configure := None; chunk := Some (lengthPrefixed (map snd units)) |},
          with_frame st frame).
Proof.
  intros Hne Hw Hcfg Hlatch Hpps.
  assert (Hstart : startProcessChunk ty st = true).
  { cbn [startProcessChunk H264StreamVideoTranslator]. rewrite Hlatch. apply orb_true_r. }
  destruct (submit_payload_units h264IsPayload h264_keep_included ty units timestamp
              duration st config Hne Hw Hcfg Hstart) as (frame & E & Hf).
  exists frame. rewrite E.
  cbn [endChunk H264StreamVideoTranslator]. unfold h264_endChunk.
  cbn [with_frame decoderConfig codecState]. rewrite Hcfg, Hpps. cbn [bind].
  unfold slice, with_frame. cbn [skipn currentFrame]. now rewrite Nat.sub_0_r, Hf.
Qed.

(** The length-prefixed form is longer than the Annex-B form by at most
    one byte for each NAL unit. *)
Lemma length_lengthPrefixed_annexB (keep : bytes -> bool) (units : list (bytes * bytes)) :
  wellDelimited keep units ->
  length (lengthPrefixed (map snd units)) <= length (annexB units) + length units.
Proof.
  induction 1 as [|[sc nal] rest (Hsc & _) _ IH]; [cbn; lia|].
  cbn [map snd fst] in *. rewrite length_lengthPrefixed_cons, annexB_cons, !length_app.
  pose proof (isStartCode_length sc Hsc). cbn [length]. lia.
Qed.

Lemma Qfloor_div_4294967296 (q : Q) :
  Qfloor (q / 4294967296) = (Qfloor q / 4294967296)%Z.
Proof.
  destruct q as [n d]. unfold Qdiv, Qmult, Qinv. cbn [Qnum Qden]. unfold Qfloor.
  rewrite Z.mul_1_r, Pos2Z.inj_mul, Z.div_div by lia. reflexivity.
Qed.

(** A frame segment around its [sequence_number] (20 bytes in) and its
    [baseMediaDecodeTime] (60 bytes in). *)
Lemma frameSegment_layout (trackId sequenceNumber : Z) (baseDecodeTime frameDuration : Q)
    (isKeyframe : bool) (frame : bytes) :
  exists pre mid post,
    length pre = 20 /\ length mid = 36
    /\ encodeAll (frameSegmentBoxes trackId sequenceNumber baseDecodeTime frameDuration
                    isKeyframe frame)
       = pre ++ u32be sequenceNumber
         ++ mid ++ u32be (Qfloor (baseDecodeTime / 4294967296))
         ++ u32be (Qtrunc baseDecodeTime) ++ post.
Proof.
  set (first := (sequenceNumber =? 1)%Z).
  exists (u32be 108 ++ utf8 "moof" ++ u32be 16 ++ utf8 "mfhd"
          ++ [0 mod 256; Z.land (Z.shiftr 0 16) 255 mod 256;
              Z.land (Z.shiftr 0 8) 255 mod 256; Z.land 0 255 mod 256]%Z).
  exists (u32be 84 ++ utf8 "traf"
          ++ encode (fullBox "tfhd" 0 131072 (u32be trackId) [])
          ++ u32be 28 ++ utf8 "tfdt"
          ++ [1 mod 256; Z.land (Z.shiftr 0 16) 255 mod 256;
              Z.land (Z.shiftr 0 8) 255 mod 256; Z.land 0 255 mod 256]%Z).
  exists (zeros 8
          ++ encode (trunBox 116 frameDuration (length frame) isKeyframe first)
          ++ encode (box "mdat" frame [])).
  split; [|split].
  - lens. reflexivity.
  - lens. reflexivity.
  - unfold frameSegmentBoxes, moofBox, trunBox, u64field, u64bytes. fold first.
    lens. destruct first; lens; cbn [Nat.add Z.of_nat Pos.of_succ_nat Pos.succ app];
      rewrite ?app_nil_r, <- ?app_assoc; reflexivity.
Qed.

Lemma segmentSequenceNumber_frame (trackId sequenceNumber : Z)
    (baseDecodeTime frameDuration : Q) (isKeyframe : bool) (frame : bytes) :
  (0 <= sequenceNumber < 4294967296)%Z ->
  segmentSequenceNumber
    (encodeAll (frameSegmentBoxes trackId sequenceNumber baseDecodeTime frameDuration
                  isKeyframe frame))
  = sequenceNumber.
Proof.
  intros Hs.
  destruct (frameSegment_layout trackId sequenceNumber baseDecodeTime frameDuration
              isKeyframe frame) as (pre & mid & post & Lp & Lm & ->).
  unfold segmentSequenceNumber. rewrite <- Lp. now apply readU32be_u32be.
Qed.

Lemma segmentBaseDecodeTime_frame (trackId sequenceNumber : Z)
    (baseDecodeTime frameDuration : Q) (isKeyframe : bool) (frame : bytes) :
  (0 <= baseDecodeTime)%Q ->
  (Qfloor baseDecodeTime < 18446744073709551616)%Z ->
  segmentBaseDecodeTime
    (encodeAll (frameSegmentBoxes trackId sequenceNumber baseDecodeTime frameDuration
                  isKeyframe frame))
  = Qfloor baseDecodeTime.
Proof.
  intros H0 Hmax.
  destruct (frameSegment_layout trackId sequenceNumber baseDecodeTime frameDuration
              isKeyframe frame) as (pre & mid & post & Lp & Lm & ->).
  assert (Hf : (0 <= Qfloor baseDecodeTime)%Z).
  { change 0%Z with (Qfloor 0). now apply Qfloor_resp_le. }
  unfold segmentBaseDecodeTime, Qtrunc.
  replace (Qle_bool 0 baseDecodeTime) with true
    by (symmetry; now apply Qle_bool_iff).
  rewrite Qfloor_div_4294967296.
  rewrite <- (u32be_mod (Qfloor baseDecodeTime)).
  set (t := Qfloor baseDecodeTime) in *.
  assert (E60 : readU32be (pre ++ u32be sequenceNumber ++ mid ++ u32be (t / 4294967296)
                           ++ u32be (t mod 4294967296) ++ post) 60
                = (t / 4294967296)%Z).
  { replace (pre ++ u32be sequenceNumber ++ mid ++ u32be (t / 4294967296)
             ++ u32be (t mod 4294967296) ++ post)
      with ((pre ++ u32be sequenceNumber ++ mid) ++ u32be (t / 4294967296)
            ++ u32be (t mod 4294967296) ++ post)
      by now rewrite <- !app_assoc.
    replace 60 with (length (pre ++ u32be sequenceNumber ++ mid))
      by (rewrite !length_app, length_u32be; lia).
    apply readU32be_u32be.
    split; [apply Z.div_pos; lia|apply Z.div_lt_upper_bound; lia]. }
  assert (E64 : readU32be (pre ++ u32be sequenceNumber ++ mid ++ u32be (t / 4294967296)
                           ++ u32be (t mod 4294967296) ++ post) 64
                = (t mod 4294967296)%Z).
  { replace (pre ++ u32be sequenceNumber ++ mid ++ u32be (t / 4294967296)
             ++ u32be (t mod 4294967296) ++ post)
      with ((pre ++ u32be sequenceNumber ++ mid ++ u32be (t / 4294967296))
            ++ u32be (t mod 4294967296) ++ post)
      by now rewrite <- !app_assoc.
    replace 64 with (length (pre ++ u32be sequenceNumber ++ mid ++ u32be (t / 4294967296)))
      by (rewrite !length_app, !length_u32be; lia).
    apply readU32be_u32be. apply Z.mod_pos_bound. lia. }
  rewrite E60, E64.
  pose proof (Z.div_mod t 4294967296 ltac:(lia)). lia.
Qed.

(** * Further properties of the sources *)

(** ** buffer.ts: bounds, invariants and reading back *)

Lemma useDataView_spec (len : nat) (index : option nat) (b : ByteBuffer.t) :
  let pos := match index with Some i => i | None => position b end in
  pos + len <= length (buffer b) ->
  exists b1,
    useDataView len false index b = Ok (b1, pos)
    /\ buffer b1 = buffer b
    /\ littleEndian b1 = littleEndian b
    /\ position b1 = match index with Some _ => position b | None => position b + len end
    /\ limit b1 = Nat.max (limit b) (pos + len).
Proof.
  intros pos Hfit. unfold useDataView. fold pos.
  destruct (Nat.ltb_spec (length (buffer b)) (pos + len)) as [Hlt|_]; [lia|].
  destruct (Nat.ltb_spec (limit b) (pos + len)) as [Hl|Hl];
    destruct index as [i|]; unfold bytesUsed; cbn [andb bind];
    eexists; (split; [reflexivity|]);
    cbn [buffer littleEndian position limit with_limit with_position];
    repeat split; lia.
Qed.

Lemma view_write_stores (w : nat) (img : ByteBuffer.t -> bytes) (index : option nat)
    (b : ByteBuffer.t) (image : bytes) :
  (forall b1, littleEndian b1 = littleEndian b -> img b1 = image) ->
  stores b index w image
    ('(b1, off) <- useDataView w false index b ;; Ok (store b1 off (img b1))).
Proof.
  intros Himg. unfold stores.
  destruct (Nat.leb_spec
              ((match index with Some i => i | None => position b end) + w)
              (length (buffer b))) as [Hfit|Hover].
  - destruct (useDataView_spec w index b Hfit) as (b1 & E & Hb & Hle & Hp & Hl).
    rewrite E. cbn [bind]. eexists. split; [reflexivity|].
    unfold store, with_buffer. cbn [buffer position limit littleEndian].
    rewrite Hb, (Himg b1 Hle). auto.
  - now rewrite useDataView_overflow.
Qed.

(** The fixed-width writes check the capacity, not the limit: a write
    that ends within the array stores the wrapped value in the buffer's
    byte order at the index (or at the position, which then moves) and
    raises the limit to the end of the write if it was below; a write
    that would end beyond the array throws and stores nothing. *)
Theorem put_checks_capacity (v : Z) (index : option nat) (b : ByteBuffer.t) :
  stores b index 1 [(v mod 256)%Z] (ByteBuffer.putU8 v index b)
  /\ stores b index 1 [(v mod 256)%Z] (ByteBuffer.putI8 v index b)
  /\ stores b index 2 (u16bytes (littleEndian b) v) (ByteBuffer.putU16 v index b)
  /\ stores b index 2 (u16bytes (littleEndian b) v) (ByteBuffer.putI16 v index b)
  /\ stores b index 4 (u32bytes (littleEndian b) v) (ByteBuffer.putU32 v index b)
  /\ stores b index 4 (u32be v) (ByteBuffer.putI32 v index b).
Proof.
  repeat split.
  - apply (view_write_stores 1 (fun _ => [(v mod 256)%Z])). reflexivity.
  - apply (view_write_stores 1 (fun _ => [(v mod 256)%Z])). reflexivity.
  - apply (view_write_stores 2 (fun b1 => u16bytes (littleEndian b1) v)).
    now intros b1 ->.
  - apply (view_write_stores 2 (fun b1 => u16bytes (littleEndian b1) v)).
    now intros b1 ->.
  - apply (view_write_stores 4 (fun b1 => u32bytes (littleEndian b1) v)).
    now intros b1 ->.
  - apply (view_write_stores 4 (fun _ => u32be v)). reflexivity.
Qed.

Lemma length_flat_map_u16bytes (le : bool) (data : list Z) :
  length (flat_map (u16bytes le) data) = length data * 2.
Proof.
  induction data as [|x l IH]; [reflexivity|].
  cbn [flat_map]. rewrite length_app, IH.
  destruct le; cbn [u16bytes length]; unfold u16be; cbn [length rev app]; lia.
Qed.

Lemma length_flat_map_u32bytes (le : bool) (data : list Z) :
  length (flat_map (u32bytes le) data) = length data * 4.
Proof.
  induction data as [|x l IH]; [reflexivity|].
  cbn [flat_map]. rewrite length_app, IH.
  destruct le; cbn [u32bytes length]; unfold u32be; cbn [length rev app]; lia.
Qed.

Lemma runWrite_stores (w : Write) (b : ByteBuffer.t) :
  stores b None (length (image (littleEndian b) w)) (image (littleEndian b) w)
         (runWrite w b).
Proof.
  destruct w as [v|v|v|v|v|v|v|data|data|data]; cbn [runWrite image].
  - apply (view_write_stores 1 (fun _ => [(v mod 256)%Z])). reflexivity.
  - apply (view_write_stores 1 (fun _ => [(v mod 256)%Z])). reflexivity.
  - unfold putBool.
    replace [if v then 1%Z else 0%Z] with [((if v then 1 else 0) mod 256)%Z]
      by (now destruct v).
    apply (view_write_stores 1 (fun _ => [((if v then 1 else 0) mod 256)%Z])).
    reflexivity.
  - replace (length (u16bytes (littleEndian b) v)) with 2 by (now destruct (littleEndian b)).
    apply (view_write_stores 2 (fun b1 => u16bytes (littleEndian b1) v)). now intros b1 ->.
  - replace (length (u16bytes (littleEndian b) v)) with 2 by (now destruct (littleEndian b)).
    apply (view_write_stores 2 (fun b1 => u16bytes (littleEndian b1) v)). now intros b1 ->.
  - replace (length (u32bytes (littleEndian b) v)) with 4 by (now destruct (littleEndian b)).
    apply (view_write_stores 4 (fun b1 => u32bytes (littleEndian b1) v)). now intros b1 ->.
  - apply (view_write_stores 4 (fun _ => u32be v)). reflexivity.
  - unfold stores, putU8Array.
    destruct (Nat.leb_spec (position b + length data) (length (buffer b))) as [Hfit|Hover].
    + destruct (Nat.ltb_spec (length (buffer b)) (position b + length data)); [lia|].
      unfold bytesUsed. cbn [andb]. eexists. split; [reflexivity|].
      destruct (Nat.ltb_spec (limit b) (position b + length data));
        unfold store, with_buffer, with_position, with_limit;
        cbn [buffer position limit littleEndian]; repeat split; lia.
    + destruct (Nat.ltb_spec (length (buffer b)) (position b + length data)); [reflexivity|lia].
  - unfold stores, putU16Array. rewrite length_flat_map_u16bytes.
    destruct (Nat.leb_spec (position b + length data * 2) (length (buffer b))) as [Hfit|Hover].
    + destruct (Nat.ltb_spec (length (buffer b)) (position b + length data * 2)); [lia|].
      unfold bytesUsed. cbn [andb]. eexists. split; [reflexivity|].
      unfold store, with_buffer. cbn [limit].
      destruct (Nat.ltb_spec (limit b) (position b + length data * 2));
        unfold with_position, with_limit;
        cbn [buffer position limit littleEndian]; repeat split; lia.
    + destruct (Nat.ltb_spec (length (buffer b)) (position b + length data * 2));
        [reflexivity|lia].
  - unfold stores, putU32Array. rewrite length_flat_map_u32bytes.
    destruct (Nat.leb_spec (position b + length data * 4) (length (buffer b))) as [Hfit|Hover].
    + destruct (Nat.ltb_spec (length (buffer b)) (position b + length data * 4)); [lia|].
      unfold bytesUsed. cbn [andb]. eexists. split; [reflexivity|].
      unfold store, with_buffer. cbn [limit].
      destruct (Nat.ltb_spec (limit b) (position b + length data * 4));
        unfold with_position, with_limit;
        cbn [buffer position limit littleEndian]; repeat split; lia.
    + destruct (Nat.ltb_spec (length (buffer b)) (position b + length data * 4));
        [reflexivity|lia].
Qed.

Lemma runWrites_stores (ws : list Write) (b : ByteBuffer.t) :
  wellFormed b ->
  stores b None (length (flat_map (image (littleEndian b)) ws))
         (flat_map (image (littleEndian b)) ws) (runWrites ws b)
  /\ (forall b', runWrites ws b = Ok b' ->
      wellFormed b' /\ length (buffer b') = length (buffer b)).
Proof.
  revert b. induction ws as [|w ws IH]; intros b (Hpl & Hlc).
  - cbn [flat_map length runWrites]. split.
    + unfold stores. rewrite Nat.add_0_r.
      destruct (Nat.leb_spec (position b) (length (buffer b))); [|lia].
      exists b. rewrite splice_nil. repeat split. lia.
    + intros b' E. injection E as <-. repeat split; assumption.
  - cbn [flat_map runWrites]. rewrite length_app.
    pose proof (runWrite_stores w b) as Hw. unfold stores in Hw |- *.
    set (iw := image (littleEndian b) w) in *.
    set (ir := flat_map (image (littleEndian b)) ws).
    destruct (Nat.leb_spec (position b + length iw) (length (buffer b))) as [Hfit|Hover].
    + destruct Hw as (b1 & E1 & Hb1 & Hp1 & Hl1 & He1).
      rewrite E1. cbn [bind].
      assert (Hcap : length (buffer b1) = length (buffer b))
        by (rewrite Hb1; apply splice_length; lia).
      assert (Hwf1 : wellFormed b1) by (unfold wellFormed; lia).
      destruct (IH b1 Hwf1) as (Hs & Hinv). unfold stores in Hs.
      rewrite He1 in Hs. fold ir in Hs. rewrite Hcap, Hp1 in Hs.
      split.
      * destruct (Nat.leb_spec (position b + (length iw + length ir)) (length (buffer b)))
          as [Hall|Hnot].
        -- destruct (Nat.leb_spec (position b + length iw + length ir) (length (buffer b)));
             [|lia].
           destruct Hs as (b' & E & Hb & Hp & Hl & He).
           exists b'. split; [exact E|].
           split; [rewrite Hb, Hb1, splice_adjacent by lia; reflexivity|].
           repeat split; [lia | lia | congruence].
        -- destruct (Nat.leb_spec (position b + length iw + length ir) (length (buffer b)));
             [lia|]. exact Hs.
      * intros b' E. destruct (Hinv b' E) as (Hwf & Hc). split; [exact Hwf|lia].
    + rewrite Hw. cbn [bind]. split.
      * destruct (Nat.leb_spec (position b + (length iw + length ir)) (length (buffer b)));
          [lia|reflexivity].
      * intros b' E. discriminate.
Qed.

(** A run of sequential writes behaves as one write of the concatenated
    images: it succeeds exactly when the whole run ends within the
    capacity, stores the images one after the other from the position on,
    moves the position behind them and keeps
    [position <= limit <= capacity]; the capacity never changes. *)
Theorem sequential_writes_compose (ws : list Write) (b : ByteBuffer.t) :
  wellFormed b ->
  stores b None (length (flat_map (image (littleEndian b)) ws))
         (flat_map (image (littleEndian b)) ws) (runWrites ws b)
  /\ (forall b', runWrites ws b = Ok b' ->
      wellFormed b' /\ length (buffer b') = length (buffer b)).
Proof. exact (runWrites_stores ws b). Qed.

Lemma sequential_writes_compose_witness :
  wellFormed (ByteBuffer.create 8 true)
  /\ exists b',
       runWrites [WriteU8 1; WriteU16 515; WriteI32 67438087] (ByteBuffer.create 8 true) = Ok b'
       /\ buffer b' = [1; 3; 2; 4; 5; 6; 7; 0]%Z
       /\ position b' = 7.
Proof.
  assert (Hwf : wellFormed (ByteBuffer.create 8 true))
    by (unfold wellFormed; vm_compute; lia).
  split; [exact Hwf|].
  destruct (sequential_writes_compose [WriteU8 1; WriteU16 515; WriteI32 67438087]
              (ByteBuffer.create 8 true) Hwf) as (Hs & _).
  unfold stores in Hs. cbn [ByteBuffer.create littleEndian position buffer] in Hs.
  cbn in Hs. destruct Hs as (b' & E & Hb & Hp & _).
  exists b'. split; [exact E|]. split; [rewrite Hb; reflexivity|exact Hp].
Defined.

Lemma u16be_value (x : Z) :
  (nth 0 (u16be x) 0 * 256 + nth 1 (u16be x) 0 = x mod 65536)%Z.
Proof.
  unfold u16be. cbn [nth].
  pose proof (Z.div_mod (x mod 65536) 256 ltac:(lia)). lia.
Qed.

(** Values written to a fresh buffer and read back after [flip]: the
    bytes come back in the order written and a read past the limit
    throws; the 16- and 32-bit getters always read big-endian, so they
    return the value written only when the buffer is big-endian, and the
    byte-swapped value when it is little-endian. *)
Theorem write_flip_read (littleEndian : bool) (n : nat) (x y z : Z) :
  8 <= n ->
  exists w r1 r2 r3,
    runWrites [WriteU8 x; WriteU16 y; WriteU32 z] (ByteBuffer.create n littleEndian) = Ok w
    /\ ByteBuffer.getRemainingBuffer (ByteBuffer.flip w)
       = [(x mod 256)%Z] ++ u16bytes littleEndian y ++ u32bytes littleEndian z
    /\ ByteBuffer.getU8 (ByteBuffer.flip w) = Ok ((x mod 256)%Z, r1)
    /\ ByteBuffer.getU16 r1
       = Ok (if littleEndian then swap16 (y mod 65536) else (y mod 65536)%Z, r2)
    /\ ByteBuffer.getU32 r2
       = Ok (if littleEndian then swap32 (z mod 4294967296) else (z mod 4294967296)%Z, r3)
    /\ ByteBuffer.getU8 r3 = Throw "failed to read over the limit".
Proof.
  intros Hn.
  assert (Hwf : wellFormed (ByteBuffer.create n littleEndian)).
  { unfold wellFormed, ByteBuffer.create. cbn [position limit buffer].
    rewrite length_zeros. lia. }
  destruct (runWrites_stores [WriteU8 x; WriteU16 y; WriteU32 z]
              (ByteBuffer.create n littleEndian) Hwf) as (Hs & _).
  unfold stores in Hs.
  cbn [ByteBuffer.create ByteBuffer.littleEndian position buffer limit flat_map image]
    in Hs.
  rewrite app_nil_r, length_zeros in Hs.
  assert (Hlen : length ([(x mod 256)%Z] ++ u16bytes littleEndian y
                         ++ u32bytes littleEndian z) = 7)
    by (destruct littleEndian; reflexivity).
  rewrite Hlen in Hs. cbn [Nat.add] in Hs.
  destruct (Nat.leb_spec 7 n) as [_|]; [|lia].
  destruct Hs as (w & E & Hb & Hp & Hl & He).
  assert (Hbuf : buffer w
                 = ([(x mod 256)%Z] ++ u16bytes littleEndian y ++ u32bytes littleEndian z)
                   ++ 0%Z :: zeros (n - 8)).
  { rewrite Hb. unfold splice. cbn [firstn Nat.add]. rewrite Hlen, skipn_zeros.
    replace (n - 7) with (S (n - 8)) by lia. reflexivity. }
  clear Hb.
  destruct w as [wp wl wle wb]. cbn [buffer position limit ByteBuffer.littleEndian] in *.
  subst wp wb wle.
  set (img := [(x mod 256)%Z] ++ u16bytes littleEndian y ++ u32bytes littleEndian z) in *.
  set (buf := img ++ 0%Z :: zeros (n - 8)) in *.
  assert (Hcap : forall p, p <= 8 -> (length buf <? p) = false).
  { intros p Hple. apply Nat.ltb_ge. unfold buf. rewrite length_app, Hlen.
    cbn [length]. lia. }
  exists (mk 7 wl littleEndian buf), (mk 1 7 littleEndian buf),
         (mk 3 7 littleEndian buf), (mk 7 7 littleEndian buf).
  split; [exact E|].
  split.
  { unfold ByteBuffer.flip, ByteBuffer.getRemainingBuffer, slice.
    cbn [position limit buffer skipn Nat.sub]. unfold buf. rewrite <- Hlen at 1.
    now rewrite firstn_app, firstn_all, Nat.sub_diag, firstn_O, app_nil_r. }
  split.
  { unfold ByteBuffer.flip, ByteBuffer.getU8, bytesUsed, with_position.
    cbn [position limit buffer ByteBuffer.littleEndian].
    unfold buf, img. cbn [app nth_error]. reflexivity. }
  split.
  { unfold ByteBuffer.getU16, bytesUsed, with_position.
    cbn [position limit buffer ByteBuffer.littleEndian Nat.add].
    rewrite (Hcap 3) by lia. cbn [andb Nat.ltb Nat.leb bind]. do 2 f_equal.
    unfold buf, img. destruct littleEndian; unfold u16bytes, u16be; cbn [rev app nth].
    - unfold swap16. reflexivity.
    - pose proof (Z.div_mod (y mod 65536) 256 ltac:(lia)). lia. }
  split.
  { unfold ByteBuffer.getU32, bytesUsed, with_position.
    cbn [position limit buffer ByteBuffer.littleEndian Nat.add].
    rewrite (Hcap 7) by lia. cbn [andb Nat.ltb Nat.leb bind]. do 2 f_equal.
    unfold buf, img, readU32be.
    destruct littleEndian; unfold u16bytes, u32bytes, u16be, u32be;
      cbn [rev app nth Nat.add].
    - unfold swap32. reflexivity.
    - pose proof (readU32be_u32be [] [] (z mod 4294967296)
                    ltac:(apply Z.mod_pos_bound; lia)) as Hr.
      unfold readU32be, u32be in Hr. cbn [app nth length Nat.add] in Hr.
      rewrite Z.mod_mod in Hr by lia. exact Hr. }
  unfold ByteBuffer.getU8, bytesUsed, with_position.
  cbn [position limit buffer ByteBuffer.littleEndian Nat.add].
  replace (nth_error buf 7) with (Some 0%Z).
  - reflexivity.
  - unfold buf, img. destruct littleEndian; reflexivity.
Qed.

Lemma write_flip_read_witness :
  exists w r1 r2 r3,
    runWrites [WriteU8 7; WriteU16 258; WriteU32 16909060] (ByteBuffer.create 8 true) = Ok w
    /\ ByteBuffer.getU8 (ByteBuffer.flip w) = Ok (7%Z, r1)
    /\ ByteBuffer.getU16 r1 = Ok (513%Z, r2)
    /\ ByteBuffer.getU32 r2 = Ok (67305985%Z, r3)
    /\ ByteBuffer.getU8 r3 = Throw "failed to read over the limit".
Proof.
  destruct (write_flip_read true 8 7 258 16909060 ltac:(lia))
    as (w & r1 & r2 & r3 & E & _ & E1 & E2 & E3 & E4).
  exists w, r1, r2, r3. repeat split; assumption.
Defined.

(** [putU8Array] tests its index for truthiness: an index of 0 is taken
    for no index when the place of the store is chosen, so the bytes go
    to the current position, which then stays where it was; any other
    index is honoured, and [putU16Array] honours the index 0 too. *)
Theorem putU8Array_index_zero (data : bytes) (values : list Z) (b : ByteBuffer.t) :
  position b + length data <= length (buffer b) ->
  (exists b',
     ByteBuffer.putU8Array data (Some 0) b = Ok b'
     /\ buffer b' = splice (buffer b) (position b) data
     /\ position b' = position b)
  /\ (forall i, S i + length data <= length (buffer b) ->
      exists b',
        ByteBuffer.putU8Array data (Some (S i)) b = Ok b'
        /\ buffer b' = splice (buffer b) (S i) data
        /\ position b' = position b)
  /\ (length values * 2 <= length (buffer b) ->
      exists b',
        ByteBuffer.putU16Array values (Some 0) b = Ok b'
        /\ buffer b' = splice (buffer b) 0 (flat_map (u16bytes (littleEndian b)) values)
        /\ position b' = position b).
Proof.
  intros Hfit. split; [|split].
  - unfold ByteBuffer.putU8Array.
    destruct (Nat.ltb_spec (length (buffer b)) (position b + length data)); [lia|].
    eexists. split; [reflexivity|].
    destruct (limit b <? position b + length data); split; reflexivity.
  - intros i Hi. unfold ByteBuffer.putU8Array.
    destruct (Nat.ltb_spec (length (buffer b)) (S i + length data)); [lia|].
    eexists. split; [reflexivity|].
    destruct (limit b <? S i + length data); split; reflexivity.
  - intros Hv. unfold ByteBuffer.putU16Array.
    destruct (Nat.ltb_spec (length (buffer b)) (0 + length values * 2)); [lia|].
    eexists. split; [reflexivity|].
    unfold store, with_buffer. cbn [limit].
    destruct (limit b <? 0 + length values * 2); split; reflexivity.
Qed.

Lemma putU8Array_index_zero_witness :
  exists b',
    ByteBuffer.putU8Array [9; 9]%Z (Some 0) (mk 2 2 false [1; 2; 0; 0; 0]%Z) = Ok b'
    /\ buffer b' = [1; 2; 9; 9; 0]%Z
    /\ position b' = 2.
Proof.
  destruct (putU8Array_index_zero [9; 9]%Z [] (mk 2 2 false [1; 2; 0; 0; 0]%Z)
              ltac:(simpl; lia)) as ((b' & E & Hb & Hp) & _).
  exists b'. split; [exact E|]. split; [rewrite Hb; reflexivity|exact Hp].
Defined.

(** [putUtf8Raw] writes as much of the text as the array has room for
    behind the position: text that fits is stored and the position moves
    behind it, while the limit is left alone; text that does not fit
    makes the call throw. *)
Theorem putUtf8Raw_fits_or_throws (text : string) (b : ByteBuffer.t) :
  isAscii text ->
  if length (utf8 text) <=? length (buffer b) - position b then
    exists b',
      ByteBuffer.putUtf8Raw text b = Ok b'
      /\ buffer b' = splice (buffer b) (position b) (utf8 text)
      /\ position b' = position b + length (utf8 text)
      /\ limit b' = limit b
  else ByteBuffer.putUtf8Raw text b = Throw "failed to put utf8 text".
Proof.
  intros _. unfold ByteBuffer.putUtf8Raw, bytesUsed. cbn [andb bind].
  destruct (Nat.leb_spec (length (utf8 text)) (length (buffer b) - position b))
    as [Hfit|Hcut].
  - rewrite firstn_all2 by assumption. rewrite Nat.eqb_refl.
    eexists. split; [reflexivity|]. repeat split.
  - rewrite length_firstn.
    destruct (Nat.eqb_spec (Nat.min (length (buffer b) - position b) (length (utf8 text)))
                (length (utf8 text))); [lia|reflexivity].
Qed.

Lemma putUtf8Raw_fits_or_throws_witness :
  ByteBuffer.putUtf8Raw "moof" (ByteBuffer.create 3 false) = Throw "failed to put utf8 text".
Proof.
  assert (Ha : isAscii "moof") by (unfold isAscii; simpl; repeat constructor; lia).
  exact (putUtf8Raw_fits_or_throws "moof" (ByteBuffer.create 3 false) Ha).
Defined.

(** [get] copies [length] bytes from the position into the destination
    at [offset] and moves the position; it throws when the bytes do not
    fit into the destination, and when the position would pass the
    limit. *)
Theorem get_copies_or_throws (dst : bytes) (offset len : nat) (b : ByteBuffer.t) :
  position b + len <= length (buffer b) ->
  ByteBuffer.get dst offset len b
  = if length dst <? offset + len then Throw "RangeError: offset is out of bounds"
    else if limit b <? position b + len then Throw "failed to read over the limit"
    else Ok (firstn offset dst ++ slice (buffer b) (position b) (position b + len)
               ++ skipn (offset + len) dst,
             mk (position b + len) (limit b) (littleEndian b) (buffer b)).
Proof.
  intros Hin. unfold ByteBuffer.get, set_at, bytesUsed, with_position.
  assert (Hl : length (slice (buffer b) (position b) (position b + len)) = len).
  { unfold slice. rewrite length_firstn, length_skipn. lia. }
  rewrite Hl.
  destruct (length dst <? offset + len); [reflexivity|]. cbn [bind andb position limit].
  destruct (limit b <? position b + len); [reflexivity|]. cbn [bind].
  unfold splice. now rewrite Hl.
Qed.

Lemma get_copies_or_throws_witness :
  ByteBuffer.get [0; 0; 0; 0]%Z 1 2 (mk 1 3 false [5; 6; 7; 8]%Z)
  = Ok ([0; 6; 7; 0]%Z, mk 3 3 false [5; 6; 7; 8]%Z).
Proof.
  exact (get_copies_or_throws [0; 0; 0; 0]%Z 1 2 (mk 1 3 false [5; 6; 7; 8]%Z)
           ltac:(simpl; lia)).
Defined.

(** ** util.ts: numToHex *)

Lemma hexDigitValue_hexDigit (d : Z) : (0 <= d < 16)%Z -> hexDigitValue (hexDigit d) = d.
Proof.
  intros Hd.
  assert (Hc : (d = 0 \/ d = 1 \/ d = 2 \/ d = 3 \/ d = 4 \/ d = 5 \/ d = 6 \/ d = 7
                \/ d = 8 \/ d = 9 \/ d = 10 \/ d = 11 \/ d = 12 \/ d = 13 \/ d = 14
                \/ d = 15)%Z) by lia.
  repeat (destruct Hc as [-> | Hc]; [reflexivity|]). now subst.
Qed.

Lemma hexValue_toHexDigits (fuel : nat) :
  forall (n : Z) (acc : string),
    (0 <= n < 16 ^ Z.of_nat fuel)%Z ->
    hexValue (toHexDigits fuel n acc)
    = (n * 16 ^ Z.of_nat (String.length acc) + hexValue acc)%Z
    /\ String.length acc <= String.length (toHexDigits fuel n acc)
    /\ ((0 < n)%Z -> String.length acc < String.length (toHexDigits fuel n acc)).
Proof.
  induction fuel as [|fuel IH]; intros n acc Hn.
  - cbn [toHexDigits]. change (16 ^ Z.of_nat 0)%Z with 1%Z in Hn.
    replace n with 0%Z by lia. repeat split; lia.
  - cbn [toHexDigits].
    pose proof (Z.div_mod n 16 ltac:(lia)) as Hdm.
    pose proof (Z.mod_pos_bound n 16 ltac:(lia)) as Hm.
    assert (Hacc : hexValue (String (hexDigit (n mod 16)) acc)
                   = ((n mod 16) * 16 ^ Z.of_nat (String.length acc) + hexValue acc)%Z).
    { cbn [hexValue]. now rewrite hexDigitValue_hexDigit. }
    destruct (Z.eqb_spec (n / 16) 0) as [Hz|Hnz].
    + rewrite Hacc. replace (n mod 16)%Z with n by lia. cbn [String.length].
      repeat split; lia.
    + assert (Hq : (0 <= n / 16 < 16 ^ Z.of_nat fuel)%Z).
      { split; [apply Z.div_pos; lia|].
        apply Z.div_lt_upper_bound; [lia|].
        rewrite Nat2Z.inj_succ, Z.pow_succ_r in Hn by lia. lia. }
      destruct (IH (n / 16)%Z (String (hexDigit (n mod 16)) acc) Hq) as (Hv & Hl & _).
      rewrite Hv, Hacc. cbn [String.length] in *.
      rewrite Nat2Z.inj_succ, Z.pow_succ_r by lia.
      repeat split; lia.
Qed.

Lemma length_toHexDigits (fuel : nat) :
  forall (n : Z) (acc : string),
    String.length acc <= String.length (toHexDigits fuel n acc)
    /\ (0 < fuel -> String.length acc < String.length (toHexDigits fuel n acc)).
Proof.
  induction fuel as [|fuel IH]; intros n acc; cbn [toHexDigits]; [split; lia|].
  destruct (n / 16 =? 0)%Z; cbn [String.length]; [split; lia|].
  destruct (IH (n / 16)%Z (String (hexDigit (n mod 16)) acc)) as (Hl & _).
  cbn [String.length] in Hl. split; lia.
Qed.

Lemma toString16_nonneg (n : Z) :
  (0 <= n)%Z -> toString16 n = toHexDigits (S (Z.to_nat (Z.log2 n))) n EmptyString.
Proof.
  intros Hn. unfold toString16. destruct (Z.ltb_spec n 0); [lia | reflexivity].
Qed.

Lemma toString16_fuel (n : Z) :
  (0 <= n)%Z -> (0 <= n < 16 ^ Z.of_nat (S (Z.to_nat (Z.log2 n))))%Z.
Proof.
  intros Hn. split; [assumption|].
  rewrite Nat2Z.inj_succ, Z2Nat.id by apply Z.log2_nonneg.
  destruct (Z.eq_dec n 0) as [->|Hnz]; [reflexivity|].
  pose proof (Z.log2_spec n ltac:(lia)) as [_ Hlt].
  apply (Z.lt_le_trans _ _ _ Hlt).
  pose proof (Z.log2_nonneg n).
  apply Z.pow_le_mono_l. lia.
Qed.

(** [numToHex] of a non-negative integer is its hexadecimal numeral in
    lower-case digits: reading it back gives the number; it has at least
    two characters, exactly two below 256, and from 16 on it is
    [toString(16)] unchanged. *)
Theorem numToHex_roundtrip (n : Z) :
  (0 <= n)%Z ->
  hexValue (numToHex n) = n
  /\ 2 <= String.length (numToHex n)
  /\ ((n < 256)%Z -> String.length (numToHex n) = 2)
  /\ ((16 <= n)%Z -> numToHex n = toString16 n).
Proof.
  intros Hn.
  destruct (hexValue_toHexDigits (S (Z.to_nat (Z.log2 n))) n EmptyString
              (toString16_fuel n Hn)) as (Hv & _ & Hl).
  rewrite <- (toString16_nonneg n Hn) in Hv, Hl. cbn [String.length hexValue] in Hv, Hl.
  rewrite Z.mul_1_r, Z.add_0_r in Hv.
  assert (Hone : forall s, String.length s = 1 ->
            hexValue (String "0" s) = hexValue s /\ (hexValue s < 16)%Z).
  { intros [|c [|c' s']] Hs; try discriminate. cbn [hexValue String.length].
    change (hexDigitValue "0") with 0%Z.
    assert (hexDigitValue c < 16)%Z.
    { destruct c as [[] [] [] [] [] [] [] []]; cbn; lia. }
    lia. }
  assert (Hpos : 1 <= String.length (toString16 n)).
  { destruct (length_toHexDigits (S (Z.to_nat (Z.log2 n))) n EmptyString) as (_ & Hlt).
    rewrite <- (toString16_nonneg n Hn) in Hlt. cbn [String.length] in Hlt. lia. }
  assert (Hbyte : (n < 256)%Z -> String.length (numToHex n) = 2)
    by (intros Hb; now rewrite numToHex_byte by lia).
  unfold numToHex in *.
  destruct (Nat.eqb_spec (String.length (toString16 n)) 1) as [H1|H1].
  - destruct (Hone _ H1) as (Hz & Hlt). rewrite Hz, Hv in *. cbn [String.length].
    rewrite H1. repeat split; lia.
  - repeat split; [exact Hv | lia | exact Hbyte].
Qed.

Lemma numToHex_roundtrip_witness :
  hexValue (numToHex 4660) = 4660%Z /\ numToHex 4660 = "1234"%string.
Proof.
  destruct (numToHex_roundtrip 4660 ltac:(lia)) as (Hv & _ & _ & Hs).
  split; [exact Hv|]. rewrite Hs by lia. reflexivity.
Defined.

(** ** annex_b_translator.ts: scanning, the frame buffer and HVCC *)

(** [startsWith] holds exactly when the pattern is in the array at the
    position; in particular it fails when the pattern would run past the
    end of the array. *)
Theorem startsWith_iff (buffer : bytes) (position : nat) (check : bytes) :
  startsWith buffer position check = true
  <-> firstn (length check) (skipn position buffer) = check.
Proof.
  rewrite startsWith_skipn. generalize (skipn position buffer) as l. clear.
  induction check as [|c check IH]; intros l.
  - cbn. tauto.
  - cbn [startsWith length]. destruct l as [|x l]; cbn [nth_error firstn].
    + split; discriminate.
    + destruct (Z.eqb_spec x c) as [->|Hne].
      * rewrite (startsWith_skipn (c :: l) 1). cbn [skipn]. rewrite IH.
        split; [now intros -> | now intros [= ->]].
      * split; [discriminate | intros [= ? _]; contradiction].
Qed.

(** [checkFrameBufferSize] makes room for the bytes that follow: the
    frame buffer is left alone when they fit; otherwise it is replaced by
    one of twice the size needed which starts with the old contents.  The
    buffer never shrinks and nothing else of the translator changes. *)
Theorem checkFrameBufferSize_grows (T : Type) (currentSize requiredExtra : nat)
    (st : State T) :
  let st1 := checkFrameBufferSize currentSize requiredExtra st in
  currentSize + requiredExtra <= length (currentFrame st1)
  /\ length (currentFrame st) <= length (currentFrame st1)
  /\ firstn (length (currentFrame st)) (currentFrame st1) = currentFrame st
  /\ decoderConfig st1 = decoderConfig st
  /\ codecState st1 = codecState st
  /\ (currentSize + requiredExtra <= length (currentFrame st) -> st1 = st)
  /\ (length (currentFrame st) < currentSize + requiredExtra ->
      length (currentFrame st1) = (currentSize + requiredExtra) * 2).
Proof.
  unfold checkFrameBufferSize.
  destruct (Nat.ltb_spec (length (currentFrame st)) (currentSize + requiredExtra))
    as [Hlt|Hge].
  - cbn [currentFrame with_frame decoderConfig codecState].
    assert (Hsp : splice (zeros ((currentSize + requiredExtra) * 2)) 0 (currentFrame st)
                  = currentFrame st
                    ++ zeros ((currentSize + requiredExtra) * 2 - length (currentFrame st))).
    { unfold splice. cbn [firstn app Nat.add]. now rewrite skipn_zeros. }
    rewrite Hsp, length_app, length_zeros.
    rewrite firstn_app, firstn_all, Nat.sub_diag, firstn_O, app_nil_r.
    repeat split; lia.
  - rewrite firstn_all. repeat split; lia.
Qed.

Lemma h265MakeHvcC_result (vps sps pps : bytes) :
  h265MakeHvcC vps sps pps = Ok (hvccRecord vps sps pps).
Proof.
  unfold h265MakeHvcC.
  replace (23 + 3 * 3 + (2 + length vps) + (2 + length sps) + (2 + length pps))
    with (23 + (5 + (length vps + (5 + (length sps + (5 + (length pps + 0)))))))
    by lia.
  cbn [Nat.add].
  change (zeros ?n, 0) with ([] ++ zeros n, length (@nil Z)).
  rewrite !poke_zeros, pokeAll_zeros. cbn [bind].
  rewrite !poke_zeros, pokeAll_zeros. cbn [bind].
  rewrite !poke_zeros, pokeAll_zeros. cbn [bind fst].
  unfold hvccRecord.
  rewrite <- (shiftr8_byte (Z.of_nat (length vps))),
    <- (shiftr8_byte (Z.of_nat (length sps))),
    <- (shiftr8_byte (Z.of_nat (length pps))) by lia.
  rewrite app_nil_r. cbn [app]. rewrite <- !app_assoc. reflexivity.
Qed.

(** [h265MakeHvcC] returns exactly the HVCC record: the size it
    allocates is the size it fills, 38 bytes plus the three parameter
    sets. *)
Theorem h265MakeHvcC_layout (vps sps pps : bytes) :
  h265MakeHvcC vps sps pps = Ok (hvccRecord vps sps pps)
  /\ length (hvccRecord vps sps pps) = 38 + length vps + length sps + length pps.
Proof.
  split; [apply h265MakeHvcC_result|].
  unfold hvccRecord. rewrite !length_app, !length_u16be. cbn [length]. lia.
Qed.

(** ** Scanning a unit NAL by NAL *)

Section ScanSteps.

Context {T : Type} {C : Codec T}.

(** The start code at offset 0: nothing is handed to the hooks. *)
Lemma scan_first_start_code (sc rest : bytes) (st : State T) (fuel : nat) :
  isStartCode sc ->
  scanLoop (S fuel) (sc ++ rest)
    {| unitBegin := 0; currentPosition := 0; currentFrameSize := 0; self := st |}
  = scanLoop fuel (sc ++ rest)
      {| unitBegin := length sc; currentPosition := length sc;
         currentFrameSize := 0; self := st |}.
Proof.
  intros Hsc.
  pose proof (scanLoop_start_code (C := C) [] sc rest 0 0 st fuel Hsc) as E.
  cbn [app length Nat.eqb negb bind] in E. rewrite E.
  unfold advance. cbn [unitBegin currentPosition currentFrameSize self Nat.add].
  reflexivity.
Qed.

(** A NAL unit followed by a start code, when the hook does not include
    it: only the translator state changes. *)
Lemma scan_excluded_unit (pre nal sc post : bytes) (cfs : nat) (st st' : State T)
    (fuel : nat) :
  pre <> [] ->
  isNal nal = true ->
  isStartCode sc ->
  onChunkUnit nal st = Ok (false, st') ->
  scanLoop (length nal + S fuel) (pre ++ nal ++ sc ++ post)
    {| unitBegin := length pre; currentPosition := length pre;
       currentFrameSize := cfs; self := st |}
  = scanLoop fuel (pre ++ nal ++ sc ++ post)
      {| unitBegin := length (pre ++ nal ++ sc); currentPosition := length (pre ++ nal ++ sc);
         currentFrameSize := cfs; self := st' |}.
Proof.
  intros Hpre Hnal Hsc Hon.
  destruct (isStartCode_zero sc post Hsc) as (r & Hr).
  rewrite (scanLoop_skip_whole pre nal (sc ++ post) (length pre) cfs st (S fuel) Hnal
             ltac:(right; eauto)).
  assert (D : pre ++ nal ++ sc ++ post = (pre ++ nal) ++ sc ++ post)
    by now rewrite <- !app_assoc.
  rewrite D.
  replace (length pre + length nal) with (length (pre ++ nal)) by apply length_app.
  rewrite scanLoop_start_code by assumption.
  assert (Hne : (length (pre ++ nal) =? 0) = false).
  { apply Nat.eqb_neq. rewrite length_app. destruct pre; [congruence|cbn; lia]. }
  rewrite Hne. cbn [negb].
  rewrite (handleStartCode_skip ((pre ++ nal) ++ sc ++ post)
             {| unitBegin := length pre; currentPosition := length (pre ++ nal);
                currentFrameSize := cfs; self := st |} st').
  - cbn [bind]. unfold advance.
    cbn [unitBegin currentPosition currentFrameSize self].
    rewrite <- D. do 2 f_equal; rewrite !length_app; lia.
  - cbn [unitBegin currentPosition self].
    rewrite <- D, length_app, slice_middle. exact Hon.
Qed.

(** The last NAL unit of the data, when the hook includes it. *)
Lemma scan_last_included_unit (pre nal : bytes) (cfs : nat) (st : State T) (fuel : nat) :
  isNal nal = true ->
  onChunkUnit nal st = Ok (true, st) ->
  cfs <= length (currentFrame st) ->
  exists frame,
    scanLoop (length nal + fuel) (pre ++ nal)
      {| unitBegin := length pre; currentPosition := length pre;
         currentFrameSize := cfs; self := st |}
    = Ok {| unitBegin := length pre; currentPosition := length pre + length nal;
            currentFrameSize := cfs; self := st |}
    /\ handleStartCode (pre ++ nal)
         {| unitBegin := length pre; currentPosition := length pre + length nal;
            currentFrameSize := cfs; self := st |}
       = Ok {| unitBegin := length pre; currentPosition := length pre + length nal;
               currentFrameSize := cfs + (length nal + 4);
               self := with_frame st frame |}
    /\ firstn (cfs + (length nal + 4)) frame
       = firstn cfs (currentFrame st) ++ u32be (Z.of_nat (length nal)) ++ nal.
Proof.
  intros Hnal Hon Hcfs.
  assert (D : pre ++ nal = pre ++ nal ++ []) by now rewrite app_nil_r.
  rewrite D.
  rewrite (scanLoop_skip_whole pre nal [] (length pre) cfs st fuel Hnal
             ltac:(left; reflexivity)).
  rewrite scanLoop_end
    by (cbn [currentPosition]; rewrite !length_app; cbn [length]; lia).
  destruct (handleStartCode_include (pre ++ nal ++ [])
              {| unitBegin := length pre; currentPosition := length pre + length nal;
                 currentFrameSize := cfs; self := st |} st)
    as (frame & Eh & Hframe & _).
  - cbn [unitBegin currentPosition self]. now rewrite slice_middle.
  - exact Hcfs.
  - cbn [unitBegin currentPosition currentFrameSize self] in Eh, Hframe.
    rewrite slice_middle in Eh, Hframe.
    exists frame. split; [reflexivity|]. split; [exact Eh | exact Hframe].
Qed.

End ScanSteps.

(** ** The H.265 translator on VPS, SPS, PPS, IDR *)

Lemma h265_onChunkUnit_vps (sl : bytes) (st : State H265) :
  h265NalType (nth 0 sl 0%Z) = 32%Z ->
  onChunkUnit sl st
  = Ok (false, with_codec st {| h265_hasDescription := h265_hasDescription (codecState st);
                                h265_vps := Some sl;
                                h265_sps := h265_sps (codecState st);
                                h265_pps := h265_pps (codecState st) |}).
Proof.
  intros Hty. cbn [onChunkUnit H265StreamVideoTranslator]. unfold h265_onChunkUnit.
  now rewrite Hty.
Qed.

Lemma h265_onChunkUnit_sps (sl : bytes) (st : State H265) :
  h265NalType (nth 0 sl 0%Z) = 33%Z ->
  onChunkUnit sl st
  = Ok (false, with_codec st {| h265_hasDescription := h265_hasDescription (codecState st);
                                h265_vps := h265_vps (codecState st);
                                h265_sps := Some sl;
                                h265_pps := h265_pps (codecState st) |}).
Proof.
  intros Hty. cbn [onChunkUnit H265StreamVideoTranslator]. unfold h265_onChunkUnit.
  now rewrite Hty.
Qed.

Lemma h265_onChunkUnit_pps (sl : bytes) (st : State H265) :
  h265NalType (nth 0 sl 0%Z) = 34%Z ->
  onChunkUnit sl st
  = Ok (false, with_codec st {| h265_hasDescription := h265_hasDescription (codecState st);
                                h265_vps := h265_vps (codecState st);
                                h265_sps := h265_sps (codecState st);
                                h265_pps := Some sl |}).
Proof.
  intros Hty. cbn [onChunkUnit H265StreamVideoTranslator]. unfold h265_onChunkUnit.
  now rewrite Hty.
Qed.

(** The translation of a key unit made of a VPS, an SPS, a PPS and one
    more NAL unit. *)
Lemma h265_key_unit (num : Type) (vps sps pps idr sc1 sc2 sc3 sc4 : bytes)
    (timestamp duration : num) (st : State H265) (config : VideoDecoderConfig) :
  isStartCode sc1 -> isStartCode sc2 -> isStartCode sc3 -> isStartCode sc4 ->
  isNal vps = true -> isNal sps = true -> isNal pps = true -> isNal idr = true ->
  h265NalType (nth 0 vps 0%Z) = 32%Z ->
  h265NalType (nth 0 sps 0%Z) = 33%Z ->
  h265NalType (nth 0 pps 0%Z) = 34%Z ->
  h265IsPayload idr = true ->
  decoderConfig st = Some config ->
  exists st',
    Translator.submitDecodeUnit
      {| type := key; data := sc1 ++ vps ++ sc2 ++ sps ++ sc3 ++ pps ++ sc4 ++ idr;
         timestampMicroseconds := timestamp; durationMicroseconds := duration |} st
    = Ok (Some {| configure := Some {| codec := codec config;
                                       description := Some (hvccRecord vps sps pps) |};
                  chunk := Some (u32be (Z.of_nat (length idr)) ++ idr) |},
          st')
    /\ h265_hasDescription (codecState st') = true
    /\ h265_vps (codecState st') = None
    /\ h265_sps (codecState st') = None
    /\ h265_pps (codecState st') = None
    /\ decoderConfig st'
       = Some {| codec := codec config; description := Some (hvccRecord vps sps pps) |}.
Proof.
  intros Hsc1 Hsc2 Hsc3 Hsc4 Hvps Hsps Hpps Hidr Ht32 Ht33 Ht34 Hpay Hcfg.
  pose proof (isStartCode_length sc1 Hsc1) as L1.
  pose proof (isStartCode_length sc2 Hsc2) as L2.
  pose proof (isStartCode_length sc3 Hsc3) as L3.
  pose proof (isStartCode_length sc4 Hsc4) as L4.
  set (s1 := with_codec st {| h265_hasDescription := h265_hasDescription (codecState st);
                              h265_vps := Some vps;
                              h265_sps := h265_sps (codecState st);
                              h265_pps := h265_pps (codecState st) |}).
  set (s2 := with_codec s1 {| h265_hasDescription := h265_hasDescription (codecState s1);
                              h265_vps := h265_vps (codecState s1);
                              h265_sps := Some sps;
                              h265_pps := h265_pps (codecState s1) |}).
  set (s3 := with_codec s2 {| h265_hasDescription := h265_hasDescription (codecState s2);
                              h265_vps := h265_vps (codecState s2);
                              h265_sps := h265_sps (codecState s2);
                              h265_pps := Some pps |}).
  assert (D2 : sc1 ++ vps ++ sc2 ++ sps ++ sc3 ++ pps ++ sc4 ++ idr
               = (sc1 ++ vps ++ sc2) ++ sps ++ sc3 ++ pps ++ sc4 ++ idr)
    by now rewrite <- !app_assoc.
  assert (D3 : (sc1 ++ vps ++ sc2) ++ sps ++ sc3 ++ pps ++ sc4 ++ idr
               = ((sc1 ++ vps ++ sc2) ++ sps ++ sc3) ++ pps ++ sc4 ++ idr)
    by now rewrite <- !app_assoc.
  assert (D4 : ((sc1 ++ vps ++ sc2) ++ sps ++ sc3) ++ pps ++ sc4 ++ idr
               = (((sc1 ++ vps ++ sc2) ++ sps ++ sc3) ++ pps ++ sc4) ++ idr)
    by now rewrite <- !app_assoc.
  assert (Hother : onChunkUnit idr s3 = Ok (true, s3)) by now apply h265_keep_included.
  destruct (scan_last_included_unit
              (((sc1 ++ vps ++ sc2) ++ sps ++ sc3) ++ pps ++ sc4) idr 0 s3
              (length sc1 + length sc2 + length sc3 + length sc4 - 4) Hidr Hother
              ltac:(lia)) as (frame & Escan & Elast & Hframe).
  eexists.
  unfold Translator.submitDecodeUnit. rewrite Hcfg.
  cbn [type data startProcessChunk H265StreamVideoTranslator isKey orb negb].
  replace (length (sc1 ++ vps ++ sc2 ++ sps ++ sc3 ++ pps ++ sc4 ++ idr))
    with (S (length vps + S (length sps + S (length pps + S (length idr
            + (length sc1 + length sc2 + length sc3 + length sc4 - 4))))))
    by (rewrite !length_app; lia).
  rewrite scan_first_start_code by assumption.
  rewrite (scan_excluded_unit sc1 vps sc2 (sps ++ sc3 ++ pps ++ sc4 ++ idr) 0 st s1)
    by first [assumption | now apply h265_onChunkUnit_vps
                | destruct Hsc1 as [-> | ->]; cbn; discriminate].
  rewrite D2.
  rewrite (scan_excluded_unit (sc1 ++ vps ++ sc2) sps sc3 (pps ++ sc4 ++ idr) 0 s1 s2)
    by first [assumption | now apply h265_onChunkUnit_sps
                | destruct Hsc1 as [-> | ->]; cbn; discriminate].
  rewrite D3.
  rewrite (scan_excluded_unit ((sc1 ++ vps ++ sc2) ++ sps ++ sc3) pps sc4 idr 0 s2 s3)
    by first [assumption | now apply h265_onChunkUnit_pps
                | destruct Hsc1 as [-> | ->]; cbn; discriminate].
  rewrite D4.
  rewrite Escan. cbn [bind]. rewrite Elast. cbn [bind self].
  cbn [endChunk H265StreamVideoTranslator]. unfold h265_endChunk.
  cbn [with_frame with_codec decoderConfig codecState h265_vps h265_sps h265_pps s3 s2 s1].
  rewrite Hcfg, h265MakeHvcC_result. cbn [bind currentFrame currentFrameSize codec].
  unfold slice, with_frame. cbn [skipn Nat.sub Nat.add decoderConfig currentFrame].
  rewrite Nat.sub_0_r. cbn [Nat.add firstn app] in Hframe. rewrite Hframe.
  split; [reflexivity|]. cbn [codecState h265_hasDescription h265_vps h265_sps h265_pps].
  repeat split.
Qed.


(** A key unit made of a VPS, an SPS, a PPS and one more NAL unit, each
    behind a 3- or 4-byte start code: the chunk is the last NAL unit
    behind its 32-bit length, the configuration carries the HVCC record
    of the three parameter sets and the codec string of the base
    configuration unchanged, and the translator has its description with
    no parameter set pending. *)
Theorem h265_vps_sps_pps_idr (num : Type) (vps sps pps idr sc1 sc2 sc3 sc4 : bytes)
    (timestamp duration : num) (st : State H265) (config : VideoDecoderConfig) :
  isStartCode sc1 -> isStartCode sc2 -> isStartCode sc3 -> isStartCode sc4 ->
  isNal vps = true -> isNal sps = true -> isNal pps = true -> isNal idr = true ->
  h265NalType (nth 0 vps 0%Z) = 32%Z ->
  h265NalType (nth 0 sps 0%Z) = 33%Z ->
  h265NalType (nth 0 pps 0%Z) = 34%Z ->
  h265IsPayload idr = true ->
  decoderConfig st = Some config ->
  exists st',
    Translator.submitDecodeUnit
      {| type := key; data := sc1 ++ vps ++ sc2 ++ sps ++ sc3 ++ pps ++ sc4 ++ idr;
         timestampMicroseconds := timestamp; durationMicroseconds := duration |} st
    = Ok (Some {| configure := Some {| codec := codec config;
                                       description := Some (hvccRecord vps sps pps) |};
                  chunk := Some (u32be (Z.of_nat (length idr)) ++ idr) |},
          st')
    /\ h265_hasDescription (codecState st') = true
    /\ h265_vps (codecState st') = None
    /\ h265_sps (codecState st') = None
    /\ h265_pps (codecState st') = None.
Proof.
  intros Hsc1 Hsc2 Hsc3 Hsc4 Hvps Hsps Hpps Hidr Ht32 Ht33 Ht34 Hpay Hcfg.
  destruct (h265_key_unit num vps sps pps idr sc1 sc2 sc3 sc4 timestamp duration st config
              Hsc1 Hsc2 Hsc3 Hsc4 Hvps Hsps Hpps Hidr Ht32 Ht33 Ht34 Hpay Hcfg)
    as (st' & E & Hh & Hv & Hs & Hp & _).
  exists st'. auto.
Qed.

Lemma h265_vps_sps_pps_idr_witness :
  exists st',
    Translator.submitDecodeUnit
      {| type := key;
         data := [0; 0; 0; 1; 64; 1; 12; 0; 0; 0; 1; 66; 1; 1; 0; 0; 1; 68; 1; 192;
                  0; 0; 1; 38; 1; 175]%Z;
         timestampMicroseconds := 0%Z; durationMicroseconds := 0%Z |}
      (Translator.create (S := H265))
    = Ok (Some {| configure :=
                    Some {| codec := "undefined";
                            description := Some (hvccRecord [64; 1; 12] [66; 1; 1]
                                                   [68; 1; 192])%Z |};
                  chunk := Some [0; 0; 0; 3; 38; 1; 175]%Z |}, st').
Proof.
  destruct (h265_vps_sps_pps_idr Z [64; 1; 12]%Z [66; 1; 1]%Z [68; 1; 192]%Z [38; 1; 175]%Z
              [0; 0; 0; 1]%Z [0; 0; 0; 1]%Z [0; 0; 1]%Z [0; 0; 1]%Z 0%Z 0%Z
              (Translator.create (S := H265))
              {| codec := "undefined"; description := None |}
              ltac:(right; reflexivity) ltac:(right; reflexivity)
              ltac:(left; reflexivity) ltac:(left; reflexivity)
              ltac:(reflexivity) ltac:(reflexivity) ltac:(reflexivity) ltac:(reflexivity)
              ltac:(reflexivity) ltac:(reflexivity) ltac:(reflexivity) ltac:(reflexivity)
              ltac:(reflexivity)) as (st' & E & _).
  exists st'. exact E.
Defined.

(** ** The H.264 translator on SPS, PPS and any payload unit *)

(** The translation of a key unit made of an SPS, a PPS and one more
    NAL unit of any other type. *)
Lemma h264_key_unit_payload (num : Type) (sps pps nal sc1 sc2 sc3 : bytes)
    (timestamp duration : num) (st : State H264) (config : VideoDecoderConfig) :
  isStartCode sc1 -> isStartCode sc2 -> isStartCode sc3 ->
  isNal sps = true -> isNal pps = true -> isNal nal = true ->
  h264NalType (nth 0 sps 0%Z) = 7%Z -> 4 <= length sps ->
  h264NalType (nth 0 pps 0%Z) = 8%Z ->
  h264IsPayload nal = true ->
  decoderConfig st = Some config ->
  exists st',
    Translator.submitDecodeUnit
      {| type := key; data := sc1 ++ sps ++ sc2 ++ pps ++ sc3 ++ nal;
         timestampMicroseconds := timestamp; durationMicroseconds := duration |} st
    = Ok (Some {| configure := Some {| codec := spsCodecTag sps;
                                       description := Some (avccRecord sps pps ++ [0%Z]) |};
                  chunk := Some (u32be (Z.of_nat (length nal)) ++ nal) |},
          st')
    /\ h264_hasDescription (codecState st') = true
    /\ h264_sps (codecState st') = None
    /\ h264_pps (codecState st') = None
    /\ decoderConfig st'
       = Some {| codec := spsCodecTag sps;
                 description := Some (avccRecord sps pps ++ [0%Z]) |}.
Proof.
  intros Hsc1 Hsc2 Hsc3 Hsps Hpps Hnal Ht7 Hlen Ht8 Hpay Hcfg.
  pose proof (isStartCode_length sc1 Hsc1) as L1.
  pose proof (isStartCode_length sc2 Hsc2) as L2.
  pose proof (isStartCode_length sc3 Hsc3) as L3.
  set (s1 := {| decoderConfig := Some {| codec := spsCodecTag sps;
                                         description := description config |};
                currentFrame := currentFrame st;
                codecState := {| h264_hasDescription := h264_hasDescription (codecState st);
                                 h264_pps := h264_pps (codecState st);
                                 h264_sps := Some sps |} |}).
  set (s2 := {| decoderConfig := decoderConfig s1;
                currentFrame := currentFrame s1;
                codecState := {| h264_hasDescription := h264_hasDescription (codecState s1);
                                 h264_pps := Some pps;
                                 h264_sps := h264_sps (codecState s1) |} |}).
  assert (Hother : onChunkUnit nal s2 = Ok (true, s2)) by now apply h264_keep_included.
  destruct (scan_last_included_unit ((sc1 ++ sps ++ sc2) ++ pps ++ sc3) nal 0 s2
              (length sc1 + length sc2 + length sc3 - 3) Hnal Hother ltac:(lia))
    as (frame & Escan & Elast & Hframe).
  eexists.
  unfold Translator.submitDecodeUnit. rewrite Hcfg.
  cbn [type data startProcessChunk H264StreamVideoTranslator isKey orb negb].
  replace (length (sc1 ++ sps ++ sc2 ++ pps ++ sc3 ++ nal))
    with (S (length sps + S (length pps + S (length nal
            + (length sc1 + length sc2 + length sc3 - 3)))))
    by (rewrite !length_app; lia).
  rewrite scan_first_start_code by assumption.
  rewrite (scan_excluded_unit sc1 sps sc2 (pps ++ sc3 ++ nal) 0 st s1)
    by first [assumption | exact (h264_onChunkUnit_sps sps st config Ht7 Hlen Hcfg)
              | destruct Hsc1 as [-> | ->]; cbn; discriminate].
  replace (sc1 ++ sps ++ sc2 ++ pps ++ sc3 ++ nal)
    with ((sc1 ++ sps ++ sc2) ++ pps ++ sc3 ++ nal) by now rewrite <- !app_assoc.
  rewrite (scan_excluded_unit (sc1 ++ sps ++ sc2) pps sc3 nal 0 s1 s2)
    by first [assumption | exact (h264_onChunkUnit_pps pps s1 Ht8)
              | destruct Hsc1 as [-> | ->]; cbn; discriminate].
  replace ((sc1 ++ sps ++ sc2) ++ pps ++ sc3 ++ nal)
    with (((sc1 ++ sps ++ sc2) ++ pps ++ sc3) ++ nal) by now rewrite <- !app_assoc.
  rewrite Escan. cbn [bind]. rewrite Elast. cbn [bind self].
  cbn [endChunk H264StreamVideoTranslator]. unfold h264_endChunk.
  cbn [with_frame decoderConfig codecState h264_pps h264_sps s2 s1].
  rewrite h264MakeAvcC_result. cbn [bind currentFrame currentFrameSize codec].
  unfold slice, with_frame. cbn [skipn Nat.sub Nat.add decoderConfig currentFrame].
  rewrite Nat.sub_0_r. cbn [Nat.add firstn app] in Hframe. rewrite Hframe.
  split; [reflexivity|].
  cbn [codecState h264_hasDescription h264_sps h264_pps decoderConfig]. repeat split.
Qed.

(** ** The parameter-set latch, from the first reconfigure on *)



(** ** Edge cases of the H.264 translation *)

Lemma handleStartCode_throws {T : Type} {C : Codec T} (data : bytes) (sc : Scan T)
    (msg : string) :
  onChunkUnit (slice data (unitBegin sc) (currentPosition sc)) (self sc) = Throw msg ->
  handleStartCode data sc = Throw msg.
Proof.
  intros Hon. unfold handleStartCode. now rewrite Hon.
Qed.

Lemma h264_onChunkUnit_short_sps (sps : bytes) (st : State H264) :
  h264NalType (nth 0 sps 0%Z) = 7%Z ->
  sps <> [] -> length sps < 4 ->
  onChunkUnit sps st = Throw "RangeError: offset is outside the bounds of the DataView".
Proof.
  intros Hty Hne Hlen.
  cbn [onChunkUnit H264StreamVideoTranslator]. unfold h264_onChunkUnit. rewrite Hty.
  cbn [Z.eqb Pos.eqb].
  unfold h264NalType in Hty.
  destruct sps as [|h [|p [|c [|l rest]]]]; try congruence; try (cbn in Hlen; lia);
    cbn [nth] in Hty;
    unfold h264ParseSps, getU8, wrap, bytesUsed;
    cbn [position buffer limit nth_error bind with_position andb Nat.add length
         Nat.ltb Nat.leb];
    rewrite Hty;
    cbn [Z.eqb Pos.eqb negb nth_error bind position buffer limit with_position
         andb Nat.add Nat.ltb Nat.leb length];
    reflexivity.
Qed.

(** An SPS of fewer than four bytes makes the translation of its unit
    throw: [h264ParseSps] reads the three bytes behind the header through
    a [DataView] of the SPS alone, and the exception is not caught. *)
Theorem h264_short_sps_throws (num : Type) (sc sps post : bytes)
    (timestamp duration : num) (st : State H264) (config : VideoDecoderConfig) :
  isStartCode sc ->
  isNal sps = true ->
  h264NalType (nth 0 sps 0%Z) = 7%Z ->
  length sps < 4 ->
  (post = [] \/ exists sc2 more, isStartCode sc2 /\ post = sc2 ++ more) ->
  decoderConfig st = Some config ->
  Translator.submitDecodeUnit
    {| type := key; data := sc ++ sps ++ post;
       timestampMicroseconds := timestamp; durationMicroseconds := duration |} st
  = Throw "RangeError: offset is outside the bounds of the DataView".
Proof.
  intros Hsc Hnal Hty Hlen Hpost Hcfg.
  pose proof (isStartCode_length sc Hsc) as L.
  destruct (isNal_spec sps Hnal) as (Hne & _ & _).
  pose proof (h264_onChunkUnit_short_sps sps st Hty Hne Hlen) as Hthrow.
  unfold Translator.submitDecodeUnit. rewrite Hcfg.
  cbn [type data startProcessChunk H264StreamVideoTranslator isKey orb negb].
  replace (length (sc ++ sps ++ post))
    with (S (length sps + (length sc - 1 + length post)))
    by (rewrite !length_app; lia).
  rewrite scan_first_start_code by assumption.
  destruct Hpost as [-> | (sc2 & more & Hsc2 & ->)].
  - rewrite (scanLoop_skip_whole sc sps [] (length sc) 0 st _ Hnal ltac:(left; reflexivity)).
    rewrite scanLoop_end
      by (cbn [currentPosition]; rewrite !length_app; cbn [length]; lia).
    cbn [bind].
    rewrite (handleStartCode_throws (sc ++ sps ++ [])
               {| unitBegin := length sc; currentPosition := length sc + length sps;
                  currentFrameSize := 0; self := st |}
               "RangeError: offset is outside the bounds of the DataView").
    + reflexivity.
    + cbn [unitBegin currentPosition self]. rewrite slice_middle. exact Hthrow.
  - pose proof (isStartCode_length sc2 Hsc2) as L2.
    destruct (isStartCode_zero sc2 more Hsc2) as (r & Hr).
    rewrite (scanLoop_skip_whole sc sps (sc2 ++ more) (length sc) 0 st _ Hnal
               ltac:(right; eauto)).
    replace (length sc - 1 + length (sc2 ++ more))
      with (S (length sc - 1 + length (sc2 ++ more) - 1))
      by (rewrite length_app; lia).
    assert (D : sc ++ sps ++ sc2 ++ more = (sc ++ sps) ++ sc2 ++ more)
      by now rewrite <- !app_assoc.
    rewrite D.
    replace (length sc + length sps) with (length (sc ++ sps)) by apply length_app.
    rewrite scanLoop_start_code by assumption.
    assert (Hnz : (length (sc ++ sps) =? 0) = false)
      by (apply Nat.eqb_neq; rewrite length_app; lia).
    rewrite Hnz. cbn [negb].
    rewrite (handleStartCode_throws ((sc ++ sps) ++ sc2 ++ more)
               {| unitBegin := length sc; currentPosition := length (sc ++ sps);
                  currentFrameSize := 0; self := st |}
               "RangeError: offset is outside the bounds of the DataView").
    + reflexivity.
    + cbn [unitBegin currentPosition self].
      rewrite <- D, length_app, slice_middle. exact Hthrow.
Qed.

Lemma h264_short_sps_throws_witness :
  Translator.submitDecodeUnit
    {| type := key; data := [0; 0; 0; 1; 103; 66; 0; 0; 1; 104; 206]%Z;
       timestampMicroseconds := 0%Z; durationMicroseconds := 0%Z |}
    (Translator.create (S := H264))
  = Throw "RangeError: offset is outside the bounds of the DataView".
Proof.
  exact (h264_short_sps_throws Z [0; 0; 0; 1]%Z [103; 66]%Z [0; 0; 1; 104; 206]%Z 0%Z 0%Z
           (Translator.create (S := H264)) {| codec := "undefined"; description := None |}
           ltac:(right; reflexivity) ltac:(reflexivity) ltac:(reflexivity)
           ltac:(simpl; lia)
           ltac:(right; exists [0; 0; 1]%Z, [104; 206]%Z; split;
                 [left; reflexivity | reflexivity])
           ltac:(reflexivity)).
Defined.

Lemma h264_onChunkUnit_empty (st : State H264) : onChunkUnit [] st = Ok (true, st).
Proof. apply h264_onChunkUnit_other; cbn; discriminate. Qed.

Lemma slice_empty (data : bytes) (p : nat) : slice data p p = [].
Proof. unfold slice. now rewrite Nat.sub_diag. Qed.

(** Empty slices are NAL units too.  A key unit without any byte is
    translated into the chunk [00 00 00 00], a NAL unit of length zero;
    and a start code at the very end of a unit adds such an empty NAL
    unit behind the last one. *)
Theorem h264_empty_nal_units (num : Type) (timestamp duration : num) (st : State H264)
    (config : VideoDecoderConfig) :
  decoderConfig st = Some config ->
  (exists cfg st',
     Translator.submitDecodeUnit
       {| type := key; data := [];
          timestampMicroseconds := timestamp; durationMicroseconds := duration |} st
     = Ok (Some {| configure := cfg; chunk := Some [0; 0; 0; 0]%Z |}, st'))
  /\ (forall sc nal sc2 : bytes,
        isStartCode sc -> isStartCode sc2 ->
        isNal nal = true -> h264IsPayload nal = true ->
        exists cfg st',
          Translator.submitDecodeUnit
            {| type := key; data := sc ++ nal ++ sc2;
               timestampMicroseconds := timestamp; durationMicroseconds := duration |} st
          = Ok (Some {| configure := cfg;
                        chunk := Some (u32be (Z.of_nat (length nal)) ++ nal
                                       ++ [0; 0; 0; 0]%Z) |}, st')).
Proof.
  intros Hcfg. split.
  - unfold Translator.submitDecodeUnit. rewrite Hcfg.
    cbn [type data startProcessChunk H264StreamVideoTranslator isKey orb negb length
         scanLoop currentPosition Nat.ltb Nat.leb bind].
    destruct (handleStartCode_include []
                {| unitBegin := 0; currentPosition := 0; currentFrameSize := 0;
                   self := st |} st (h264_onChunkUnit_empty st) ltac:(cbn; lia))
      as (frame & Eh & Hframe & _).
    rewrite Eh. cbn [bind self].
    cbn [unitBegin currentPosition currentFrameSize] in Hframe.
    rewrite slice_empty in Hframe. cbn [length Nat.add] in Hframe.
    destruct (h264_total_endChunk
                {| decoderConfig := decoderConfig st; currentFrame := frame;
                   codecState := codecState st |} config Hcfg) as (r & st' & Eend).
    destruct (h264_endChunk_result _ _ _ Eend) as (Hcur & _).
    rewrite Eend. cbn [bind currentFrameSize unitBegin currentPosition].
    rewrite slice_empty. cbn [length Nat.add].
    unfold slice. cbn [skipn Nat.sub]. rewrite Hcur. cbn [currentFrame].
    rewrite Hframe. do 2 eexists. reflexivity.
  - intros sc nal sc2 Hsc Hsc2 Hnal Hpay.
    pose proof (isStartCode_length sc Hsc) as L.
    pose proof (isStartCode_length sc2 Hsc2) as L2.
    destruct (isStartCode_zero sc2 [] Hsc2) as (r & Hr). rewrite app_nil_r in Hr.
    assert (Hon : onChunkUnit nal st = Ok (true, st)) by now apply h264_keep_included.
    assert (D : sc ++ nal ++ sc2 = (sc ++ nal) ++ sc2 ++ []) 
      by now rewrite app_nil_r, <- app_assoc.
    destruct (handleStartCode_include ((sc ++ nal) ++ sc2 ++ [])
                {| unitBegin := length sc; currentPosition := length (sc ++ nal);
                   currentFrameSize := 0; self := st |} st)
      as (frame1 & Eh1 & Hframe1 & Hfit1).
    { cbn [unitBegin currentPosition self].
      rewrite <- D, length_app.
      replace (sc ++ nal ++ sc2) with (sc ++ nal ++ sc2 ++ []) by now rewrite app_nil_r.
      rewrite slice_middle. exact Hon. }
    { cbn; lia. }
    cbn [unitBegin currentPosition currentFrameSize self] in Eh1, Hframe1, Hfit1.
    assert (Hsl : slice ((sc ++ nal) ++ sc2 ++ []) (length sc) (length (sc ++ nal)) = nal).
    { rewrite <- D, length_app.
      replace (sc ++ nal ++ sc2) with (sc ++ nal ++ sc2 ++ []) by now rewrite app_nil_r.
      apply slice_middle. }
    rewrite Hsl in Eh1, Hframe1, Hfit1. cbn [Nat.add firstn app] in Eh1, Hframe1, Hfit1.
    set (st1 := {| decoderConfig := decoderConfig st; currentFrame := frame1;
                   codecState := codecState st |}) in *.
    set (L3 := length (sc ++ nal) + length sc2).
    destruct (handleStartCode_include ((sc ++ nal) ++ sc2 ++ [])
                {| unitBegin := L3; currentPosition := L3;
                   currentFrameSize := length nal + 4; self := st1 |} st1)
      as (frame2 & Eh2 & Hframe2 & _).
    { cbn [unitBegin currentPosition self]. rewrite slice_empty.
      apply h264_onChunkUnit_empty. }
    { cbn [currentFrameSize currentFrame st1]. exact Hfit1. }
    cbn [unitBegin currentPosition currentFrameSize self] in Eh2, Hframe2.
    rewrite slice_empty in Eh2, Hframe2. cbn [length Nat.add] in Eh2, Hframe2.
    destruct (h264_total_endChunk
                {| decoderConfig := decoderConfig st1; currentFrame := frame2;
                   codecState := codecState st1 |} config Hcfg) as (rc & st' & Eend).
    destruct (h264_endChunk_result _ _ _ Eend) as (Hcur & _).
    exists (if rc then decoderConfig st' else None), st'.
    unfold Translator.submitDecodeUnit. rewrite Hcfg.
    cbn [type data startProcessChunk H264StreamVideoTranslator isKey orb negb].
    replace (length (sc ++ nal ++ sc2))
      with (S (length nal + S (length sc + length sc2 - 2)))
      by (rewrite !length_app; lia).
    rewrite scan_first_start_code by assumption.
    rewrite (scanLoop_skip_whole sc nal sc2 (length sc) 0 st _ Hnal ltac:(right; eauto)).
    rewrite D.
    replace (length sc + length nal) with (length (sc ++ nal)) by apply length_app.
    rewrite scanLoop_start_code by assumption.
    assert (Hnz : (length (sc ++ nal) =? 0) = false)
      by (apply Nat.eqb_neq; rewrite length_app; lia).
    rewrite Hnz. cbn [negb]. rewrite Eh1. cbn [bind]. unfold advance.
    cbn [unitBegin currentPosition currentFrameSize self]. fold L3.
    rewrite scanLoop_end
      by (cbn [currentPosition]; unfold L3; rewrite !length_app; cbn [length]; lia).
    cbn [bind]. rewrite Eh2. cbn [bind self]. rewrite Eend.
    cbn [bind currentFrameSize].
    unfold slice. cbn [skipn]. rewrite Nat.sub_0_r, Hcur. cbn [currentFrame].
    rewrite Hframe2. cbn [currentFrame st1]. rewrite Hframe1.
    rewrite <- !app_assoc. reflexivity.
Qed.

Lemma h264_empty_nal_units_witness :
  exists cfg st',
    Translator.submitDecodeUnit
      {| type := key; data := [0; 0; 1; 101; 136; 0; 0; 1]%Z;
         timestampMicroseconds := 0%Z; durationMicroseconds := 0%Z |}
      (Translator.create (S := H264))
    = Ok (Some {| configure := cfg;
                  chunk := Some [0; 0; 0; 2; 101; 136; 0; 0; 0; 0]%Z |}, st').
Proof.
  destruct (h264_empty_nal_units Z 0%Z 0%Z (Translator.create (S := H264))
              {| codec := "undefined"; description := None |} ltac:(reflexivity))
    as (_ & H).
  exact (H [0; 0; 1]%Z [101; 136]%Z [0; 0; 1]%Z ltac:(left; reflexivity)
           ltac:(left; reflexivity) ltac:(reflexivity) ltac:(reflexivity)).
Defined.

(** Parameter sets are kept from one unit to the next.  A key unit that
    holds only an SPS yields an empty chunk and no configuration; the SPS
    stays pending, and the next unit, which brings the PPS, yields the
    configuration made of both, with the codec string of that SPS. *)
Theorem h264_parameter_sets_across_units (num : Type)
    (sps pps idr sc1 sc2 sc3 : bytes) (t1 d1 t2 d2 : num) (st : State H264)
    (config : VideoDecoderConfig) :
  isStartCode sc1 -> isStartCode sc2 -> isStartCode sc3 ->
  isNal sps = true -> isNal pps = true -> isNal idr = true ->
  h264NalType (nth 0 sps 0%Z) = 7%Z -> 4 <= length sps ->
  h264NalType (nth 0 pps 0%Z) = 8%Z ->
  h264IsPayload idr = true ->
  decoderConfig st = Some config ->
  h264_pps (codecState st) = None ->
  exists st1 st2,
    Translator.submitDecodeUnit
      {| type := key; data := sc1 ++ sps;
         timestampMicroseconds := t1; durationMicroseconds := d1 |} st
    = Ok (Some {| configure := None; chunk := Some [] |}, st1)
    /\ h264_sps (codecState st1) = Some sps
    /\ Translator.submitDecodeUnit
         {| type := key; data := sc2 ++ pps ++ sc3 ++ idr;
            timestampMicroseconds := t2; durationMicroseconds := d2 |} st1
       = Ok (Some {| configure :=
                       Some {| codec := spsCodecTag sps;
                               description := Some (avccRecord sps pps ++ [0%Z]) |};
                     chunk := Some (u32be (Z.of_nat (length idr)) ++ idr) |}, st2)
    /\ h264_hasDescription (codecState st2) = true.
Proof.
  intros Hsc1 Hsc2 Hsc3 Hsps Hpps Hidr Ht7 Hlen Ht8 Hpay Hcfg Hnopps.
  pose proof (isStartCode_length sc1 Hsc1) as L1.
  pose proof (isStartCode_length sc2 Hsc2) as L2.
  pose proof (isStartCode_length sc3 Hsc3) as L3.
  set (st1 := {| decoderConfig := Some {| codec := spsCodecTag sps;
                                          description := description config |};
                 currentFrame := currentFrame st;
                 codecState := {| h264_hasDescription := h264_hasDescription (codecState st);
                                  h264_pps := h264_pps (codecState st);
                                  h264_sps := Some sps |} |}).
  set (st1p := {| decoderConfig := decoderConfig st1;
                  currentFrame := currentFrame st1;
                  codecState := {| h264_hasDescription := h264_hasDescription (codecState st1);
                                   h264_pps := Some pps;
                                   h264_sps := h264_sps (codecState st1) |} |}).
  assert (Hother : onChunkUnit idr st1p = Ok (true, st1p)) by now apply h264_keep_included.
  destruct (scan_last_included_unit (sc2 ++ pps ++ sc3) idr 0 st1p
              (length sc2 + length sc3 - 2) Hidr Hother ltac:(lia))
    as (frame & Escan & Elast & Hframe).
  exists st1. eexists. split; [|split; [reflexivity|]].
  - unfold Translator.submitDecodeUnit. rewrite Hcfg.
    cbn [type data startProcessChunk H264StreamVideoTranslator isKey orb negb].
    replace (length (sc1 ++ sps)) with (S (length sps + (length sc1 - 1)))
      by (rewrite !length_app; lia).
    rewrite scan_first_start_code by assumption.
    replace (sc1 ++ sps) with (sc1 ++ sps ++ []) by now rewrite app_nil_r.
    rewrite (scanLoop_skip_whole sc1 sps [] (length sc1) 0 st _ Hsps
               ltac:(left; reflexivity)).
    rewrite scanLoop_end
      by (cbn [currentPosition]; rewrite !length_app; cbn [length]; lia).
    cbn [bind].
    rewrite (handleStartCode_skip (sc1 ++ sps ++ [])
               {| unitBegin := length sc1; currentPosition := length sc1 + length sps;
                  currentFrameSize := 0; self := st |} st1).
    + cbn [bind self currentFrameSize].
      cbn [endChunk H264StreamVideoTranslator]. unfold h264_endChunk.
      cbn [decoderConfig codecState h264_pps h264_sps st1]. rewrite Hnopps.
      cbn [bind]. rewrite slice_empty. reflexivity.
    + cbn [unitBegin currentPosition self]. rewrite slice_middle.
      exact (h264_onChunkUnit_sps sps st config Ht7 Hlen Hcfg).
  - unfold Translator.submitDecodeUnit.
    cbn [decoderConfig st1 type data startProcessChunk H264StreamVideoTranslator
         isKey orb negb].
    replace (length (sc2 ++ pps ++ sc3 ++ idr))
      with (S (length pps + S (length idr + (length sc2 + length sc3 - 2))))
      by (rewrite !length_app; lia).
    rewrite scan_first_start_code by assumption.
    rewrite (scan_excluded_unit sc2 pps sc3 idr 0 st1 st1p)
      by first [assumption | exact (h264_onChunkUnit_pps pps st1 Ht8)
                | destruct Hsc2 as [-> | ->]; cbn; discriminate].
    replace (sc2 ++ pps ++ sc3 ++ idr) with ((sc2 ++ pps ++ sc3) ++ idr)
      by now rewrite <- !app_assoc.
    rewrite Escan. cbn [bind]. rewrite Elast. cbn [bind self].
    cbn [endChunk H264StreamVideoTranslator]. unfold h264_endChunk.
    cbn [with_frame decoderConfig codecState h264_pps h264_sps st1p st1].
    rewrite h264MakeAvcC_result. cbn [bind currentFrame currentFrameSize codec].
    unfold slice, with_frame. cbn [skipn Nat.sub Nat.add decoderConfig currentFrame].
    rewrite Nat.sub_0_r. cbn [Nat.add firstn app] in Hframe. rewrite Hframe.
    split; reflexivity.
Qed.

Lemma h264_parameter_sets_across_units_witness :
  exists st1 st2,
    Translator.submitDecodeUnit
      {| type := key; data := [0; 0; 0; 1; 103; 66; 224; 30; 141]%Z;
         timestampMicroseconds := 0%Z; durationMicroseconds := 0%Z |}
      (Translator.create (S := H264))
    = Ok (Some {| configure := None; chunk := Some [] |}, st1)
    /\ Translator.submitDecodeUnit
         {| type := key; data := [0; 0; 1; 104; 206; 60; 128; 0; 0; 1; 101; 136; 132]%Z;
            timestampMicroseconds := 1%Z; durationMicroseconds := 0%Z |} st1
       = Ok (Some {| configure :=
                       Some {| codec := "avc1.42e01e";
                               description :=
                                 Some [1; 66; 224; 30; 255; 225; 0; 5; 103; 66; 224; 30; 141;
                                       1; 0; 4; 104; 206; 60; 128; 0]%Z |};
                     chunk := Some [0; 0; 0; 3; 101; 136; 132]%Z |}, st2).
Proof.
  destruct (h264_parameter_sets_across_units Z
              [103; 66; 224; 30; 141]%Z [104; 206; 60; 128]%Z [101; 136; 132]%Z
              [0; 0; 0; 1]%Z [0; 0; 1]%Z [0; 0; 1]%Z 0%Z 0%Z 1%Z 0%Z
              (Translator.create (S := H264))
              {| codec := "undefined"; description := None |}
              ltac:(right; reflexivity) ltac:(left; reflexivity) ltac:(left; reflexivity)
              ltac:(reflexivity) ltac:(reflexivity) ltac:(reflexivity)
              ltac:(reflexivity) ltac:(simpl; lia) ltac:(reflexivity) ltac:(reflexivity)
              ltac:(reflexivity) ltac:(reflexivity))
    as (st1 & st2 & E1 & _ & E2 & _).
  exists st1, st2. split; [exact E1 | exact E2].
Defined.

(** ** media_source_decoder.ts: the frame segment and the append queue *)

Lemma skipn_length_app (l r : bytes) : skipn (length l) (l ++ r) = r.
Proof. now rewrite skipn_app, skipn_all, Nat.sub_diag. Qed.

(** In a frame segment the [data_offset] of the [trun] box, counted from
    the first byte of the [moof] box, is 116 and leads to the first byte
    of the frame inside the [mdat] box, whose size field counts the frame
    and its own 8-byte header; nothing follows the frame. *)
Theorem frame_segment_data_offset (capacity : nat) (trackId sequenceNumber : Z)
    (baseDecodeTime frameDuration : Q) (isKeyframe : bool) (frame : bytes) :
  isKeyframe && negb (h264NalType (nth 4 frame 0%Z) =? 5)%Z = false ->
  116 + length frame <= capacity ->
  (Z.of_nat (length frame) + 8 < 4294967296)%Z ->
  exists segment,
    MediaSourceDecoder.writeSegment capacity
      (Mp4.putVideoFrameSegment trackId sequenceNumber baseDecodeTime frameDuration
         isKeyframe frame)
    = Ok segment
    /\ length segment = 116 + length frame
    /\ readU32be segment 92 = 116%Z
    /\ skipn (Z.to_nat (readU32be segment 92)) segment = frame
    /\ readU32be segment 108 = (Z.of_nat (length frame) + 8)%Z
    /\ firstn 4 (skipn 112 segment) = utf8 "mdat".
Proof.
  intros Hidr Hroom Hsize.
  rewrite writeSegment_frame by assumption. eexists. split; [reflexivity|].
  split; [apply length_frameSegment|].
  destruct (encode_moof_split trackId sequenceNumber baseDecodeTime frameDuration
              isKeyframe (length frame)) as (pre & post & Lpre & Lall & Hmoof).
  unfold frameSegmentBoxes, encodeAll. cbn [flat_map].
  rewrite (Hmoof 116%Z), encode_box, encodeAll_nil, !app_nil_r.
  pose proof (Lall 116%Z) as L116. rewrite !length_app, length_u32be in L116.
  assert (E92 : readU32be ((pre ++ u32be 116 ++ post)
                           ++ u32be (Z.of_nat (4 + length (utf8 "mdat" ++ frame)))
                           ++ utf8 "mdat" ++ frame) 92 = 116%Z).
  { rewrite <- !app_assoc, <- Lpre. apply readU32be_u32be. lia. }
  rewrite E92. clear E92.
  assert (Hmdat : (0 <= Z.of_nat (4 + length (utf8 "mdat" ++ frame)) < 4294967296)%Z
                  /\ Z.of_nat (4 + length (utf8 "mdat" ++ frame))
                     = (Z.of_nat (length frame) + 8)%Z).
  { rewrite length_app, length_utf8. cbn [String.length]. lia. }
  destruct Hmdat as (Hrange & Hval).
  set (v := Z.of_nat (4 + length (utf8 "mdat" ++ frame))) in *.
  set (M := pre ++ u32be 116 ++ post).
  assert (LM : length M = 108) by apply Lall.
  clearbody M v.
  change (Z.to_nat 116) with 116.
  repeat split.
  - replace (M ++ u32be v ++ utf8 "mdat" ++ frame)
      with ((M ++ u32be v ++ utf8 "mdat") ++ frame) by now rewrite <- !app_assoc.
    replace 116 with (length (M ++ u32be v ++ utf8 "mdat"))
      by (rewrite !length_app, length_u32be, length_utf8, LM; reflexivity).
    apply skipn_length_app.
  - rewrite <- LM, <- Hval. now apply readU32be_u32be.
  - replace (M ++ u32be v ++ utf8 "mdat" ++ frame)
      with ((M ++ u32be v) ++ utf8 "mdat" ++ frame) by now rewrite <- !app_assoc.
    replace 112 with (length (M ++ u32be v))
      by (rewrite !length_app, length_u32be, LM; reflexivity).
    rewrite skipn_length_app.
    change 4 with (length (utf8 "mdat")).
    now rewrite firstn_app, firstn_all, Nat.sub_diag, firstn_O, app_nil_r.
Qed.

Lemma frame_segment_data_offset_witness :
  exists segment,
    MediaSourceDecoder.writeSegment 406
      (Mp4.putVideoFrameSegment 1 2 16667 16667 false [0; 0; 0; 2; 65; 154]%Z)
    = Ok segment
    /\ skipn (Z.to_nat (readU32be segment 92)) segment = [0; 0; 0; 2; 65; 154]%Z.
Proof.
  destruct (frame_segment_data_offset 406 1 2 16667 16667 false [0; 0; 0; 2; 65; 154]%Z
              ltac:(reflexivity) ltac:(simpl; lia) ltac:(simpl; lia))
    as (segment & E & _ & _ & Hs & _).
  exists segment. split; [exact E | exact Hs].
Defined.

Lemma writeSegment_non_idr_keyframe (capacity : nat) (trackId sequenceNumber : Z)
    (baseDecodeTime frameDuration : Q) (frame : bytes) :
  h264NalType (nth 4 frame 0%Z) <> 5%Z ->
  MediaSourceDecoder.writeSegment capacity
    (Mp4.putVideoFrameSegment trackId sequenceNumber baseDecodeTime frameDuration true frame)
  = Throw "tried to submit non idr as a keyframe".
Proof.
  intros Hty. unfold MediaSourceDecoder.writeSegment, Mp4.putVideoFrameSegment.
  destruct (Z.eqb_spec (h264NalType (nth 4 frame 0%Z)) 5); [contradiction|].
  reflexivity.
Qed.

Lemma nth_4_length_prefixed (n : Z) (nal : bytes) :
  nth 4 (u32be n ++ nal) 0%Z = nth 0 nal 0%Z.
Proof.
  rewrite app_nth2 by (rewrite length_u32be; lia).
  now rewrite length_u32be.
Qed.

Lemma length_avccRecord (sps pps : bytes) :
  length (avccRecord sps pps ++ [0%Z]) = 12 + length sps + length pps.
Proof.
  unfold avccRecord. rewrite !length_app, !length_u16be. cbn [length]. lia.
Qed.

(** The media-source emitter takes the first NAL unit of a key chunk for
    the IDR slice: a key unit whose parameter sets are followed by a NAL
    unit of another type (an SEI or an access unit delimiter, say) makes
    [submitDecodeUnit] throw, after the translator has consumed the
    parameter sets. *)
Theorem key_unit_must_begin_with_idr (num : Type) (N : JsNumber num)
    (sps pps nal sc1 sc2 sc3 : bytes) (timestamp duration : num)
    (st : MediaSourceDecoder.t num) (config : VideoDecoderConfig) (width height : Z) :
  MediaSourceDecoder.errored st = false ->
  MediaSourceDecoder.videoSize st = Some (width, height) ->
  decoderConfig (MediaSourceDecoder.translator st) = Some config ->
  isStartCode sc1 -> isStartCode sc2 -> isStartCode sc3 ->
  isNal sps = true -> isNal pps = true -> isNal nal = true ->
  h264NalType (nth 0 sps 0%Z) = 7%Z -> 4 <= length sps ->
  h264NalType (nth 0 pps 0%Z) = 8%Z ->
  h264IsPayload nal = true ->
  h264NalType (nth 0 nal 0%Z) <> 5%Z ->
  length sps + length pps <= 1365 ->
  MediaSourceDecoder.submitDecodeUnit
    {| type := key; data := sc1 ++ sps ++ sc2 ++ pps ++ sc3 ++ nal;
       timestampMicroseconds := timestamp; durationMicroseconds := duration |} st
  = Throw "tried to submit non idr as a keyframe".
Proof.
  intros He Hv Hcfg Hsc1 Hsc2 Hsc3 Hsps Hpps Hnal Ht7 Hlen Ht8 Hpay Hn5 Hsize.
  destruct (h264_key_unit_payload num sps pps nal sc1 sc2 sc3 timestamp duration
              (MediaSourceDecoder.translator st) config
              Hsc1 Hsc2 Hsc3 Hsps Hpps Hnal Ht7 Hlen Ht8 Hpay Hcfg)
    as (tr' & E & _).
  unfold MediaSourceDecoder.submitDecodeUnit. rewrite He, E.
  cbn [bind chunk configure description codec MediaSourceDecoder.with_translator
       MediaSourceDecoder.with_last MediaSourceDecoder.createNewSourceBuffer
       MediaSourceDecoder.with_sourceBuffer MediaSourceDecoder.videoSize].
  rewrite Hv.
  rewrite writeSegment_init by (rewrite length_avccRecord; lia). cbn [bind].
  rewrite writeSegment_non_idr_keyframe by now rewrite nth_4_length_prefixed.
  reflexivity.
Qed.

Lemma key_unit_must_begin_with_idr_witness :
  MediaSourceDecoder.submitDecodeUnit
    {| type := key;
       data := [0; 0; 0; 1; 103; 66; 224; 30; 141; 0; 0; 1; 104; 206; 60; 128;
                0; 0; 1; 6; 5; 1; 128]%Z;
       timestampMicroseconds := 0%Q; durationMicroseconds := 0%Q |}
    (MediaSourceDecoder.setup 1280 720 60%Q MediaSourceDecoder.create)
  = Throw "tried to submit non idr as a keyframe".
Proof.
  exact (key_unit_must_begin_with_idr Q QNumber
           [103; 66; 224; 30; 141]%Z [104; 206; 60; 128]%Z [6; 5; 1; 128]%Z
           [0; 0; 0; 1]%Z [0; 0; 1]%Z [0; 0; 1]%Z 0%Q 0%Q
           (MediaSourceDecoder.setup 1280 720 60%Q MediaSourceDecoder.create)
           {| codec := "undefined"; description := None |} 1280 720
           ltac:(reflexivity) ltac:(reflexivity) ltac:(reflexivity)
           ltac:(right; reflexivity) ltac:(left; reflexivity) ltac:(left; reflexivity)
           ltac:(reflexivity) ltac:(reflexivity) ltac:(reflexivity)
           ltac:(reflexivity) ltac:(simpl; lia) ltac:(reflexivity)
           ltac:(reflexivity) ltac:(discriminate) ltac:(simpl; lia)).
Defined.

(** ** media_source_decoder.ts: units before the first IDR *)

Lemma h264_payload_no_config {num : Type} (ty : UnitType) (units : list (bytes * bytes))
    (timestamp duration : num) (st : State H264) (config : VideoDecoderConfig) :
  units <> [] ->
  wellDelimited h264IsPayload units ->
  decoderConfig st = Some config ->
  startProcessChunk ty st = true ->
  h264_pps (codecState st) = None ->
  exists frame,
    Translator.submitDecodeUnit
      {| type := ty; data := annexB units;
         timestampMicroseconds := timestamp; durationMicroseconds := duration |} st
    = Ok (Some {| configure := None; chunk := Some (lengthPrefixed (map snd units)) |},
          with_frame st frame).
Proof.
  intros Hne Hw Hcfg Hstart Hpps.
  destruct (submit_payload_units h264IsPayload h264_keep_included ty units timestamp
              duration st config Hne Hw Hcfg Hstart) as (frame & E & Hf).
  exists frame. rewrite E.
  cbn [endChunk H264StreamVideoTranslator]. unfold h264_endChunk.
  cbn [with_frame decoderConfig codecState]. rewrite Hcfg, Hpps. cbn [bind].
  unfold slice, with_frame. cbn [skipn currentFrame]. now rewrite Nat.sub_0_r, Hf.
Qed.

Lemma with_translator_same {num : Type} {N : JsNumber num} (st : MediaSourceDecoder.t num) :
  MediaSourceDecoder.with_translator st (MediaSourceDecoder.translator st) = st.
Proof. now destruct st. Qed.

(** Delta units that arrive before the translator has a description are
    ignored altogether: whatever their contents and however many they
    are, the emitter is left exactly as it was; in particular they are
    not counted as dropped frames. *)
Theorem deltas_before_description_ignored (num : Type) (N : JsNumber num)
    (units : list (VideoDecodeUnit num)) (st : MediaSourceDecoder.t num)
    (config : VideoDecoderConfig) :
  decoderConfig (MediaSourceDecoder.translator st) = Some config ->
  h264_hasDescription (codecState (MediaSourceDecoder.translator st)) = false ->
  Forall (fun unit => type unit = delta) units ->
  submitAll units st = Ok st.
Proof.
  intros Hcfg Hlatch Hall. induction Hall as [|unit units Hty _ IH]; [reflexivity|].
  cbn [submitAll].
  assert (E : MediaSourceDecoder.submitDecodeUnit unit st = Ok st).
  { unfold MediaSourceDecoder.submitDecodeUnit.
    destruct (MediaSourceDecoder.errored st); [reflexivity|].
    unfold Translator.submitDecodeUnit. rewrite Hcfg, Hty.
    cbn [startProcessChunk H264StreamVideoTranslator isKey orb]. rewrite Hlatch.
    cbn [negb bind chunk]. now rewrite with_translator_same. }
  rewrite E. cbn [bind]. exact IH.
Qed.

Lemma deltas_before_description_ignored_witness :
  submitAll
    [exampleUnit delta [0; 0; 0; 1; 65; 154]%Z 0;
     exampleUnit delta [0; 0; 0; 1; 65; 155]%Z 16667]
    (MediaSourceDecoder.setup 1280 720 60%Q MediaSourceDecoder.create)
  = Ok (MediaSourceDecoder.setup 1280 720 60%Q MediaSourceDecoder.create).
Proof.
  apply (deltas_before_description_ignored Q QNumber _ _
           {| codec := "undefined"; description := None |});
    [reflexivity | reflexivity | repeat constructor].
Defined.

Lemma dropped_key_unit_step (num : Type) (N : JsNumber num) (unit : VideoDecodeUnit num)
    (units : list (bytes * bytes)) (st : MediaSourceDecoder.t num)
    (config : VideoDecoderConfig) :
  MediaSourceDecoder.errored st = false ->
  MediaSourceDecoder.needIdr st = true ->
  decoderConfig (MediaSourceDecoder.translator st) = Some config ->
  h264_pps (codecState (MediaSourceDecoder.translator st)) = None ->
  type unit = key -> units <> [] -> wellDelimited h264IsPayload units ->
  data unit = annexB units ->
  exists st',
    MediaSourceDecoder.submitDecodeUnit unit st = Ok st'
    /\ MediaSourceDecoder.droppedFrames st' = (MediaSourceDecoder.droppedFrames st + 1)%Z
    /\ emitted st' = emitted st
    /\ MediaSourceDecoder.errored st' = false
    /\ MediaSourceDecoder.needIdr st' = true
    /\ decoderConfig (MediaSourceDecoder.translator st') = Some config
    /\ h264_pps (codecState (MediaSourceDecoder.translator st')) = None.
Proof.
  intros He Hidr Hcfg Hpps Hty Hne Hw Hdata.
  destruct unit as [ty d ts du]. cbn [type data] in Hty, Hdata. subst ty d.
  destruct (h264_payload_no_config key units ts du
              (MediaSourceDecoder.translator st) config
              Hne Hw Hcfg ltac:(reflexivity) Hpps) as (frame & E).
  unfold MediaSourceDecoder.submitDecodeUnit. rewrite He, E.
  cbn [bind chunk configure MediaSourceDecoder.with_translator
       MediaSourceDecoder.with_last MediaSourceDecoder.needIdr].
  rewrite Hidr. eexists. split; [reflexivity|].
  cbn [MediaSourceDecoder.droppedFrames MediaSourceDecoder.errored
       MediaSourceDecoder.needIdr MediaSourceDecoder.translator].
  unfold emitted. cbn [MediaSourceDecoder.sourceBuffer MediaSourceDecoder.buffers].
  unfold with_frame. cbn [decoderConfig codecState]. auto 10.
Qed.

(** While the emitter waits for its first IDR, every key unit that
    carries no parameter set is dropped and counted: nothing is emitted,
    and after [n] such units the count has grown by [n].
    [pollRequestIdr] asks for an IDR of its own exactly when the count is
    above 60, and then starts counting again from 0. *)
Theorem dropped_frames_request_idr (num : Type) (N : JsNumber num) :
  (forall (units : list (VideoDecodeUnit num)) (st : MediaSourceDecoder.t num)
          (config : VideoDecoderConfig),
      MediaSourceDecoder.errored st = false ->
      MediaSourceDecoder.needIdr st = true ->
      decoderConfig (MediaSourceDecoder.translator st) = Some config ->
      h264_pps (codecState (MediaSourceDecoder.translator st)) = None ->
      Forall (fun unit =>
                type unit = key
                /\ exists nals, nals <> [] /\ wellDelimited h264IsPayload nals
                                /\ data unit = annexB nals) units ->
      exists st',
        submitAll units st = Ok st'
        /\ MediaSourceDecoder.droppedFrames st'
           = (MediaSourceDecoder.droppedFrames st + Z.of_nat (length units))%Z
        /\ emitted st' = emitted st
        /\ MediaSourceDecoder.needIdr st' = true)
  /\ (forall (base : option bool) (st : MediaSourceDecoder.t num),
        let own := (60 <? MediaSourceDecoder.droppedFrames st)%Z in
        fst (MediaSourceDecoder.pollRequestIdr base st)
        = (own || match base with Some true => true | _ => false end)
        /\ MediaSourceDecoder.droppedFrames (snd (MediaSourceDecoder.pollRequestIdr base st))
           = (if own then 0%Z else MediaSourceDecoder.droppedFrames st)
        /\ emitted (snd (MediaSourceDecoder.pollRequestIdr base st)) = emitted st).
Proof.
  split.
  - intros units. induction units as [|unit units IH]; intros st config He Hidr Hcfg Hpps Hall.
    + exists st. cbn [submitAll length Z.of_nat]. repeat split; auto. lia.
    + inversion Hall as [|u l (Hty & nals & Hne & Hw & Hdata) Hrest]; subst.
      destruct (dropped_key_unit_step num N unit nals st config He Hidr Hcfg Hpps Hty Hne
                  Hw Hdata) as (st1 & E1 & Hd1 & Hem1 & He1 & Hidr1 & Hcfg1 & Hpps1).
      destruct (IH st1 config He1 Hidr1 Hcfg1 Hpps1 Hrest) as (st' & E & Hd & Hem & Hn).
      exists st'. cbn [submitAll]. rewrite E1. cbn [bind].
      split; [exact E|]. split; [|split; [congruence | exact Hn]].
      rewrite Hd, Hd1. cbn [length]. lia.
  - intros base st own. unfold MediaSourceDecoder.pollRequestIdr. fold own.
    cbn [fst snd]. destruct own; destruct base as [[|]|]; repeat split.
Qed.

Lemma dropped_frames_request_idr_witness :
  exists st',
    submitAll [exampleUnit key [0; 0; 0; 1; 101; 136; 132]%Z 0]
      (MediaSourceDecoder.setup 1280 720 60%Q MediaSourceDecoder.create) = Ok st'
    /\ MediaSourceDecoder.droppedFrames st' = 1%Z
    /\ emitted st' = [].
Proof.
  destruct (proj1 (dropped_frames_request_idr Q QNumber)
              [exampleUnit key [0; 0; 0; 1; 101; 136; 132]%Z 0]
              (MediaSourceDecoder.setup 1280 720 60%Q MediaSourceDecoder.create)
              {| codec := "undefined"; description := None |}
              ltac:(reflexivity) ltac:(reflexivity) ltac:(reflexivity) ltac:(reflexivity))
    as (st' & E & Hd & Hem & _).
  - apply Forall_cons; [|apply Forall_nil]. split; [reflexivity|].
    exists [([0; 0; 0; 1]%Z, [101; 136; 132]%Z)].
    split; [discriminate|]. split; [|reflexivity].
    apply Forall_cons; [|apply Forall_nil]. cbn [fst snd].
    split; [right; reflexivity|]. split; reflexivity.
  - exists st'. split; [exact E|]. split; [exact Hd | exact Hem].
Defined.

(** ** media_source_decoder.ts: the append queue *)

Section AppendQueue.

Import MediaSourceDecoder.

Context {num : Type} {N : JsNumber num}.

Lemma onUpdateEnd_step (st : MediaSourceDecoder.t num) (sb : SourceBuffer) :
  sourceBuffer st = Some sb ->
  errored st = false ->
  errored (onUpdateEnd st) = false
  /\ match buffers st with
     | [] =>
         sourceBuffer (onUpdateEnd st)
         = Some {| mime := mime sb; updating := false; appended := appended sb |}
         /\ buffers (onUpdateEnd st) = []
     | segment :: rest =>
         sourceBuffer (onUpdateEnd st)
         = Some {| mime := mime sb; updating := true;
                   appended := appended sb ++ [segment] |}
         /\ buffers (onUpdateEnd st) = rest
     end.
Proof.
  intros Hsb He. unfold onUpdateEnd, tryAppendDecodeUnit.
  cbn [with_sourceBuffer errored sourceBuffer buffers]. rewrite He, Hsb.
  destruct (buffers st) as [|segment rest]; cbn [appendLoop updating].
  - cbn [with_sourceBuffer errored sourceBuffer buffers]. auto.
  - destruct rest; cbn [appendLoop appendBuffer updating with_sourceBuffer errored
                        sourceBuffer buffers mime appended]; auto.
Qed.

(** Segments reach the source buffer in the order they were queued, one
    for each [updateend] event: while the source buffer is updating
    nothing is appended; otherwise the head of the queue is appended and
    the rest waits; and after as many [updateend] events as there are
    queued segments the queue is empty and the source buffer has received
    them all, in order. *)
Theorem append_queue_in_order (st : MediaSourceDecoder.t num) (sb : SourceBuffer) :
  sourceBuffer st = Some sb ->
  errored st = false ->
  (updating sb = true ->
   sourceBuffer (tryAppendDecodeUnit st) = Some sb
   /\ buffers (tryAppendDecodeUnit st) = buffers st)
  /\ (updating sb = false ->
      forall segment rest, buffers st = segment :: rest ->
        sourceBuffer (tryAppendDecodeUnit st) = Some (appendBuffer segment sb)
        /\ buffers (tryAppendDecodeUnit st) = rest)
  /\ (exists sb',
        sourceBuffer (Nat.iter (length (buffers st)) onUpdateEnd st) = Some sb'
        /\ appended sb' = appended sb ++ buffers st
        /\ buffers (Nat.iter (length (buffers st)) onUpdateEnd st) = []).
Proof.
  intros Hsb He. split; [|split].
  - intros Hu. unfold tryAppendDecodeUnit. rewrite He, Hsb.
    destruct (buffers st); cbn [appendLoop]; rewrite Hu;
      cbn [with_sourceBuffer sourceBuffer buffers]; auto.
  - intros Hu segment rest Hq. unfold tryAppendDecodeUnit. rewrite He, Hsb, Hq.
    cbn [appendLoop]. rewrite Hu.
    destruct rest; cbn [appendLoop appendBuffer updating with_sourceBuffer
                        sourceBuffer buffers]; auto.
  - remember (buffers st) as queue eqn:Hq. revert st sb Hsb He Hq.
    induction queue as [|segment rest IH]; intros st sb Hsb He Hq.
    + cbn [length Nat.iter]. exists sb. rewrite app_nil_r. auto.
    + cbn [length]. rewrite Nat.iter_succ_r.
      destruct (onUpdateEnd_step st sb Hsb He) as (He1 & Hstep).
      rewrite <- Hq in Hstep. destruct Hstep as (Hsb1 & Hq1).
      destruct (IH (onUpdateEnd st) _ Hsb1 He1 (eq_sym Hq1)) as (sb' & Hs & Ha & Hb).
      exists sb'. split; [exact Hs|]. split; [|exact Hb].
      rewrite Ha. cbn [appended]. now rewrite <- app_assoc.
Qed.

End AppendQueue.

Lemma append_queue_in_order_witness :
  exists sb',
    MediaSourceDecoder.sourceBuffer
      (Nat.iter 2 MediaSourceDecoder.onUpdateEnd
         {| MediaSourceDecoder.errored := false;
            MediaSourceDecoder.translator := Translator.create;
            MediaSourceDecoder.videoSize := None;
            MediaSourceDecoder.sequenceNumber := 2;
            MediaSourceDecoder.sourceBuffer :=
              Some {| MediaSourceDecoder.mime := "video/mp4";
                      MediaSourceDecoder.updating := true;
                      MediaSourceDecoder.appended := [[1%Z]] |};
            MediaSourceDecoder.expectedDurationMicroseconds := 0%Q;
            MediaSourceDecoder.buffers := [[2%Z]; [3%Z]];
            MediaSourceDecoder.needIdr := false;
            MediaSourceDecoder.droppedFrames := 0;
            MediaSourceDecoder.timestampMicrosecondsShift := 0%Q;
            MediaSourceDecoder.lastTimestampMicroseconds := 0%Q |}) = Some sb'
    /\ MediaSourceDecoder.appended sb' = [[1%Z]; [2%Z]; [3%Z]].
Proof.
  destruct (append_queue_in_order (num := Q)
              {| MediaSourceDecoder.errored := false;
                 MediaSourceDecoder.translator := Translator.create;
                 MediaSourceDecoder.videoSize := None;
                 MediaSourceDecoder.sequenceNumber := 2;
                 MediaSourceDecoder.sourceBuffer :=
                   Some {| MediaSourceDecoder.mime := "video/mp4";
                           MediaSourceDecoder.updating := true;
                           MediaSourceDecoder.appended := [[1%Z]] |};
                 MediaSourceDecoder.expectedDurationMicroseconds := 0%Q;
                 MediaSourceDecoder.buffers := [[2%Z]; [3%Z]];
                 MediaSourceDecoder.needIdr := false;
                 MediaSourceDecoder.droppedFrames := 0;
                 MediaSourceDecoder.timestampMicrosecondsShift := 0%Q;
                 MediaSourceDecoder.lastTimestampMicroseconds := 0%Q |}
              {| MediaSourceDecoder.mime := "video/mp4";
                 MediaSourceDecoder.updating := true;
                 MediaSourceDecoder.appended := [[1%Z]] |}
              ltac:(reflexivity) ltac:(reflexivity))
    as (_ & _ & sb' & Hs & Ha & _).
  exists sb'. split; [exact Hs | exact Ha].
Defined.

(** ** media_source_decoder.ts: what a unit emits *)

Lemma frameSegment_payload (trackId sequenceNumber : Z) (baseDecodeTime frameDuration : Q)
    (isKeyframe : bool) (frame : bytes) :
  skipn 116 (encodeAll (frameSegmentBoxes trackId sequenceNumber baseDecodeTime
                          frameDuration isKeyframe frame))
  = frame.
Proof.
  destruct (encode_moof_split trackId sequenceNumber baseDecodeTime frameDuration
              isKeyframe (length frame)) as (pre & post & Lpre & Lall & Hmoof).
  unfold frameSegmentBoxes, encodeAll. cbn [flat_map].
  rewrite (Hmoof 116%Z), encode_box, encodeAll_nil, !app_nil_r.
  set (M := pre ++ u32be 116 ++ post).
  assert (LM : length M = 108) by apply Lall.
  set (v := Z.of_nat (4 + length (utf8 "mdat" ++ frame))).
  clearbody M v.
  replace (M ++ u32be v ++ utf8 "mdat" ++ frame)
    with ((M ++ u32be v ++ utf8 "mdat") ++ frame) by now rewrite <- !app_assoc.
  replace 116 with (length (M ++ u32be v ++ utf8 "mdat"))
    by (rewrite !length_app, length_u32be, length_utf8, LM; reflexivity).
  apply skipn_length_app.
Qed.

(** The configuration step with everything the following units rely on. *)
Lemma configuration_step_full (num : Type) (N : JsNumber num)
    (sps pps idr sc1 sc2 sc3 : bytes) (timestamp duration : num)
    (st : MediaSourceDecoder.t num) (config : VideoDecoderConfig) (width height : Z) :
  MediaSourceDecoder.errored st = false ->
  MediaSourceDecoder.videoSize st = Some (width, height) ->
  decoderConfig (MediaSourceDecoder.translator st) = Some config ->
  isStartCode sc1 -> isStartCode sc2 -> isStartCode sc3 ->
  isNal sps = true -> isNal pps = true -> isNal idr = true ->
  h264NalType (nth 0 sps 0%Z) = 7%Z -> 4 <= length sps ->
  h264NalType (nth 0 pps 0%Z) = 8%Z ->
  h264NalType (nth 0 idr 0%Z) = 5%Z ->
  length sps + length pps <= 1365 ->
  exists st' idrSegment,
    MediaSourceDecoder.submitDecodeUnit
      {| type := key; data := sc1 ++ sps ++ sc2 ++ pps ++ sc3 ++ idr;
         timestampMicroseconds := timestamp; durationMicroseconds := duration |} st
    = Ok st'
    /\ emitted st'
       = MediaSourceDecoder.buffers st
         ++ [encodeAll (initSegmentBoxes 1000000 1 width height
                          (avccRecord sps pps ++ [0%Z]));
             idrSegment]
    /\ segmentSequenceNumber idrSegment = 1%Z
    /\ segmentBaseDecodeTime idrSegment = 0%Z
    /\ skipn 116 idrSegment = u32be (Z.of_nat (length idr)) ++ idr
    /\ MediaSourceDecoder.sequenceNumber st' = 1%Z
    /\ MediaSourceDecoder.needIdr st' = false
    /\ MediaSourceDecoder.timestampMicrosecondsShift st' = timestamp
    /\ MediaSourceDecoder.lastTimestampMicroseconds st' = ofZ 0
    /\ MediaSourceDecoder.errored st' = false
    /\ MediaSourceDecoder.sourceBuffer st' <> None
    /\ MediaSourceDecoder.expectedDurationMicroseconds st'
       = MediaSourceDecoder.expectedDurationMicroseconds st
    /\ decoderConfig (MediaSourceDecoder.translator st')
       = Some {| codec := spsCodecTag sps;
                 description := Some (avccRecord sps pps ++ [0%Z]) |}
    /\ h264_hasDescription (codecState (MediaSourceDecoder.translator st')) = true
    /\ h264_pps (codecState (MediaSourceDecoder.translator st')) = None.
Proof.
  intros He Hv Hcfg Hsc1 Hsc2 Hsc3 Hsps Hpps Hidr Ht7 Hlen Ht8 Ht5 Hsize.
  assert (Hpay : h264IsPayload idr = true) by (unfold h264IsPayload; now rewrite Ht5).
  destruct (h264_key_unit_payload num sps pps idr sc1 sc2 sc3 timestamp duration
              (MediaSourceDecoder.translator st) config
              Hsc1 Hsc2 Hsc3 Hsps Hpps Hidr Ht7 Hlen Ht8 Hpay Hcfg)
    as (tr' & E & Hlatch & _ & Hpps' & Hcfg').
  pose proof (isStartCode_length sc1 Hsc1) as L1.
  destruct (submit_key_step
              {| type := key; data := sc1 ++ sps ++ sc2 ++ pps ++ sc3 ++ idr;
                 timestampMicroseconds := timestamp; durationMicroseconds := duration |}
              st _ (avccRecord sps pps ++ [0%Z]) _ tr' width height He E eq_refl Hv)
    as (st' & Es & Hem & He' & Htr' & _ & Hseq & Hx & Hn & Hsh & Hl & Hsb').
  - rewrite length_avccRecord. lia.
  - now rewrite nth_4_length_prefixed.
  - cbn [data]. rewrite !length_app, length_u32be. lia.
  - exists st'. eexists. split; [exact Es|]. split; [exact Hem|].
    split; [apply segmentSequenceNumber_frame; lia|].
    split; [apply (segmentBaseDecodeTime_frame 1 1 0%Q); [apply Qle_refl | reflexivity]|].
    split; [apply frameSegment_payload|].
    rewrite Htr'. repeat split; assumption.
Qed.


(** A key unit made of SPS, PPS and IDR on the media-source emitter: a
    new source buffer replaces the old one, the init segment and the IDR
    segment are queued behind whatever was still waiting in the queue,
    the IDR segment has sequence number 1 and decode time 0 and holds the
    length-prefixed IDR; the timestamp of the unit becomes the zero of
    the timebase and the emitter no longer waits for an IDR. *)
Theorem emitter_configuration_step (num : Type) (N : JsNumber num)
    (sps pps idr sc1 sc2 sc3 : bytes) (timestamp duration : num)
    (st : MediaSourceDecoder.t num) (config : VideoDecoderConfig) (width height : Z) :
  MediaSourceDecoder.errored st = false ->
  MediaSourceDecoder.videoSize st = Some (width, height) ->
  decoderConfig (MediaSourceDecoder.translator st) = Some config ->
  isStartCode sc1 -> isStartCode sc2 -> isStartCode sc3 ->
  isNal sps = true -> isNal pps = true -> isNal idr = true ->
  h264NalType (nth 0 sps 0%Z) = 7%Z -> 4 <= length sps ->
  h264NalType (nth 0 pps 0%Z) = 8%Z ->
  h264NalType (nth 0 idr 0%Z) = 5%Z ->
  length sps + length pps <= 1365 ->
  exists st' idrSegment,
    MediaSourceDecoder.submitDecodeUnit
      {| type := key; data := sc1 ++ sps ++ sc2 ++ pps ++ sc3 ++ idr;
         timestampMicroseconds := timestamp; durationMicroseconds := duration |} st
    = Ok st'
    /\ emitted st'
       = MediaSourceDecoder.buffers st
         ++ [encodeAll (initSegmentBoxes 1000000 1 width height
                          (avccRecord sps pps ++ [0%Z]));
             idrSegment]
    /\ segmentSequenceNumber idrSegment = 1%Z
    /\ segmentBaseDecodeTime idrSegment = 0%Z
    /\ skipn 116 idrSegment = u32be (Z.of_nat (length idr)) ++ idr
    /\ MediaSourceDecoder.sequenceNumber st' = 1%Z
    /\ MediaSourceDecoder.needIdr st' = false
    /\ MediaSourceDecoder.timestampMicrosecondsShift st' = timestamp
    /\ MediaSourceDecoder.lastTimestampMicroseconds st' = ofZ 0
    /\ MediaSourceDecoder.errored st' = false.
Proof.
  intros He Hv Hcfg Hsc1 Hsc2 Hsc3 Hsps Hpps Hidr Ht7 Hlen Ht8 Ht5 Hsize.
  destruct (configuration_step_full num N sps pps idr sc1 sc2 sc3 timestamp duration st
              config width height He Hv Hcfg Hsc1 Hsc2 Hsc3 Hsps Hpps Hidr Ht7 Hlen Ht8 Ht5
              Hsize)
    as (st' & idrSegment & E & Hem & Hs & Ht & Hp & Hseq & Hn & Hsh & Hl & He' & _).
  exists st', idrSegment. repeat split; assumption.
Qed.

Lemma emitter_configuration_step_witness :
  exists st' idrSegment,
    MediaSourceDecoder.submitDecodeUnit
      {| type := key;
         data := [0; 0; 0; 1; 103; 66; 224; 30; 141; 0; 0; 1; 104; 206; 60; 128;
                  0; 0; 0; 1; 101; 136; 132]%Z;
         timestampMicroseconds := 5000%Q; durationMicroseconds := 0%Q |}
      (MediaSourceDecoder.setup 1280 720 60%Q MediaSourceDecoder.create)
    = Ok st'
    /\ emitted st'
       = [encodeAll (initSegmentBoxes 1000000 1 1280 720
                       (avccRecord [103; 66; 224; 30; 141]%Z [104; 206; 60; 128]%Z
                        ++ [0%Z]));
          idrSegment]
    /\ segmentSequenceNumber idrSegment = 1%Z
    /\ MediaSourceDecoder.timestampMicrosecondsShift st' = 5000%Q.
Proof.
  destruct (emitter_configuration_step Q QNumber
              [103; 66; 224; 30; 141]%Z [104; 206; 60; 128]%Z [101; 136; 132]%Z
              [0; 0; 0; 1]%Z [0; 0; 1]%Z [0; 0; 0; 1]%Z 5000%Q 0%Q
              (MediaSourceDecoder.setup 1280 720 60%Q MediaSourceDecoder.create)
              {| codec := "undefined"; description := None |} 1280 720
              ltac:(reflexivity) ltac:(reflexivity) ltac:(reflexivity)
              ltac:(right; reflexivity) ltac:(left; reflexivity) ltac:(right; reflexivity)
              ltac:(reflexivity) ltac:(reflexivity) ltac:(reflexivity)
              ltac:(reflexivity) ltac:(simpl; lia) ltac:(reflexivity)
              ltac:(reflexivity) ltac:(simpl; lia))
    as (st' & seg & E & Hem & Hs & _ & _ & _ & _ & Hsh & _).
  exists st', seg. repeat split; assumption.
Defined.

Lemma delta_step_full (num : Type) (N : JsNumber num) (ty : UnitType)
    (nals : list (bytes * bytes)) (timestamp duration : num)
    (st : MediaSourceDecoder.t num) (config : VideoDecoderConfig) :
  MediaSourceDecoder.errored st = false ->
  MediaSourceDecoder.needIdr st = false ->
  MediaSourceDecoder.sourceBuffer st <> None ->
  decoderConfig (MediaSourceDecoder.translator st) = Some config ->
  h264_hasDescription (codecState (MediaSourceDecoder.translator st)) = true ->
  h264_pps (codecState (MediaSourceDecoder.translator st)) = None ->
  nals <> [] -> wellDelimited h264IsPayload nals -> length nals <= 284 ->
  (0 <= MediaSourceDecoder.sequenceNumber st + 1 < 4294967296)%Z ->
  let shifted := sub timestamp (MediaSourceDecoder.timestampMicrosecondsShift st) in
  let last := MediaSourceDecoder.lastTimestampMicroseconds st in
  let repairedTimestamp :=
    if leb shifted last
    then add last (MediaSourceDecoder.expectedDurationMicroseconds st)
    else shifted in
  exists st' segment,
    MediaSourceDecoder.submitDecodeUnit
      {| type := ty; data := annexB nals;
         timestampMicroseconds := timestamp; durationMicroseconds := duration |} st
    = Ok st'
    /\ emitted st' = emitted st ++ [segment]
    /\ segmentSequenceNumber segment = (MediaSourceDecoder.sequenceNumber st + 1)%Z
    /\ skipn 116 segment = lengthPrefixed (map snd nals)
    /\ ((0 <= toQ repairedTimestamp)%Q ->
        (Qfloor (toQ repairedTimestamp) < 18446744073709551616)%Z ->
        segmentBaseDecodeTime segment = Qfloor (toQ repairedTimestamp))
    /\ MediaSourceDecoder.sequenceNumber st' = (MediaSourceDecoder.sequenceNumber st + 1)%Z
    /\ MediaSourceDecoder.lastTimestampMicroseconds st' = repairedTimestamp
    /\ MediaSourceDecoder.timestampMicrosecondsShift st'
       = MediaSourceDecoder.timestampMicrosecondsShift st
    /\ MediaSourceDecoder.expectedDurationMicroseconds st'
       = MediaSourceDecoder.expectedDurationMicroseconds st
    /\ MediaSourceDecoder.errored st' = false
    /\ MediaSourceDecoder.needIdr st' = false
    /\ MediaSourceDecoder.sourceBuffer st' <> None
    /\ decoderConfig (MediaSourceDecoder.translator st') = Some config
    /\ h264_hasDescription (codecState (MediaSourceDecoder.translator st')) = true
    /\ h264_pps (codecState (MediaSourceDecoder.translator st')) = None.
Proof.
  intros He Hidr Hsb Hcfg Hlatch Hpps Hne Hw Hcount Hseq shifted last repairedTimestamp.
  destruct (h264_delta_chunk ty nals timestamp duration (MediaSourceDecoder.translator st)
              config Hne Hw Hcfg Hlatch Hpps) as (frame & E).
  pose proof (length_lengthPrefixed_annexB h264IsPayload nals Hw) as Hlen.
  destruct (submit_delta_step
              {| type := ty; data := annexB nals;
                 timestampMicroseconds := timestamp; durationMicroseconds := duration |}
              st _ _ He E Hidr Hsb ltac:(cbn [data]; lia))
    as (st' & Es & Hem & He' & Htr & _ & Hs' & Hx & Hn' & Hsh & Hl & Hsb').
  exists st'. eexists. split; [exact Es|]. split; [exact Hem|].
  split; [now apply segmentSequenceNumber_frame|].
  split; [apply frameSegment_payload|].
  split; [intros H0 Hmax; now apply segmentBaseDecodeTime_frame|].
  rewrite Htr. unfold with_frame. cbn [decoderConfig codecState].
  repeat split; assumption.
Qed.

(** After the configuration, a unit of NAL units without parameter sets
    is emitted as one frame segment: its sequence number is the previous
    one plus 1, it holds the length-prefixed NAL units, and its decode
    time is the integer part of the repaired timestamp, which is the
    timestamp minus the zero of the timebase if that exceeds the last
    timestamp, and the last timestamp plus the expected frame duration
    otherwise.  The repaired timestamp becomes the last one. *)
Theorem emitter_delta_step (num : Type) (N : JsNumber num) (ty : UnitType)
    (nals : list (bytes * bytes)) (timestamp duration : num)
    (st : MediaSourceDecoder.t num) (config : VideoDecoderConfig) :
  MediaSourceDecoder.errored st = false ->
  MediaSourceDecoder.needIdr st = false ->
  MediaSourceDecoder.sourceBuffer st <> None ->
  decoderConfig (MediaSourceDecoder.translator st) = Some config ->
  h264_hasDescription (codecState (MediaSourceDecoder.translator st)) = true ->
  h264_pps (codecState (MediaSourceDecoder.translator st)) = None ->
  nals <> [] -> wellDelimited h264IsPayload nals -> length nals <= 284 ->
  (0 <= MediaSourceDecoder.sequenceNumber st + 1 < 4294967296)%Z ->
  let shifted := sub timestamp (MediaSourceDecoder.timestampMicrosecondsShift st) in
  let last := MediaSourceDecoder.lastTimestampMicroseconds st in
  let repairedTimestamp :=
    if leb shifted last
    then add last (MediaSourceDecoder.expectedDurationMicroseconds st)
    else shifted in
  exists st' segment,
    MediaSourceDecoder.submitDecodeUnit
      {| type := ty; data := annexB nals;
         timestampMicroseconds := timestamp; durationMicroseconds := duration |} st
    = Ok st'
    /\ emitted st' = emitted st ++ [segment]
    /\ segmentSequenceNumber segment = (MediaSourceDecoder.sequenceNumber st + 1)%Z
    /\ skipn 116 segment = lengthPrefixed (map snd nals)
    /\ ((0 <= toQ repairedTimestamp)%Q ->
        (Qfloor (toQ repairedTimestamp) < 18446744073709551616)%Z ->
        segmentBaseDecodeTime segment = Qfloor (toQ repairedTimestamp))
    /\ MediaSourceDecoder.sequenceNumber st' = (MediaSourceDecoder.sequenceNumber st + 1)%Z
    /\ MediaSourceDecoder.lastTimestampMicroseconds st' = repairedTimestamp
    /\ MediaSourceDecoder.timestampMicrosecondsShift st'
       = MediaSourceDecoder.timestampMicrosecondsShift st
    /\ MediaSourceDecoder.expectedDurationMicroseconds st'
       = MediaSourceDecoder.expectedDurationMicroseconds st.
Proof.
  intros He Hidr Hsb Hcfg Hlatch Hpps Hne Hw Hcount Hseq shifted last repairedTimestamp.
  destruct (delta_step_full num N ty nals timestamp duration st config
              He Hidr Hsb Hcfg Hlatch Hpps Hne Hw Hcount Hseq)
    as (st' & segment & E & Hem & Hs & Hp & Ht & Hs' & Hl & Hsh & Hx & _).
  exists st', segment. repeat split; assumption.
Qed.

Lemma emitter_delta_step_witness :
  exists st0 st' segment,
    MediaSourceDecoder.submitDecodeUnit
      (exampleUnit key [0; 0; 0; 1; 103; 66; 224; 30; 141; 0; 0; 1; 104; 206; 60; 128;
                        0; 0; 0; 1; 101; 136; 132]%Z 0)
      (MediaSourceDecoder.setup 1280 720 60%Q MediaSourceDecoder.create) = Ok st0
    /\ MediaSourceDecoder.submitDecodeUnit
         {| type := delta; data := annexB [([0; 0; 0; 1]%Z, [65; 154]%Z)];
            timestampMicroseconds := 16667%Q; durationMicroseconds := 0%Q |} st0
       = Ok st'
    /\ emitted st' = emitted st0 ++ [segment]
    /\ segmentSequenceNumber segment = 2%Z
    /\ segmentBaseDecodeTime segment = 16667%Z.
Proof.
  destruct (MediaSourceDecoder.submitDecodeUnit (num := Q)
              (exampleUnit key [0; 0; 0; 1; 103; 66; 224; 30; 141; 0; 0; 1; 104; 206; 60; 128;
                                0; 0; 0; 1; 101; 136; 132]%Z 0)
              (MediaSourceDecoder.setup 1280 720 60%Q MediaSourceDecoder.create))
    as [st0|] eqn:E0; [|vm_compute in E0; discriminate].
  assert (Hst : MediaSourceDecoder.errored st0 = false
                /\ MediaSourceDecoder.needIdr st0 = false
                /\ MediaSourceDecoder.sourceBuffer st0 <> None
                /\ decoderConfig (MediaSourceDecoder.translator st0)
                   = Some {| codec := "avc1.42e01e";
                             description :=
                               Some (avccRecord [103; 66; 224; 30; 141]%Z
                                       [104; 206; 60; 128]%Z ++ [0%Z]) |}
                /\ h264_hasDescription (codecState (MediaSourceDecoder.translator st0)) = true
                /\ h264_pps (codecState (MediaSourceDecoder.translator st0)) = None
                /\ MediaSourceDecoder.sequenceNumber st0 = 1%Z
                /\ MediaSourceDecoder.timestampMicrosecondsShift st0 = 0%Q
                /\ MediaSourceDecoder.lastTimestampMicroseconds st0 = 0%Q).
  { vm_compute in E0. injection E0 as <-. vm_compute.
    repeat split; try reflexivity. discriminate. }
  destruct Hst as (He & Hn & Hsb & Hcfg & Hl & Hp & Hs & Hsh & Hla).
  destruct (emitter_delta_step Q QNumber delta [([0; 0; 0; 1]%Z, [65; 154]%Z)]
              16667%Q 0%Q st0 _ He Hn Hsb Hcfg Hl Hp ltac:(discriminate))
    as (st' & segment & E & Hem & Hseq & _ & Ht & _).
  - apply Forall_cons; [|apply Forall_nil]. cbn [fst snd].
    split; [right; reflexivity|]. split; reflexivity.
  - simpl; lia.
  - rewrite Hs. lia.
  - exists st0, st', segment. split; [reflexivity|]. split; [exact E|].
    split; [exact Hem|]. split; [rewrite Hseq, Hs; reflexivity|].
    rewrite Hsh, Hla in Ht. apply Ht; vm_compute; [discriminate | reflexivity].
Defined.

(** ** media_source_decoder.ts: a run of units after the IDR *)

Lemma run_segments (num : Type) (N : JsNumber num) (units : list (VideoDecodeUnit num)) :
  forall (st : MediaSourceDecoder.t num) (config : VideoDecoderConfig),
    MediaSourceDecoder.errored st = false ->
    MediaSourceDecoder.needIdr st = false ->
    MediaSourceDecoder.sourceBuffer st <> None ->
    decoderConfig (MediaSourceDecoder.translator st) = Some config ->
    h264_hasDescription (codecState (MediaSourceDecoder.translator st)) = true ->
    h264_pps (codecState (MediaSourceDecoder.translator st)) = None ->
    Forall isPayloadUnit units ->
    (0 <= MediaSourceDecoder.sequenceNumber st)%Z ->
    (MediaSourceDecoder.sequenceNumber st + Z.of_nat (length units) < 4294967296)%Z ->
    Forall (fun t => (0 <= toQ t)%Q /\ (Qfloor (toQ t) < 18446744073709551616)%Z)
      (repairedTimes (MediaSourceDecoder.lastTimestampMicroseconds st)
         (MediaSourceDecoder.expectedDurationMicroseconds st)
         (MediaSourceDecoder.timestampMicrosecondsShift st)
         (map (@timestampMicroseconds num) units)) ->
    exists st' segments,
      submitAll units st = Ok st'
      /\ emitted st' = emitted st ++ segments
      /\ map segmentSequenceNumber segments
         = map (fun i => (MediaSourceDecoder.sequenceNumber st + Z.of_nat i)%Z)
               (seq 1 (length units))
      /\ map segmentBaseDecodeTime segments
         = map (fun t => Qfloor (toQ t))
             (repairedTimes (MediaSourceDecoder.lastTimestampMicroseconds st)
                (MediaSourceDecoder.expectedDurationMicroseconds st)
                (MediaSourceDecoder.timestampMicrosecondsShift st)
                (map (@timestampMicroseconds num) units)).
Proof.
  induction units as [|unit units IH];
    intros st config He Hidr Hsb Hcfg Hlatch Hpps Hall Hs0 Hsmax Hbound.
  - exists st, []. cbn [submitAll length seq map repairedTimes].
    rewrite app_nil_r. auto.
  - inversion Hall as [|u l (nals & Hne & Hw & Hcount & Hdata) Hrest]; subst.
    destruct unit as [ty d ts du]. cbn [data] in Hdata. subst d.
    cbn [map timestampMicroseconds repairedTimes] in Hbound |- *.
    inversion Hbound as [|t l (H0 & Hb1) Hbrest]; subst.
    cbn [length] in Hsmax.
    destruct (delta_step_full num N ty nals ts du st config He Hidr Hsb Hcfg Hlatch Hpps
                Hne Hw Hcount ltac:(lia))
      as (st1 & segment & E1 & Hem1 & Hseq1 & _ & Ht1 & Hs1 & Hl1 & Hsh1 & Hx1
          & He1 & Hidr1 & Hsb1 & Hcfg1 & Hlatch1 & Hpps1).
    fold (repaired (MediaSourceDecoder.lastTimestampMicroseconds st)
            (MediaSourceDecoder.expectedDurationMicroseconds st)
            (sub ts (MediaSourceDecoder.timestampMicrosecondsShift st))) in Ht1, Hl1.
    set (t1 := repaired (MediaSourceDecoder.lastTimestampMicroseconds st)
                 (MediaSourceDecoder.expectedDurationMicroseconds st)
                 (sub ts (MediaSourceDecoder.timestampMicrosecondsShift st))) in *.
    destruct (IH st1 config He1 Hidr1 Hsb1 Hcfg1 Hlatch1 Hpps1 Hrest)
      as (st' & segments & E & Hem & Hseq & Ht).
    + lia.
    + rewrite Hs1. lia.
    + now rewrite Hl1, Hx1, Hsh1.
    + exists st', (segment :: segments). cbn [submitAll]. rewrite E1. cbn [bind].
      split; [exact E|]. split; [rewrite Hem, Hem1, <- app_assoc; reflexivity|].
      cbn [map length seq]. rewrite Hseq1, Hseq, Ht, (Ht1 H0 Hb1), Hl1, Hx1, Hsh1, Hs1.
      split; [|reflexivity]. f_equal.
      rewrite <- (seq_shift (length units) 1), map_map. apply map_ext. intros i. lia.
Qed.



(** ** binary64: the rounding of a sum and the order of finite numbers

    What the monotonic repair needs of IEEE arithmetic, from the
    specification of the primitive floats ([SpecFloat]): the sum of two
    numbers that are not negative, below 2^53, is not below any whole
    number the exact sum is not below, and a failed [<=] between finite
    numbers is a strict [>]. *)

Section Binary64.

Local Open Scope Z_scope.

































End Binary64.

(** ** media_source_decoder.ts: a reconfigure and the units after it *)

Lemma configured_run (num : Type) (N : JsNumber num)
    (sps pps idr sc1 sc2 sc3 : bytes) (timestamp duration : num)
    (units : list (VideoDecodeUnit num))
    (st : MediaSourceDecoder.t num) (config : VideoDecoderConfig) (width height : Z) :
  MediaSourceDecoder.errored st = false ->
  MediaSourceDecoder.videoSize st = Some (width, height) ->
  decoderConfig (MediaSourceDecoder.translator st) = Some config ->
  isStartCode sc1 -> isStartCode sc2 -> isStartCode sc3 ->
  isNal sps = true -> isNal pps = true -> isNal idr = true ->
  h264NalType (nth 0 sps 0%Z) = 7%Z -> 4 <= length sps ->
  h264NalType (nth 0 pps 0%Z) = 8%Z ->
  h264NalType (nth 0 idr 0%Z) = 5%Z ->
  length sps + length pps <= 1365 ->
  Forall isPayloadUnit units ->
  (Z.of_nat (length units) + 1 < 4294967296)%Z ->
  let times :=
    repairedTimes (ofZ 0) (MediaSourceDecoder.expectedDurationMicroseconds st) timestamp
      (map (@timestampMicroseconds num) units) in
  Forall (fun t => (0 <= toQ t)%Q /\ (Qfloor (toQ t) < 18446744073709551616)%Z) times ->
  exists st0 st' idrSegment segments,
    MediaSourceDecoder.submitDecodeUnit
      {| type := key; data := sc1 ++ sps ++ sc2 ++ pps ++ sc3 ++ idr;
         timestampMicroseconds := timestamp; durationMicroseconds := duration |} st
    = Ok st0
    /\ emitted st0
       = MediaSourceDecoder.buffers st
         ++ [encodeAll (initSegmentBoxes 1000000 1 width height
                          (avccRecord sps pps ++ [0%Z]));
             idrSegment]
    /\ submitAll units st0 = Ok st'
    /\ emitted st' = emitted st0 ++ segments
    /\ map segmentSequenceNumber (idrSegment :: segments)
       = map Z.of_nat (seq 1 (S (length units)))
    /\ map segmentBaseDecodeTime (idrSegment :: segments)
       = 0%Z :: map (fun t => Qfloor (toQ t)) times.
Proof.
  intros He Hv Hcfg Hsc1 Hsc2 Hsc3 Hsps Hpps Hidr Ht7 Hlen Ht8 Ht5 Hsize Hall Hcount
    times Hbound.
  destruct (configuration_step_full num N sps pps idr sc1 sc2 sc3 timestamp duration st
              config width height He Hv Hcfg Hsc1 Hsc2 Hsc3 Hsps Hpps Hidr Ht7 Hlen Ht8 Ht5
              Hsize)
    as (st0 & idrSegment & E0 & Hem0 & Hs0 & Ht0 & _ & Hseq0 & Hn0 & Hsh0 & Hl0 & He0
        & Hsb0 & Hx0 & Hcfg0 & Hlatch0 & Hpps0).
  destruct (run_segments num N units st0 _ He0 Hn0 Hsb0 Hcfg0 Hlatch0 Hpps0 Hall)
    as (st' & segments & E & Hem & Hseq & Ht).
  - rewrite Hseq0. lia.
  - rewrite Hseq0. lia.
  - rewrite Hl0, Hx0, Hsh0. exact Hbound.
  - exists st0, st', idrSegment, segments.
    split; [exact E0|]. split; [exact Hem0|]. split; [exact E|]. split; [exact Hem|].
    cbn [map]. rewrite Hs0, Ht0, Hseq, Ht, Hseq0, Hl0, Hx0, Hsh0.
    split; [|reflexivity].
    cbn [seq map Z.of_nat]. f_equal.
    rewrite <- (seq_shift (length units) 1), !map_map. apply map_ext. intros i. lia.
Qed.


Lemma examplePayloadUnit {num : Type} {N : JsNumber num} (timestamp : num) :
  isPayloadUnit
    {| type := delta; data := annexB [([0; 0; 0; 1]%Z, [65; 154]%Z)];
       timestampMicroseconds := timestamp; durationMicroseconds := ofZ 0 |}.
Proof.
  exists [([0; 0; 0; 1]%Z, [65; 154]%Z)].
  split; [discriminate|]. split; [|split; [simpl; lia | reflexivity]].
  apply Forall_cons; [|apply Forall_nil]. cbn [fst snd].
  split; [right; reflexivity|]. split; reflexivity.
Qed.



(** ** media_source_decoder.ts: the monotonic repair of timestamps *)

(** C4, as the code has it.  After the configuration the decode time of
    a unit is the integer part of its repaired timestamp: the timestamp
    minus the zero of the timebase if that exceeds the last repaired
    timestamp, and the last repaired timestamp plus the expected frame
    duration, [1000000 / fps], otherwise; a timestamp that exceeds the
    last one is kept as it is.  At 60 frames per second in binary64,
    four frames with the timestamps 0, 16667, 16666 and 40000, the first
    one the key unit of the reconfigure, are given the decode times 0,
    16667, 33333 and 40000. *)
Theorem timestamp_repair :
  (forall (num : Type) (N : JsNumber num) (ty : UnitType) (nals : list (bytes * bytes))
          (timestamp duration : num) (st : MediaSourceDecoder.t num)
          (config : VideoDecoderConfig),
      MediaSourceDecoder.errored st = false ->
      MediaSourceDecoder.needIdr st = false ->
      MediaSourceDecoder.sourceBuffer st <> None ->
      decoderConfig (MediaSourceDecoder.translator st) = Some config ->
      h264_hasDescription (codecState (MediaSourceDecoder.translator st)) = true ->
      h264_pps (codecState (MediaSourceDecoder.translator st)) = None ->
      nals <> [] -> wellDelimited h264IsPayload nals -> length nals <= 284 ->
      (0 <= MediaSourceDecoder.sequenceNumber st + 1 < 4294967296)%Z ->
      let shifted := sub timestamp (MediaSourceDecoder.timestampMicrosecondsShift st) in
      let last := MediaSourceDecoder.lastTimestampMicroseconds st in
      let repairedTimestamp :=
        if leb shifted last
        then add last (MediaSourceDecoder.expectedDurationMicroseconds st)
        else shifted in
      (0 <= toQ repairedTimestamp)%Q ->
      (Qfloor (toQ repairedTimestamp) < 18446744073709551616)%Z ->
      exists st' segment,
        MediaSourceDecoder.submitDecodeUnit
          {| type := ty; data := annexB nals;
             timestampMicroseconds := timestamp; durationMicroseconds := duration |} st
        = Ok st'
        /\ emitted st' = emitted st ++ [segment]
        /\ segmentBaseDecodeTime segment = Qfloor (toQ repairedTimestamp)
        /\ MediaSourceDecoder.lastTimestampMicroseconds st' = repairedTimestamp)
  /\ (forall (sps pps idr sc1 sc2 sc3 : bytes) (duration : float)
             (u1 u2 u3 : VideoDecodeUnit float)
             (st : MediaSourceDecoder.t float) (config : VideoDecoderConfig)
             (width height : Z),
        MediaSourceDecoder.errored st = false ->
        decoderConfig (MediaSourceDecoder.translator st) = Some config ->
        isStartCode sc1 -> isStartCode sc2 -> isStartCode sc3 ->
        isNal sps = true -> isNal pps = true -> isNal idr = true ->
        h264NalType (nth 0 sps 0%Z) = 7%Z -> 4 <= length sps ->
        h264NalType (nth 0 pps 0%Z) = 8%Z ->
        h264NalType (nth 0 idr 0%Z) = 5%Z ->
        length sps + length pps <= 1365 ->
        isPayloadUnit u1 -> isPayloadUnit u2 -> isPayloadUnit u3 ->
        timestampMicroseconds u1 = ofZ 16667 ->
        timestampMicroseconds u2 = ofZ 16666 ->
        timestampMicroseconds u3 = ofZ 40000 ->
        exists st0 st' idrSegment segments,
          MediaSourceDecoder.submitDecodeUnit
            {| type := key; data := sc1 ++ sps ++ sc2 ++ pps ++ sc3 ++ idr;
               timestampMicroseconds := ofZ 0; durationMicroseconds := duration |}
            (MediaSourceDecoder.setup width height (ofZ 60) st)
          = Ok st0
          /\ emitted st0
             = MediaSourceDecoder.buffers st
               ++ [encodeAll (initSegmentBoxes 1000000 1 width height
                                (avccRecord sps pps ++ [0%Z]));
                   idrSegment]
          /\ submitAll [u1; u2; u3] st0 = Ok st'
          /\ emitted st' = emitted st0 ++ segments
          /\ map segmentBaseDecodeTime (idrSegment :: segments)
             = [0; 16667; 33333; 40000]%Z).
Proof.
  split.
  - intros num N ty nals timestamp duration st config He Hidr Hsb Hcfg Hlatch Hpps
      Hne Hw Hcount Hseq shifted last repairedTimestamp H0 Hmax.
    destruct (delta_step_full num N ty nals timestamp duration st config He Hidr Hsb Hcfg
                Hlatch Hpps Hne Hw Hcount Hseq)
      as (st' & segment & E & Hem & _ & _ & Ht & _ & Hl & _).
    exists st', segment. split; [exact E|]. split; [exact Hem|].
    split; [exact (Ht H0 Hmax) | exact Hl].
  - intros sps pps idr sc1 sc2 sc3 duration u1 u2 u3 st config width height He Hcfg
      Hsc1 Hsc2 Hsc3 Hsps Hpps Hidr Ht7 Hlen Ht8 Ht5 Hsize Hu1 Hu2 Hu3 T1 T2 T3.
    destruct (configured_run float FloatNumber sps pps idr sc1 sc2 sc3 (ofZ 0) duration
                [u1; u2; u3] (MediaSourceDecoder.setup width height (ofZ 60) st) config
                width height He eq_refl Hcfg Hsc1 Hsc2 Hsc3 Hsps Hpps Hidr Ht7 Hlen Ht8 Ht5
                Hsize)
      as (st0 & st' & idrSegment & segments & E0 & Hem0 & E & Hem & _ & Ht).
    + repeat (apply Forall_cons; [assumption|]). apply Forall_nil.
    + simpl. lia.
    + cbn [map repairedTimes MediaSourceDecoder.setup
           MediaSourceDecoder.expectedDurationMicroseconds].
      rewrite T1, T2, T3.
      repeat (apply Forall_cons; [split; vm_compute; [discriminate | reflexivity]|]).
      apply Forall_nil.
    + exists st0, st', idrSegment, segments.
      split; [exact E0|]. split; [exact Hem0|]. split; [exact E|]. split; [exact Hem|].
      rewrite Ht.
      cbn [map repairedTimes MediaSourceDecoder.setup
           MediaSourceDecoder.expectedDurationMicroseconds].
      rewrite T1, T2, T3. vm_compute. reflexivity.
Qed.

Lemma timestamp_repair_witness :
  exists st0 st' idrSegment segments,
    MediaSourceDecoder.submitDecodeUnit
      {| type := key;
         data := [0; 0; 0; 1] ++ [103; 66; 224; 30; 141] ++ [0; 0; 1] ++ [104; 206; 60; 128]
                 ++ [0; 0; 0; 1] ++ [101; 136; 132];
         timestampMicroseconds := float_ofZ 0; durationMicroseconds := float_ofZ 0 |}%Z
      (MediaSourceDecoder.setup 1280 720 (float_ofZ 60) MediaSourceDecoder.create)
    = Ok st0
    /\ submitAll
         [{| type := delta; data := annexB [([0; 0; 0; 1]%Z, [65; 154]%Z)];
             timestampMicroseconds := float_ofZ 16667; durationMicroseconds := ofZ 0 |};
          {| type := delta; data := annexB [([0; 0; 0; 1]%Z, [65; 154]%Z)];
             timestampMicroseconds := float_ofZ 16666; durationMicroseconds := ofZ 0 |};
          {| type := delta; data := annexB [([0; 0; 0; 1]%Z, [65; 154]%Z)];
             timestampMicroseconds := float_ofZ 40000; durationMicroseconds := ofZ 0 |}]
         st0
       = Ok st'
    /\ emitted st' = emitted st0 ++ segments
    /\ map segmentBaseDecodeTime (idrSegment :: segments) = [0; 16667; 33333; 40000]%Z.
Proof.
  destruct (proj2 timestamp_repair
              [103; 66; 224; 30; 141]%Z [104; 206; 60; 128]%Z [101; 136; 132]%Z
              [0; 0; 0; 1]%Z [0; 0; 1]%Z [0; 0; 0; 1]%Z (float_ofZ 0)
              {| type := delta; data := annexB [([0; 0; 0; 1]%Z, [65; 154]%Z)];
                 timestampMicroseconds := float_ofZ 16667; durationMicroseconds := ofZ 0 |}
              {| type := delta; data := annexB [([0; 0; 0; 1]%Z, [65; 154]%Z)];
                 timestampMicroseconds := float_ofZ 16666; durationMicroseconds := ofZ 0 |}
              {| type := delta; data := annexB [([0; 0; 0; 1]%Z, [65; 154]%Z)];
                 timestampMicroseconds := float_ofZ 40000; durationMicroseconds := ofZ 0 |}
              MediaSourceDecoder.create
              {| codec := "undefined"; description := None |} 1280%Z 720%Z
              ltac:(reflexivity) ltac:(reflexivity)
              ltac:(right; reflexivity) ltac:(left; reflexivity) ltac:(right; reflexivity)
              ltac:(reflexivity) ltac:(reflexivity) ltac:(reflexivity)
              ltac:(reflexivity) ltac:(simpl; lia) ltac:(reflexivity)
              ltac:(reflexivity) ltac:(simpl; lia)
              ltac:(apply examplePayloadUnit) ltac:(apply examplePayloadUnit)
              ltac:(apply examplePayloadUnit)
              ltac:(reflexivity) ltac:(reflexivity) ltac:(reflexivity))
    as (st0 & st' & idrSegment & segments & E0 & _ & E & Hem & Ht).
  exists st0, st', idrSegment, segments.
  split; [exact E0|]. split; [exact E|]. split; [exact Hem | exact Ht].
Defined.

(** The fourth frame of that run: its timestamp 40000 exceeds the last
    repaired timestamp, 33333.67, so it is kept, and the decode time is
    40000, not 40000 + 16666. *)
Lemma fourth_frame_keeps_its_timestamp :
  match
    submitAll
      [{| type := key;
          data := [0; 0; 0; 1; 103; 66; 224; 30; 141; 0; 0; 1; 104; 206; 60; 128;
                   0; 0; 0; 1; 101; 136; 132]%Z;
          timestampMicroseconds := 0%float; durationMicroseconds := 0%float |};
       {| type := delta; data := [0; 0; 0; 1; 65; 154]%Z;
          timestampMicroseconds := 16667%float; durationMicroseconds := 0%float |};
       {| type := delta; data := [0; 0; 0; 1; 65; 154]%Z;
          timestampMicroseconds := 16666%float; durationMicroseconds := 0%float |};
       {| type := delta; data := [0; 0; 0; 1; 65; 154]%Z;
          timestampMicroseconds := 40000%float; durationMicroseconds := 0%float |}]
      (MediaSourceDecoder.setup 1280 720 60%float MediaSourceDecoder.create)
  with
  | Ok st' =>
      map segmentBaseDecodeTime (tl (emitted st')) = [0; 16667; 33333; 40000]%Z
      /\ map segmentBaseDecodeTime (tl (emitted st'))
         <> [0; 16667; 16667 + 16666; 40000 + 16666]%Z
  | Throw _ => False
  end.
Proof.
  vm_compute. split; [reflexivity | discriminate].
Qed.

(** ** video_decoder_pipe.ts *)

Section DecoderPipe.

Import VideoDecoderPipe.

Context {num : Type} {N : JsNumber num}.

Lemma decodeUnit_plain (unit : VideoDecodeUnit num) (st : VideoDecoderPipe.t num) :
  translator st = None ->
  needsKeyFrame st = false ->
  exists st',
    decodeUnit unit st = Ok st'
    /\ decoder st' = decoder st ++ [decodeCall unit]
    /\ translator st' = None /\ needsKeyFrame st' = false
    /\ errored st' = errored st /\ decoderSetupFinished st' = decoderSetupFinished st
    /\ bufferedUnits st' = bufferedUnits st /\ requestedIdr st' = false.
Proof.
  intros Htr Hk. unfold decodeUnit. rewrite Htr, Hk, andb_false_r.
  eexists. split; [reflexivity|]. repeat split; assumption.
Qed.

Lemma throughGate_cons (k : bool) (unit : VideoDecodeUnit num)
    (rest : list (VideoDecodeUnit num)) :
  throughGate k (unit :: rest)
  = throughGate k [unit] ++ throughGate (k && negb (isKey (type unit))) rest.
Proof.
  unfold throughGate. destruct k; [|reflexivity]. cbn [fromFirstKey andb].
  now destruct (isKey (type unit)).
Qed.

Lemma throughGate_app (l r : list (VideoDecodeUnit num)) :
  forall k : bool,
    throughGate k (l ++ r) = throughGate k l ++ throughGate (k && noKeyUnit l) r.
Proof.
  induction l as [|unit l IH]; intros k.
  - cbn [app noKeyUnit forallb]. rewrite andb_true_r.
    unfold throughGate at 2. destruct k; reflexivity.
  - cbn [app]. rewrite throughGate_cons, IH, (throughGate_cons k unit l), <- app_assoc.
    unfold noKeyUnit. cbn [forallb]. now rewrite (andb_assoc k).
Qed.

(** One unit at the gate of the path without a translator. *)
Lemma decodeUnit_gate (unit : VideoDecodeUnit num) (st : VideoDecoderPipe.t num) :
  translator st = None ->
  exists st',
    decodeUnit unit st = Ok st'
    /\ decoder st' = decoder st ++ map decodeCall (throughGate (needsKeyFrame st) [unit])
    /\ needsKeyFrame st' = needsKeyFrame st && negb (isKey (type unit))
    /\ translator st' = None
    /\ errored st' = errored st /\ decoderSetupFinished st' = decoderSetupFinished st
    /\ bufferedUnits st' = bufferedUnits st.
Proof.
  intros Htr. unfold decodeUnit, throughGate. rewrite Htr. cbn [fromFirstKey].
  destruct (isKey (type unit)), (needsKeyFrame st) eqn:Hk; cbn [negb andb map];
    eexists; (split; [reflexivity|]);
    cbn [with_decoder with_requestedIdr with_needsKeyFrame decoder needsKeyFrame
         translator errored decoderSetupFinished bufferedUnits];
    rewrite ?app_nil_r; repeat split; assumption.
Qed.

Lemma drain_gate (units : list (VideoDecodeUnit num)) :
  forall st : VideoDecoderPipe.t num,
    translator st = None ->
    errored st = false ->
    exists st',
      drain units st = Ok st'
      /\ decoder st' = decoder st ++ map decodeCall (throughGate (needsKeyFrame st) units)
      /\ needsKeyFrame st' = needsKeyFrame st && noKeyUnit units
      /\ translator st' = None
      /\ errored st' = false /\ decoderSetupFinished st' = decoderSetupFinished st
      /\ bufferedUnits st' = bufferedUnits st.
Proof.
  induction units as [|unit units IH]; intros st Htr He.
  - exists st. cbn [drain noKeyUnit forallb]. unfold throughGate.
    destruct (needsKeyFrame st); cbn [fromFirstKey map andb]; rewrite app_nil_r;
      repeat split; auto.
  - cbn [drain]. rewrite He.
    destruct (decodeUnit_gate unit st Htr) as (st1 & E1 & Hd1 & Hk1 & Ht1 & He1 & Hf1 & Hb1).
    rewrite E1. cbn [bind].
    destruct (IH st1 Ht1 ltac:(congruence)) as (st' & E & Hd & Hk & Ht & He' & Hf & Hb).
    exists st'. split; [exact E|].
    rewrite throughGate_cons, map_app, Hd, Hd1, Hk, Hk1, <- app_assoc.
    unfold noKeyUnit. cbn [forallb]. rewrite (andb_assoc (needsKeyFrame st)).
    repeat split; congruence.
Qed.

(** Units submitted before the setup has finished are kept, in order,
    and nothing reaches the decoder.  The first unit submitted after the
    setup sends the kept units and then itself through the key-frame
    gate, in the order they came: on the path without a translator, and
    with [needsKeyFrame] set as the setup leaves it, the units before the
    first key unit are discarded and every unit from the first key unit
    on is decoded; the queue is empty afterwards, and a key frame is
    still needed exactly when none of the units was one. *)
Theorem buffered_units_replayed (unit : VideoDecodeUnit num) (st : VideoDecoderPipe.t num) :
  errored st = false ->
  (decoderSetupFinished st = false ->
   exists st',
     submitDecodeUnit unit st = Ok st'
     /\ bufferedUnits st' = bufferedUnits st ++ [unit]
     /\ decoder st' = decoder st)
  /\ (decoderSetupFinished st = true ->
      translator st = None ->
      exists st',
        submitDecodeUnit unit st = Ok st'
        /\ decoder st'
           = decoder st
             ++ map decodeCall (throughGate (needsKeyFrame st) (bufferedUnits st ++ [unit]))
        /\ bufferedUnits st' = []
        /\ needsKeyFrame st' = needsKeyFrame st && noKeyUnit (bufferedUnits st ++ [unit])).
Proof.
  intros He. split.
  - intros Hf. unfold submitDecodeUnit. rewrite He, Hf. cbn [negb].
    eexists. split; [reflexivity|]. split; reflexivity.
  - intros Hf Htr. unfold submitDecodeUnit. rewrite He, Hf. cbn [negb].
    destruct (drain_gate (bufferedUnits st) (with_bufferedUnits st []) Htr He)
      as (st1 & E1 & Hd1 & Hk1 & Ht1 & He1 & _ & Hb1).
    rewrite E1. cbn [bind].
    destruct (decodeUnit_gate unit st1 Ht1) as (st' & E & Hd & Hk & _ & _ & _ & Hb).
    exists st'. split; [exact E|].
    cbn [with_bufferedUnits decoder needsKeyFrame bufferedUnits] in Hd1, Hk1, Hb1.
    rewrite throughGate_app, map_app, Hd, Hd1, Hk, Hk1, Hb, Hb1, <- app_assoc.
    unfold noKeyUnit. rewrite forallb_app. cbn [forallb]. rewrite andb_true_r.
    repeat split. symmetry. apply andb_assoc.
Qed.

(** Without a translator the pipe waits for a key frame: while
    [needsKeyFrame] is set every delta unit is discarded, the first key
    unit is decoded and clears the flag together with [requestedIdr],
    and every unit after it is decoded in order. *)
Theorem key_frame_gating (deltas rest : list (VideoDecodeUnit num))
    (keyUnit : VideoDecodeUnit num) (st : VideoDecoderPipe.t num) :
  errored st = false ->
  decoderSetupFinished st = true ->
  translator st = None ->
  bufferedUnits st = [] ->
  needsKeyFrame st = true ->
  Forall (fun unit => type unit = delta) deltas ->
  type keyUnit = key ->
  pipeSubmitAll deltas st = Ok st
  /\ exists st',
       pipeSubmitAll (deltas ++ keyUnit :: rest) st = Ok st'
       /\ decoder st' = decoder st ++ map decodeCall (keyUnit :: rest)
       /\ needsKeyFrame st' = false
       /\ requestedIdr st' = false.
Proof.
  intros He Hf Htr Hb Hk Hall Hkey.
  assert (Hdrop : forall unit, type unit = delta -> submitDecodeUnit unit st = Ok st).
  { intros unit Hty. unfold submitDecodeUnit. rewrite He, Hf, Hb. cbn [negb drain bind].
    unfold decodeUnit. cbn [with_bufferedUnits translator needsKeyFrame].
    rewrite Htr, Hk, Hty. cbn [isKey negb andb]. f_equal.
    destruct st; cbn in *; now subst. }
  assert (Hdeltas : forall tail, pipeSubmitAll (deltas ++ tail) st = pipeSubmitAll tail st).
  { intros tail. induction Hall as [|unit l Hty _ IH]; [reflexivity|].
    cbn [app pipeSubmitAll]. rewrite (Hdrop unit Hty). cbn [bind]. exact IH. }
  split.
  - rewrite <- (app_nil_r deltas). now rewrite Hdeltas.
  - rewrite Hdeltas. cbn [pipeSubmitAll].
    assert (Ekey : exists st1,
              submitDecodeUnit keyUnit st = Ok st1
              /\ decoder st1 = decoder st ++ [decodeCall keyUnit]
              /\ translator st1 = None /\ needsKeyFrame st1 = false
              /\ errored st1 = false /\ decoderSetupFinished st1 = true
              /\ bufferedUnits st1 = [] /\ requestedIdr st1 = false).
    { unfold submitDecodeUnit. rewrite He, Hf, Hb. cbn [negb drain bind].
      unfold decodeUnit. cbn [with_bufferedUnits translator needsKeyFrame].
      rewrite Htr, Hkey. cbn [isKey negb andb].
      eexists. split; [reflexivity|]. unfold decodeCall. rewrite Hkey.
      cbn [with_decoder with_requestedIdr with_needsKeyFrame with_bufferedUnits decoder
           translator needsKeyFrame errored decoderSetupFinished bufferedUnits
           requestedIdr].
      repeat split; assumption. }
    destruct Ekey as (st1 & E1 & Hd1 & Ht1 & Hk1 & He1 & Hf1 & Hb1 & Hr1).
    rewrite E1. cbn [bind].
    assert (Hrest : forall l (s : VideoDecoderPipe.t num),
              translator s = None -> needsKeyFrame s = false -> errored s = false ->
              decoderSetupFinished s = true -> bufferedUnits s = [] ->
              requestedIdr s = false ->
              exists s',
                pipeSubmitAll l s = Ok s'
                /\ decoder s' = decoder s ++ map decodeCall l
                /\ needsKeyFrame s' = false /\ requestedIdr s' = false).
    { induction l as [|u l IH]; intros s Hts Hks Hes Hfs Hbs Hrs.
      - exists s. cbn [pipeSubmitAll map]. rewrite app_nil_r. auto.
      - cbn [pipeSubmitAll]. unfold submitDecodeUnit at 1.
        rewrite Hes, Hfs, Hbs. cbn [negb drain bind].
        destruct (decodeUnit_plain u (with_bufferedUnits s []) Hts Hks)
          as (s1 & E & Hd & Ht & Hk' & He' & Hf' & Hb' & Hr').
        rewrite E. cbn [bind].
        destruct (IH s1 Ht Hk' ltac:(rewrite He'; exact Hes) ltac:(rewrite Hf'; exact Hfs)
                    ltac:(rewrite Hb'; reflexivity) Hr')
          as (s' & E' & Hd' & Hk'' & Hr'').
        exists s'. split; [exact E'|]. cbn [map].
        rewrite Hd', Hd, <- app_assoc. auto. }
    destruct (Hrest rest st1 Ht1 Hk1 He1 Hf1 Hb1 Hr1) as (st' & E & Hd & Hk' & Hr').
    exists st'. split; [exact E|]. cbn [map].
    rewrite Hd, Hd1, <- app_assoc. auto.
Qed.

End DecoderPipe.

Lemma buffered_units_replayed_witness :
  exists st',
    VideoDecoderPipe.submitDecodeUnit (exampleUnit delta [6%Z] 3)
      (VideoDecoderPipe.with_bufferedUnits examplePipe
         [exampleUnit delta [4%Z] 0; exampleUnit key [5%Z] 1; exampleUnit delta [7%Z] 2])
    = Ok st'
    /\ VideoDecoderPipe.decoder st'
       = VideoDecoderPipe.decoder examplePipe
         ++ [decodeCall (exampleUnit key [5%Z] 1); decodeCall (exampleUnit delta [7%Z] 2);
             decodeCall (exampleUnit delta [6%Z] 3)]
    /\ VideoDecoderPipe.bufferedUnits st' = []
    /\ VideoDecoderPipe.needsKeyFrame st' = false.
Proof.
  destruct (buffered_units_replayed (exampleUnit delta [6%Z] 3)
              (VideoDecoderPipe.with_bufferedUnits examplePipe
                 [exampleUnit delta [4%Z] 0; exampleUnit key [5%Z] 1;
                  exampleUnit delta [7%Z] 2])
              ltac:(reflexivity))
    as (_ & H).
  destruct (H ltac:(reflexivity) ltac:(reflexivity)) as (st' & E & Hd & Hb & Hk).
  exists st'. split; [exact E|]. split; [exact Hd|]. split; [exact Hb | exact Hk].
Defined.

Lemma key_frame_gating_witness :
  exists st',
    pipeSubmitAll
      [exampleUnit delta [1%Z] 0; exampleUnit delta [2%Z] 1;
       exampleUnit key [3%Z] 2; exampleUnit delta [4%Z] 3] examplePipe
    = Ok st'
    /\ VideoDecoderPipe.decoder st'
       = VideoDecoderPipe.decoder examplePipe
         ++ [decodeCall (exampleUnit key [3%Z] 2); decodeCall (exampleUnit delta [4%Z] 3)].
Proof.
  destruct (key_frame_gating
              [exampleUnit delta [1%Z] 0; exampleUnit delta [2%Z] 1]
              [exampleUnit delta [4%Z] 3] (exampleUnit key [3%Z] 2) examplePipe
              ltac:(reflexivity) ltac:(reflexivity) ltac:(reflexivity) ltac:(reflexivity)
              ltac:(reflexivity)
              ltac:(apply Forall_cons; [reflexivity|];
                    apply Forall_cons; [reflexivity | apply Forall_nil])
              ltac:(reflexivity))
    as (_ & st' & E & Hd & _).
  exists st'. split; [exact E | exact Hd].
Defined.

Lemma setBaseConfig_same {T : Type} (c : VideoDecoderConfig) (s : State T) :
  decoderConfig s = Some c -> setBaseConfig c s = s.
Proof. intros Hc. destruct s. cbn in Hc. subst. reflexivity. Qed.

(** What [reset] does to a pipe with a translator: the decoder is not
    touched, and a translator that shares the configuration object is
    handed the object it has. *)
Lemma reset_with_translator {num : Type} {N : JsNumber num} (st : VideoDecoderPipe.t num)
    (tr : VideoDecoderPipe.AnyTranslator) :
  VideoDecoderPipe.translator st = Some tr ->
  VideoDecoderPipe.decoder (VideoDecoderPipe.reset st) = VideoDecoderPipe.decoder st
  /\ VideoDecoderPipe.needsKeyFrame (VideoDecoderPipe.reset st)
     = VideoDecoderPipe.needsKeyFrame st
  /\ VideoDecoderPipe.requestedIdr (VideoDecoderPipe.reset st)
     = VideoDecoderPipe.requestedIdr st
  /\ VideoDecoderPipe.config (VideoDecoderPipe.reset st) = VideoDecoderPipe.config st
  /\ (VideoDecoderPipe.translatorSharesConfig st = true ->
      VideoDecoderPipe.config st = VideoDecoderPipe.translatorConfig tr ->
      VideoDecoderPipe.reset st = st).
Proof.
  intros Htr. unfold VideoDecoderPipe.reset. rewrite Htr.
  destruct (VideoDecoderPipe.config st) as [c|] eqn:Ec; [|repeat split; exact Ec].
  cbn [VideoDecoderPipe.with_baseConfig VideoDecoderPipe.decoder
       VideoDecoderPipe.needsKeyFrame VideoDecoderPipe.requestedIdr VideoDecoderPipe.config].
  repeat split; [exact Ec|]. intros Hshare Hcfg. unfold VideoDecoderPipe.with_baseConfig.
  destruct tr as [s|s]; cbn [VideoDecoderPipe.translatorConfig] in Hcfg;
    rewrite (setBaseConfig_same c s) by (now symmetry);
    destruct st; cbn in *; subst; reflexivity.
Qed.

(** [pollRequestIdr], in whatever arithmetic the pipe computes.  The pipe
    asks for an IDR of its own exactly when the delay it estimates,
    [decodeQueueSize * 1000 / fps], exceeds 200, the queue holds more
    than two units and no request is pending; the answer is that or the
    base renderer's, and a true answer sets [requestedIdr].  Only a pipe
    without a translator touches the decoder: it resets and reconfigures
    it and waits for a key frame again.  With a translator the decoder is
    left as it is, backlog included, and a translator that shares the
    configuration object of the pipe keeps the codec string and the
    description it has written. *)
Theorem pollRequestIdr_backlog (num : Type) (N : JsNumber num) (queue : Z)
    (base : option bool) (st : VideoDecoderPipe.t num) :
  let estimatedQueueDelayMs := div (mul (ofZ queue) (ofZ 1000)) (VideoDecoderPipe.fps st) in
  let own :=
    ltb (ofZ 200) estimatedQueueDelayMs && (2 <? queue)%Z
    && negb (VideoDecoderPipe.requestedIdr st) in
  let request := fst (VideoDecoderPipe.pollRequestIdr queue base st) in
  let st' := snd (VideoDecoderPipe.pollRequestIdr queue base st) in
  request = (own || match base with Some true => true | _ => false end)
  /\ VideoDecoderPipe.requestedIdr st' = (VideoDecoderPipe.requestedIdr st || request)
  /\ (forall tr, VideoDecoderPipe.translator st = Some tr ->
      VideoDecoderPipe.decoder st' = VideoDecoderPipe.decoder st
      /\ VideoDecoderPipe.needsKeyFrame st' = VideoDecoderPipe.needsKeyFrame st
      /\ VideoDecoderPipe.config st' = VideoDecoderPipe.config st
      /\ (VideoDecoderPipe.translatorSharesConfig st = true ->
          VideoDecoderPipe.config st = VideoDecoderPipe.translatorConfig tr ->
          VideoDecoderPipe.translator st' = Some tr))
  /\ (VideoDecoderPipe.translator st = None ->
      VideoDecoderPipe.decoder st'
      = VideoDecoderPipe.decoder st
        ++ (if own
            then VideoDecoderPipe.CallReset
                 :: match VideoDecoderPipe.config st with
                    | Some c => [VideoDecoderPipe.CallConfigure c]
                    | None => []
                    end
            else [])
      /\ VideoDecoderPipe.needsKeyFrame st' = (VideoDecoderPipe.needsKeyFrame st || own)).
Proof.
  intros estimatedQueueDelayMs own request st'. subst request st'.
  unfold VideoDecoderPipe.pollRequestIdr. fold estimatedQueueDelayMs. fold own.
  destruct own; cbn [fst snd].
  - split; [now destruct base as [[|]|]|].
    assert (Hreq : match base with Some true => true | _ => true end = true)
      by now destruct base as [[|]|].
    rewrite Hreq. cbn [VideoDecoderPipe.with_requestedIdr VideoDecoderPipe.requestedIdr
                       VideoDecoderPipe.decoder VideoDecoderPipe.needsKeyFrame
                       VideoDecoderPipe.config VideoDecoderPipe.translator].
    split; [now rewrite orb_true_r|]. split.
    + intros tr Htr.
      destruct (reset_with_translator st tr Htr) as (Hd & Hk & _ & Hc & Hsame).
      repeat split; try assumption.
      intros Hshare Hcfg. now rewrite (Hsame Hshare Hcfg).
    + intros Htr. unfold VideoDecoderPipe.reset. rewrite Htr.
      cbn [VideoDecoderPipe.with_needsKeyFrame VideoDecoderPipe.with_decoder
           VideoDecoderPipe.config].
      destruct (VideoDecoderPipe.config st);
        cbn [VideoDecoderPipe.with_decoder VideoDecoderPipe.with_requestedIdr
             VideoDecoderPipe.with_needsKeyFrame VideoDecoderPipe.decoder
             VideoDecoderPipe.needsKeyFrame];
        rewrite ?orb_true_r, <- ?app_assoc; split; reflexivity.
  - cbn [orb].
    split; [reflexivity|].
    destruct base as [[|]|];
      cbn [VideoDecoderPipe.with_requestedIdr VideoDecoderPipe.requestedIdr
           VideoDecoderPipe.decoder VideoDecoderPipe.needsKeyFrame VideoDecoderPipe.config
           VideoDecoderPipe.translator];
      rewrite ?orb_true_r, ?orb_false_r, ?app_nil_r; repeat split; auto.
Qed.

Lemma pollRequestIdr_backlog_witness :
  fst (VideoDecoderPipe.pollRequestIdr 20 None examplePipe64) = true
  /\ fst (VideoDecoderPipe.pollRequestIdr 12 None examplePipe64) = false
  /\ VideoDecoderPipe.decoder (snd (VideoDecoderPipe.pollRequestIdr 20 None examplePipe64))
     = VideoDecoderPipe.decoder examplePipe64
       ++ [VideoDecoderPipe.CallReset;
           VideoDecoderPipe.CallConfigure {| codec := "avc3.42E01E"; description := None |}]
  /\ fst (VideoDecoderPipe.pollRequestIdr 20 None exampleTranslatorPipe64) = true
  /\ VideoDecoderPipe.decoder
       (snd (VideoDecoderPipe.pollRequestIdr 20 None exampleTranslatorPipe64)) = []
  /\ VideoDecoderPipe.translator
       (snd (VideoDecoderPipe.pollRequestIdr 20 None exampleTranslatorPipe64))
     = VideoDecoderPipe.translator exampleTranslatorPipe64.
Proof.
  destruct (pollRequestIdr_backlog float FloatNumber 20 None examplePipe64)
    as (H20 & _ & _ & Hplain).
  destruct (pollRequestIdr_backlog float FloatNumber 12 None examplePipe64) as (H12 & _).
  destruct (pollRequestIdr_backlog float FloatNumber 20 None exampleTranslatorPipe64)
    as (T20 & _ & Htr & _).
  destruct (Hplain eq_refl) as (Hd & _).
  destruct (Htr _ eq_refl) as (Td & _ & _ & Tsame).
  split; [rewrite H20; vm_compute; reflexivity|].
  split; [rewrite H12; vm_compute; reflexivity|].
  split; [rewrite Hd; vm_compute; reflexivity|].
  split; [rewrite T20; vm_compute; reflexivity|].
  split; [rewrite Td; reflexivity|].
  exact (Tsame eq_refl eq_refl).
Defined.

(** The key unit that carries the parameter sets, on the path with the
    H.264 translator. *)
Lemma translator_key_unit_step (num : Type) (N : JsNumber num)
    (sps pps nal sc1 sc2 sc3 : bytes) (timestamp duration : num)
    (st : VideoDecoderPipe.t num) (tr : State H264) (config : VideoDecoderConfig) :
  VideoDecoderPipe.errored st = false ->
  VideoDecoderPipe.decoderSetupFinished st = true ->
  VideoDecoderPipe.bufferedUnits st = [] ->
  VideoDecoderPipe.translator st = Some (VideoDecoderPipe.OfH264 tr) ->
  decoderConfig tr = Some config ->
  isStartCode sc1 -> isStartCode sc2 -> isStartCode sc3 ->
  isNal sps = true -> isNal pps = true -> isNal nal = true ->
  h264NalType (nth 0 sps 0%Z) = 7%Z -> 4 <= length sps ->
  h264NalType (nth 0 pps 0%Z) = 8%Z ->
  h264IsPayload nal = true ->
  exists st',
    VideoDecoderPipe.submitDecodeUnit
      {| type := key; data := sc1 ++ sps ++ sc2 ++ pps ++ sc3 ++ nal;
         timestampMicroseconds := timestamp; durationMicroseconds := duration |} st
    = Ok st'
    /\ VideoDecoderPipe.decoder st'
       = VideoDecoderPipe.decoder st
         ++ [VideoDecoderPipe.CallReset;
             VideoDecoderPipe.CallConfigure
               {| codec := spsCodecTag sps;
                  description := Some (avccRecord sps pps ++ [0%Z]) |};
             VideoDecoderPipe.CallDecode key (u32be (Z.of_nat (length nal)) ++ nal)
               timestamp duration]
    /\ VideoDecoderPipe.requestedIdr st' = false
    /\ VideoDecoderPipe.errored st' = false.
Proof.
  intros He Hf Hb Htr Hcfg Hsc1 Hsc2 Hsc3 Hsps Hpps Hnal Ht7 Hlen Ht8 Hpay.
  destruct (h264_key_unit_payload num sps pps nal sc1 sc2 sc3 timestamp duration tr config
              Hsc1 Hsc2 Hsc3 Hsps Hpps Hnal Ht7 Hlen Ht8 Hpay Hcfg)
    as (tr' & E & _).
  unfold VideoDecoderPipe.submitDecodeUnit. rewrite He, Hf, Hb.
  cbn [negb VideoDecoderPipe.drain bind].
  unfold VideoDecoderPipe.decodeUnit.
  cbn [VideoDecoderPipe.with_bufferedUnits VideoDecoderPipe.translator].
  rewrite Htr. unfold VideoDecoderPipe.translate. rewrite E.
  cbn [bind chunk configure type timestampMicroseconds durationMicroseconds].
  eexists. split; [reflexivity|].
  cbn [VideoDecoderPipe.with_decoder VideoDecoderPipe.with_requestedIdr
       VideoDecoderPipe.with_translator VideoDecoderPipe.with_bufferedUnits
       VideoDecoderPipe.decoder VideoDecoderPipe.requestedIdr VideoDecoderPipe.errored].
  rewrite <- app_assoc. repeat split. exact He.
Qed.


(** With the H.264 translator attached, a key unit made of SPS, PPS and
    one more NAL unit makes the pipe reset the decoder, configure it with
    the codec string of the SPS and the AVCC description, and only then
    decode the length-prefixed NAL unit under the unit's own type,
    timestamp and duration; a pending IDR request is cleared. *)
Theorem translator_path_configures_decoder (num : Type) (N : JsNumber num)
    (sps pps nal sc1 sc2 sc3 : bytes) (timestamp duration : num)
    (st : VideoDecoderPipe.t num) (tr : State H264) (config : VideoDecoderConfig) :
  VideoDecoderPipe.errored st = false ->
  VideoDecoderPipe.decoderSetupFinished st = true ->
  VideoDecoderPipe.bufferedUnits st = [] ->
  VideoDecoderPipe.translator st = Some (VideoDecoderPipe.OfH264 tr) ->
  decoderConfig tr = Some config ->
  isStartCode sc1 -> isStartCode sc2 -> isStartCode sc3 ->
  isNal sps = true -> isNal pps = true -> isNal nal = true ->
  h264NalType (nth 0 sps 0%Z) = 7%Z -> 4 <= length sps ->
  h264NalType (nth 0 pps 0%Z) = 8%Z ->
  h264IsPayload nal = true ->
  exists st',
    VideoDecoderPipe.submitDecodeUnit
      {| type := key; data := sc1 ++ sps ++ sc2 ++ pps ++ sc3 ++ nal;
         timestampMicroseconds := timestamp; durationMicroseconds := duration |} st
    = Ok st'
    /\ VideoDecoderPipe.decoder st'
       = VideoDecoderPipe.decoder st
         ++ [VideoDecoderPipe.CallReset;
             VideoDecoderPipe.CallConfigure
               {| codec := spsCodecTag sps;
                  description := Some (avccRecord sps pps ++ [0%Z]) |};
             VideoDecoderPipe.CallDecode key (u32be (Z.of_nat (length nal)) ++ nal)
               timestamp duration]
    /\ VideoDecoderPipe.requestedIdr st' = false
    /\ VideoDecoderPipe.errored st' = false.
Proof.
  intros He Hf Hb Htr Hcfg Hsc1 Hsc2 Hsc3 Hsps Hpps Hnal Ht7 Hlen Ht8 Hpay.
  exact (translator_key_unit_step num N sps pps nal sc1 sc2 sc3 timestamp duration st tr
           config He Hf Hb Htr Hcfg Hsc1 Hsc2 Hsc3 Hsps Hpps Hnal Ht7 Hlen Ht8 Hpay).
Qed.

Lemma translator_path_configures_decoder_witness :
  exists st',
    VideoDecoderPipe.submitDecodeUnit
      {| type := key;
         data := [0; 0; 0; 1; 103; 66; 224; 30; 141; 0; 0; 1; 104; 206; 60; 128;
                  0; 0; 1; 101; 136; 132]%Z;
         timestampMicroseconds := 0%Q; durationMicroseconds := 0%Q |}
      (VideoDecoderPipe.with_translator examplePipe
         (Some (VideoDecoderPipe.OfH264 Translator.create)))
    = Ok st'
    /\ VideoDecoderPipe.requestedIdr st' = false.
Proof.
  destruct (translator_path_configures_decoder Q QNumber
              [103; 66; 224; 30; 141]%Z [104; 206; 60; 128]%Z [101; 136; 132]%Z
              [0; 0; 0; 1]%Z [0; 0; 1]%Z [0; 0; 1]%Z 0%Q 0%Q
              (VideoDecoderPipe.with_translator examplePipe
                 (Some (VideoDecoderPipe.OfH264 Translator.create)))
              Translator.create {| codec := "undefined"; description := None |}
              ltac:(reflexivity) ltac:(reflexivity) ltac:(reflexivity) ltac:(reflexivity)
              ltac:(reflexivity)
              ltac:(right; reflexivity) ltac:(left; reflexivity) ltac:(left; reflexivity)
              ltac:(reflexivity) ltac:(reflexivity) ltac:(reflexivity)
              ltac:(reflexivity) ltac:(simpl; lia) ltac:(reflexivity) ltac:(reflexivity))
    as (st' & E & _ & Hr & _).
  exists st'. split; [exact E | exact Hr].
Defined.

(** ** video_decoder_pipe.ts: the IDR request and its latch *)




(** ** video/pipeline.ts: the pipeline builder *)

Section Builder.

Import Pipeline.

Variable extends : Class -> option Class.
Variable depth : nat.
Variable VideoCodecSupport : Type.
Variable andVideoCodecs : VideoCodecSupport -> VideoCodecSupport -> VideoCodecSupport.
Variable hasAnyCodec : VideoCodecSupport -> bool.
Variable forceH264 : VideoCodecSupport -> VideoCodecSupport.
Variable pipesInfo : PipeStatic -> option (PipeInfo VideoCodecSupport).
Variable rendererInfo : Class -> option (PipeInfo VideoCodecSupport).
Variable VideoRenderer : Type.
Variable buildPipeline : Class -> list PipeStatic -> option VideoRenderer.
Variable newVideoElementRenderer : VideoRenderer.

Local Abbreviation build :=
  (buildVideoPipeline extends depth andVideoCodecs hasAnyCodec forceH264
     pipesInfo rendererInfo buildPipeline newVideoElementRenderer).
Local Abbreviation try :=
  (tryPipeline andVideoCodecs hasAnyCodec pipesInfo rendererInfo buildPipeline).

Lemma constructor_chain_has_no_prototype (n : nat) (c target : Class) :
  inPrototypeChain extends n (Constructor c) (Prototype target) = false.
Proof.
  assert (Hfun : forall m, inPrototypeChain extends m FunctionPrototype (Prototype target)
                           = false).
  { intros [|[|[|m]]]; reflexivity. }
  revert c. induction n as [|n IH]; intros c; [reflexivity|].
  cbn [inPrototypeChain getPrototypeOf].
  destruct (extends c) as [p|]; cbn [JsObject_eqb]; [apply IH | apply Hfun].
Qed.

Lemma pipelineLoop_find (type : Kind) (settings : VideoPipelineOptions VideoCodecSupport)
    (pipelines : list Pipeline) :
  pipelineLoop andVideoCodecs hasAnyCodec pipesInfo rendererInfo buildPipeline
    type settings pipelines
  = match find (fun p => Kind_eqb (input p) type
                         && match try settings p with Some _ => true | None => false end)
               pipelines with
    | Some p => match try settings p with Some r => r | None => BuildError _ _ end
    | None => BuildError _ _
    end.
Proof.
  induction pipelines as [|p rest IH]; [reflexivity|].
  cbn [pipelineLoop find].
  destruct (Kind_eqb (input p) type); cbn [negb andb]; [|exact IH].
  destruct (tryPipeline andVideoCodecs hasAnyCodec pipesInfo rendererInfo buildPipeline
              settings p) eqn:E; [now rewrite E | exact IH].
Qed.

(** Without a forced renderer the builder takes the first chain of the
    table, in table order, whose input is the requested one and which
    passes every check (all pipes and the renderer known and supported
    by the environment, a codec left in the intersection, and
    [buildPipeline] succeeding); it returns the error result exactly when
    no chain does. *)
Theorem automatic_selection_is_first_fit (type : Kind)
    (settings : VideoPipelineOptions VideoCodecSupport) :
  forceVideoElementRenderer settings = false ->
  canvasRenderer settings = false ->
  build type settings
  = match find (fun p => Kind_eqb (input p) type
                         && match try settings p with Some _ => true | None => false end)
               PIPELINES with
    | Some p => match try settings p with Some r => r | None => BuildError _ _ end
    | None => BuildError _ _
    end.
Proof.
  intros Hforce Hcanvas. unfold buildVideoPipeline, candidates.
  rewrite Hforce, Hcanvas. apply pipelineLoop_find.
Qed.

(** The table of the forced canvas option is built with [instanceof] on
    the renderer classes themselves, and a class object is never an
    instance of a class: whatever the class hierarchy, the table is
    empty, and with [canvasRenderer] set (and the video element not
    forced) the builder returns the error result in every environment,
    also in those where a canvas chain would be supported. *)
Theorem forced_canvas_table_is_empty (type : Kind)
    (settings : VideoPipelineOptions VideoCodecSupport) :
  FORCE_CANVAS_PIPELINES extends depth = []
  /\ (forceVideoElementRenderer settings = false ->
      canvasRenderer settings = true ->
      build type settings = BuildError _ _).
Proof.
  assert (Hempty : FORCE_CANVAS_PIPELINES extends depth = []).
  { unfold FORCE_CANVAS_PIPELINES, instanceof, PIPELINES. cbn [filter renderer].
    now rewrite !constructor_chain_has_no_prototype. }
  split; [exact Hempty|].
  intros Hforce Hcanvas. unfold buildVideoPipeline, candidates.
  now rewrite Hforce, Hcanvas, Hempty.
Qed.

End Builder.

Lemma automatic_selection_is_first_fit_witness :
  exampleBuild Pipeline.data (exampleSettings true false false)
  = Pipeline.Built
      (Pipeline.VideoElementRenderer,
       [Pipeline.DepacketizeVideoPipe; Pipeline.WorkerVideoDataSendPipe;
        Pipeline.WorkerDataToVideoTrackPipe; Pipeline.WorkerVideoTrackReceivePipe])
      true.
Proof.
  unfold exampleBuild.
  rewrite (automatic_selection_is_first_fit exampleExtends 8 bool andb (fun c => c)
             (fun _ => true) (fun _ => Some exampleSupported)
             (fun _ => Some exampleSupported)
             (Pipeline.Class * list Pipeline.PipeStatic)%type
             (fun renderer pipes => Some (renderer, pipes))
             (Pipeline.VideoElementRenderer, []) Pipeline.data
             (exampleSettings true false false)
             ltac:(reflexivity) ltac:(reflexivity)).
  reflexivity.
Defined.

Lemma forced_canvas_table_is_empty_witness :
  exampleBuild Pipeline.data (exampleSettings true true false) = Pipeline.BuildError _ _
  /\ length Pipeline.canvasPipelines = 6.
Proof.
  split; [|reflexivity].
  exact (proj2 (forced_canvas_table_is_empty exampleExtends 8 bool andb (fun c => c)
                  (fun _ => true) (fun _ => Some exampleSupported)
                  (fun _ => Some exampleSupported)
                  (Pipeline.Class * list Pipeline.PipeStatic)%type
                  (fun renderer pipes => Some (renderer, pipes))
                  (Pipeline.VideoElementRenderer, []) Pipeline.data
                  (exampleSettings true true false))
           ltac:(reflexivity) ltac:(reflexivity)).
Defined.

(** C5.  An environment in which every pipe and every renderer is
    supported, and both canvas renderers extend
    [BaseCanvasVideoRenderer]: the preference table pruned to the chains
    with a canvas renderer holds six chains, and the loop of the builder
    run on it returns the first canvas chain of the requested input.
    With [canvasRenderer] set the builder iterates
    [FORCE_CANVAS_PIPELINES] instead, which is empty, and returns the
    error result for either input. *)
Theorem canvas_renderer_option_finds_no_chain :
  Pipeline.FORCE_CANVAS_PIPELINES exampleExtends 8 = []
  /\ length Pipeline.canvasPipelines = 6
  /\ Pipeline.pipelineLoop andb (fun c => c) (fun _ => Some exampleSupported)
       (fun _ => Some exampleSupported) (fun renderer pipes => Some (renderer, pipes))
       Pipeline.videotrack (exampleSettings true true false) Pipeline.canvasPipelines
     = Pipeline.Built
         (Pipeline.MainCanvasRenderer,
          [Pipeline.VideoMediaStreamTrackProcessorPipe; Pipeline.CanvasFrameDrawPipe])
         true
  /\ exampleBuild Pipeline.videotrack (exampleSettings true true false)
     = Pipeline.BuildError _ _
  /\ exampleBuild Pipeline.data (exampleSettings true true false)
     = Pipeline.BuildError _ _.
Proof. repeat split; reflexivity. Qed.

(** ** media_source_decoder.ts: the argument checks of the box writers *)

(** The box writers never emit a box for arguments they reject.
    [putFullBox] throws before anything is written when the version is
    outside 0..255 or the flags are outside 0..0xFFFFFF; [putBox] with a
    type that is not four characters long throws whatever the body is,
    after the 4-byte placeholder of the size if the buffer has room for
    it. *)
Theorem box_writers_reject_bad_arguments (A : Type) (type : string) (version flags : Z)
    (write : Mp4.W A) (b : ByteBuffer.t) :
  ((version < 0 \/ 255 < version)%Z ->
   Mp4.putFullBox type version flags write b = Throw "FullBox version must be 0-255")
  /\ ((0 <= version <= 255)%Z -> (flags < 0 \/ 16777215 < flags)%Z ->
      Mp4.putFullBox type version flags write b = Throw "FullBox flags must be 0-0xFFFFFF")
  /\ (String.length type <> 4 ->
      Mp4.putBox type write b
      = if position b + 4 <=? length (buffer b)
        then Throw "invalid box type length!"
        else Throw "failed to write over the capacity").
Proof.
  split; [|split].
  - intros Hv. unfold Mp4.putFullBox.
    replace ((version <? 0)%Z || (255 <? version)%Z) with true; [reflexivity|].
    symmetry. apply orb_true_iff. rewrite !Z.ltb_lt. exact Hv.
  - intros Hv Hf. unfold Mp4.putFullBox.
    replace ((version <? 0)%Z || (255 <? version)%Z) with false
      by (symmetry; apply orb_false_iff; rewrite !Z.ltb_ge; lia).
    replace ((flags <? 0)%Z || (16777215 <? flags)%Z) with true; [reflexivity|].
    symmetry. apply orb_true_iff. rewrite !Z.ltb_lt. exact Hf.
  - intros Hty. unfold Mp4.putBox, Mp4.seq, Mp4.getPosition, Mp4.putU32, Mp4.call.
    pose proof (view_write_stores 4 (fun b1 => u32bytes (littleEndian b1) 0) None b
                  (u32bytes (littleEndian b) 0)
                  ltac:(intros b1 Hle; cbn beta; now rewrite Hle)) as Hs.
    unfold stores in Hs. fold (ByteBuffer.putU32 0 None b) in Hs.
    destruct (Nat.leb_spec (position b + 4) (length (buffer b))).
    + destruct Hs as (b' & E & _). rewrite E.
      destruct (Nat.eqb_spec (String.length type) 4); [contradiction|]. reflexivity.
    + now rewrite Hs.
Qed.

Lemma box_writers_reject_bad_arguments_witness :
  Mp4.putBox "moofs" (Mp4.ret tt) (ByteBuffer.create 16 false)
  = Throw "invalid box type length!".
Proof.
  exact (proj2 (proj2 (box_writers_reject_bad_arguments unit "moofs" 0 0 (Mp4.ret tt)
                         (ByteBuffer.create 16 false)))
           ltac:(simpl; lia)).
Defined.
